(** * declarative-wgpu: resource compiler, execution registry, frame drawer

    A shallow embedding of [src/rendering/renderer.js] (class [Renderer]),
    [src/rendering/drawer.js] (class [Drawer]) and
    [src/rendering/gpu-engine.js] (class [GPUEngine]), followed by the
    properties of the specification that were checked against it.

    Conventions of the embedding.
    - A JavaScript number is an exact rational ([Q], always kept in lowest
      terms).  Every quantity the code computes is a quotient of whole
      numbers below 2^53 by a component count (1..4) and a byte width
      (1, 2, 4); on those, IEEE doubles compare equal exactly when the
      rationals do.  A component count may also be zero: where the code
      divides by one, the result is a [JS.Num], which is a rational,
      [Infinity] or [NaN].
    - An [ArrayBuffer] is a [list byte].  A typed array over it is the list
      of its elements, each element kept as the bytes it occupies.  Typed
      arrays read in platform byte order and every WebGPU platform is
      little-endian, so writing an element back through a [DataView] with
      [littleEndian = true] stores those same bytes, except for a NaN of
      a [Float32Array], which comes back quiet ([Renderer.readBack]).
    - A GPU object (buffer, texture, pipeline, ...) is a handle: the number
      the device gave it.  The device is an allocator that never refuses;
      driver faults are reported asynchronously on a side channel by the
      code and are not part of the model.
    - A JavaScript object that is mutated after it is shared (an
      executable, a reference counter, a promise) lives in a store and is
      named by its address. *)

From stdpp Require Import gmap strings list fin_maps pretty.
From Stdlib Require Import QArith Qround.
From Stdlib Require Import Init.Byte.

Local Close Scope Q_scope.
Local Open Scope string_scope.
Local Open Scope list_scope.
Local Open Scope nat_scope.

(** ** JavaScript numbers *)

Module JS.

Definition ofNat (n : nat) : Q := inject_Z (Z.of_nat n).

(** A number that may have come out of a division: a finite number,
    [Infinity] or [NaN].  The numbers divided and multiplied by the code
    are byte lengths, element widths and component counts; none of them is
    negative, so there is neither [-Infinity] nor a negative zero. *)
Inductive Num :=
  | Fin (q : Q)
  | Infinity
  | NaN.

Definition num (n : nat) : Num := Fin (ofNat n).

(** [a / b]: a division by zero gives [NaN] for zero and [Infinity] for
    any other dividend. *)
Definition div (a b : Num) : Num :=
  match a, b with
  | Fin x, Fin y =>
      if Qeq_bool y 0 then (if Qeq_bool x 0 then NaN else Infinity)
      else Fin (Qred (x / y))
  | Fin _, Infinity => Fin 0
  | Infinity, Fin _ => Infinity
  | _, _ => NaN
  end.

(** [a * b]: zero times [Infinity] is [NaN]. *)
Definition mul (a b : Num) : Num :=
  match a, b with
  | Fin x, Fin y => Fin (Qred (x * y))
  | Fin x, Infinity | Infinity, Fin x =>
      if Qeq_bool x 0 then NaN else Infinity
  | Infinity, Infinity => Infinity
  | _, _ => NaN
  end.

(** [a !== b]: [NaN] differs from every number, itself included. *)
Definition neq (a b : Num) : bool :=
  match a, b with
  | Fin x, Fin y => negb (Qeq_bool x y)
  | Infinity, Infinity => false
  | _, _ => true
  end.

(** [a > b] *)
Definition gt (a b : Q) : bool :=
  match (a ?= b)%Q with Gt => true | _ => false end.

(** Number of iterations of [for( let i = 0; i < n; i++ )]. *)
Definition iterations (n : Q) : nat := Z.to_nat (Qceiling n).

(** [ToIndex(n)] of a non-negative number: the integer part. *)
Definition toIndex (n : Q) : nat := Z.to_nat (Qfloor n).

(** [s || d] on an optional string: [undefined], [null] and the empty
    string are falsy. *)
Definition orString (s : option string) (d : string) : string :=
  match s with
  | Some x => if decide (x = "") then d else x
  | None => d
  end.

End JS.

(** ** enums.js *)

(** Modelled from the spec: [src/enums.js] ([Type], [TypeConstructor],
    [TypeFormat], [TypeMap], [DEFAULT_CAMERA_BUFFER_ID]) is not among the
    sources.  The component types are the 8-, 16- and 32-bit integers and
    the 32-bit float that [type.d.ts] lists as vertex-format bases;
    [BYTES_PER_ELEMENT] is that of the typed-array constructor of each
    type and [TypeFormat] is the WebGPU scalar format tag. *)
Inductive Ty := u8 | i8 | u16 | i16 | u32 | i32 | f32.

#[global] Instance Ty_eq_dec : EqDecision Ty.
Proof. solve_decision. Defined.

(** Modelled from the spec: [TypeConstructor[type].BYTES_PER_ELEMENT]. *)
Definition BYTES_PER_ELEMENT (type : Ty) : nat :=
  match type with
  | u8 | i8 => 1
  | u16 | i16 => 2
  | u32 | i32 | f32 => 4
  end.

(** Modelled from the spec: [TypeFormat[type]]. *)
Definition TypeFormat (type : Ty) : string :=
  match type with
  | u8 => "uint8"
  | i8 => "sint8"
  | u16 => "uint16"
  | i16 => "sint16"
  | u32 => "uint32"
  | i32 => "sint32"
  | f32 => "float32"
  end.

(** Modelled from the spec: the camera matrix buffer is the global buffer
    named "camera" (the name the camera classes write to). *)
Definition DEFAULT_CAMERA_BUFFER_ID : string := "camera".

(** ** Errors and outcomes *)

Inductive Error :=
  (** [TypeError: [wgpu]: illegal size ${size} for type ${format}] *)
  | TypeError_illegalSize (size : nat) (format : string)
  (** [RangeError: [wgpu] array size mismatch: ${values}. Actual length of
      this array must be ${expected}]; [values] is an [ArrayBuffer], which
      the template turns into the text [[object ArrayBuffer]] whatever it
      holds, so the message depends on [expected] only *)
  | RangeError_sizeMismatch (expected : JS.Num)
  (** [TypeError]: a buffer size that is [NaN] or infinite, refused by the
      conversion of [createBuffer]'s [size] (an [EnforceRange] integer) *)
  | TypeError_enforceRange (member : string)
  (** [new TypeConstructor[type](buffer)] on a buffer whose byte length is
      not a multiple of the element width *)
  | RangeError_typedArray (type : Ty) (byteLength : nat)
  (** a [DataView] setter past the end of the buffer *)
  | RangeError_dataView (offset : nat)
  (** a property read on [undefined] or [null] *)
  | TypeError_undefined (property : string)
  (** [ReferenceError: [wgpu] id ${id} is already in use] *)
  | ReferenceError_inUse (id : string)
  (** [ReferenceError: [wgpu] no entity with id ${id}] *)
  | ReferenceError_noEntity (id : string)
  (** [ReferenceError: [wgpu] global buffer with id ${id} already exists.] *)
  | ReferenceError_globalExists (id : string)
  (** [ReferenceError: [wgpu] global buffer with id ${id} doesn't exists.] *)
  | ReferenceError_globalMissing (id : string)
  (** [Error: [wgpu] scene ${sceneId} does not exist] *)
  | Error_noScene (sceneId : Z)
  (** [Error: [wgpu] camera ${cameraId} does not exist] *)
  | Error_noCamera (cameraId : Z).

Inductive Outcome (A : Type) :=
  | Ok (a : A)
  | Throw (e : Error).
Arguments Ok {A} a.
Arguments Throw {A} e.

#[global] Instance Outcome_ret : MRet Outcome := λ A a, Ok a.

#[global] Instance Outcome_bind : MBind Outcome := λ A B f o,
  match o with
  | Ok a => f a
  | Throw e => Throw e
  end.


(** ** Program descriptors ([type.d.ts]) *)

(** [VertexTransferable]: one vertex attribute; [values] is an
    [ArrayBuffer]. *)
Record VertexTransferable := {
  v_location : nat;
  v_type : Ty;
  v_size : nat;
  v_values : list byte;
}.

(** The [global] member of a buffer resource. *)
Record GlobalRef := {
  g_id : option string;
  g_isCamera : bool;
  g_byteOffset : nat;
}.

Record BufferSlot := {
  b_type : Ty;
  b_size : nat;
  b_global : option GlobalRef;
}.

Record TextureSlot := {
  t_img : string;
  t_width : Z;
  t_height : Z;
  t_offsetX : option Z;
  t_offsetY : option Z;
  t_format : string;
  t_dimension : option string;
}.

Record SamplerSlot := {
  s_addressModeU : option string;
  s_addressModeV : option string;
  s_addressModeW : option string;
  s_compare : option string;
  s_lodMaxClamp : option nat;
  s_lodMinClamp : option nat;
  s_maxAnisotropy : option nat;
  s_magFilter : option string;
  s_minFilter : option string;
  s_mipmapFilter : option string;
}.

(** The members of the union [Buffer | Texture | Sampler]; the code tells
    them apart by the presence of a [type] or an [img] key. *)
Inductive Resource :=
  | RBuffer (b : BufferSlot)
  | RTexture (t : TextureSlot)
  | RSampler (s : SamplerSlot).

Record GPUBinding := {
  usage : string;
  resource : Resource;
}.

Record GPUCompilableProgram := {
  code : string;
  topology : option string;
  cullMode : option string;
  vertexEntryPoint : option string;
  fragmentEntryPoint : option string;
  groups : list (list GPUBinding);
  vertexDescriptor : list VertexTransferable;
  indices : list Z;
}.

(** ** The GPU device *)

(** [BufferUsage] of [enums.js]. *)
Inductive BufferUsage := vertex | uniform | index.

Inductive Visibility := FRAGMENT | VERTEX.

Inductive LayoutKind := LBuffer | LTexture | LSampler.

Record LayoutEntry := {
  le_binding : nat;
  le_visibility : Visibility;
  le_kind : LayoutKind;
}.

Inductive BoundResource :=
  | BoundBuffer (buffer : option nat) (offset size : nat)
  | BoundTexture (texture : nat)
  | BoundSampler (sampler : nat).

Record BindEntry := {
  be_binding : nat;
  be_resource : BoundResource;
}.

Record GPUVertexAttribute := {
  shaderLocation : nat;
  offset : nat;
  format : string;
}.

Record SamplerDescriptor := {
  addressModeU : string;
  addressModeV : string;
  addressModeW : string;
  compare : option string;
  lodMaxClamp : nat;
  lodMinClamp : nat;
  maxAnisotropy : nat;
  magFilter : string;
  minFilter : string;
  mipmapFilter : string;
}.

Inductive IndexType := uint16 | uint32.

(** What a handle of the device stands for. *)
Inductive GPUObject :=
  | BindGroupLayout (entries : list LayoutEntry)
  | Buffer (usage : BufferUsage) (size : Q) (label : string)
  | Texture (width height : Z) (format dimension : string)
  | Sampler (descriptor : SamplerDescriptor)
  | BindGroup (label : string) (layout : option nat) (entries : list BindEntry)
  | ShaderModule (code : string)
  | PipelineLayout (bindGroupLayouts : list nat)
  | RenderPipeline (layout : nat) (cullMode topology : string)
      (module : nat) (vertexEntryPoint : string) (arrayStride : nat)
      (attributes : list GPUVertexAttribute)
      (fragmentEntryPoint targetFormat : string).

(** Commands recorded into a render pass. *)
Inductive Command :=
  | SetPipeline (pipeline : nat)
  | SetVertexBuffer (slot buffer : nat)
  | SetBindGroup (index bindGroup : nat)
  | SetIndexBuffer (buffer : nat) (type : IndexType)
  | DrawIndexed (count : nat).

(** What the device was asked to do besides creating objects, in order. *)
Inductive DeviceOp :=
  (** [queue.writeBuffer( buffer, offset, data )] *)
  | WriteBuffer (buffer : option nat) (offset : nat) (data : list byte)
  (** [queue.writeBuffer] of a typed array built from a number sequence *)
  | WriteValues (buffer : option nat) (offset : option nat) (type : option Ty)
      (values : list Q)
  (** [new constructor( buffer.getMappedRange() ).set( indices )] then
      [unmap]: the elements stored, each wrapped to the index width *)
  | SetIndices (buffer : nat) (type : IndexType) (stored : list Z)
  (** [queue.copyExternalImageToTexture] of the image decoded from [url] *)
  | CopyImage (url : string) (texture : option nat) (width height : option Z)
  (** [object.destroy()] *)
  | Destroy (handle : nat)
  (** [queue.submit] of the one pass of a frame *)
  | Submit (pass : list Command).

Record Device := {
  nextHandle : nat;
  objects : gmap nat GPUObject;
  ops : list DeviceOp;
  console : list string;
}.

(** ** Executables and the object store *)

Record UniformDescriptor := {
  ud_offset : option nat;
  ud_size : option nat;
  ud_type : option Ty;
  ud_width : option Z;
  ud_height : option Z;
  ud_texture : option nat;
}.

(** [GPUExecutable].  Its [updateBinding] closure captures [uniforms] and
    [uniformBuffer], which are never reassigned, so it is the function
    [Renderer.updateBinding] below applied to the record. *)
Record GPUExecutable := {
  z : option Z;
  indexType : IndexType;
  vertexCount : nat;
  indexBuffer : nat;
  pipeline : nat;
  bindGroups : list nat;
  uniforms : list (list UniformDescriptor);
  uniformBuffer : option nat;
  vertexBuffer : option nat;
}.

(** [GPUShaderRef]: the value of [#idExecMap]. *)
Record GPUShaderRef := {
  sr_executable : nat;
  sr_shaderId : string;
}.

(** [GPUExecutableRefCounter]: the value of [#codeExecMap]. *)
Record GPUExecutableRefCounter := {
  rc_executable : nat;
  rc_count : Z;
}.

(** The promise of a [createProgram] call.  It settles with the address of
    the executable or with the error the compilation raised. *)
Inductive Promise :=
  | Pending
  | Fulfilled (executable : nat)
  | Rejected (e : Error).

Record Store := {
  nextAddress : nat;
  executables : gmap nat GPUExecutable;
  refCounters : gmap nat GPUExecutableRefCounter;
  promises : gmap nat Promise;
}.

(** ** The three classes' fields *)

Record RendererState := {
  globalBuffers : gmap string nat;
  r_z : nat;
  r_format : string;
}.

Record DrawerState := {
  cameras : list (Z * list (Z * list byte));
  entities : list nat;
  sceneId : Z;
  canvas : Z * Z;
  depthTexture : option (nat * (Z * Z));
}.

(** [number[] | string]: the value handed to [updateBinding]. *)
Inductive UpdateValue :=
  | UImage (url : string)
  | UNumbers (values : list Q).

(** A queued call: [{ method, args }]. *)
Inductive Call :=
  | create_ (id : string) (program : GPUCompilableProgram)
  | freeEntity_ (id : string)
  | addToScene_ (id : string)
  | removeFromScene_ (id : string)
  | update_ (id : string) (group binding : nat) (resource : UpdateValue)
      (z : option Z)
  | createGlobalBuffer_ (bufferId : string) (type : option Ty) (size : nat)
  | writeGlobalBuffer_ (bufferId : string) (byteOffset : nat) (type : Ty)
      (values : list byte)
  | createCamera_ (sceneId cameraId : Z) (values : list byte)
  | updateCamera_ (sceneId cameraId : Z) (values : list byte).

Record EngineState := {
  idExecMap : gmap string GPUShaderRef;
  isPending : gmap string nat;
  codeExecMap : gmap string nat;
  inExecution : bool;
  events : list Call;
  isBusy : bool;
  scheduled : nat;
}.

Record State := {
  device : Device;
  store : Store;
  renderer : RendererState;
  drawer : DrawerState;
  engine : EngineState;
}.

(** ** State updates *)

Definition on_device (f : Device → Device) (s : State) : State :=
  {| device := f (device s); store := store s; renderer := renderer s;
     drawer := drawer s; engine := engine s |}.

Definition on_store (f : Store → Store) (s : State) : State :=
  {| device := device s; store := f (store s); renderer := renderer s;
     drawer := drawer s; engine := engine s |}.

Definition on_renderer (f : RendererState → RendererState) (s : State) : State :=
  {| device := device s; store := store s; renderer := f (renderer s);
     drawer := drawer s; engine := engine s |}.

Definition on_drawer (f : DrawerState → DrawerState) (s : State) : State :=
  {| device := device s; store := store s; renderer := renderer s;
     drawer := f (drawer s); engine := engine s |}.

Definition on_engine (f : EngineState → EngineState) (s : State) : State :=
  {| device := device s; store := store s; renderer := renderer s;
     drawer := drawer s; engine := f (engine s) |}.

Definition set_entities (l : list nat) (d : DrawerState) : DrawerState :=
  {| cameras := cameras d; entities := l; sceneId := sceneId d;
     canvas := canvas d; depthTexture := depthTexture d |}.

Definition set_cameras (c : list (Z * list (Z * list byte))) (d : DrawerState)
  : DrawerState :=
  {| cameras := c; entities := entities d; sceneId := sceneId d;
     canvas := canvas d; depthTexture := depthTexture d |}.

Definition set_sceneId (i : Z) (d : DrawerState) : DrawerState :=
  {| cameras := cameras d; entities := entities d; sceneId := i;
     canvas := canvas d; depthTexture := depthTexture d |}.

Definition set_depthTexture (t : option (nat * (Z * Z))) (d : DrawerState)
  : DrawerState :=
  {| cameras := cameras d; entities := entities d; sceneId := sceneId d;
     canvas := canvas d; depthTexture := t |}.

Definition set_idExecMap (m : gmap string GPUShaderRef) (e : EngineState)
  : EngineState :=
  {| idExecMap := m; isPending := isPending e; codeExecMap := codeExecMap e;
     inExecution := inExecution e; events := events e; isBusy := isBusy e;
     scheduled := scheduled e |}.

Definition set_isPending (m : gmap string nat) (e : EngineState) : EngineState :=
  {| idExecMap := idExecMap e; isPending := m; codeExecMap := codeExecMap e;
     inExecution := inExecution e; events := events e; isBusy := isBusy e;
     scheduled := scheduled e |}.

Definition set_codeExecMap (m : gmap string nat) (e : EngineState) : EngineState :=
  {| idExecMap := idExecMap e; isPending := isPending e; codeExecMap := m;
     inExecution := inExecution e; events := events e; isBusy := isBusy e;
     scheduled := scheduled e |}.

Definition set_inExecution (b : bool) (e : EngineState) : EngineState :=
  {| idExecMap := idExecMap e; isPending := isPending e;
     codeExecMap := codeExecMap e; inExecution := b; events := events e;
     isBusy := isBusy e; scheduled := scheduled e |}.

Definition set_events (l : list Call) (e : EngineState) : EngineState :=
  {| idExecMap := idExecMap e; isPending := isPending e;
     codeExecMap := codeExecMap e; inExecution := inExecution e; events := l;
     isBusy := isBusy e; scheduled := scheduled e |}.

Definition set_isBusy (b : bool) (e : EngineState) : EngineState :=
  {| idExecMap := idExecMap e; isPending := isPending e;
     codeExecMap := codeExecMap e; inExecution := inExecution e;
     events := events e; isBusy := b; scheduled := scheduled e |}.

Definition set_scheduled (n : nat) (e : EngineState) : EngineState :=
  {| idExecMap := idExecMap e; isPending := isPending e;
     codeExecMap := codeExecMap e; inExecution := inExecution e;
     events := events e; isBusy := isBusy e; scheduled := n |}.

(** ** The monad of the embedding: state, and exceptions that keep the
    state reached when they were raised *)

Definition M (A : Type) : Type := State → State * Outcome A.

#[global] Instance M_ret : MRet M := λ A a s, (s, Ok a).

#[global] Instance M_bind : MBind M := λ A B f m s,
  match m s with
  | (s', Ok a) => f a s'
  | (s', Throw e) => (s', Throw e)
  end.

Definition throw {A} (e : Error) : M A := λ s, (s, Throw e).

Definition gets {A} (f : State → A) : M A := λ s, (s, Ok (f s)).

Definition modify (f : State → State) : M unit := λ s, (f s, Ok tt).

Definition lift {A} (o : Outcome A) : M A := λ s, (s, o).

(** A call that is not awaited: what it throws is not seen by the caller. *)
Definition detached {A} (m : M A) : M unit := λ s, ((m s).1, Ok tt).

(** [for] over the elements of an array, with the element's index. *)
Fixpoint forEach {A St} (body : nat → A → St → M St) (i : nat) (l : list A)
  (acc : St) : M St :=
  match l with
  | [] => mret acc
  | x :: l => acc ← body i x acc; forEach body (S i) l acc
  end.

(** The same loop for code that touches nothing but its locals. *)
Fixpoint loop {A St} (body : nat → A → St → Outcome St) (i : nat) (l : list A)
  (acc : St) : Outcome St :=
  match l with
  | [] => Ok acc
  | x :: l => acc ← body i x acc; loop body (S i) l acc
  end.

(** ** Device primitives *)

Module GPU.

(** [device.createBuffer], [createTexture], ...: the next handle. *)
Definition create (o : GPUObject) : M nat := λ s,
  let h := nextHandle (device s) in
  (on_device (λ d, {| nextHandle := S h; objects := <[h := o]> (objects d);
                      ops := ops d; console := console d |}) s, Ok h).

Definition emit (op : DeviceOp) : M unit :=
  modify (on_device (λ d, {| nextHandle := nextHandle d; objects := objects d;
                             ops := ops d ++ [op]; console := console d |})).

(** [console.warn] *)
Definition warn (msg : string) : M unit :=
  modify (on_device (λ d, {| nextHandle := nextHandle d; objects := objects d;
                             ops := ops d; console := console d ++ [msg] |})).

(** [object.destroy()] on a possibly missing object. *)
Definition destroy (property : string) (h : option nat) : M unit :=
  match h with
  | Some h => emit (Destroy h)
  | None => throw (TypeError_undefined property)
  end.

End GPU.

(** ** The object store *)

(** References never dangle in JavaScript; reading an address that was
    never allocated yields these placeholders, which no state built by the
    operations below ever reads. *)
#[global] Instance GPUExecutable_inhabited : Inhabited GPUExecutable :=
  populate {| z := None; indexType := uint16; vertexCount := 0;
              indexBuffer := 0; pipeline := 0; bindGroups := [];
              uniforms := []; uniformBuffer := None; vertexBuffer := None |}.

#[global] Instance GPUExecutableRefCounter_inhabited
  : Inhabited GPUExecutableRefCounter :=
  populate {| rc_executable := 0; rc_count := 0 |}.

#[global] Instance Promise_inhabited : Inhabited Promise := populate Pending.

Module Heap.

Definition executable (a : nat) (s : State) : GPUExecutable :=
  executables (store s) !!! a.

Definition refCounter (a : nat) (s : State) : GPUExecutableRefCounter :=
  refCounters (store s) !!! a.

Definition promise (a : nat) (s : State) : Promise :=
  promises (store s) !!! a.

Definition set_executable (a : nat) (e : GPUExecutable) : M unit :=
  modify (on_store (λ st,
    {| nextAddress := nextAddress st;
       executables := <[a := e]> (executables st);
       refCounters := refCounters st; promises := promises st |})).

Definition set_refCounter (a : nat) (r : GPUExecutableRefCounter) : M unit :=
  modify (on_store (λ st,
    {| nextAddress := nextAddress st; executables := executables st;
       refCounters := <[a := r]> (refCounters st);
       promises := promises st |})).

Definition set_promise (a : nat) (p : Promise) : M unit :=
  modify (on_store (λ st,
    {| nextAddress := nextAddress st; executables := executables st;
       refCounters := refCounters st;
       promises := <[a := p]> (promises st) |})).

(** The address of a new object. *)
Definition fresh : M nat := λ s,
  let a := nextAddress (store s) in
  (on_store (λ st,
     {| nextAddress := S a; executables := executables st;
        refCounters := refCounters st; promises := promises st |}) s, Ok a).

Definition new_executable (e : GPUExecutable) : M nat :=
  a ← fresh; _ ← set_executable a e; mret a.

Definition new_refCounter (r : GPUExecutableRefCounter) : M nat :=
  a ← fresh; _ ← set_refCounter a r; mret a.

Definition new_promise (p : Promise) : M nat :=
  a ← fresh; _ ← set_promise a p; mret a.

End Heap.

(** ** Renderer ([src/rendering/renderer.js]) *)

Module Renderer.

(** [get defaultZ(){ return this.#z++; }] *)
Definition defaultZ : M nat := λ s,
  let n := r_z (renderer s) in
  (on_renderer (λ r, {| globalBuffers := globalBuffers r; r_z := S n;
                        r_format := r_format r |}) s, Ok n).

(** [Renderer.#isTypeOfBuffer]: ['type' in binding.resource] *)
Definition isTypeOfBuffer (binding : GPUBinding) : bool :=
  match resource binding with RBuffer _ => true | _ => false end.

(** [Renderer.#isTypeOfTexture]: ['img' in binding.resource] *)
Definition isTypeOfTexture (binding : GPUBinding) : bool :=
  match resource binding with RTexture _ => true | _ => false end.

(** [Renderer.#getBufferSize]; the code applies it to buffers only. *)
Definition getBufferSize (binding : GPUBinding) : nat :=
  match resource binding with
  | RBuffer b => BYTES_PER_ELEMENT (b_type b) * b_size b
  | _ => 0
  end.

(** [binding.resource['global']] *)
Definition global (binding : GPUBinding) : option GlobalRef :=
  match resource binding with
  | RBuffer b => b_global b
  | _ => None
  end.

(** Truth value of [global.id]. *)
Definition idGiven (g : GlobalRef) : bool :=
  match g_id g with
  | Some i => negb (bool_decide (i = ""))
  | None => false
  end.

(** [Renderer.#getBufferLocalSize]:
    [!binding.resource['global'] || !binding.resource['global'].id ?
       this.#getBufferSize( binding ) : 0] *)
Definition getBufferLocalSize (binding : GPUBinding) : nat :=
  if negb (bool_decide (is_Some (global binding)))
     || negb (from_option idGiven false (global binding))
  then getBufferSize binding
  else 0.

(** [type === Type.u8 || type === Type.u16 || type === Type.i8 ||
    type === Type.i16] *)
Definition narrow (type : Ty) : bool :=
  bool_decide (type = u8) || bool_decide (type = u16)
  || bool_decide (type = i8) || bool_decide (type = i16).

(** [Renderer.#typeToFormat] *)
Definition typeToFormat (type : Ty) (size : nat) : Outcome string :=
  let format := TypeFormat type in
  if ((size =? 1)%nat || (size =? 3)%nat) && narrow type then
    Throw (TypeError_illegalSize size (TypeFormat type))
  else if (size =? 1)%nat then
    Ok (TypeFormat type)
  else
    Ok (format +:+ "x" +:+ pretty size).

(** [new TypeConstructor[type]( values )] over an [ArrayBuffer]: refused
    when the byte length is not a multiple of the element width. *)
Definition typedArray (type : Ty) (values : list byte) : Outcome unit :=
  if (length values mod BYTES_PER_ELEMENT type =? 0)%nat then Ok tt
  else Throw (RangeError_typedArray type (length values)).

(** What a [DataView] setter of [type] stores for [undefined]: NaN as a
    float, zero as an integer. *)
Definition undefinedAs (type : Ty) : list byte :=
  match type with
  | f32 => [x00; x00; xc0; x7f]
  | _ => replicate (BYTES_PER_ELEMENT type) x00
  end.

(** Whether four bytes, least significant first, are a NaN of
    [Float32Array]: the eight exponent bits set and a fraction that is
    not zero. *)
Definition isNaN32 (bytes : list byte) : bool :=
  match bytes with
  | [b0; b1; b2; b3] =>
      (N.land (Byte.to_N b3) 127 =? 127)%N
      && (128 <=? Byte.to_N b2)%N
      && negb ((N.land (Byte.to_N b2) 127 =? 0)%N
               && (Byte.to_N b1 =? 0)%N && (Byte.to_N b0 =? 0)%N)
  | _ => false
  end.

(** The same NaN with the quiet bit, the top bit of the fraction, set. *)
Definition quiet32 (bytes : list byte) : list byte :=
  match bytes with
  | [b0; b1; b2; b3] =>
      [b0; b1; default b2 (Byte.of_N (N.lor (Byte.to_N b2) 64)); b3]
  | _ => bytes
  end.

(** The bytes the setter of [type] stores for the number that the typed
    array of [type] reads from [bytes].  Integers and the floats that are
    numbers come back as they were.  A NaN is read as the number NaN and
    which NaN a setter stores is left to the engine; engines widen the
    element to a double and narrow it again, which sets the quiet bit and
    keeps the sign and the rest of the fraction. *)
Definition readBack (type : Ty) (bytes : list byte) : list byte :=
  match type with
  | f32 => if isNaN32 bytes then quiet32 bytes else bytes
  | _ => bytes
  end.

(** [array[n]] of the typed array over [values], as the bytes the setter
    of [type] stores for it. *)
Definition element (type : Ty) (values : list byte) (n : nat) : list byte :=
  let w := BYTES_PER_ELEMENT type in
  if (n <? length values / w)%nat then
    readBack type (take w (drop (n * w) values))
  else undefinedAs type.

(** [view.setXxx( offset, value, true )] *)
Definition setBytes (view : list byte) (offset : nat) (data : list byte)
  : Outcome (list byte) :=
  if (offset + length data <=? length view)%nat then
    Ok (take offset view ++ data ++ drop (offset + length data) view)
  else Throw (RangeError_dataView offset).

(** [(values.byteLength / TypeConstructor[type].BYTES_PER_ELEMENT) / size] *)
Definition elementCount (d : VertexTransferable) : JS.Num :=
  JS.div (JS.div (JS.num (length (v_values d)))
                 (JS.num (BYTES_PER_ELEMENT (v_type d))))
         (JS.num (v_size d)).

(** The innermost statement of [#chainArrays], for component [k] of
    element [i] of attribute [d]; the locals are the view and [offset]. *)
Definition chainComponent (d : VertexTransferable) (i k : nat)
  (acc : list byte * nat) : Outcome (list byte * nat) :=
  view ← setBytes acc.1 acc.2
           (element (v_type d) (v_values d) (k + i * v_size d));
  mret (view, acc.2 + BYTES_PER_ELEMENT (v_type d)).

(** The body of the loop over [j]: the typed array of attribute [j] is
    built the first time round, that is when [i] is 0. *)
Definition chainAttribute (i : nat) (d : VertexTransferable)
  (acc : list byte * nat) : Outcome (list byte * nat) :=
  _ ← (if (i =? 0)%nat then typedArray (v_type d) (v_values d) else Ok tt);
  loop (λ _ k acc, chainComponent d i k acc) 0 (seq 0 (v_size d)) acc.

(** The rounds of [for( let i = 0; i < len; i++ )] in [#chainArrays] over
    a view of [bytes] bytes.  For [NaN] the test fails at once.  For
    [Infinity] the loop goes on until a setter is past the end of the
    view, which happens within [bytes + 1] rounds when some attribute has
    a component; when none has, it does not end.  [#createVertexBuffer],
    the only caller, has thrown before it calls with a [len] that is not
    finite. *)
Definition rounds (len : JS.Num) (bytes : Q) : nat :=
  match len with
  | JS.Fin len => JS.iterations len
  | JS.Infinity => S (JS.toIndex bytes)
  | JS.NaN => 0
  end.

(** [Renderer.#chainArrays] *)
Definition chainArrays (buffers : list VertexTransferable) (bytes : Q)
  : Outcome (list byte) :=
  match buffers with
  | [] => Throw (TypeError_undefined "values")
  | first :: _ =>
      let view := replicate (JS.toIndex bytes) x00 in
      let len := elementCount first in
      acc ← loop (λ _ i acc, loop (λ _ d acc, chainAttribute i d acc) 0 buffers acc)
                 0 (seq 0 (rounds len bytes)) (view, 0);
      mret acc.1
  end.

(** [Renderer.#createGroupLayout] *)
Definition layoutEntry (j : nat) (binding : GPUBinding) : LayoutEntry :=
  {| le_binding := j;
     le_visibility :=
       if bool_decide (usage binding = "fragment") then FRAGMENT else VERTEX;
     le_kind :=
       if isTypeOfBuffer binding then LBuffer
       else if isTypeOfTexture binding then LTexture
       else LSampler |}.

Definition createGroupLayout (groups : list (list GPUBinding)) : M (list nat) :=
  forEach (λ _ group bindGroupLayouts,
             layout ← GPU.create (BindGroupLayout (imap layoutEntry group));
             mret (bindGroupLayouts ++ [layout]))
          0 groups [].

(** The [size] that the two loops of [#createUniformBuffer] add up. *)
Definition uniformSize (groups : list (list GPUBinding)) : nat :=
  foldl (λ size group,
           foldl (λ size binding,
                    size + (if isTypeOfBuffer binding
                            then getBufferLocalSize binding else 0))
                 size group)
        0 groups.

(** [Renderer.#createUniformBuffer]; [None] is [undefined]. *)
Definition createUniformBuffer (groups : list (list GPUBinding))
  : M (option nat) :=
  if (length groups <=? 0)%nat then mret None
  else
    buffer ← GPU.create (Buffer uniform (JS.ofNat (uniformSize groups)) "");
    mret (Some buffer).

Record IndexBuffer := {
  ib_buffer : nat;
  ib_vertexCount : nat;
  ib_type : IndexType;
}.

Definition MAX_U16 : Q := 65535.

(** [constructor.BYTES_PER_ELEMENT] of [Uint16Array] and [Uint32Array]. *)
Definition indexBytes (type : IndexType) : nat :=
  match type with uint16 => 2 | uint32 => 4 end.

(** What [range.set( indices )] stores for one index. *)
Definition stored (type : IndexType) (i : Z) : Z :=
  (i mod 2 ^ (8 * Z.of_nat (indexBytes type)))%Z.

(** [Renderer.#createIndexBuffer] *)
Definition createIndexBuffer (indices : list Z) (size : Q) : M IndexBuffer :=
  indices ←
    (if (length indices <=? 0)%nat then
       _ ← GPU.warn "[wgpu] no indices found.";
       mret (indices ++ (Z.of_nat <$> seq 0 (JS.iterations size)))
     else mret indices);
  let type := if JS.gt size MAX_U16 then uint32 else uint16 in
  buffer ← GPU.create (Buffer index
                         (JS.ofNat (length indices * indexBytes type))
                         "index buffer");
  _ ← GPU.emit (SetIndices buffer type (stored type <$> indices));
  mret {| ib_buffer := buffer; ib_vertexCount := length indices;
          ib_type := type |}.

Record VertexBuffer := {
  vb_buffer : option nat;
  vb_attributes : list GPUVertexAttribute;
  vb_stride : nat;
  vb_size : Q;
}.

(** The body of the loop of [#createVertexBuffer]; the locals are
    [attributes] and [stride]. *)
Definition describeAttribute (len : JS.Num) (descriptor : VertexTransferable)
  (acc : list GPUVertexAttribute * nat)
  : Outcome (list GPUVertexAttribute * nat) :=
  if JS.neq (elementCount descriptor) len then
    Throw (RangeError_sizeMismatch
             (JS.mul len (JS.num (v_size descriptor))))
  else
    format ← typeToFormat (v_type descriptor) (v_size descriptor);
    mret (acc.1 ++ [{| shaderLocation := v_location descriptor;
                       offset := acc.2;
                       format := format |}],
          acc.2 + v_size descriptor * BYTES_PER_ELEMENT (v_type descriptor)).

(** [Renderer.#createVertexBuffer].  [createBuffer] converts [size] to an
    integer and refuses one that is [NaN] or infinite; [stride * len] is
    finite only when [len] is, so past [createBuffer] both are numbers. *)
Definition createVertexBuffer (vertexDescriptor : list VertexTransferable)
  : M VertexBuffer :=
  match vertexDescriptor with
  | [] => mret {| vb_buffer := None; vb_attributes := []; vb_stride := 0;
                  vb_size := 0 |}
  | first :: _ =>
      let len := elementCount first in
      acc ← lift (loop (λ _ d acc, describeAttribute len d acc)
                       0 vertexDescriptor ([], 0));
      match JS.mul (JS.num acc.2) len, len with
      | JS.Fin size, JS.Fin len =>
          buffer ← GPU.create (Buffer vertex size "vertex buffer");
          data ← lift (chainArrays vertexDescriptor size);
          _ ← GPU.emit (WriteBuffer (Some buffer) 0 data);
          mret {| vb_buffer := Some buffer; vb_attributes := acc.1;
                  vb_stride := acc.2; vb_size := len |}
      | _, _ => throw (TypeError_enforceRange "size")
      end
  end.

Record BindGroups := {
  bg_bindGroups : list nat;
  bg_uniforms : list (list UniformDescriptor);
}.

(** The locals of the loops of [#createBindGroup]. *)
Record BindLocals := {
  l_offset : nat;
  l_uniforms : list (list UniformDescriptor);
  l_entries : list BindEntry;
}.

(** [uniforms[i].push( d )] *)
Definition pushUniform (i : nat) (d : UniformDescriptor)
  (uniforms : list (list UniformDescriptor))
  : Outcome (list (list UniformDescriptor)) :=
  match uniforms !! i with
  | Some group => Ok (<[i := group ++ [d]]> uniforms)
  | None => Throw (TypeError_undefined "push")
  end.

(** [n || d] on an optional number.  For [compare] the default is
    [undefined]: an empty string is dropped. *)
Definition orNat (n : option nat) (d : nat) : nat :=
  match n with
  | Some 0 | None => d
  | Some n => n
  end.

Definition samplerDescriptor (sm : SamplerSlot) : SamplerDescriptor :=
  {| addressModeU := JS.orString (s_addressModeU sm) "clamp-to-edge";
     addressModeV := JS.orString (s_addressModeV sm) "clamp-to-edge";
     addressModeW := JS.orString (s_addressModeW sm) "clamp-to-edge";
     compare := match s_compare sm with
                | Some c => if decide (c = "") then None else Some c
                | None => None
                end;
     lodMaxClamp := orNat (s_lodMaxClamp sm) 32;
     lodMinClamp := orNat (s_lodMinClamp sm) 0;
     maxAnisotropy := orNat (s_maxAnisotropy sm) 1;
     magFilter := JS.orString (s_magFilter sm) "nearest";
     minFilter := JS.orString (s_minFilter sm) "nearest";
     mipmapFilter := JS.orString (s_mipmapFilter sm) "nearest" |}.

(** The body of the loop over [j] in [#createBindGroup], for binding [j]
    of group [i].  The three cases are those of [#isTypeOfBuffer],
    [#isTypeOfTexture] and the final [else].  Decoding the image of a
    texture is taken to be immediate. *)
Definition bindOne (buffer : option nat) (i j : nat) (binding : GPUBinding)
  (l : BindLocals) : M BindLocals :=
  let uniforms := l_uniforms l ++ [[]] in
  match resource binding with
  | RBuffer b =>
      let size := getBufferSize binding in
      match b_global b with
      | Some g =>
          if g_isCamera g then
            camera ← gets (λ s, globalBuffers (renderer s)
                                  !! DEFAULT_CAMERA_BUFFER_ID);
            mret {| l_offset := l_offset l; l_uniforms := uniforms;
                    l_entries := l_entries l ++
                      [{| be_binding := j;
                          be_resource := BoundBuffer camera 0 size |}] |}
          else
            named ← gets (λ s, g_id g ≫= λ id, globalBuffers (renderer s) !! id);
            mret {| l_offset := l_offset l; l_uniforms := uniforms;
                    l_entries := l_entries l ++
                      [{| be_binding := j;
                          be_resource :=
                            BoundBuffer named (g_byteOffset g) size |}] |}
      | None =>
          uniforms ← lift (pushUniform i
                             {| ud_offset := Some (l_offset l);
                                ud_size := Some size;
                                ud_type := Some (b_type b);
                                ud_width := None; ud_height := None;
                                ud_texture := None |} uniforms);
          mret {| l_offset := l_offset l + size; l_uniforms := uniforms;
                  l_entries := l_entries l ++
                    [{| be_binding := j;
                        be_resource :=
                          BoundBuffer buffer (l_offset l) size |}] |}
      end
  | RTexture t =>
      let width := (t_width t - default 0 (t_offsetX t))%Z in
      let height := (t_height t - default 0 (t_offsetY t))%Z in
      texture ← GPU.create (Texture width height (t_format t)
                              (JS.orString (t_dimension t) "2d"));
      _ ← GPU.emit (CopyImage (t_img t) (Some texture) (Some width)
                      (Some height));
      uniforms ← lift (pushUniform i
                         {| ud_offset := None; ud_size := None;
                            ud_type := None; ud_width := Some width;
                            ud_height := Some height;
                            ud_texture := Some texture |} uniforms);
      mret {| l_offset := l_offset l; l_uniforms := uniforms;
              l_entries := l_entries l ++
                [{| be_binding := j; be_resource := BoundTexture texture |}] |}
  | RSampler sm =>
      sampler ← GPU.create (Sampler (samplerDescriptor sm));
      uniforms ← lift (pushUniform i
                         {| ud_offset := None; ud_size := None;
                            ud_type := None; ud_width := None;
                            ud_height := None; ud_texture := None |}
                         uniforms);
      mret {| l_offset := l_offset l; l_uniforms := uniforms;
              l_entries := l_entries l ++
                [{| be_binding := j; be_resource := BoundSampler sampler |}] |}
  end.

(** The body of the loop over [i] in [#createBindGroup]; [entries] starts
    empty for every group. *)
Definition bindGroup (bindGroupLayouts : list nat) (buffer : option nat)
  (i : nat) (group : list GPUBinding) (acc : list nat * BindLocals)
  : M (list nat * BindLocals) :=
  l ← forEach (bindOne buffer i) 0 group
        {| l_offset := l_offset acc.2; l_uniforms := l_uniforms acc.2;
           l_entries := [] |};
  g ← GPU.create (BindGroup ("group" +:+ pretty i) (bindGroupLayouts !! i)
                    (l_entries l));
  mret (acc.1 ++ [g], l).

(** [Renderer.#createBindGroup] *)
Definition createBindGroup (groups : list (list GPUBinding))
  (bindGroupLayouts : list nat) (buffer : option nat) : M BindGroups :=
  if (length groups =? 0)%nat then
    mret {| bg_bindGroups := []; bg_uniforms := [] |}
  else
    acc ← forEach (bindGroup bindGroupLayouts buffer) 0 groups
            ([], {| l_offset := 0; l_uniforms := []; l_entries := [] |});
    mret {| bg_bindGroups := acc.1; bg_uniforms := l_uniforms acc.2 |}.

(** What [createProgram] holds when it reaches its [await]. *)
Record Compiling := {
  c_bindGroupLayouts : list nat;
  c_uniformBuffer : option nat;
  c_vertex : VertexBuffer;
  c_bind : BindGroups;
}.

(** [createProgram] up to its [await]. *)
Definition createProgram_begin (program : GPUCompilableProgram) : M Compiling :=
  bindGroupLayouts ← createGroupLayout (groups program);
  uniformBuffer ← createUniformBuffer (groups program);
  vertex ← createVertexBuffer (vertexDescriptor program);
  bind ← createBindGroup (groups program) bindGroupLayouts uniformBuffer;
  mret {| c_bindGroupLayouts := bindGroupLayouts;
          c_uniformBuffer := uniformBuffer; c_vertex := vertex;
          c_bind := bind |}.

(** [createProgram] after its [await]: the address of the executable it
    returns. *)
Definition createProgram_end (program : GPUCompilableProgram) (c : Compiling)
  : M nat :=
  ib ← createIndexBuffer (indices program) (vb_size (c_vertex c));
  module ← GPU.create (ShaderModule (code program));
  layout ← GPU.create (PipelineLayout (c_bindGroupLayouts c));
  format ← gets (λ s, r_format (renderer s));
  pipeline ← GPU.create
    (RenderPipeline layout
       (JS.orString (cullMode program) "back")
       (JS.orString (topology program) "triangle-list")
       module
       (JS.orString (vertexEntryPoint program) "vertex_main")
       (vb_stride (c_vertex c)) (vb_attributes (c_vertex c))
       (JS.orString (fragmentEntryPoint program) "fragment_main")
       format);
  z ← defaultZ;
  Heap.new_executable
    {| z := Some (Z.of_nat z);
       indexType := ib_type ib;
       vertexCount := ib_vertexCount ib;
       indexBuffer := ib_buffer ib;
       pipeline := pipeline;
       bindGroups := bg_bindGroups (c_bind c);
       uniforms := bg_uniforms (c_bind c);
       uniformBuffer := c_uniformBuffer c;
       vertexBuffer := vb_buffer (c_vertex c) |}.

(** [Renderer.createProgram], awaited. *)
Definition createProgram (program : GPUCompilableProgram) : M nat :=
  c ← createProgram_begin program; createProgram_end program c.

(** What [cloneProgram] holds when it reaches its [await]. *)
Record Cloning := {
  k_uniformBuffer : option nat;
  k_bind : BindGroups;
}.

(** [cloneProgram] up to its [await]. *)
Definition cloneProgram_begin (program : GPUCompilableProgram) : M Cloning :=
  bindGroupLayouts ← createGroupLayout (groups program);
  uniformBuffer ← createUniformBuffer (groups program);
  bind ← createBindGroup (groups program) bindGroupLayouts uniformBuffer;
  mret {| k_uniformBuffer := uniformBuffer; k_bind := bind |}.

(** [cloneProgram] after its [await]:
    [{ ...executable, z: this.defaultZ, bindGroups, uniforms,
       uniformBuffer, updateBinding }], a new object. *)
Definition cloneProgram_end (executable : nat) (k : Cloning) : M nat :=
  e ← gets (Heap.executable executable);
  z ← defaultZ;
  Heap.new_executable
    {| z := Some (Z.of_nat z);
       indexType := indexType e;
       vertexCount := vertexCount e;
       indexBuffer := indexBuffer e;
       pipeline := pipeline e;
       bindGroups := bg_bindGroups (k_bind k);
       uniforms := bg_uniforms (k_bind k);
       uniformBuffer := k_uniformBuffer k;
       vertexBuffer := vertexBuffer e |}.

(** [Renderer.cloneProgram], awaited. *)
Definition cloneProgram (program : GPUCompilableProgram) (executable : nat)
  : M nat :=
  k ← cloneProgram_begin program; cloneProgram_end executable k.

(** [uniforms[ group ][ binding ]], read to apply [in] to it. *)
Definition uniformAt (e : GPUExecutable) (group binding : nat)
  : Outcome UniformDescriptor :=
  match uniforms e !! group with
  | None => Throw (TypeError_undefined (pretty binding))
  | Some g =>
      match g !! binding with
      | None => Throw (TypeError_undefined "in")
      | Some d => Ok d
      end
  end.

(** The [updateBinding] of the executable at address [a].  Every
    descriptor object carries all six keys, so both [in] tests hold
    whenever the descriptor exists.  Decoding the image is taken to be
    immediate. *)
Definition updateBinding (a : nat) (group binding : nat)
  (resource : UpdateValue) : M unit :=
  e ← gets (Heap.executable a);
  match resource with
  | UImage url =>
      d ← lift (uniformAt e group binding);
      GPU.emit (CopyImage url (ud_texture d) (ud_width d) (ud_height d))
  | UNumbers values =>
      d ← lift (uniformAt e group binding);
      match ud_type d with
      | None => throw (TypeError_undefined "TypeConstructor")
      | Some type =>
          GPU.emit (WriteValues (uniformBuffer e) (ud_offset d) (Some type)
                      values)
      end
  end.

(** [Renderer.createGlobalBuffer] *)
Definition createGlobalBuffer (bufferId : string) (type : option Ty)
  (size : nat) : M unit :=
  known ← gets (λ s, globalBuffers (renderer s) !! bufferId);
  if bool_decide (is_Some known) then
    throw (ReferenceError_globalExists bufferId)
  else
    buffer ← GPU.create
      (Buffer uniform
         (JS.ofNat (match type with
                    | Some type => size * BYTES_PER_ELEMENT type
                    | None => size
                    end))
         bufferId);
    modify (on_renderer (λ r,
      {| globalBuffers := <[bufferId := buffer]> (globalBuffers r);
         r_z := r_z r; r_format := r_format r |})).

(** [Renderer.writeGlobalBuffer] *)
Definition writeGlobalBuffer (bufferId : string) (byteOffset : nat)
  (type : Ty) (values : list byte) : M unit :=
  known ← gets (λ s, globalBuffers (renderer s) !! bufferId);
  if negb (bool_decide (is_Some known)) then
    throw (ReferenceError_globalMissing bufferId)
  else
    _ ← lift (typedArray type values);
    GPU.emit (WriteBuffer known byteOffset values).

(** [Renderer.hasDefaultCamera] *)
Definition hasDefaultCamera : M bool :=
  gets (λ s, bool_decide
               (is_Some (globalBuffers (renderer s)
                           !! DEFAULT_CAMERA_BUFFER_ID))).

End Renderer.

(** ** Drawer ([src/rendering/drawer.js]) *)

(** A JavaScript [Map] with few keys: it iterates in insertion order and
    [set] on a known key keeps the key's place. *)
Module OrderedMap.

Fixpoint get {K V} `{EqDecision K} (k : K) (m : list (K * V)) : option V :=
  match m with
  | [] => None
  | (k', v) :: m => if decide (k' = k) then Some v else get k m
  end.

Fixpoint set {K V} `{EqDecision K} (k : K) (v : V) (m : list (K * V))
  : list (K * V) :=
  match m with
  | [] => [(k, v)]
  | (k', v') :: m =>
      if decide (k' = k) then (k, v) :: m else (k', v') :: set k v m
  end.

Definition values {K V} (m : list (K * V)) : list V := snd <$> m.

End OrderedMap.

Module Drawer.

(** [entity => this.#entities.push( entity )] *)
Definition add (entity : nat) : M unit :=
  modify (on_drawer (λ d, set_entities (entities d ++ [entity]) d)).

(** The loop of [remove]: the first entry that is the same object is
    spliced out and the loop returns. *)
Fixpoint removeFirst (entity : nat) (l : list nat) : list nat :=
  match l with
  | [] => []
  | x :: l => if decide (x = entity) then l else x :: removeFirst entity l
  end.

Definition remove (entity : nat) : M unit :=
  modify (on_drawer (λ d, set_entities (removeFirst entity (entities d)) d)).

(** [(a,b) => a.z - b.z] is not positive; a difference with an
    [undefined] z is NaN, which [sort] takes for 0. *)
Definition notAfter (s : State) (a b : nat) : bool :=
  match z (Heap.executable a s), z (Heap.executable b s) with
  | Some x, Some y => (x <=? y)%Z
  | _, _ => true
  end.

Fixpoint insert (le : nat → nat → bool) (x : nat) (l : list nat) : list nat :=
  match l with
  | [] => [x]
  | y :: l' => if le x y then x :: l else y :: insert le x l'
  end.

(** [Array.prototype.sort] is stable: it is modelled as the stable
    insertion sort, which is what the code does when every entry has a
    z.  When some z is [undefined] the comparator is not an order and
    engines may arrange the list differently; what is stated below of a
    list with such an entry holds of every arrangement of it. *)
Definition sorted (le : nat → nat → bool) (l : list nat) : list nat :=
  foldr (insert le) [] l.

Definition sort : M unit :=
  modify (λ s, on_drawer (λ d, set_entities
                                 (sorted (notAfter s) (entities d)) d) s).

(** [setCurrentScene] *)
Definition setCurrentScene (sceneId : Z) : M unit :=
  modify (on_drawer (set_sceneId sceneId)).

(** [get depthTexture]: the depth target follows the canvas size. *)
Definition depthTexture_get : M nat :=
  d ← gets drawer;
  let renew : M nat :=
    t ← GPU.create (Texture (canvas d).1 (canvas d).2 "depth24plus" "2d");
    _ ← modify (on_drawer (set_depthTexture (Some (t, canvas d))));
    mret t in
  match depthTexture d with
  | Some (t, size) =>
      if bool_decide (size = canvas d) then mret t
      else _ ← GPU.emit (Destroy t); renew
  | None => renew
  end.

(** What [#draw] records for one entry of the draw list. *)
Definition entityCommands (e : GPUExecutable) : list Command :=
  [SetPipeline (pipeline e)]
  ++ match vertexBuffer e with
     | Some b => [SetVertexBuffer 0 b]
     | None => []
     end
  ++ imap SetBindGroup (bindGroups e)
  ++ [SetIndexBuffer (indexBuffer e) (indexType e);
      DrawIndexed (vertexCount e)].

(** [Drawer.#draw]: the commands of one walk over the draw list. *)
Definition draw_list (s : State) : list Command :=
  a ← entities (drawer s); entityCommands (Heap.executable a s).

(** [Drawer.draw].  [writeGlobalBuffer] is the method of the engine the
    drawer was constructed with; its call is not awaited. *)
Definition draw
  (writeGlobalBuffer : string → nat → Ty → list byte → bool → M unit)
  : M unit :=
  _ ← depthTexture_get;
  activeCameras ← gets (λ s, OrderedMap.values
                               (default [] (OrderedMap.get (sceneId (drawer s))
                                              (cameras (drawer s)))));
  pass ←
    (if (length activeCameras <=? 0)%nat then gets draw_list
     else
       forEach (λ _ camera pass,
                  _ ← detached (writeGlobalBuffer DEFAULT_CAMERA_BUFFER_ID 0
                                  f32 camera true);
                  recorded ← gets draw_list;
                  mret (pass ++ recorded))
               0 activeCameras []);
  GPU.emit (Submit pass).

(** [addCamera] *)
Definition addCamera (buffer : list byte) (sceneId cameraId : Z) : M unit :=
  modify (on_drawer (λ d,
    let scene := default [] (OrderedMap.get sceneId (cameras d)) in
    set_cameras (OrderedMap.set sceneId (OrderedMap.set cameraId buffer scene)
                   (cameras d)) d)).

(** [updateCamera] *)
Definition updateCamera (buffer : list byte) (sceneId cameraId : Z) : M unit :=
  known ← gets (λ s, OrderedMap.get sceneId (cameras (drawer s)));
  match known with
  | None => throw (Error_noScene sceneId)
  | Some scene =>
      match OrderedMap.get cameraId scene with
      | None => throw (Error_noCamera cameraId)
      | Some _ =>
          modify (on_drawer (λ d,
            set_cameras (OrderedMap.set sceneId
                           (OrderedMap.set cameraId buffer scene)
                           (cameras d)) d))
      end
  end.

End Drawer.

(** ** GPUEngine ([src/rendering/gpu-engine.js]) *)

Module GPUEngine.

(** An [async] method that has reached an [await] and not yet gone past it.
    - [Compile]: [create] at [await promise], the promise being that of
      [createProgram], itself at its own [await] ([c] is what it holds, or
      what it threw before getting there).
    - [Clone]: [create] at [await this.#renderer.cloneProgram( ... )];
      [ref] is the entry of [#codeExecMap] the method read and
      [executable] its executable.
    - [Await]: [freeEntity], [addToScene], [removeFromScene] or [update] at
      [await promise]. *)
Inductive Task :=
  | Compile (id shaderId : string) (promise : nat)
      (program : GPUCompilableProgram) (c : Outcome Renderer.Compiling)
  | Clone (id shaderId : string) (ref executable : nat)
      (k : Outcome Renderer.Cloning)
  | Await (promise : nat) (call : Call).

(** How one run of the frame callback ends. *)
Inductive Tick :=
  | Stopped
  | Rescheduled
  | Suspended (t : Task) (rest : list Call).

(** The state [GPUEngine.create( cvs )] returns. *)
Definition initial (format : string) (canvas : Z * Z) : State :=
  {| device := {| nextHandle := 0; objects := ∅; ops := []; console := [] |};
     store := {| nextAddress := 0; executables := ∅; refCounters := ∅;
                 promises := ∅ |};
     renderer := {| globalBuffers := ∅; r_z := 0; r_format := format |};
     drawer := {| cameras := []; entities := []; sceneId := 0;
                  canvas := canvas; depthTexture := None |};
     engine := {| idExecMap := ∅; isPending := ∅; codeExecMap := ∅;
                  inExecution := false; events := []; isBusy := false;
                  scheduled := 0 |} |}.

(** Runs [m] and hands back what it returned or threw. *)
Definition attempt {A} (m : M A) : M (Outcome A) := λ s, ((m s).1, Ok (m s).2).

(** [this.#events.push({ method, args })] *)
Definition enqueue (c : Call) : M unit :=
  modify (on_engine (λ e, set_events (events e ++ [c]) e)).

Section Engine.

(** [String( x )] of an element [x] of a typed array of the given type,
    given as the bytes of the element: the part of [Array.prototype.join]
    that depends on number formatting. *)
Variable numberToString : Ty → list byte → string.

(** The elements of [new TypeConstructor[type]( values )]. *)
Definition elements (type : Ty) (values : list byte) : list (list byte) :=
  let w := BYTES_PER_ELEMENT type in
  reshape (replicate (length values / w) w) values.

(** [map[i] = v] on an array that may have holes. *)
Definition setAt (i : nat) (v : string) (map : list (option string))
  : list (option string) :=
  if (i <? length map)%nat then <[i := Some v]> map
  else map ++ replicate (i - length map) None ++ [Some v].

(** [GPUEngine.#attribToString] *)
Definition attribToString (attrib : list VertexTransferable) : Outcome string :=
  map ← loop (λ _ buff map,
                _ ← Renderer.typedArray (v_type buff) (v_values buff);
                mret (setAt (v_location buff)
                        (String.concat ","
                           (numberToString (v_type buff)
                              <$> elements (v_type buff) (v_values buff)))
                        map))
             0 attrib [];
  if (length map =? 0)%nat then mret ""
  else
    match omap id map with
    | [] => Throw (TypeError_undefined "reduce")
    | v :: rest => mret (foldl (λ p v, p +:+ "/" +:+ v) v rest)
    end.

(** [GPUEngine.#getShaderId] *)
Definition getShaderId (program : GPUCompilableProgram) : string :=
  code program
  +:+ JS.orString (cullMode program) "back"
  +:+ JS.orString (topology program) "triangle-list"
  +:+ JS.orString (fragmentEntryPoint program) "fragment_main"
  +:+ JS.orString (vertexEntryPoint program) "vertex_main".

(** The key of [#codeExecMap] that [create] computes. *)
Definition shaderIdOf (program : GPUCompilableProgram) : Outcome string :=
  attribs ← attribToString (vertexDescriptor program);
  mret (getShaderId program +:+ attribs).

(** [GPUEngine.create], up to its [await]. *)
Definition create (id : string) (program : GPUCompilableProgram)
  : M (option Task) :=
  busy ← gets (λ s, isBusy (engine s));
  if busy : bool then _ ← enqueue (create_ id program); mret None
  else
    known ← gets (λ s, idExecMap (engine s) !! id);
    if bool_decide (is_Some known) then throw (ReferenceError_inUse id)
    else
      shaderId ← lift (shaderIdOf program);
      shared ← gets (λ s, codeExecMap (engine s) !! shaderId);
      match shared with
      | Some ref =>
          executable ← gets (λ s, rc_executable (Heap.refCounter ref s));
          k ← attempt (Renderer.cloneProgram_begin program);
          mret (Some (Clone id shaderId ref executable k))
      | None =>
          c ← attempt (Renderer.createProgram_begin program);
          promise ← Heap.new_promise
                      (match c with Ok _ => Pending | Throw e => Rejected e end);
          _ ← modify (on_engine (λ e,
                 set_isPending (<[id := promise]> (isPending e)) e));
          mret (Some (Compile id shaderId promise program c))
      end.

(** The common opening of [freeEntity], [addToScene], [removeFromScene]
    and [update]: queue when busy; otherwise run [body] when the id is
    registered, wait on the pending promise when there is one, and throw
    when there is none. *)
Definition guarded (c : Call) (id : string) (body : M unit) : M (option Task) :=
  busy ← gets (λ s, isBusy (engine s));
  if busy : bool then _ ← enqueue c; mret None
  else
    known ← gets (λ s, idExecMap (engine s) !! id);
    if bool_decide (is_Some known) then _ ← body; mret None
    else
      promise ← gets (λ s, isPending (engine s) !! id);
      match promise with
      | Some promise => mret (Some (Await promise c))
      | None => throw (ReferenceError_noEntity id)
      end.

(** [this.#idExecMap.get( id ).executable] *)
Definition executableOf (id : string) : M nat :=
  known ← gets (λ s, idExecMap (engine s) !! id);
  match known with
  | Some idRef => mret (sr_executable idRef)
  | None => throw (TypeError_undefined "executable")
  end.

(** [removeFromScene] past its opening. *)
Definition removeFromScene_body (id : string) : M unit :=
  executable ← executableOf id;
  Drawer.remove executable.

Definition removeFromScene (id : string) : M (option Task) :=
  guarded (removeFromScene_ id) id (removeFromScene_body id).

(** [addToScene] past its opening. *)
Definition addToScene_body (id : string) : M unit :=
  executable ← executableOf id;
  _ ← Drawer.add executable;
  Drawer.sort.

Definition addToScene (id : string) : M (option Task) :=
  guarded (addToScene_ id) id (addToScene_body id).

(** [update] past its opening. *)
Definition update_body (id : string) (group binding : nat)
  (resource : UpdateValue) (z' : option Z) : M unit :=
  updated ← executableOf id;
  e ← gets (Heap.executable updated);
  _ ← Heap.set_executable updated
        {| z := z'; indexType := indexType e;
           vertexCount := vertexCount e; indexBuffer := indexBuffer e;
           pipeline := pipeline e; bindGroups := bindGroups e;
           uniforms := uniforms e; uniformBuffer := uniformBuffer e;
           vertexBuffer := vertexBuffer e |};
  _ ← Drawer.sort;
  Renderer.updateBinding updated group binding resource.

Definition update (id : string) (group binding : nat) (resource : UpdateValue)
  (z : option Z) : M (option Task) :=
  guarded (update_ id group binding resource z) id
    (update_body id group binding resource z).

(** The loops of [freeEntity] over [ref.executable.uniforms]. *)
Definition destroyTextures (uniforms : list (list UniformDescriptor)) : M unit :=
  forEach (λ _ group _,
             forEach (λ _ d _,
                        match ud_texture d with
                        | Some texture => GPU.emit (Destroy texture)
                        | None => mret tt
                        end)
                     0 group tt)
          0 uniforms tt.

(** [freeEntity] past its opening.  Its call of [removeFromScene] is not
    awaited. *)
Definition freeEntity_body (id : string) : M unit :=
  _ ← detached (removeFromScene id);
  known ← gets (λ s, idExecMap (engine s) !! id);
  match known with
  | None => throw (TypeError_undefined "shaderId")
  | Some idRef =>
      shared ← gets (λ s, codeExecMap (engine s) !! sr_shaderId idRef);
      match shared with
      | None => throw (TypeError_undefined "count")
      | Some ref =>
          r ← gets (Heap.refCounter ref);
          let count := (rc_count r - 1)%Z in
          _ ← Heap.set_refCounter ref
                {| rc_executable := rc_executable r; rc_count := count |};
          _ ← Drawer.remove (sr_executable idRef);
          shared_executable ← gets (Heap.executable (rc_executable r));
          _ ← GPU.destroy "destroy" (uniformBuffer shared_executable);
          _ ← (if (count <=? 0)%Z then
                 _ ← GPU.emit (Destroy (indexBuffer shared_executable));
                 _ ← GPU.destroy "destroy" (vertexBuffer shared_executable);
                 _ ← destroyTextures (uniforms shared_executable);
                 modify (on_engine (λ e,
                   set_codeExecMap (delete (sr_shaderId idRef) (codeExecMap e))
                     e))
               else mret tt);
          modify (on_engine (λ e, set_idExecMap (delete id (idExecMap e)) e))
      end
  end.

Definition freeEntity (id : string) : M (option Task) :=
  guarded (freeEntity_ id) id (freeEntity_body id).

(** [GPUEngine.createGlobalBuffer] *)
Definition createGlobalBuffer (bufferId : string) (type : option Ty)
  (size : nat) : M unit :=
  busy ← gets (λ s, isBusy (engine s));
  if busy : bool then enqueue (createGlobalBuffer_ bufferId type size)
  else Renderer.createGlobalBuffer bufferId type size.

(** [GPUEngine.writeGlobalBuffer] *)
Definition writeGlobalBuffer (bufferId : string) (byteOffset : nat) (type : Ty)
  (values : list byte) (priority : bool) : M unit :=
  busy ← gets (λ s, isBusy (engine s));
  if negb priority && busy then
    enqueue (writeGlobalBuffer_ bufferId byteOffset type values)
  else Renderer.writeGlobalBuffer bufferId byteOffset type values.

(** [GPUEngine.createCamera] *)
Definition createCamera (sceneId cameraId : Z) (values : list byte) : M unit :=
  busy ← gets (λ s, isBusy (engine s));
  if busy : bool then enqueue (createCamera_ sceneId cameraId values)
  else
    has ← Renderer.hasDefaultCamera;
    _ ← (if negb has then
           _ ← Renderer.createGlobalBuffer DEFAULT_CAMERA_BUFFER_ID (Some f32) 16;
           Renderer.writeGlobalBuffer DEFAULT_CAMERA_BUFFER_ID 0 f32 values
         else mret tt);
    Drawer.addCamera values sceneId cameraId.

(** [GPUEngine.updateCamera] *)
Definition updateCamera (sceneId cameraId : Z) (values : list byte) : M unit :=
  busy ← gets (λ s, isBusy (engine s));
  if busy : bool then enqueue (updateCamera_ sceneId cameraId values)
  else Drawer.updateCamera values sceneId cameraId.

(** [this[ method ]( ...args )]: the call up to its first [await], and the
    task it is left in if it reached one. *)
Definition call (c : Call) : M (option Task) :=
  match c with
  | create_ id program => create id program
  | freeEntity_ id => freeEntity id
  | addToScene_ id => addToScene id
  | removeFromScene_ id => removeFromScene id
  | update_ id group binding resource z => update id group binding resource z
  | createGlobalBuffer_ bufferId type size =>
      _ ← createGlobalBuffer bufferId type size; mret None
  | writeGlobalBuffer_ bufferId byteOffset type values =>
      _ ← writeGlobalBuffer bufferId byteOffset type values false; mret None
  | createCamera_ sceneId cameraId values =>
      _ ← createCamera sceneId cameraId values; mret None
  | updateCamera_ sceneId cameraId values =>
      _ ← updateCamera sceneId cameraId values; mret None
  end.

(** What a method waiting in [Await] does once the promise is fulfilled. *)
Definition continuation (c : Call) : M unit :=
  match c with
  | freeEntity_ id => freeEntity_body id
  | addToScene_ id => addToScene_body id
  | removeFromScene_ id => removeFromScene_body id
  | update_ id group binding resource z =>
      update_body id group binding resource z
  | _ => mret tt
  end.

(** The task goes past its [await] if it can; it is returned unchanged if
    what it waits for has not happened.  Settling the promise of
    [createProgram] and running the rest of [create], which was the first
    to wait on it, are one step. *)
Definition resume (t : Task) : M (option Task) :=
  match t with
  | Compile id shaderId promise program c =>
      c ← lift c;
      executable ← Renderer.createProgram_end program c;
      _ ← Heap.set_promise promise (Fulfilled executable);
      _ ← modify (on_engine (λ e,
             set_idExecMap
               (<[id := {| sr_executable := executable;
                           sr_shaderId := shaderId |}]> (idExecMap e)) e));
      ref ← Heap.new_refCounter
              {| rc_executable := executable; rc_count := 1 |};
      _ ← modify (on_engine (λ e,
             set_codeExecMap (<[shaderId := ref]> (codeExecMap e)) e));
      _ ← modify (on_engine (λ e,
             set_isPending (delete id (isPending e)) e));
      mret None
  | Clone id shaderId ref executable k =>
      k ← lift k;
      cloned ← Renderer.cloneProgram_end executable k;
      _ ← modify (on_engine (λ e,
             set_idExecMap
               (<[id := {| sr_executable := cloned;
                           sr_shaderId := shaderId |}]> (idExecMap e)) e));
      r ← gets (Heap.refCounter ref);
      _ ← Heap.set_refCounter ref
            {| rc_executable := rc_executable r;
               rc_count := (rc_count r + 1)%Z |};
      mret None
  | Await promise c =>
      p ← gets (Heap.promise promise);
      match p with
      | Pending => mret (Some t)
      | Rejected e => throw e
      | Fulfilled _ => _ ← continuation c; mret None
      end
  end.

(** [await this[ method ]( ...args )] with nothing else running in
    between: [None] when the call has returned. *)
Definition await (c : Call) : M (option Task) :=
  t ← call c;
  match t with
  | None => mret None
  | Some t => resume t
  end.

(** The loop of the frame callback over [this.#events], then
    [requestAnimationFrame( draw )].  The loop does not empty the array. *)
Fixpoint drain (queued : list Call) : M Tick :=
  match queued with
  | [] =>
      _ ← modify (on_engine (λ e, set_scheduled (S (scheduled e)) e));
      mret Rescheduled
  | c :: queued =>
      t ← await c;
      match t with
      | None => drain queued
      | Some t => mret (Suspended t queued)
      end
  end.

(** The frame callback: the [async] arrow function [draw] inside
    [GPUEngine.draw]. *)
Definition tick : M Tick :=
  _ ← modify (on_engine (set_isBusy true));
  _ ← Drawer.draw writeGlobalBuffer;
  running ← gets (λ s, inExecution (engine s));
  if negb running then mret Stopped
  else
    _ ← modify (on_engine (set_isBusy false));
    queued ← gets (λ s, events (engine s));
    drain queued.

(** The host runs a callback given to [requestAnimationFrame]. *)
Definition frame : M Tick :=
  _ ← modify (on_engine (λ e, set_scheduled (pred (scheduled e)) e));
  tick.

(** [GPUEngine.draw]: [None] when the loop was running already. *)
Definition draw : M (option Tick) :=
  running ← gets (λ s, inExecution (engine s));
  if running : bool then mret None
  else
    _ ← modify (on_engine (set_inExecution true));
    r ← tick;
    mret (Some r).

(** [GPUEngine.stop] *)
Definition stop : M unit :=
  modify (on_engine (set_inExecution false)).

End Engine.

End GPUEngine.

(** * Reference definitions

    What the properties below compare the code with. *)

(** The size [#createUniformBuffer] asks for: the sizes of the buffer
    slots that have no [global] member or whose [global] has no id. *)
Definition localBytes (binding : GPUBinding) : nat :=
  match resource binding with
  | RBuffer b =>
      match b_global b with
      | Some g => if Renderer.idGiven g then 0
                  else BYTES_PER_ELEMENT (b_type b) * b_size b
      | None => BYTES_PER_ELEMENT (b_type b) * b_size b
      end
  | _ => 0
  end.

(** A buffer slot flagged as the camera's, as the entity classes declare
    it: [{ size: 16, type: Type.f32, global: { isCamera: true } }]. *)
Definition cameraSlot : GPUBinding :=
  {| usage := "vertex";
     resource := RBuffer {| b_type := f32; b_size := 16;
                            b_global := Some {| g_id := None;
                                                g_isCamera := true;
                                                g_byteOffset := 0 |} |} |}.

(** The bytes of element [n] of the values of [d]. *)
Definition slice (d : VertexTransferable) (n : nat) : list byte :=
  let w := BYTES_PER_ELEMENT (v_type d) in
  take w (drop (n * w) (v_values d)).

(** The little-endian value stored for element [n]: its bytes, or the
    quiet NaN of the same sign and fraction if it is a signalling NaN. *)
Definition chunk (d : VertexTransferable) (n : nat) : list byte :=
  Renderer.readBack (v_type d) (slice d n).

(** No element of the attribute is a NaN. *)
Definition numeric (d : VertexTransferable) : Prop :=
  v_type d = f32 →
  ∀ n, Renderer.isNaN32 (slice d n) = false.

(** Element-major interleaving of [len] elements: for each element, for
    each attribute, for each component, the bytes of that component. *)
Definition interleaved (attribs : list VertexTransferable) (len : nat)
  : list byte :=
  i ← seq 0 len; d ← attribs; k ← seq 0 (v_size d); chunk d (k + i * v_size d).

(** The same interleaving of the bytes as they are in the values. *)
Definition verbatim (attribs : list VertexTransferable) (len : nat)
  : list byte :=
  i ← seq 0 len; d ← attribs; k ← seq 0 (v_size d); slice d (k + i * v_size d).

(** [component_count × byte_width] of one attribute. *)
Definition attributeBytes (d : VertexTransferable) : nat :=
  v_size d * BYTES_PER_ELEMENT (v_type d).

(** The stride: the sum over the attributes. *)
Definition strideOf (attribs : list VertexTransferable) : nat :=
  sum_list_with attributeBytes attribs.

(** The format tag of a legal combination. *)
Definition formatTag (type : Ty) (size : nat) : string :=
  if bool_decide (size = 1) then TypeFormat type
  else TypeFormat type +:+ "x" +:+ pretty size.

(** The attribute layout: each attribute at the running stride. *)
Fixpoint layoutFrom (running : nat) (attribs : list VertexTransferable)
  : list GPUVertexAttribute :=
  match attribs with
  | [] => []
  | d :: attribs =>
      {| shaderLocation := v_location d; offset := running;
         format := formatTag (v_type d) (v_size d) |}
      :: layoutFrom (running + attributeBytes d) attribs
  end.

(** A combination [#typeToFormat] accepts. *)
Definition legal (d : VertexTransferable) : Prop :=
  ¬ ((v_size d = 1 ∨ v_size d = 3) ∧ v_type d ∈ [u8; i8; u16; i16]).

(** The attribute holds exactly [len] whole elements. *)
Definition holds (len : nat) (d : VertexTransferable) : Prop :=
  1 ≤ v_size d
  ∧ length (v_values d) = len * v_size d * BYTES_PER_ELEMENT (v_type d).

(** The locals of [#chainArrays] once [done] has been written into a view
    of [total] bytes: the view and [offset]. *)
Definition filled (total : nat) (done : list byte) : list byte * nat :=
  (done ++ replicate (total - length done) x00, length done).

(** The components of element [i] of attribute [d]. *)
Definition components (i : nat) (d : VertexTransferable) : list byte :=
  k ← seq 0 (v_size d); chunk d (k + i * v_size d).

(** ** Sample inputs *)

(** A new engine on a 300 × 150 canvas. *)
Definition engine0 : State := GPUEngine.initial "bgra8unorm" (300, 150)%Z.

(** Four positions: [{ location: 0, type: Type.f32, size: 3 }]. *)
Definition position4 : VertexTransferable :=
  {| v_location := 0; v_type := f32; v_size := 3;
     v_values := replicate 48 x01 |}.

(** Four colours: [{ location: 1, type: Type.f32, size: 4 }]. *)
Definition color4 : VertexTransferable :=
  {| v_location := 1; v_type := f32; v_size := 4;
     v_values := replicate 64 x02 |}.

(** Three colours only. *)
Definition color3 : VertexTransferable :=
  {| v_location := 1; v_type := f32; v_size := 4;
     v_values := replicate 48 x02 |}.

(** One unsigned byte per vertex: [{ type: Type.u8, size: 1 }]. *)
Definition narrowScalar : VertexTransferable :=
  {| v_location := 0; v_type := u8; v_size := 1; v_values := [x07] |}.

(** A per-entity matrix: [{ size: 16, type: Type.f32 }]. *)
Definition matrixSlot : GPUBinding :=
  {| usage := "vertex";
     resource := RBuffer {| b_type := f32; b_size := 16; b_global := None |} |}.

(** The descriptor of the entity classes: a matrix and the camera. *)
Definition shape : GPUCompilableProgram :=
  {| code := "shader"; topology := None; cullMode := Some "none";
     vertexEntryPoint := Some "vs_main"; fragmentEntryPoint := Some "fs_main";
     groups := [[matrixSlot; cameraSlot]];
     vertexDescriptor := [position4; color4];
     indices := [0; 1; 2; 1; 2; 3]%Z |}.

(** The same shader and geometry with no bind group, as in the usage
    example of [GPUEngine.create]. *)
Definition bare : GPUCompilableProgram :=
  {| code := "shader"; topology := None; cullMode := Some "none";
     vertexEntryPoint := Some "vs_main"; fragmentEntryPoint := Some "fs_main";
     groups := [];
     vertexDescriptor := [position4; color4];
     indices := [0; 1; 2; 1; 2; 3]%Z |}.

(** A rendering of typed-array elements for the samples: the decimal
    value of the element's first byte. *)
Definition firstByte (type : Ty) (element : list byte) : string :=
  match element with
  | b :: _ => pretty (Byte.to_nat b)
  | [] => ""
  end.

(** The state a sequence of calls leaves, each awaited before the next. *)
Definition after (calls : list Call) (s : State) : State :=
  foldl (λ s c, (GPUEngine.await firstByte c s).1) s calls.

(** ** Frames

    [later P s s']: [s'] differs from [s] in its device only; the handle
    counter has not gone down and every object that is new or replaced
    satisfies [P]. *)
Definition later (P : GPUObject → Prop) (s s' : State) : Prop :=
  store s' = store s ∧ renderer s' = renderer s ∧ drawer s' = drawer s
  ∧ engine s' = engine s
  ∧ nextHandle (device s) ≤ nextHandle (device s')
  ∧ ∀ h o, objects (device s') !! h = Some o →
           objects (device s) !! h = Some o ∨ P o.

(** A computation that only ever takes such steps. *)
Definition steady {A} (P : GPUObject → Prop) (m : M A) : Prop :=
  ∀ s, later P s (m s).1.

(** The objects a pipeline is shared for: its vertex and index buffers and
    the pipeline itself. *)
Definition shared_kind (o : GPUObject) : Prop :=
  match o with
  | Buffer vertex _ _ | Buffer index _ _ | RenderPipeline _ _ _ _ _ _ _ _ _ =>
      True
  | _ => False
  end.

(** Every other object. *)
Definition own_kind (o : GPUObject) : Prop := ¬ shared_kind o.

(** No restriction on the objects created. *)
Definition any_kind (o : GPUObject) : Prop := True.

Definition isDraw (c : Command) : bool :=
  match c with DrawIndexed _ => true | _ => false end.

(** The walk over the draw list issues this many indexed draws. *)
Definition drawCalls (s : State) : nat :=
  length (filter (λ c, Is_true (isDraw c)) (Drawer.draw_list s)).

(** How often an executable is in the draw list. *)
Definition occurrences (a : nat) (s : State) : nat :=
  length (filter (λ x, x = a) (entities (drawer s))).

(** The state calls leave when each returns at once. *)
Definition issued (numberToString : Ty → list byte → string)
  (calls : list Call) (s : State) : State :=
  foldl (λ s c, (GPUEngine.call numberToString c s).1) s calls.

(** The state in which [draw()], called on a stopped engine, starts on
    the queue: the running flag is set, the frame has been drawn and the
    busy flag is cleared. *)
Definition unblocked (s : State) : State :=
  on_engine (set_isBusy false)
    (Drawer.draw GPUEngine.writeGlobalBuffer
       (on_engine (set_isBusy true) (on_engine (set_inExecution true) s))).1.

(** The handles [destroy()] was called on, in order. *)
Definition destroyed (s : State) : list nat :=
  omap (λ op, match op with Destroy h => Some h | _ => None end)
       (ops (device s)).

(** The executable registered under an id. *)
Definition executableOf (id : string) (s : State) : option GPUExecutable :=
  (λ r, Heap.executable (sr_executable r) s) <$> idExecMap (engine s) !! id.

(** A stopped engine holding entity "a", after the frame that saw the
    cleared running flag. *)
Definition stopped : State :=
  let s := after [create_ "a" shape] engine0 in
  let s := (GPUEngine.draw firstByte s).1 in
  let s := (GPUEngine.stop s).1 in
  (GPUEngine.frame firstByte s).1.

(** The reference count of the shared entry of a shader id, 0 when there
    is no entry. *)
Definition references (shaderId : string) (s : State) : Z :=
  match codeExecMap (engine s) !! shaderId with
  | Some ref => rc_count (Heap.refCounter ref s)
  | None => 0
  end.

(** What two creations with one shader id leave: [s] is the state before
    the first, [s1] the state between the two and [s2] the state after the
    second.  Both ids are registered under the shader id, with two
    executables that have the same pipeline, vertex buffer and index
    buffer; the second creation made no object of those kinds; each
    creation added one to the reference count of the shared entry; the
    two executables have each a uniform buffer of their own and bind
    groups of their own. *)
Definition shares (shaderId id1 id2 : string) (s s1 s2 : State) : Prop :=
  ∃ a1 a2,
    idExecMap (engine s2) !! id1
    = Some {| sr_executable := a1; sr_shaderId := shaderId |}
    ∧ idExecMap (engine s2) !! id2
      = Some {| sr_executable := a2; sr_shaderId := shaderId |}
    ∧ a1 ≠ a2
    ∧ pipeline (Heap.executable a1 s2) = pipeline (Heap.executable a2 s2)
    ∧ vertexBuffer (Heap.executable a1 s2)
      = vertexBuffer (Heap.executable a2 s2)
    ∧ indexBuffer (Heap.executable a1 s2) = indexBuffer (Heap.executable a2 s2)
    ∧ (∀ h o, objects (device s2) !! h = Some o → shared_kind o →
              objects (device s1) !! h = Some o)
    ∧ references shaderId s1 = (references shaderId s + 1)%Z
    ∧ references shaderId s2 = (references shaderId s + 2)%Z
    ∧ (∃ u1 u2, uniformBuffer (Heap.executable a1 s2) = Some u1
                ∧ uniformBuffer (Heap.executable a2 s2) = Some u2
                ∧ u1 ≠ u2)
    ∧ bindGroups (Heap.executable a1 s2) ≠ []
    ∧ bindGroups (Heap.executable a2 s2) ≠ []
    ∧ ∀ g, g ∈ bindGroups (Heap.executable a1 s2) →
           g ∉ bindGroups (Heap.executable a2 s2).

(** * Reference definitions for the resource tables *)

(** What [#createBindGroup] pushes to the uniform table for a binding,
    when it pushes anything: [h] is the handle the device gives out next
    and [offset] the running offset.  A buffer slot with a [global] member
    is bound and not recorded. *)
Definition descriptorOf (h offset : nat) (binding : GPUBinding)
  : option UniformDescriptor :=
  match resource binding with
  | RBuffer b =>
      match b_global b with
      | Some _ => None
      | None =>
          Some {| ud_offset := Some offset;
                  ud_size := Some (BYTES_PER_ELEMENT (b_type b) * b_size b);
                  ud_type := Some (b_type b);
                  ud_width := None; ud_height := None; ud_texture := None |}
      end
  | RTexture t =>
      Some {| ud_offset := None; ud_size := None; ud_type := None;
              ud_width := Some (t_width t - default 0 (t_offsetX t))%Z;
              ud_height := Some (t_height t - default 0 (t_offsetY t))%Z;
              ud_texture := Some h |}
  | RSampler _ =>
      Some {| ud_offset := None; ud_size := None; ud_type := None;
              ud_width := None; ud_height := None; ud_texture := None |}
  end.

(** The device objects made for a binding: a texture, a sampler, or
    nothing for a buffer slot. *)
Definition objectsOf (binding : GPUBinding) : nat :=
  match resource binding with
  | RBuffer _ => 0
  | _ => 1
  end.

(** The bytes of the entity's uniform buffer a binding is given. *)
Definition ownBytes (binding : GPUBinding) : nat :=
  match resource binding with
  | RBuffer b =>
      match b_global b with
      | Some _ => 0
      | None => BYTES_PER_ELEMENT (b_type b) * b_size b
      end
  | _ => 0
  end.

(** What a binding is bound to. *)
Definition boundOf (globals : gmap string nat) (buffer : option nat)
  (h offset : nat) (binding : GPUBinding) : BoundResource :=
  match resource binding with
  | RBuffer b =>
      let size := BYTES_PER_ELEMENT (b_type b) * b_size b in
      match b_global b with
      | Some g =>
          if g_isCamera g
          then BoundBuffer (globals !! DEFAULT_CAMERA_BUFFER_ID) 0 size
          else BoundBuffer (g_id g ≫= λ id, globals !! id) (g_byteOffset g)
                 size
      | None => BoundBuffer buffer offset size
      end
  | RTexture _ => BoundTexture h
  | RSampler _ => BoundSampler h
  end.

(** The descriptors of one group, in the order of its bindings. *)
Fixpoint rowFrom (h offset : nat) (group : list GPUBinding)
  : list UniformDescriptor :=
  match group with
  | [] => []
  | binding :: group =>
      option_list (descriptorOf h offset binding)
      ++ rowFrom (h + objectsOf binding) (offset + ownBytes binding) group
  end.

(** The entries of one group: entry [j] binds binding [j]. *)
Fixpoint entriesFrom (globals : gmap string nat) (buffer : option nat)
  (h offset j : nat) (group : list GPUBinding) : list BindEntry :=
  match group with
  | [] => []
  | binding :: group =>
      {| be_binding := j;
         be_resource := boundOf globals buffer h offset binding |}
      :: entriesFrom globals buffer (h + objectsOf binding)
           (offset + ownBytes binding) (S j) group
  end.

(** One row for each group.  After the objects of its bindings a group
    takes one more handle, for its bind group. *)
Fixpoint tableFrom (h offset : nat) (groups : list (list GPUBinding))
  : list (list UniformDescriptor) :=
  match groups with
  | [] => []
  | group :: groups =>
      rowFrom h offset group
      :: tableFrom (S (h + sum_list_with objectsOf group))
           (offset + sum_list_with ownBytes group) groups
  end.

(** The bind groups, each with its handle: group [i] is labelled
    ["group" + i], made for layout [i] and holds the entries of its
    bindings. *)
Fixpoint bindGroupsFrom (globals : gmap string nat) (layouts : list nat)
  (buffer : option nat) (h offset i : nat) (groups : list (list GPUBinding))
  : list (nat * GPUObject) :=
  match groups with
  | [] => []
  | group :: groups =>
      (h + sum_list_with objectsOf group,
       BindGroup ("group" +:+ pretty i) (layouts !! i)
         (entriesFrom globals buffer h offset 0 group))
      :: bindGroupsFrom globals layouts buffer
           (S (h + sum_list_with objectsOf group))
           (offset + sum_list_with ownBytes group) (S i) groups
  end.

(** The uniform table as an array of [n] rows: the rows given, then empty
    ones. *)
Definition tableOf (rows : list (list UniformDescriptor)) (n : nat)
  : list (list UniformDescriptor) :=
  (λ k, default [] (rows !! k)) <$> seq 0 n.

(** ** Frames of the device and of the engine *)

(** A computation all of whose steps are in [R]. *)
Definition upholds {A} (R : State → State → Prop) (m : M A) : Prop :=
  ∀ s, R s (m s).1.

(** The handle counter has not gone down and every handle given out
    before still names the same object. *)
Definition grows (s s' : State) : Prop :=
  nextHandle (device s) ≤ nextHandle (device s')
  ∧ ∀ h, h < nextHandle (device s) →
         objects (device s') !! h = objects (device s) !! h.

(** Where the local buffer slots of a list of descriptors end when they
    lie back to back from [from] on, in the order of the list; [None]
    when one of them starts elsewhere. *)
Fixpoint extent (from : nat) (ds : list UniformDescriptor) : option nat :=
  match ds with
  | [] => Some from
  | d :: ds =>
      match ud_offset d, ud_size d with
      | Some offset, Some size =>
          if decide (offset = from) then extent (from + size) ds else None
      | _, _ => extent from ds
      end
  end.

(** ** Further sample inputs *)

(** A sampler slot as [SpriteEntity] declares it: [{ addressMode: {} }]. *)
Definition samplerSlot : GPUBinding :=
  {| usage := "fragment";
     resource := RSampler {| s_addressModeU := None; s_addressModeV := None;
                             s_addressModeW := None; s_compare := None;
                             s_lodMaxClamp := None; s_lodMinClamp := None;
                             s_maxAnisotropy := None; s_magFilter := None;
                             s_minFilter := None; s_mipmapFilter := None |} |}.

(** A texture slot as [SpriteEntity] declares it. *)
Definition textureSlot : GPUBinding :=
  {| usage := "fragment";
     resource := RTexture {| t_img := "sprite.png"; t_width := 64;
                             t_height := 32; t_offsetX := None;
                             t_offsetY := None; t_format := "rgba8unorm";
                             t_dimension := Some "2d" |} |}.

(** The bind groups of [TexturedEntity] and [SpriteEntity]: the matrix,
    the camera, a sampler and a texture. *)
Definition spriteGroups : list (list GPUBinding) :=
  [[matrixSlot; cameraSlot; samplerSlot; textureSlot]].

(** The descriptor of [SpriteEntity]: no vertex attribute, six indices. *)
Definition sprite : GPUCompilableProgram :=
  {| code := "sprite shader"; topology := None; cullMode := Some "none";
     vertexEntryPoint := Some "vs_main"; fragmentEntryPoint := Some "fs_main";
     groups := spriteGroups;
     vertexDescriptor := [];
     indices := [0; 1; 2; 2; 1; 3]%Z |}.

(** ** What a compilation leaves *)

(** The indices [#createIndexBuffer] uploads: those given or, when none
    is given, one for each vertex. *)
Definition indexed (indices : list Z) (size : Q) : list Z :=
  if (length indices <=? 0)%nat
  then indices ++ (Z.of_nat <$> seq 0 (JS.iterations size))
  else indices.

(** The index type it selects. *)
Definition indexWidth (size : Q) : IndexType :=
  if JS.gt size Renderer.MAX_U16 then uint32 else uint16.

(** The pipeline [createProgram] asks for, with [layout] and [module]
    the handles of its pipeline layout and shader module. *)
Definition pipelineOf (program : GPUCompilableProgram)
  (vertex : Renderer.VertexBuffer) (format : string) (layout module : nat)
  : GPUObject :=
  RenderPipeline layout
    (JS.orString (cullMode program) "back")
    (JS.orString (topology program) "triangle-list")
    module
    (JS.orString (vertexEntryPoint program) "vertex_main")
    (Renderer.vb_stride vertex) (Renderer.vb_attributes vertex)
    (JS.orString (fragmentEntryPoint program) "fragment_main")
    format.

(** The executable [createProgram] returns when it goes past its [await]
    in state [s], holding [c]: the index buffer, the shader module, the
    pipeline layout and the pipeline take the next four handles. *)
Definition compiled (program : GPUCompilableProgram) (c : Renderer.Compiling)
  (s : State) : GPUExecutable :=
  let size := Renderer.vb_size (Renderer.c_vertex c) in
  {| z := Some (Z.of_nat (r_z (renderer s)));
     indexType := indexWidth size;
     vertexCount := length (indexed (indices program) size);
     indexBuffer := nextHandle (device s);
     pipeline := 3 + nextHandle (device s);
     bindGroups := Renderer.bg_bindGroups (Renderer.c_bind c);
     uniforms := Renderer.bg_uniforms (Renderer.c_bind c);
     uniformBuffer := Renderer.c_uniformBuffer c;
     vertexBuffer := Renderer.vb_buffer (Renderer.c_vertex c) |}.

(** The executable [cloneProgram] returns for [executable] when it goes
    past its [await] in state [s], holding [k]. *)
Definition cloned (executable : nat) (k : Renderer.Cloning) (s : State)
  : GPUExecutable :=
  let e := Heap.executable executable s in
  {| z := Some (Z.of_nat (r_z (renderer s)));
     indexType := indexType e;
     vertexCount := vertexCount e;
     indexBuffer := indexBuffer e;
     pipeline := pipeline e;
     bindGroups := Renderer.bg_bindGroups (Renderer.k_bind k);
     uniforms := Renderer.bg_uniforms (Renderer.k_bind k);
     uniformBuffer := Renderer.k_uniformBuffer k;
     vertexBuffer := vertexBuffer e |}.

(** The device once [createProgram] has gone past its [await]. *)
Definition compiledDevice (program : GPUCompilableProgram)
  (c : Renderer.Compiling) (format : string) (d : Device) : Device :=
  let size := Renderer.vb_size (Renderer.c_vertex c) in
  let used := indexed (indices program) size in
  let h := nextHandle d in
  {| nextHandle := 4 + h;
     objects :=
       <[3 + h := pipelineOf program (Renderer.c_vertex c) format (2 + h)
                    (1 + h)]>
         (<[2 + h := PipelineLayout (Renderer.c_bindGroupLayouts c)]>
            (<[1 + h := ShaderModule (code program)]>
               (<[h := Buffer index
                         (JS.ofNat (length used
                                    * Renderer.indexBytes (indexWidth size)))
                         "index buffer"]> (objects d))));
     ops := ops d ++ [SetIndices h (indexWidth size)
                        (Renderer.stored (indexWidth size) <$> used)];
     console :=
       console d ++ (if (length (indices program) <=? 0)%nat
                     then ["[wgpu] no indices found."] else []) |}.

(** [this.#z++] *)
Definition nextZ (r : RendererState) : RendererState :=
  {| globalBuffers := globalBuffers r; r_z := S (r_z r);
     r_format := r_format r |}.

(** The store with a new object at the next address. *)
Definition allocated (e : GPUExecutable) (st : Store) : Store :=
  {| nextAddress := S (nextAddress st);
     executables := <[nextAddress st := e]> (executables st);
     refCounters := refCounters st; promises := promises st |}.

(** The device objects with one layout for each group, from handle [h]
    on. *)
Fixpoint withLayouts (h : nat) (groups : list (list GPUBinding))
  (objs : gmap nat GPUObject) : gmap nat GPUObject :=
  match groups with
  | [] => objs
  | group :: groups =>
      withLayouts (S h) groups
        (<[h := BindGroupLayout (imap Renderer.layoutEntry group)]> objs)
  end.

(** ** Updating a binding *)

(** The bindings [#createBindGroup] records in the uniform table: all
    but the buffer slots with a [global] member. *)
Definition recorded (binding : GPUBinding) : bool :=
  match resource binding with
  | RBuffer b =>
      match b_global b with
      | Some _ => false
      | None => true
      end
  | _ => true
  end.

(** The place of binding [j] of a group in the row of the group: the
    number of recorded bindings before it. *)
Definition slotIndex (group : list GPUBinding) (j : nat) : nat :=
  length (filter (λ binding, Is_true (recorded binding)) (take j group)).

(** [updated.z = z] *)
Definition withZ (z' : option Z) (e : GPUExecutable) : GPUExecutable :=
  {| z := z'; indexType := indexType e; vertexCount := vertexCount e;
     indexBuffer := indexBuffer e; pipeline := pipeline e;
     bindGroups := bindGroups e; uniforms := uniforms e;
     uniformBuffer := uniformBuffer e; vertexBuffer := vertexBuffer e |}.

(** The state [update] has reached when it calls [updateBinding]: the z
    of the executable at [a] is set and the draw list sorted again. *)
Definition rearranged (a : nat) (z' : option Z) (s : State) : State :=
  let s0 := on_store (λ st,
              {| nextAddress := nextAddress st;
                 executables := <[a := withZ z' (Heap.executable a s)]>
                                  (executables st);
                 refCounters := refCounters st;
                 promises := promises st |}) s in
  on_drawer (λ d, set_entities
                    (Drawer.sorted (Drawer.notAfter s0) (entities d)) d) s0.

(** The state with one more device operation. *)
Definition emitted (op : DeviceOp) (s : State) : State :=
  on_device (λ d, {| nextHandle := nextHandle d; objects := objects d;
                     ops := ops d ++ [op]; console := console d |}) s.

(** The number of slots [update] can reach in group [i]: the recorded
    bindings of the group, none when there is no such group. *)
Definition slots (program : GPUCompilableProgram) (i : nat) : nat :=
  match groups program !! i with
  | Some group => slotIndex group (length group)
  | None => 0
  end.

(** ** Freeing an entity *)

(** The textures recorded in a uniform table, in the order of the
    rows. *)
Definition texturesOf (uniforms : list (list UniformDescriptor)) : list nat :=
  omap ud_texture (concat uniforms).

(** The state with more device operations. *)
Definition emittedAll (more : list DeviceOp) (s : State) : State :=
  on_device (λ d, {| nextHandle := nextHandle d; objects := objects d;
                     ops := ops d ++ more; console := console d |}) s.

(** The state [freeEntity] has reached when it calls
    [ref.executable.uniformBuffer.destroy()]: the executable [a] of the
    id has been taken off the draw list twice, by [removeFromScene] and
    by [Drawer.remove], and the count of the shared entry [ref] is one
    less. *)
Definition released (a ref : nat) (s : State) : State :=
  on_store (λ st,
    {| nextAddress := nextAddress st; executables := executables st;
       refCounters :=
         <[ref := {| rc_executable := rc_executable (Heap.refCounter ref s);
                     rc_count := (rc_count (Heap.refCounter ref s) - 1)%Z |}]>
           (refCounters st);
       promises := promises st |})
    (on_drawer (λ d, set_entities
                       (Drawer.removeFirst a
                          (Drawer.removeFirst a (entities d))) d) s).

(** The engine without the id, and without the shader id when [last]. *)
Definition unregistered (id shaderId : string) (last : bool) (s : State)
  : State :=
  on_engine (λ e,
    set_idExecMap (delete id (idExecMap e))
      (if last then set_codeExecMap (delete shaderId (codeExecMap e)) e
       else e)) s.

(** ** What no call changes *)

(** From [s] to [s'] the flags of the engine, its queue, the number of
    scheduled frame callbacks, the current scene, the canvas and the
    target format are the same; no global buffer has been removed or
    replaced; the counters of the device, of the store and of the
    renderer have not gone down. *)
Definition untouched (s s' : State) : Prop :=
  isBusy (engine s') = isBusy (engine s)
  ∧ inExecution (engine s') = inExecution (engine s)
  ∧ events (engine s') = events (engine s)
  ∧ scheduled (engine s') = scheduled (engine s)
  ∧ sceneId (drawer s') = sceneId (drawer s)
  ∧ canvas (drawer s') = canvas (drawer s)
  ∧ r_format (renderer s') = r_format (renderer s)
  ∧ globalBuffers (renderer s) ⊆ globalBuffers (renderer s')
  ∧ nextHandle (device s) ≤ nextHandle (device s')
  ∧ nextAddress (store s) ≤ nextAddress (store s')
  ∧ r_z (renderer s) ≤ r_z (renderer s').

(** The same, for steps taken from the Idle state. *)
Definition calm (s s' : State) : Prop :=
  isBusy (engine s) = false → untouched s s'.

(** ** Cameras *)

(** The matrix registered for a camera of a scene. *)
Definition cameraOf (sceneId cameraId : Z) (s : State) : option (list byte) :=
  OrderedMap.get sceneId (cameras (drawer s)) ≫= OrderedMap.get cameraId.

(** The ids of the cameras of a scene, in the order they are drawn. *)
Definition cameraIds (sceneId : Z) (s : State) : list Z :=
  (default [] (OrderedMap.get sceneId (cameras (drawer s)))).*1.

(** The global buffer of the camera matrix. *)
Definition cameraBuffer (s : State) : option nat :=
  globalBuffers (renderer s) !! DEFAULT_CAMERA_BUFFER_ID.

(** The cameras [Drawer.draw] walks over: those of the current scene. *)
Definition activeCameras (s : State) : list (list byte) :=
  OrderedMap.values
    (default [] (OrderedMap.get (sceneId (drawer s)) (cameras (drawer s)))).

(** The pass a frame submits: the commands of the [Submit] that
    [Drawer.draw] ends with. *)
Definition framePass (s : State) : list Command :=
  match last (ops (device (Drawer.draw GPUEngine.writeGlobalBuffer s).1)) with
  | Some (Submit pass) => pass
  | _ => []
  end.

(** The indexed draws of one frame. *)
Definition frameDraws (s : State) : nat :=
  length (filter (λ c, Is_true (isDraw c)) (framePass s)).

(** The writes of the camera matrices that reach the device: those of
    the matrices that are a whole number of 32-bit elements, when the
    camera buffer exists. *)
Definition cameraWrites (s : State) (cams : list (list byte)) : list DeviceOp :=
  match cameraBuffer s with
  | Some h =>
      (λ cam, WriteBuffer (Some h) 0 cam)
        <$> filter (λ cam, length cam mod 4 = 0) cams
  | None => []
  end.

(** What the [depthTexture] getter does to the depth texture it has
    when the canvas has another size. *)
Definition renewal (s : State) : list DeviceOp :=
  match depthTexture (drawer s) with
  | Some (t, size) =>
      if bool_decide (size = canvas (drawer s)) then [] else [Destroy t]
  | None => []
  end.

(** ** The order of the draw list *)

(** [a] is not drawn after [b]: both have a z and that of [a] is not
    the larger one. *)
Definition zLe (s : State) (a b : nat) : Prop :=
  match z (Heap.executable a s), z (Heap.executable b s) with
  | Some x, Some y => (x ≤ y)%Z
  | _, _ => False
  end.

(** Every entry of the list is related to all entries after it. *)
Fixpoint ordered (le : nat → nat → Prop) (l : list nat) : Prop :=
  match l with
  | [] => True
  | x :: l => Forall (le x) l ∧ ordered le l
  end.

(** Every entry of the list has a z. *)
Definition haveZ (s : State) (l : list nat) : Prop :=
  Forall (λ a, is_Some (z (Heap.executable a s))) l.

(** What [update] has done when it calls [updateBinding]: the z of the
    executable at [a] is [z'], the store is otherwise as it was, and the
    draw list holds what it held.  The list is in the order of z when
    every entry has one; when an entry has none the comparator of the
    sort is not an order and how the list is arranged is left to the
    engine, so nothing more is said of it. *)
Definition zSet (a : nat) (z' : option Z) (s s' : State) : Prop :=
  executables (store s')
  = <[a := withZ z' (Heap.executable a s)]> (executables (store s))
  ∧ refCounters (store s') = refCounters (store s)
  ∧ promises (store s') = promises (store s)
  ∧ nextAddress (store s') = nextAddress (store s)
  ∧ entities (drawer s') ≡ₚ entities (drawer s)
  ∧ (haveZ s' (entities (drawer s')) →
     ordered (zLe s') (entities (drawer s')))
  ∧ cameras (drawer s') = cameras (drawer s)
  ∧ sceneId (drawer s') = sceneId (drawer s)
  ∧ renderer s' = renderer s
  ∧ engine s' = engine s.

(** [shape] with one triangle only. *)
Definition triangle : GPUCompilableProgram :=
  {| code := "shader"; topology := None; cullMode := Some "none";
     vertexEntryPoint := Some "vs_main"; fragmentEntryPoint := Some "fs_main";
     groups := [[matrixSlot; cameraSlot]];
     vertexDescriptor := [position4; color4];
     indices := [0; 1; 2]%Z |}.

(** ** The attribute part of the shader id *)

(** The table of [#attribToString] after the attributes: the entry of a
    location is the text of the last attribute with that location. *)
Definition attribTable (numberToString : Ty → list byte → string)
  (attrib : list VertexTransferable) (map : list (option string))
  : list (option string) :=
  foldl (λ map buff,
           GPUEngine.setAt (v_location buff)
             (String.concat ","
                (numberToString (v_type buff)
                   <$> GPUEngine.elements (v_type buff) (v_values buff)))
             map)
        map attrib.

(** The first attribute whose bytes are not a whole number of elements. *)
Definition ragged (attrib : list VertexTransferable)
  : option VertexTransferable :=
  head (filter (λ buff, length (v_values buff)
                        mod BYTES_PER_ELEMENT (v_type buff) ≠ 0) attrib).

(** [array.reduce( (p,v) => p + '/' + v )] over the entries that are
    not holes, the empty text when there is none. *)
Definition joined (map : list (option string)) : string :=
  match omap id map with
  | [] => ""
  | v :: rest => foldl (λ p v, p +:+ "/" +:+ v) v rest
  end.

(** * Properties *)

(** ** Numbers *)

Lemma iterations_ofNat (n : nat) : JS.iterations (JS.ofNat n) = n.
Proof. unfold JS.iterations, JS.ofNat. rewrite Qceiling_Z. apply Nat2Z.id. Qed.

Lemma toIndex_ofNat (n : nat) : JS.toIndex (JS.ofNat n) = n.
Proof. unfold JS.toIndex, JS.ofNat. rewrite Qfloor_Z. apply Nat2Z.id. Qed.

Lemma gt_ofNat (n : nat) (m : Z) :
  JS.gt (JS.ofNat n) (inject_Z m) = bool_decide (m < Z.of_nat n)%Z.
Proof.
  unfold JS.gt, JS.ofNat, Qcompare. simpl. rewrite !Z.mul_1_r.
  destruct (Z.compare_spec (Z.of_nat n) m);
    symmetry; [apply bool_decide_eq_false | apply bool_decide_eq_false
              | apply bool_decide_eq_true]; lia.
Qed.

(** ** Vertex formats *)

(** C7.  A component count of 1 or 3 with an 8- or 16-bit integer type is
    refused with the type error; every other combination of a count in
    1..4 with a type yields the scalar tag, bare for count 1 and followed
    by "x" and the count for 2, 3 and 4. *)
Theorem typeToFormat_spec (type : Ty) (size : nat) :
  1 ≤ size ≤ 4 →
  if bool_decide (size = 1 ∨ size = 3) && bool_decide (type ∈ [u8; i8; u16; i16])
  then Renderer.typeToFormat type size
       = Throw (TypeError_illegalSize size (TypeFormat type))
  else Renderer.typeToFormat type size
       = Ok (if bool_decide (size = 1) then TypeFormat type
             else TypeFormat type +:+ "x" +:+ pretty size).
Proof.
  intros Hsize.
  assert (size = 1 ∨ size = 2 ∨ size = 3 ∨ size = 4) as Hcases by lia.
  destruct Hcases as [-> | [-> | [-> | ->]]]; destruct type; reflexivity.
Qed.

Lemma typeToFormat_spec_witness :
  Renderer.typeToFormat u16 3 = Throw (TypeError_illegalSize 3 "uint16")
  ∧ Renderer.typeToFormat f32 3 = Ok "float32x3"
  ∧ Renderer.typeToFormat i32 1 = Ok "sint32".
Proof.
  split; [| split].
  - apply (typeToFormat_spec u16 3). lia.
  - apply (typeToFormat_spec f32 3). lia.
  - apply (typeToFormat_spec i32 1). lia.
Defined.

(** ** Index buffer *)

(** [#createIndexBuffer] with a vertex element count [n]: the state it
    leaves and what it returns, with the list it stores into the mapped
    range. *)
Lemma createIndexBuffer_run (s : State) (indices : list Z) (n : nat) :
  let used := if decide (indices = []) then Z.of_nat <$> seq 0 n else indices in
  let type := if decide (Z.of_nat n ≤ 65535)%Z then uint16 else uint32 in
  let buffer := nextHandle (device s) in
  Renderer.createIndexBuffer indices (JS.ofNat n) s =
    (on_device (λ d,
       {| nextHandle := S buffer;
          objects :=
            <[buffer := Buffer index
                          (JS.ofNat (length used * Renderer.indexBytes type))
                          "index buffer"]> (objects d);
          ops := ops d ++ [SetIndices buffer type
                             (Renderer.stored type <$> used)];
          console :=
            console d ++ (if decide (indices = [])
                          then ["[wgpu] no indices found."] else []) |}) s,
     Ok {| Renderer.ib_buffer := buffer;
           Renderer.ib_vertexCount := length used;
           Renderer.ib_type := type |}).
Proof.
  intros used type buffer.
  unfold Renderer.createIndexBuffer.
  assert (JS.gt (JS.ofNat n) Renderer.MAX_U16
          = bool_decide (65535 < Z.of_nat n)%Z) as Hgt
    by apply (gt_ofNat n 65535).
  rewrite iterations_ofNat, Hgt.
  assert ((if bool_decide (65535 < Z.of_nat n)%Z then uint32 else uint16)
          = type) as ->.
  { subst type. destruct (decide (Z.of_nat n ≤ 65535)%Z).
    - rewrite bool_decide_eq_false_2 by lia. done.
    - rewrite bool_decide_eq_true_2 by lia. done. }
  destruct s as [[nh objs os cons] st r dr e].
  subst used buffer. destruct indices as [| i indices]; simpl.
  + reflexivity.
  + unfold on_device. simpl. rewrite app_nil_r. reflexivity.
Qed.

(** An index within the range of the index type is stored as it is. *)
Lemma stored_in_range (type : IndexType) (l : list Z) :
  Forall (λ i, (0 ≤ i < 2 ^ (8 * Z.of_nat (Renderer.indexBytes type)))%Z) l →
  Renderer.stored type <$> l = l.
Proof.
  induction 1 as [| i l Hi _ IH]; [done |].
  cbn [fmap list_fmap]. f_equal; [| exact IH].
  unfold Renderer.stored. by apply Z.mod_small.
Qed.

(** C6, as the code has it.  With a vertex element count [n]: an empty
    index list is replaced by 0, 1, ..., n-1 and one warning is logged;
    the index type is uint16 exactly when n ≤ 65535 and uint32 exactly
    when n > 65535; the buffer is created with the index usage and
    (number of indices) × (2 or 4) bytes.  What the buffer receives is,
    for each index, its remainder modulo 2^16 or 2^32; these are the
    indices themselves when every index is in the range of the index
    type, as the synthesized ones are for up to 2^32 vertices. *)
Theorem createIndexBuffer_spec (s : State) (indices : list Z) (n : nat) :
  let used := if decide (indices = []) then Z.of_nat <$> seq 0 n else indices in
  let type := if decide (Z.of_nat n ≤ 65535)%Z then uint16 else uint32 in
  let width := match type with uint16 => 2 | uint32 => 4 end in
  let buffer := nextHandle (device s) in
  let uploading (received : list Z) :=
    (on_device (λ d,
       {| nextHandle := S buffer;
          objects :=
            <[buffer := Buffer index (JS.ofNat (length used * width))
                          "index buffer"]> (objects d);
          ops := ops d ++ [SetIndices buffer type received];
          console :=
            console d ++ (if decide (indices = [])
                          then ["[wgpu] no indices found."] else []) |}) s,
     Ok {| Renderer.ib_buffer := buffer;
           Renderer.ib_vertexCount := length used;
           Renderer.ib_type := type |}) in
  (type = uint16 ↔ (Z.of_nat n ≤ 65535)%Z)
  ∧ (type = uint32 ↔ (Z.of_nat n > 65535)%Z)
  ∧ Renderer.createIndexBuffer indices (JS.ofNat n) s
    = uploading ((λ i, i mod 2 ^ (8 * Z.of_nat width))%Z <$> used)
  ∧ (Forall (λ i, (0 ≤ i < 2 ^ (8 * Z.of_nat width))%Z) used →
     Renderer.createIndexBuffer indices (JS.ofNat n) s = uploading used)
  ∧ (indices = [] → (Z.of_nat n ≤ 2 ^ 32)%Z →
     Renderer.createIndexBuffer indices (JS.ofNat n) s
     = uploading (Z.of_nat <$> seq 0 n)).
Proof.
  intros used type width buffer uploading.
  assert (Renderer.indexBytes type = width) as Hwidth
    by (subst width; by destruct type).
  assert (Renderer.createIndexBuffer indices (JS.ofNat n) s
          = uploading ((λ i, i mod 2 ^ (8 * Z.of_nat width))%Z <$> used))
    as Hrun.
  { rewrite (createIndexBuffer_run s indices n). subst uploading. cbv beta.
    fold used type buffer. rewrite Hwidth. reflexivity. }
  assert (∀ l, Forall (λ i, (0 ≤ i < 2 ^ (8 * Z.of_nat width))%Z) l →
               (λ i, i mod 2 ^ (8 * Z.of_nat width))%Z <$> l = l) as Hsame.
  { intros l Hl. rewrite <- Hwidth in *. by apply (stored_in_range type). }
  split; [| split; [| split; [exact Hrun | split]]].
  - subst type. destruct (decide (Z.of_nat n ≤ 65535)%Z); split; (done || lia).
  - subst type. destruct (decide (Z.of_nat n ≤ 65535)%Z); split; (done || lia).
  - intros Hrange. by rewrite Hrun, Hsame.
  - intros Hnil Hn. rewrite Hrun. f_equal.
    assert (used = Z.of_nat <$> seq 0 n) as Hused
      by (subst used; by rewrite decide_True).
    rewrite Hused. apply Hsame. apply Forall_fmap, Forall_forall.
    intros i Hi%elem_of_seq. cbn.
    subst width type. destruct (decide (Z.of_nat n ≤ 65535)%Z); cbn; lia.
Qed.

Lemma createIndexBuffer_spec_witness :
  ops (device (Renderer.createIndexBuffer [0; 1; 2; 1; 2; 3]%Z (JS.ofNat 4)
                 engine0).1)
  = [SetIndices 0 uint16 [0; 1; 2; 1; 2; 3]%Z].
Proof.
  rewrite (proj1 (proj2 (proj2 (proj2
             (createIndexBuffer_spec engine0 [0; 1; 2; 1; 2; 3]%Z 4))))).
  - reflexivity.
  - repeat (apply Forall_cons_2;
              [vm_compute; split; [discriminate | reflexivity] |]).
    apply Forall_nil_2.
Defined.

(** C6 fails as stated: with four vertices the index type is uint16, and
    the supplied indices 70000, -1 and 65536 are not what the buffer
    receives. *)
Lemma createIndexBuffer_wraps_large_indices :
  let indices := [70000; -1; 65536; 65535]%Z in
  let r := Renderer.createIndexBuffer indices (JS.ofNat 4) engine0 in
  r.2 = Ok {| Renderer.ib_buffer := 0; Renderer.ib_vertexCount := 4;
              Renderer.ib_type := uint16 |}
  ∧ ops (device r.1) = [SetIndices 0 uint16 [4464; 65535; 0; 65535]%Z]
  ∧ [4464; 65535; 0; 65535]%Z ≠ indices.
Proof. repeat split. discriminate. Qed.

(** The indices synthesized for fewer than 2^32 vertices are stored as
    they are. *)
Lemma stored_synthesized (n : nat) :
  (Z.of_nat n ≤ 2 ^ 32)%Z →
  let type := if decide (Z.of_nat n ≤ 65535)%Z then uint16 else uint32 in
  Renderer.stored type <$> (Z.of_nat <$> seq 0 n) = Z.of_nat <$> seq 0 n.
Proof.
  intros Hn type. rewrite <- list_fmap_compose.
  apply list_fmap_ext. intros j i Hi; simpl.
  apply lookup_seq in Hi. destruct Hi as [Heq Hlt]. simpl in Heq. subst i.
  unfold Renderer.stored. apply Z.mod_small.
  subst type. destruct (decide (Z.of_nat n ≤ 65535)%Z); simpl; lia.
Qed.

(** ** Uniform buffer *)

Lemma uniformSize_sum (groups : list (list GPUBinding)) :
  Renderer.uniformSize groups = sum_list_with localBytes (concat groups).
Proof.
  unfold Renderer.uniformSize.
  assert (∀ group acc,
    foldl (λ size binding,
             size + (if Renderer.isTypeOfBuffer binding
                     then Renderer.getBufferLocalSize binding else 0))
          acc group = acc + sum_list_with localBytes group) as Hin.
  { induction group as [| b group IH]; intros acc; [simpl; lia |].
    cbn [foldl sum_list_with]. rewrite IH.
    assert ((if Renderer.isTypeOfBuffer b
             then Renderer.getBufferLocalSize b else 0) = localBytes b) as ->.
    { unfold Renderer.isTypeOfBuffer, Renderer.getBufferLocalSize,
        Renderer.getBufferSize, Renderer.global, localBytes.
      destruct (resource b) as [bs | |]; [| done | done].
      destruct (b_global bs) as [g |]; simpl; [| done].
      destruct (Renderer.idGiven g); done. }
    lia. }
  enough (∀ acc,
    foldl (λ size group,
             foldl (λ size binding,
                      size + (if Renderer.isTypeOfBuffer binding
                              then Renderer.getBufferLocalSize binding else 0))
                   size group)
          acc groups = acc + sum_list_with localBytes (concat groups)) as H
    by apply (H 0).
  induction groups as [| g groups IH]; intros acc; [simpl; lia |].
  cbn [foldl concat]. rewrite Hin, IH, sum_list_with_app. lia.
Qed.

(** C4.  For the bind groups [[cameraSlot]], whose one slot is global, the
    uniform buffer is created with 64 bytes, not 0: the camera slot is
    counted, although [#createBindGroup] binds it to the camera buffer
    and gives it no local offset. *)
Theorem createUniformBuffer_counts_camera_slot (s : State) :
  Renderer.uniformSize [[cameraSlot]] = 64
  ∧ (Renderer.createUniformBuffer [[cameraSlot]] s).2
    = Ok (Some (nextHandle (device s)))
  ∧ objects (device (Renderer.createUniformBuffer [[cameraSlot]] s).1)
      !! nextHandle (device s) = Some (Buffer uniform 64 "")
  ∧ (Renderer.bindOne (Some (nextHandle (device s))) 0 0 cameraSlot
       {| Renderer.l_offset := 0; Renderer.l_uniforms := [];
          Renderer.l_entries := [] |} s).2
    = Ok {| Renderer.l_offset := 0; Renderer.l_uniforms := [[]];
            Renderer.l_entries :=
              [{| be_binding := 0;
                  be_resource :=
                    BoundBuffer (globalBuffers (renderer s) !! "camera") 0 64 |}] |}.
Proof.
  split; [reflexivity |]. split; [reflexivity |]. split; [| reflexivity].
  simpl. apply lookup_insert_eq.
Qed.

(** ** Vertex buffer *)

Lemma BYTES_PER_ELEMENT_pos (type : Ty) : 1 ≤ BYTES_PER_ELEMENT type.
Proof. destruct type; simpl; lia. Qed.

Lemma ofNat_nonzero (b : nat) : 1 ≤ b → ¬ (JS.ofNat b == 0)%Q.
Proof. unfold JS.ofNat, Qeq. simpl. lia. Qed.

Lemma ofNat_eqb_zero (b : nat) : 1 ≤ b → Qeq_bool (JS.ofNat b) 0 = false.
Proof.
  intros Hb. apply not_true_iff_false. rewrite Qeq_bool_iff.
  by apply ofNat_nonzero.
Qed.

Lemma div_ofNat (a b : nat) :
  1 ≤ b → JS.div (JS.num (a * b)) (JS.num b) = JS.num a.
Proof.
  intros Hb. pose proof (ofNat_nonzero b Hb) as Hnz.
  unfold JS.div, JS.num. rewrite (ofNat_eqb_zero b Hb). f_equal.
  unfold JS.ofNat in *.
  rewrite <- (inject_Z_Qred (Z.of_nat a)). apply Qred_complete.
  rewrite Nat2Z.inj_mul, inject_Z_mult. field. exact Hnz.
Qed.

Lemma mul_ofNat (a b : nat) :
  JS.mul (JS.num a) (JS.num b) = JS.num (a * b).
Proof.
  unfold JS.mul, JS.num, JS.ofNat. f_equal.
  rewrite Nat2Z.inj_mul, <- inject_Z_mult. apply inject_Z_Qred.
Qed.

Lemma neq_same (a : Q) : JS.neq (JS.Fin a) (JS.Fin a) = false.
Proof. unfold JS.neq. rewrite Qeq_bool_refl. reflexivity. Qed.

(** A size that [createBuffer] accepts is the product with a finite
    [len]. *)
Lemma mul_finite (stride : nat) (len : JS.Num) (size : Q) :
  JS.mul (JS.num stride) len = JS.Fin size → ∃ count, len = JS.Fin count.
Proof.
  destruct len as [count | |]; [by eexists | |]; unfold JS.mul, JS.num.
  - by destruct (Qeq_bool (JS.ofNat stride) 0).
  - done.
Qed.

Lemma elementCount_holds (len : nat) (d : VertexTransferable) :
  holds len d → Renderer.elementCount d = JS.num len.
Proof.
  intros [Hsize Hlen]. unfold Renderer.elementCount. rewrite Hlen.
  rewrite div_ofNat by apply BYTES_PER_ELEMENT_pos.
  apply div_ofNat, Hsize.
Qed.

Lemma elementCount_matches (len : nat) (d : VertexTransferable) :
  holds len d → JS.neq (Renderer.elementCount d) (JS.num len) = false.
Proof. intros Hd. rewrite (elementCount_holds len d Hd). apply neq_same. Qed.

Lemma narrow_elem (type : Ty) :
  Renderer.narrow type = bool_decide (type ∈ [u8; i8; u16; i16]).
Proof. destruct type; reflexivity. Qed.

Lemma typeToFormat_legal (d : VertexTransferable) :
  legal d →
  Renderer.typeToFormat (v_type d) (v_size d)
  = Ok (formatTag (v_type d) (v_size d)).
Proof.
  unfold legal, Renderer.typeToFormat, formatTag. intros Hlegal.
  rewrite narrow_elem.
  destruct (Nat.eqb_spec (v_size d) 1) as [H1 | H1];
    destruct (Nat.eqb_spec (v_size d) 3) as [H3 | H3];
    destruct (bool_decide_reflect (v_type d ∈ [u8; i8; u16; i16])) as [Hn | Hn];
    simpl; try (exfalso; apply Hlegal; split; [tauto | exact Hn]);
    case_bool_decide; (done || lia).
Qed.

Lemma bind_Ok {A B} (a : A) (f : A → Outcome B) : Ok a ≫= f = f a.
Proof. reflexivity. Qed.

Lemma bind_Throw {A B} (e : Error) (f : A → Outcome B) :
  Throw e ≫= f = Throw e.
Proof. reflexivity. Qed.

Lemma describeAttribute_matching (len : JS.Num) (d : VertexTransferable)
  (acc : list GPUVertexAttribute * nat) :
  JS.neq (Renderer.elementCount d) len = false → legal d →
  Renderer.describeAttribute len d acc
  = Ok (acc.1 ++ [{| shaderLocation := v_location d; offset := acc.2;
                     format := formatTag (v_type d) (v_size d) |}],
        acc.2 + attributeBytes d).
Proof.
  intros Hcount Hlegal. unfold Renderer.describeAttribute.
  rewrite Hcount.
  rewrite (typeToFormat_legal d Hlegal). reflexivity.
Qed.

(** The loop of [#createVertexBuffer] over attributes that pass both of
    its checks. *)
Lemma describe_loop (len : JS.Num) (ds : list VertexTransferable) :
  Forall (λ d, JS.neq (Renderer.elementCount d) len = false ∧ legal d) ds →
  ∀ j attributes stride,
    loop (λ _ d acc, Renderer.describeAttribute len d acc) j ds
         (attributes, stride)
    = Ok (attributes ++ layoutFrom stride ds, stride + strideOf ds).
Proof.
  induction 1 as [| d ds [Hcount Hlegal] _ IH]; intros j attributes stride.
  - simpl. rewrite app_nil_r, Nat.add_0_r. reflexivity.
  - cbn [loop]. rewrite (describeAttribute_matching len d _ Hcount Hlegal).
    rewrite bind_Ok. cbn [fst snd]. rewrite IH.
    unfold strideOf. cbn [sum_list_with layoutFrom].
    rewrite <- app_assoc. simpl. f_equal. f_equal. lia.
Qed.

Lemma loop_app {A St} (body : nat → A → St → Outcome St) (l k : list A) :
  ∀ i acc,
    loop body i (l ++ k) acc
    = loop body i l acc ≫= loop body (i + length l) k.
Proof.
  induction l as [| x l IH]; intros i acc.
  - simpl. rewrite Nat.add_0_r. reflexivity.
  - cbn [app loop length]. destruct (body i x acc) as [acc' | e].
    + rewrite !bind_Ok, IH. f_equal. f_equal. lia.
    + reflexivity.
Qed.


Lemma describeAttribute_mismatch (len : JS.Num) (d : VertexTransferable)
  (acc : list GPUVertexAttribute * nat) :
  JS.neq (Renderer.elementCount d) len = true →
  Renderer.describeAttribute len d acc
  = Throw (RangeError_sizeMismatch (JS.mul len (JS.num (v_size d)))).
Proof. intros H. unfold Renderer.describeAttribute. rewrite H. reflexivity. Qed.

Lemma describe_loop_mismatch (len : JS.Num) (ds : list VertexTransferable) :
  Exists (λ d, JS.neq (Renderer.elementCount d) len = true) ds →
  ∀ j acc, ∃ e,
    loop (λ _ d acc, Renderer.describeAttribute len d acc) j ds acc = Throw e.
Proof.
  induction ds as [| d ds IH]; intros Hex j acc.
  - by apply Exists_nil in Hex.
  - cbn [loop].
    destruct (Renderer.describeAttribute len d acc) as [acc' | e] eqn:Hstep.
    + rewrite bind_Ok. apply IH.
      apply Exists_cons in Hex as [Hex | Hex]; [| done].
      rewrite (describeAttribute_mismatch len d acc Hex) in Hstep. done.
    + eexists. reflexivity.
Qed.

Lemma setBytes_filled (total : nat) (done data : list byte) :
  length done + length data ≤ total →
  Renderer.setBytes (filled total done).1 (filled total done).2 data
  = Ok (filled total (done ++ data)).1.
Proof.
  intros Hfit. unfold Renderer.setBytes, filled. cbn [fst snd].
  rewrite !length_app, length_replicate.
  rewrite (proj2 (Nat.leb_le _ _)) by lia.
  rewrite take_app_length, drop_app_add, drop_replicate.
  rewrite <- app_assoc. do 4 f_equal. lia.
Qed.

Lemma length_readBack (type : Ty) (bytes : list byte) :
  length (Renderer.readBack type bytes) = length bytes.
Proof.
  unfold Renderer.readBack. destruct type; try done.
  destruct (Renderer.isNaN32 bytes); [| done].
  by destruct bytes as [| b0 [| b1 [| b2 [| b3 [| b4 bytes]]]]].
Qed.

(** What is not a NaN is stored with the bytes it had. *)
Lemma readBack_numeric (type : Ty) (bytes : list byte) :
  type ≠ f32 ∨ Renderer.isNaN32 bytes = false →
  Renderer.readBack type bytes = bytes.
Proof.
  unfold Renderer.readBack. intros [Htype | Hnum].
  - by destruct type.
  - rewrite Hnum. by destruct type.
Qed.

(** A NaN is stored as a NaN. *)
Lemma quiet_NaN (bytes : list byte) :
  Renderer.isNaN32 bytes = true →
  Renderer.isNaN32 (Renderer.readBack f32 bytes) = true.
Proof.
  intros Hnan. unfold Renderer.readBack. rewrite Hnan.
  destruct bytes as [| b0 [| b1 [| b2 [| b3 [| b4 bytes]]]]]; try done.
  unfold Renderer.isNaN32, Renderer.quiet32 in *.
  apply andb_true_iff in Hnan as [Hnan _].
  apply andb_true_iff in Hnan as [Hexp Htop]. rewrite Hexp.
  destruct b2; first [discriminate Htop | reflexivity].
Qed.

Lemma length_chunk (d : VertexTransferable) (n : nat) :
  (n + 1) * BYTES_PER_ELEMENT (v_type d) ≤ length (v_values d) →
  length (chunk d n) = BYTES_PER_ELEMENT (v_type d).
Proof.
  intros Hin. unfold chunk, slice.
  rewrite length_readBack, length_take, length_drop. lia.
Qed.

Lemma chunk_numeric (d : VertexTransferable) (n : nat) :
  numeric d → chunk d n = slice d n.
Proof.
  intros Hd. unfold chunk. apply readBack_numeric.
  destruct (decide (v_type d = f32)) as [Hf | Hf]; [right | by left].
  by apply Hd.
Qed.

Lemma interleaved_numeric (attribs : list VertexTransferable) (len : nat) :
  Forall numeric attribs → interleaved attribs len = verbatim attribs len.
Proof.
  intros Hall. unfold interleaved, verbatim.
  assert (∀ d i, numeric d →
            (k ← seq 0 (v_size d); chunk d (k + i * v_size d))
            = (k ← seq 0 (v_size d); slice d (k + i * v_size d))) as Hone.
  { intros d i Hd. induction (seq 0 (v_size d)) as [| k ks IHk]; [done |].
    by rewrite !bind_cons, IHk, (chunk_numeric d _ Hd). }
  assert (∀ i,
            (d ← attribs; k ← seq 0 (v_size d); chunk d (k + i * v_size d))
            = (d ← attribs; k ← seq 0 (v_size d); slice d (k + i * v_size d)))
    as Hrow.
  { intros i. induction Hall as [| d ds Hd _ IHd]; [done |].
    by rewrite !bind_cons, IHd, (Hone d i Hd). }
  induction (seq 0 len) as [| i l IHl]; [done |].
  by rewrite !bind_cons, IHl, Hrow.
Qed.

Lemma element_chunk (len : nat) (d : VertexTransferable) (n : nat) :
  holds len d → n < len * v_size d →
  Renderer.element (v_type d) (v_values d) n = chunk d n.
Proof.
  intros [_ Hlen] Hn. unfold Renderer.element, chunk, slice. rewrite Hlen.
  pose proof (BYTES_PER_ELEMENT_pos (v_type d)).
  rewrite Nat.div_mul by lia.
  rewrite (proj2 (Nat.ltb_lt _ _)) by lia. reflexivity.
Qed.

Lemma component_in_range (len size i k w : nat) :
  i < len → k < size → (k + i * size + 1) * w ≤ len * size * w.
Proof. intros Hi Hk. apply Nat.mul_le_mono_r. nia. Qed.

Lemma chainComponent_filled (total len : nat) (d : VertexTransferable)
  (i k : nat) (done : list byte) :
  holds len d → i < len → k < v_size d →
  length done + BYTES_PER_ELEMENT (v_type d) ≤ total →
  Renderer.chainComponent d i k (filled total done)
  = Ok (filled total (done ++ chunk d (k + i * v_size d))).
Proof.
  intros Hholds Hi Hk Hfit. unfold Renderer.chainComponent.
  assert (k + i * v_size d < len * v_size d) as Hn by nia.
  rewrite (element_chunk len d _ Hholds Hn).
  assert (length (chunk d (k + i * v_size d)) = BYTES_PER_ELEMENT (v_type d))
    as Hchunk.
  { apply length_chunk. destruct Hholds as [_ ->].
    by apply component_in_range. }
  rewrite setBytes_filled by lia. rewrite bind_Ok.
  unfold filled at 2. cbn [fst snd]. unfold filled.
  rewrite length_app, Hchunk. reflexivity.
Qed.

Lemma components_loop (total len : nat) (d : VertexTransferable) (i : nat) :
  holds len d → i < len →
  ∀ n a j done,
    a + n ≤ v_size d →
    length done + n * BYTES_PER_ELEMENT (v_type d) ≤ total →
    loop (λ _ k acc, Renderer.chainComponent d i k acc) j (seq a n)
         (filled total done)
    = Ok (filled total
            (done ++ (k ← seq a n; chunk d (k + i * v_size d)))).
Proof.
  intros Hholds Hi. induction n as [| n IH]; intros a j done Ha Hfit.
  - simpl. rewrite app_nil_r. reflexivity.
  - cbn [seq loop].
    rewrite (chainComponent_filled total len) by (done || lia).
    rewrite bind_Ok, IH.
    + rewrite bind_cons, app_assoc. reflexivity.
    + lia.
    + rewrite length_app, (length_chunk d).
      * lia.
      * destruct Hholds as [_ ->]. apply component_in_range; lia.
Qed.

Lemma length_components (len i : nat) (d : VertexTransferable) :
  holds len d → i < len → length (components i d) = attributeBytes d.
Proof.
  intros Hholds Hi. unfold components, attributeBytes.
  assert (∀ n a, a + n ≤ v_size d →
            length (k ← seq a n; chunk d (k + i * v_size d))
            = n * BYTES_PER_ELEMENT (v_type d)) as H.
  { induction n as [| n IH]; intros a Ha; [reflexivity |].
    cbn [seq]. rewrite bind_cons, length_app, IH by lia.
    rewrite length_chunk; [lia |]. destruct Hholds as [_ ->].
    apply component_in_range; lia. }
  apply H. lia.
Qed.

Lemma typedArray_holds (len : nat) (d : VertexTransferable) :
  holds len d → Renderer.typedArray (v_type d) (v_values d) = Ok tt.
Proof.
  intros [_ Hlen]. unfold Renderer.typedArray. rewrite Hlen.
  rewrite Nat.Div0.mod_mul. reflexivity.
Qed.

Lemma chainAttribute_filled (total len i : nat) (d : VertexTransferable)
  (done : list byte) :
  holds len d → i < len → length done + attributeBytes d ≤ total →
  Renderer.chainAttribute i d (filled total done)
  = Ok (filled total (done ++ components i d)).
Proof.
  intros Hholds Hi Hfit. unfold Renderer.chainAttribute.
  assert ((if (i =? 0)%nat
           then Renderer.typedArray (v_type d) (v_values d) else Ok tt)
          = Ok tt) as ->.
  { destruct (i =? 0)%nat; [apply (typedArray_holds len d Hholds) | done]. }
  rewrite bind_Ok.
  apply (components_loop total len d i Hholds Hi); [lia | exact Hfit].
Qed.

Lemma attributes_loop (total len i : nat) :
  i < len →
  ∀ ds j done,
    Forall (holds len) ds →
    length done + strideOf ds ≤ total →
    loop (λ _ d acc, Renderer.chainAttribute i d acc) j ds (filled total done)
    = Ok (filled total (done ++ (d ← ds; components i d))).
Proof.
  intros Hi. induction ds as [| d ds IH]; intros j done Hds Hfit.
  - simpl. rewrite app_nil_r. reflexivity.
  - apply Forall_cons in Hds as [Hd Hds].
    unfold strideOf in Hfit. cbn [sum_list_with] in Hfit.
    cbn [loop]. rewrite (chainAttribute_filled total len) by (done || lia).
    rewrite bind_Ok, IH.
    + rewrite bind_cons, app_assoc. reflexivity.
    + exact Hds.
    + rewrite length_app, (length_components len) by done.
      unfold strideOf. lia.
Qed.

Lemma length_element_block (len i : nat) (ds : list VertexTransferable) :
  Forall (holds len) ds → i < len →
  length (d ← ds; components i d) = strideOf ds.
Proof.
  intros Hds Hi. induction Hds as [| d ds Hd _ IH]; [reflexivity |].
  rewrite bind_cons, length_app, IH, (length_components len) by done.
  reflexivity.
Qed.

Lemma elements_loop (total len : nat) (ds : list VertexTransferable) :
  Forall (holds len) ds →
  ∀ n a j done,
    a + n ≤ len →
    length done + n * strideOf ds ≤ total →
    loop (λ _ i acc, loop (λ _ d acc, Renderer.chainAttribute i d acc) 0 ds acc)
         j (seq a n) (filled total done)
    = Ok (filled total (done ++ (i ← seq a n; d ← ds; components i d))).
Proof.
  intros Hds. induction n as [| n IH]; intros a j done Ha Hfit.
  - simpl. rewrite app_nil_r. reflexivity.
  - cbn [seq loop]. rewrite (attributes_loop total len a) by (done || lia).
    rewrite bind_Ok, IH.
    + rewrite bind_cons, app_assoc. reflexivity.
    + lia.
    + rewrite length_app, (length_element_block len) by (done || lia). lia.
Qed.

Lemma length_interleaved (len : nat) (ds : list VertexTransferable) :
  Forall (holds len) ds → length (interleaved ds len) = strideOf ds * len.
Proof.
  intros Hds. unfold interleaved.
  assert (∀ n a, a + n ≤ len →
            length (i ← seq a n; d ← ds; components i d) = strideOf ds * n)
    as H.
  { induction n as [| n IH]; intros a Ha; [simpl; lia |].
    cbn [seq]. rewrite bind_cons, length_app, IH by lia.
    rewrite (length_element_block len) by (done || lia). lia. }
  apply (H len 0). lia.
Qed.

(** [#chainArrays] over attributes that all hold [len] whole elements. *)
Lemma chainArrays_holds (len : nat) (ds : list VertexTransferable) :
  ds ≠ [] → Forall (holds len) ds →
  Renderer.chainArrays ds (JS.ofNat (strideOf ds * len))
  = Ok (interleaved ds len).
Proof.
  intros Hne Hds. unfold Renderer.chainArrays.
  destruct ds as [| first rest]; [done |].
  assert (holds len first) as Hfirst by (by apply Forall_cons in Hds as [? _]).
  rewrite (elementCount_holds len first Hfirst).
  unfold Renderer.rounds, JS.num. rewrite toIndex_ofNat, iterations_ofNat.
  set (ds := first :: rest) in *.
  assert ((replicate (strideOf ds * len) x00, 0)
          = filled (strideOf ds * len) []) as ->.
  { unfold filled. simpl length. rewrite Nat.sub_0_r. reflexivity. }
  rewrite (elements_loop (strideOf ds * len) len ds Hds len 0 0 [])
    by (simpl; lia).
  rewrite bind_Ok. unfold filled. cbn [fst]. rewrite app_nil_l.
  change (i ← seq 0 len; d ← ds; components i d) with (interleaved ds len).
  rewrite (length_interleaved len) by done.
  rewrite Nat.sub_diag. simpl. rewrite app_nil_r. reflexivity.
Qed.

Lemma M_bind_run {A B} (m : M A) (f : A → M B) (s : State) :
  (m ≫= f) s = match m s with
               | (s', Ok a) => f a s'
               | (s', Throw e) => (s', Throw e)
               end.
Proof. reflexivity. Qed.

(** C5, as the code has it.  For a non-empty attribute list
    [first :: rest]:
    - if every attribute has at least one component, holds exactly [len]
      whole elements and has a type and count [#typeToFormat] accepts,
      the composition succeeds: the stride is the sum of the attributes'
      [component_count × byte_width], each attribute sits at the running
      stride, the buffer is created with [stride × len] bytes and written
      with the element-major interleaving of the values, and the returned
      size is [len]; the bytes written are the bytes of the values when
      no element is a NaN, and a NaN is written as a NaN;
    - if some attribute's element count differs from the first one's, the
      composition fails and leaves the device untouched; the error is the
      size mismatch stating [len × its component count] when the
      attributes before it pass both checks.  An element count that is
      [NaN] differs from itself. *)
Theorem createVertexBuffer_spec (s : State) (first : VertexTransferable)
  (rest : list VertexTransferable) :
  let attribs := first :: rest in
  (∀ len : nat,
     Forall (λ d, holds len d ∧ legal d) attribs →
     Renderer.createVertexBuffer attribs s
     = (on_device (λ dv,
          {| nextHandle := S (nextHandle dv);
             objects := <[nextHandle dv :=
                            Buffer vertex (JS.ofNat (strideOf attribs * len))
                              "vertex buffer"]> (objects dv);
             ops := ops dv ++ [WriteBuffer (Some (nextHandle dv)) 0
                                 (interleaved attribs len)];
             console := console dv |}) s,
        Ok {| Renderer.vb_buffer := Some (nextHandle (device s));
              Renderer.vb_attributes := layoutFrom 0 attribs;
              Renderer.vb_stride := strideOf attribs;
              Renderer.vb_size := JS.ofNat len |})
     ∧ (Forall numeric attribs →
        interleaved attribs len = verbatim attribs len))
  ∧ (∀ type bytes,
       (type ≠ f32 ∨ Renderer.isNaN32 bytes = false →
        Renderer.readBack type bytes = bytes)
       ∧ (Renderer.isNaN32 bytes = true →
          Renderer.isNaN32 (Renderer.readBack f32 bytes) = true))
  ∧ (∀ d, d ∈ attribs →
       JS.neq (Renderer.elementCount d) (Renderer.elementCount first) = true →
       ∃ e, Renderer.createVertexBuffer attribs s = (s, Throw e))
  ∧ (∀ pre d post,
       attribs = pre ++ d :: post →
       Forall (λ d, JS.neq (Renderer.elementCount d)
                      (Renderer.elementCount first) = false
                    ∧ legal d) pre →
       JS.neq (Renderer.elementCount d) (Renderer.elementCount first) = true →
       Renderer.createVertexBuffer attribs s
       = (s, Throw (RangeError_sizeMismatch
                      (JS.mul (Renderer.elementCount first)
                              (JS.num (v_size d)))))).
Proof.
  intros attribs. split; [| split; [| split]].
  - intros len Hall. split; [| apply interleaved_numeric].
    subst attribs. unfold Renderer.createVertexBuffer.
    cbv beta iota zeta.
    assert (holds len first) as Hfirst
      by (apply Forall_cons in Hall as [[? _] _]; done).
    assert (Forall (holds len) (first :: rest)) as Hholds
      by (eapply Forall_impl; [exact Hall | by intros ? [? _]]).
    rewrite (elementCount_holds len first Hfirst).
    rewrite M_bind_run. unfold lift at 1.
    rewrite (describe_loop (JS.num len) (first :: rest)).
    2:{ eapply Forall_impl; [exact Hall |]. intros d [Hd Hl].
        split; [by apply elementCount_matches | done]. }
    cbn [fst snd app Nat.add]. rewrite mul_ofNat.
    unfold JS.num at 1 2. cbv beta iota.
    rewrite M_bind_run. unfold GPU.create at 1.
    rewrite M_bind_run. unfold lift at 1.
    rewrite (chainArrays_holds len (first :: rest)) by done.
    destruct s as [[nh objs os cons] st r dr e]. reflexivity.
  - intros type bytes. split; [apply readBack_numeric |].
    intros Hnan. by apply quiet_NaN.
  - intros d Hin Hne. subst attribs. unfold Renderer.createVertexBuffer.
    cbv beta iota zeta.
    destruct (describe_loop_mismatch (Renderer.elementCount first)
                (first :: rest)) with (j := 0)
      (acc := (@nil GPUVertexAttribute, 0)) as [e He].
    { apply Exists_exists. exists d. by split. }
    exists e. rewrite M_bind_run. unfold lift at 1. rewrite He. reflexivity.
  - intros pre d post Heq Hpre Hne. subst attribs.
    unfold Renderer.createVertexBuffer. cbv beta iota zeta.
    rewrite M_bind_run. unfold lift at 1.
    rewrite Heq, loop_app, (describe_loop _ pre Hpre), bind_Ok.
    cbn [loop fst snd app].
    rewrite (describeAttribute_mismatch _ d _ Hne).
    reflexivity.
Qed.

Lemma legal_wide (d : VertexTransferable) :
  Renderer.narrow (v_type d) = false → legal d.
Proof.
  rewrite narrow_elem. intros Hwide [_ Hin].
  apply bool_decide_eq_false in Hwide. contradiction.
Qed.

Ltac sample_attribute :=
  split; [split; [simpl; lia | reflexivity] | apply legal_wide; reflexivity].

Lemma createVertexBuffer_spec_witness :
  (Renderer.createVertexBuffer [position4; color4] engine0).2
  = Ok {| Renderer.vb_buffer := Some 0;
          Renderer.vb_attributes :=
            [{| shaderLocation := 0; offset := 0; format := "float32x3" |};
             {| shaderLocation := 1; offset := 12; format := "float32x4" |}];
          Renderer.vb_stride := 28;
          Renderer.vb_size := 4 |}
  ∧ Renderer.createVertexBuffer [position4; color3] engine0
    = (engine0, Throw (RangeError_sizeMismatch (JS.Fin 16))).
Proof.
  split.
  - destruct (proj1 (createVertexBuffer_spec engine0 position4 [color4]) 4)
      as [Hrun _].
    + apply Forall_cons; split; [sample_attribute |].
      apply Forall_cons; split; [sample_attribute | apply Forall_nil; exact I].
    + rewrite Hrun. reflexivity.
  - apply (proj2 (proj2 (proj2
                    (createVertexBuffer_spec engine0 position4 [color3])))
             [position4] color3 []).
    + reflexivity.
    + apply Forall_cons; split; [| apply Forall_nil; exact I].
      split; [reflexivity | apply legal_wide; reflexivity].
    + vm_compute. reflexivity.
Defined.

(** C5 fails as stated: a one-attribute list is consistent in its element
    count, yet an unsigned byte with component count 1 is refused with the
    type error. *)
Lemma createVertexBuffer_refuses_consistent_list :
  [narrowScalar] ≠ []
  ∧ Forall (λ d, Renderer.elementCount d = Renderer.elementCount narrowScalar)
      [narrowScalar]
  ∧ Renderer.createVertexBuffer [narrowScalar] engine0
    = (engine0, Throw (TypeError_illegalSize 1 "uint8")).
Proof. split; [done |]. split; [repeat constructor | reflexivity]. Qed.

(** The element [01 00 80 7f], a signalling NaN, is stored with its quiet
    bit set; the quiet NaN [00 00 c0 7f] and the number [00 00 80 3f]
    are stored as they are. *)
Example element_quiets_a_signalling_NaN :
  Renderer.element f32 [x01; x00; x80; x7f] 0 = [x01; x00; xc0; x7f]
  ∧ Renderer.element f32 [x00; x00; xc0; x7f] 0 = [x00; x00; xc0; x7f]
  ∧ Renderer.element f32 [x00; x00; x80; x3f] 0 = [x00; x00; x80; x3f].
Proof. repeat split. Qed.

(** An attribute with no component.  With no values its element count is
    0 / 0, which differs from itself: the size mismatch names [NaN].
    With values the count is infinite: alone, the attribute passes the
    loop and the size [0 × Infinity] is refused by [createBuffer]; before
    an attribute with components, that one is a mismatch. *)
Example createVertexBuffer_without_components :
  let none := {| v_location := 0; v_type := f32; v_size := 0;
                 v_values := [] |} in
  let some := {| v_location := 0; v_type := f32; v_size := 0;
                 v_values := replicate 4 x00 |} in
  Renderer.createVertexBuffer [none] engine0
  = (engine0, Throw (RangeError_sizeMismatch JS.NaN))
  ∧ Renderer.createVertexBuffer [some] engine0
    = (engine0, Throw (TypeError_enforceRange "size"))
  ∧ Renderer.createVertexBuffer [some; position4] engine0
    = (engine0, Throw (RangeError_sizeMismatch JS.Infinity)).
Proof. repeat split. Qed.

(** ** Frame rules *)

Lemma later_refl (P : GPUObject → Prop) (s : State) : later P s s.
Proof. unfold later. repeat split; auto. Qed.

Lemma later_trans (P : GPUObject → Prop) (s1 s2 s3 : State) :
  later P s1 s2 → later P s2 s3 → later P s1 s3.
Proof.
  intros (Hst & Hr & Hd & He & Hn & Ho) (Hst' & Hr' & Hd' & He' & Hn' & Ho').
  unfold later. repeat split; try congruence; [lia |].
  intros h o Hh. destruct (Ho' h o Hh) as [Hold | HP]; [| by right].
  apply Ho, Hold.
Qed.

Lemma later_weaken (P Q : GPUObject → Prop) (s s' : State) :
  (∀ o, P o → Q o) → later P s s' → later Q s s'.
Proof.
  intros HPQ (Hst & Hr & Hd & He & Hn & Ho).
  unfold later. repeat split; try done.
  intros h o Hh. destruct (Ho h o Hh); [by left | right; auto].
Qed.

Section Steady.

Context (P : GPUObject → Prop).

Lemma steady_ret {A} (a : A) : steady P (mret a).
Proof. intros s. apply later_refl. Qed.

Lemma steady_bind {A B} (m : M A) (f : A → M B) :
  steady P m → (∀ a, steady P (f a)) → steady P (m ≫= f).
Proof.
  intros Hm Hf s. rewrite M_bind_run. specialize (Hm s).
  destruct (m s) as [s' [a | e]]; simpl in *; [| exact Hm].
  eapply later_trans; [exact Hm | apply Hf].
Qed.

Lemma steady_throw {A} (e : Error) : steady P (throw e : M A).
Proof. intros s. apply later_refl. Qed.

Lemma steady_lift {A} (o : Outcome A) : steady P (lift o).
Proof. intros s. apply later_refl. Qed.

Lemma steady_gets {A} (f : State → A) : steady P (gets f).
Proof. intros s. apply later_refl. Qed.

Lemma steady_create (o : GPUObject) : P o → steady P (GPU.create o).
Proof.
  intros HP s. unfold GPU.create, later. destruct s as [[nh objs os cons] ? ? ? ?].
  simpl. repeat split; try done; [lia |].
  intros h o' Hh. destruct (decide (nh = h)) as [-> | Hne].
  - rewrite lookup_insert_eq in Hh. right. congruence.
  - rewrite lookup_insert_ne in Hh by done. by left.
Qed.

Lemma steady_emit (op : DeviceOp) : steady P (GPU.emit op).
Proof.
  intros s. unfold GPU.emit, modify, later.
  destruct s as [[nh objs os cons] ? ? ? ?]. simpl. repeat split; auto.
Qed.

Lemma steady_warn (msg : string) : steady P (GPU.warn msg).
Proof.
  intros s. unfold GPU.warn, modify, later.
  destruct s as [[nh objs os cons] ? ? ? ?]. simpl. repeat split; auto.
Qed.

Lemma steady_destroy (property : string) (h : option nat) :
  steady P (GPU.destroy property h).
Proof. destruct h; [apply steady_emit | apply steady_throw]. Qed.

Lemma steady_detached {A} (m : M A) : steady P m → steady P (detached m).
Proof. intros Hm s. apply Hm. Qed.

Lemma steady_attempt {A} (m : M A) : steady P m → steady P (GPUEngine.attempt m).
Proof. intros Hm s. apply Hm. Qed.

Lemma steady_forEach {A St} (body : nat → A → St → M St) (l : list A) :
  (∀ i x acc, steady P (body i x acc)) →
  ∀ i acc, steady P (forEach body i l acc).
Proof.
  intros Hbody. induction l as [| x l IH]; intros i acc.
  - apply steady_ret.
  - cbn [forEach]. apply steady_bind; [apply Hbody | intros acc'; apply IH].
Qed.

End Steady.

Lemma steady_weaken {A} (P Q : GPUObject → Prop) (m : M A) :
  (∀ o, P o → Q o) → steady P m → steady Q m.
Proof. intros HPQ Hm s. eapply later_weaken; [exact HPQ | apply Hm]. Qed.

Ltac steady :=
  repeat (cbv beta; lazymatch goal with
    | |- steady _ (mret _) => apply steady_ret
    | |- steady _ (throw _) => apply steady_throw
    | |- steady _ (lift _) => apply steady_lift
    | |- steady _ (gets _) => apply steady_gets
    | |- steady _ (GPU.emit _) => apply steady_emit
    | |- steady _ (GPU.warn _) => apply steady_warn
    | |- steady _ (GPU.destroy _ _) => apply steady_destroy
    | |- steady _ (_ ≫= _) => apply steady_bind; [| intros ? ]
    | |- steady _ (forEach _ _ _ _) => apply steady_forEach; intros ? ? ?
    | |- steady _ (GPUEngine.attempt _) => apply steady_attempt
    | |- steady _ (detached _) => apply steady_detached
    | |- steady _ (GPU.create _) =>
        apply steady_create;
        first [ exact I | (let H := fresh in intro H; exact H) ]
    end).

(** What the renderer does before the [await] of [cloneProgram] creates no
    vertex buffer, index buffer or pipeline. *)
Lemma steady_createGroupLayout (groups : list (list GPUBinding)) :
  steady own_kind (Renderer.createGroupLayout groups).
Proof. unfold Renderer.createGroupLayout. steady. Qed.

Lemma steady_createUniformBuffer (groups : list (list GPUBinding)) :
  steady own_kind (Renderer.createUniformBuffer groups).
Proof.
  unfold Renderer.createUniformBuffer.
  destruct (length groups <=? 0)%nat; steady.
Qed.

Lemma steady_bindOne (buffer : option nat) (i j : nat) (binding : GPUBinding)
  (l : Renderer.BindLocals) :
  steady own_kind (Renderer.bindOne buffer i j binding l).
Proof.
  unfold Renderer.bindOne.
  destruct (resource binding) as [b | t | sm].
  - destruct (b_global b) as [g |]; [destruct (g_isCamera g) |]; steady.
  - steady.
  - steady.
Qed.

Lemma steady_createBindGroup (groups : list (list GPUBinding))
  (layouts : list nat) (buffer : option nat) :
  steady own_kind (Renderer.createBindGroup groups layouts buffer).
Proof.
  unfold Renderer.createBindGroup.
  destruct (length groups =? 0)%nat; [apply steady_ret |].
  apply steady_bind; [| intros ?; apply steady_ret].
  apply steady_forEach. intros i group acc. unfold Renderer.bindGroup.
  apply steady_bind.
  - apply steady_forEach. intros. apply steady_bindOne.
  - intros l. steady.
Qed.

Lemma steady_cloneProgram_begin (program : GPUCompilableProgram) :
  steady own_kind (Renderer.cloneProgram_begin program).
Proof.
  unfold Renderer.cloneProgram_begin.
  apply steady_bind; [apply steady_createGroupLayout | intros layouts].
  apply steady_bind; [apply steady_createUniformBuffer | intros ub].
  apply steady_bind; [apply steady_createBindGroup | intros b].
  apply steady_ret.
Qed.

Lemma steady_createVertexBuffer (ds : list VertexTransferable) :
  steady any_kind (Renderer.createVertexBuffer ds).
Proof.
  unfold Renderer.createVertexBuffer. destruct ds as [| first rest]; steady.
  destruct (JS.mul _ _) as [size | |]; steady.
  destruct (Renderer.elementCount first) as [len | |]; steady.
Qed.

Lemma steady_createProgram_begin (program : GPUCompilableProgram) :
  steady any_kind (Renderer.createProgram_begin program).
Proof.
  unfold Renderer.createProgram_begin.
  apply steady_bind;
    [eapply steady_weaken; [| apply steady_createGroupLayout]; done
    | intros layouts].
  apply steady_bind;
    [eapply steady_weaken; [| apply steady_createUniformBuffer]; done
    | intros ub].
  apply steady_bind; [apply steady_createVertexBuffer | intros v].
  apply steady_bind;
    [eapply steady_weaken; [| apply steady_createBindGroup]; done
    | intros b].
  apply steady_ret.
Qed.

Lemma steady_createIndexBuffer (indices : list Z) (size : Q) :
  steady any_kind (Renderer.createIndexBuffer indices size).
Proof.
  unfold Renderer.createIndexBuffer.
  apply steady_bind; [destruct (length indices <=? 0)%nat; steady | intros ?].
  steady.
Qed.

(** ** The draw list *)

Lemma insert_Permutation (le : nat → nat → bool) (x : nat) (l : list nat) :
  Drawer.insert le x l ≡ₚ x :: l.
Proof.
  induction l as [| y l IH]; [done |]. simpl.
  destruct (le x y); [done |]. rewrite IH. apply Permutation_swap.
Qed.

Lemma sorted_Permutation (le : nat → nat → bool) (l : list nat) :
  Drawer.sorted le l ≡ₚ l.
Proof.
  induction l as [| x l IH]; [done |]. simpl.
  rewrite insert_Permutation. by rewrite IH.
Qed.

Lemma removeFirst_first (a : nat) (l1 l2 : list nat) :
  a ∉ l1 → Drawer.removeFirst a (l1 ++ a :: l2) = l1 ++ l2.
Proof.
  induction l1 as [| x l1 IH]; intros Hnotin; simpl.
  - by rewrite decide_True.
  - apply not_elem_of_cons in Hnotin as [Hne Hnotin].
    rewrite decide_False by done. by rewrite IH.
Qed.

Lemma removeFirst_length (a : nat) (l : list nat) :
  a ∈ l → S (length (Drawer.removeFirst a l)) = length l.
Proof.
  induction l as [| x l IH]; intros Hin; [by apply elem_of_nil in Hin |].
  simpl. destruct (decide (x = a)) as [-> | Hne]; [done |].
  apply elem_of_cons in Hin as [-> | Hin]; [done |]. simpl. by rewrite IH.
Qed.

Lemma removeFirst_occurrences (a : nat) (l : list nat) :
  a ∈ l →
  S (length (filter (λ x, x = a) (Drawer.removeFirst a l)))
  = length (filter (λ x, x = a) l).
Proof.
  induction l as [| x l IH]; intros Hin; [by apply elem_of_nil in Hin |].
  simpl. destruct (decide (x = a)) as [-> | Hne].
  - by rewrite filter_cons_True.
  - apply elem_of_cons in Hin as [-> | Hin]; [done |].
    rewrite !filter_cons_False by done. by apply IH.
Qed.

Lemma filter_isDraw_bindGroups (l : list nat) (j : nat) :
  filter (λ c, Is_true (isDraw c)) (imap (λ i, SetBindGroup (j + i)) l) = [].
Proof.
  revert j. induction l as [| g l IH]; intros j; [done |].
  simpl. rewrite filter_cons_False by (simpl; tauto).
  rewrite <- (IH (S j)). f_equal. apply imap_ext. intros i x _. simpl.
  f_equal. lia.
Qed.

Lemma entityCommands_draws (e : GPUExecutable) :
  length (filter (λ c, Is_true (isDraw c)) (Drawer.entityCommands e)) = 1.
Proof.
  unfold Drawer.entityCommands.
  rewrite !filter_app.
  change (imap SetBindGroup (bindGroups e))
    with (imap (λ i, SetBindGroup (0 + i)) (bindGroups e)).
  rewrite (filter_isDraw_bindGroups (bindGroups e) 0).
  destruct (vertexBuffer e); reflexivity.
Qed.

(** Each entry of the draw list is drawn once by a walk over the list. *)
Lemma drawCalls_length (s : State) :
  drawCalls s = length (entities (drawer s)).
Proof.
  unfold drawCalls, Drawer.draw_list.
  induction (entities (drawer s)) as [| a l IH]; [done |].
  rewrite bind_cons, filter_app, length_app, IH, entityCommands_draws.
  reflexivity.
Qed.

(** ** Calls in the Idle state on a registered id *)

Ltac run_M :=
  unfold mbind, M_bind, mret, M_ret, gets, modify, throw, lift, detached;
  cbv beta iota zeta.

Lemma guarded_registered (c : Call) (id : string) (body : M unit)
  (ref : GPUShaderRef) (s : State) :
  isBusy (engine s) = false → idExecMap (engine s) !! id = Some ref →
  GPUEngine.guarded c id body s
  = ((body s).1, match (body s).2 with Ok _ => Ok None | Throw e => Throw e end).
Proof.
  intros Hidle Hid. unfold GPUEngine.guarded. run_M.
  rewrite Hidle, Hid. rewrite bool_decide_eq_true_2 by (by eexists).
  destruct (body s) as [s' [[] | e]]; reflexivity.
Qed.

Lemma guarded_busy (c : Call) (id : string) (body : M unit) (s : State) :
  isBusy (engine s) = true →
  GPUEngine.guarded c id body s
  = (on_engine (λ e, set_events (events e ++ [c]) e) s, Ok None).
Proof.
  intros Hbusy. unfold GPUEngine.guarded, GPUEngine.enqueue. run_M.
  rewrite Hbusy. reflexivity.
Qed.

Lemma addToScene_registered (id : string) (ref : GPUShaderRef) (s : State) :
  isBusy (engine s) = false → idExecMap (engine s) !! id = Some ref →
  GPUEngine.addToScene id s
  = (on_drawer (λ d, set_entities
                       (Drawer.sorted (Drawer.notAfter s)
                          (entities d ++ [sr_executable ref])) d) s,
     Ok None).
Proof.
  intros Hidle Hid. unfold GPUEngine.addToScene.
  rewrite (guarded_registered _ _ _ ref) by done.
  unfold GPUEngine.addToScene_body, GPUEngine.executableOf, Drawer.add,
    Drawer.sort. run_M. rewrite Hid. cbv beta iota zeta.
  destruct s as [dv st r dr e]. reflexivity.
Qed.

Lemma removeFromScene_registered (id : string) (ref : GPUShaderRef) (s : State) :
  isBusy (engine s) = false → idExecMap (engine s) !! id = Some ref →
  GPUEngine.removeFromScene id s
  = (on_drawer (λ d, set_entities
                       (Drawer.removeFirst (sr_executable ref) (entities d)) d)
       s, Ok None).
Proof.
  intros Hidle Hid. unfold GPUEngine.removeFromScene.
  rewrite (guarded_registered _ _ _ ref) by done.
  unfold GPUEngine.removeFromScene_body, GPUEngine.executableOf, Drawer.remove.
  run_M. rewrite Hid. reflexivity.
Qed.

Lemma occurrences_Permutation (a : nat) (s s' : State) :
  entities (drawer s') ≡ₚ entities (drawer s) →
  occurrences a s' = occurrences a s.
Proof. intros H. unfold occurrences. by rewrite H. Qed.

(** In the Idle state, for a registered id with executable [a]: two
    [addToScene] calls return and leave the draw list a rearrangement of
    the old list with [a] appended twice, so [a] occurs twice more and a
    walk over the list issues two more indexed draws; one
    [removeFromScene] then removes the first entry that is [a] and no
    other, leaving one occurrence and one indexed draw more than at the
    start. *)
Lemma addToScene_twice_list (id : string) (ref : GPUShaderRef) (s : State) :
  isBusy (engine s) = false →
  idExecMap (engine s) !! id = Some ref →
  let a := sr_executable ref in
  let s1 := (GPUEngine.addToScene id s).1 in
  let s2 := (GPUEngine.addToScene id s1).1 in
  let s3 := (GPUEngine.removeFromScene id s2).1 in
  (GPUEngine.addToScene id s).2 = Ok None
  ∧ (GPUEngine.addToScene id s1).2 = Ok None
  ∧ (GPUEngine.removeFromScene id s2).2 = Ok None
  ∧ entities (drawer s2) ≡ₚ entities (drawer s) ++ [a; a]
  ∧ occurrences a s2 = occurrences a s + 2
  ∧ drawCalls s2 = drawCalls s + 2
  ∧ entities (drawer s3) = Drawer.removeFirst a (entities (drawer s2))
  ∧ (∀ l1 l2, entities (drawer s2) = l1 ++ a :: l2 → a ∉ l1 →
              entities (drawer s3) = l1 ++ l2)
  ∧ occurrences a s3 = occurrences a s + 1
  ∧ drawCalls s3 = drawCalls s + 1.
Proof.
  intros Hidle Hid a s1 s2 s3.
  assert (GPUEngine.addToScene id s = (s1, Ok None)) as H1.
  { subst s1. by rewrite (addToScene_registered id ref s). }
  assert (isBusy (engine s1) = false ∧ idExecMap (engine s1) !! id = Some ref)
    as [Hidle1 Hid1].
  { subst s1. by rewrite (addToScene_registered id ref s). }
  assert (GPUEngine.addToScene id s1 = (s2, Ok None)) as H2.
  { subst s2. by rewrite (addToScene_registered id ref s1). }
  assert (isBusy (engine s2) = false ∧ idExecMap (engine s2) !! id = Some ref)
    as [Hidle2 Hid2].
  { subst s2. by rewrite (addToScene_registered id ref s1). }
  assert (entities (drawer s2) ≡ₚ entities (drawer s) ++ [a; a]) as Hperm.
  { subst s2. rewrite (addToScene_registered id ref s1) by done.
    cbn [fst on_drawer drawer set_entities entities].
    rewrite sorted_Permutation.
    subst s1. rewrite (addToScene_registered id ref s) by done.
    cbn [fst on_drawer drawer set_entities entities].
    rewrite sorted_Permutation, <- app_assoc. reflexivity. }
  assert (entities (drawer s3) = Drawer.removeFirst a (entities (drawer s2)))
    as Hrem.
  { subst s3. by rewrite (removeFromScene_registered id ref s2). }
  assert (a ∈ entities (drawer s2)) as Hin.
  { rewrite Hperm. set_solver. }
  assert (occurrences a s2 = occurrences a s + 2) as Hocc.
  { unfold occurrences. rewrite Hperm, filter_app, length_app.
    rewrite !filter_cons_True by done. simpl. lia. }
  rewrite H1, H2, (removeFromScene_registered id ref s2) by done.
  repeat split; try done.
  - rewrite !drawCalls_length, Hperm, length_app. simpl. lia.
  - intros l1 l2 Hsplit Hnotin. rewrite Hrem, Hsplit.
    by apply removeFirst_first.
  - unfold occurrences in *. rewrite Hrem.
    pose proof (removeFirst_occurrences a _ Hin). lia.
  - rewrite !drawCalls_length, Hrem.
    pose proof (removeFirst_length a _ Hin) as Hlen.
    pose proof (Permutation_length Hperm) as Hl.
    rewrite length_app in Hl. simpl in Hl. lia.
Qed.

(** ** The frame *)

Lemma steady_writeGlobalBuffer_priority (bufferId : string) (byteOffset : nat)
  (type : Ty) (values : list byte) :
  steady any_kind
    (GPUEngine.writeGlobalBuffer bufferId byteOffset type values true).
Proof.
  unfold GPUEngine.writeGlobalBuffer. apply steady_bind; [steady | intros busy].
  simpl. unfold Renderer.writeGlobalBuffer.
  apply steady_bind; [steady | intros known].
  destruct (negb (bool_decide (is_Some known))); steady.
Qed.

Lemma depthTexture_get_frame (s : State) :
  let s' := (Drawer.depthTexture_get s).1 in
  store s' = store s ∧ renderer s' = renderer s ∧ engine s' = engine s
  ∧ entities (drawer s') = entities (drawer s)
  ∧ cameras (drawer s') = cameras (drawer s)
  ∧ sceneId (drawer s') = sceneId (drawer s)
  ∧ ∃ t, (Drawer.depthTexture_get s).2 = Ok t.
Proof.
  unfold Drawer.depthTexture_get. run_M.
  destruct (depthTexture (drawer s)) as [[t size] |].
  - destruct (bool_decide (size = canvas (drawer s))); simpl; eauto 10.
  - simpl. eauto 10.
Qed.

Lemma draw_list_same (s s' : State) :
  store s' = store s → entities (drawer s') = entities (drawer s) →
  Drawer.draw_list s' = Drawer.draw_list s.
Proof.
  intros Hst Hen. unfold Drawer.draw_list, Heap.executable.
  rewrite Hst, Hen. reflexivity.
Qed.

Lemma cameras_loop (w : string → nat → Ty → list byte → bool → M unit)
  (cams : list (list byte)) :
  (∀ id o t v, steady any_kind (w id o t v true)) →
  ∀ i pass s,
    later any_kind s
      (forEach (λ _ camera pass,
                  _ ← detached (w DEFAULT_CAMERA_BUFFER_ID 0 f32 camera true);
                  recorded ← gets Drawer.draw_list;
                  mret (pass ++ recorded))
               i cams pass s).1
    ∧ (forEach (λ _ camera pass,
                  _ ← detached (w DEFAULT_CAMERA_BUFFER_ID 0 f32 camera true);
                  recorded ← gets Drawer.draw_list;
                  mret (pass ++ recorded))
               i cams pass s).2
      = Ok (pass ++ concat (replicate (length cams) (Drawer.draw_list s))).
Proof.
  intros Hw. induction cams as [| cam cams IH]; intros i pass s.
  - simpl. rewrite app_nil_r. split; [apply later_refl | done].
  - cbn [forEach]. rewrite M_bind_run.
    pose proof (Hw DEFAULT_CAMERA_BUFFER_ID 0 f32 cam s) as Hstep.
    set (s1 := (w DEFAULT_CAMERA_BUFFER_ID 0 f32 cam true s).1) in *.
    assert ((detached (w DEFAULT_CAMERA_BUFFER_ID 0 f32 cam true)
             ≫= λ _, gets Drawer.draw_list
             ≫= λ recorded, mret (pass ++ recorded)) s
            = (s1, Ok (pass ++ Drawer.draw_list s1))) as -> by reflexivity.
    destruct (IH (S i) (pass ++ Drawer.draw_list s1) s1) as [Hlater Hres].
    split.
    + eapply later_trans; [exact Hstep | exact Hlater].
    + rewrite Hres. destruct Hstep as (Hst & _ & Hdr & _).
      rewrite (draw_list_same s s1) by (by rewrite ?Hdr).
      simpl. rewrite <- app_assoc. reflexivity.
Qed.

Lemma gets_bind_run {A B} (f : State → A) (k : A → M B) (s : State) :
  (gets f ≫= k) s = k (f s) s.
Proof. reflexivity. Qed.

Lemma modify_bind_run {B} (f : State → State) (k : unit → M B) (s : State) :
  (modify f ≫= k) s = k tt (f s).
Proof. reflexivity. Qed.

(** A frame records one walk over the draw list for each active camera of
    the current scene, one walk when there is none, and submits them as
    one pass. *)
Lemma draw_submits (s : State) :
  let active := OrderedMap.values
                  (default [] (OrderedMap.get (sceneId (drawer s))
                                 (cameras (drawer s)))) in
  let s' := (Drawer.draw GPUEngine.writeGlobalBuffer s).1 in
  (Drawer.draw GPUEngine.writeGlobalBuffer s).2 = Ok tt
  ∧ engine s' = engine s ∧ store s' = store s ∧ renderer s' = renderer s
  ∧ entities (drawer s') = entities (drawer s)
  ∧ ∃ before,
      ops (device s')
      = before ++ [Submit (concat (replicate (Nat.max 1 (length active))
                                     (Drawer.draw_list s)))].
Proof.
  intros active. unfold Drawer.draw. rewrite M_bind_run.
  destruct (depthTexture_get_frame s)
    as (Hst & Hr & He & Hen & Hcam & Hsc & [t Ht]).
  destruct (Drawer.depthTexture_get s) as [s1 o]. simpl in *. subst o.
  rewrite gets_bind_run. rewrite Hsc, Hcam. fold active.
  destruct active as [| cam cams] eqn:Hactive.
  - cbn [length Nat.leb]. rewrite gets_bind_run.
    rewrite (draw_list_same s s1) by done.
    unfold GPU.emit, modify. cbn. rewrite app_nil_r.
    repeat split; try done. eexists. reflexivity.
  - cbn [length Nat.leb]. rewrite M_bind_run.
    destruct (cameras_loop GPUEngine.writeGlobalBuffer (cam :: cams)
                steady_writeGlobalBuffer_priority 0 [] s1)
      as [(Hst2 & Hr2 & Hdr2 & He2 & _) Hres].
    destruct (forEach _ 0 (cam :: cams) [] s1) as [s2 o].
    cbn [fst snd] in *. subst o.
    rewrite (draw_list_same s s1) by done.
    unfold GPU.emit, modify. cbn [fst snd on_device engine store renderer
      drawer device ops app].
    repeat split; try congruence. eexists. reflexivity.
Qed.

(** ** Calls in the Busy state *)

Section Busy.

Context (numberToString : Ty → list byte → string).

Lemma call_busy (c : Call) (s : State) :
  isBusy (engine s) = true →
  GPUEngine.call numberToString c s
  = (on_engine (λ e, set_events (events e ++ [c]) e) s, Ok None).
Proof.
  intros Hbusy. destruct c; cbn [GPUEngine.call].
  - unfold GPUEngine.create, GPUEngine.enqueue. run_M. by rewrite Hbusy.
  - by apply guarded_busy.
  - by apply guarded_busy.
  - by apply guarded_busy.
  - by apply guarded_busy.
  - unfold GPUEngine.createGlobalBuffer, GPUEngine.enqueue. run_M.
    by rewrite Hbusy.
  - unfold GPUEngine.writeGlobalBuffer, GPUEngine.enqueue. run_M.
    by rewrite Hbusy.
  - unfold GPUEngine.createCamera, GPUEngine.enqueue. run_M. by rewrite Hbusy.
  - unfold GPUEngine.updateCamera, GPUEngine.enqueue. run_M. by rewrite Hbusy.
Qed.

Lemma issued_busy (calls : list Call) (s : State) :
  isBusy (engine s) = true →
  issued numberToString calls s
  = on_engine (λ e, set_events (events e ++ calls) e) s.
Proof.
  unfold issued. revert s.
  induction calls as [| c calls IH]; intros s Hbusy.
  - destruct s as [dv st r dr [? ? ? ? ? ? ?]].
    unfold on_engine, set_events. cbn. by rewrite app_nil_r.
  - cbn [foldl]. rewrite call_busy by done. cbn [fst].
    rewrite IH by done.
    destruct s as [dv st r dr [? ? ? ? ? ? ?]].
    unfold on_engine, set_events. cbn. by rewrite <- app_assoc.
Qed.

(** C9.  After [stop()], the frame callback draws, finds the running flag
    cleared and returns without rescheduling itself and with the busy
    flag set.  From then on every queueable call returns at once and the
    only change is that it is appended to the queue.  [draw()] then sets
    the running flag, draws a frame, clears the busy flag and runs the
    queue, in order. *)
Theorem stop_leaves_busy (s : State) :
  let s1 := (GPUEngine.stop s).1 in
  let s2 := (GPUEngine.frame numberToString s1).1 in
  (GPUEngine.frame numberToString s1).2 = Ok GPUEngine.Stopped
  ∧ isBusy (engine s2) = true
  ∧ inExecution (engine s2) = false
  ∧ scheduled (engine s2) = pred (scheduled (engine s))
  ∧ events (engine s2) = events (engine s)
  ∧ ∀ calls,
      let s3 := issued numberToString calls s2 in
      s3 = on_engine (λ e, set_events (events e ++ calls) e) s2
      ∧ (∀ before c after, calls = before ++ c :: after →
           (GPUEngine.call numberToString c
              (issued numberToString before s2)).2 = Ok None)
      ∧ isBusy (engine (unblocked s3)) = false
      ∧ GPUEngine.draw numberToString s3
        = let r := GPUEngine.drain numberToString
                     (events (engine s) ++ calls) (unblocked s3) in
          (r.1, match r.2 with
                | Ok t => Ok (Some t)
                | Throw e => Throw e
                end).
Proof.
  intros s1 s2.
  assert (GPUEngine.frame numberToString s1
          = ((Drawer.draw GPUEngine.writeGlobalBuffer
                (on_engine (set_isBusy true)
                   (on_engine (λ e, set_scheduled (pred (scheduled e)) e) s1))).1,
             Ok GPUEngine.Stopped)) as Hframe.
  { unfold GPUEngine.frame, GPUEngine.tick.
    rewrite !modify_bind_run, M_bind_run.
    match goal with |- context [Drawer.draw _ ?s] =>
      destruct (draw_submits s) as (Hok & He & _);
      destruct (Drawer.draw GPUEngine.writeGlobalBuffer s) as [s' o] end.
    cbn [fst snd] in *. subst o.
    rewrite gets_bind_run, He. reflexivity. }
  assert (engine s2
          = set_isBusy true
              (set_scheduled (pred (scheduled (engine s)))
                 (set_inExecution false (engine s)))) as Hengine.
  { subst s2. rewrite Hframe. cbn [fst].
    match goal with |- context [Drawer.draw _ ?s] =>
      destruct (draw_submits s) as (_ & He & _) end.
    rewrite He. reflexivity. }
  rewrite Hframe. cbn [snd].
  assert (isBusy (engine s2) = true) as Hbusy by (by rewrite Hengine).
  repeat split; try (by rewrite Hengine).
  - by apply issued_busy.
  - intros before c after _. rewrite issued_busy by done.
    by rewrite call_busy.
  - rewrite issued_busy by done. unfold unblocked.
    unfold GPUEngine.draw, GPUEngine.tick. rewrite gets_bind_run.
    cbn [on_engine engine set_events inExecution]. rewrite Hengine.
    cbn [set_isBusy set_scheduled set_inExecution inExecution].
    rewrite modify_bind_run, M_bind_run, modify_bind_run, M_bind_run.
    match goal with |- context [Drawer.draw _ ?s] =>
      destruct (draw_submits s) as (Hok & He & _);
      destruct (Drawer.draw GPUEngine.writeGlobalBuffer s) as [s' o] end.
    cbn [fst snd] in *. subst o.
    rewrite gets_bind_run, He.
    cbn [on_engine engine set_events inExecution set_isBusy set_inExecution
         negb]. rewrite modify_bind_run, gets_bind_run.
    cbn [on_engine engine set_events events set_isBusy].
    rewrite He. cbn [on_engine engine set_events events set_isBusy
                     set_inExecution].
    rewrite Hengine. cbn [set_isBusy set_scheduled set_inExecution events].
    destruct (GPUEngine.drain _ _ _) as [s'' [t | e]]; reflexivity.
Qed.

End Busy.

(** ** The queue is never emptied *)

(** C3.  [addToScene( "a" )] is issued in the Busy state: it returns at
    once, the draw list is unchanged and the call is queued.  [draw()]
    then runs it after the frame was submitted, so "a" is in the draw list
    once; but the call stays in the queue, the next frame runs it again,
    and "a" is in the draw list twice. *)
Theorem queued_call_runs_again_each_frame :
  let queued := GPUEngine.call firstByte (addToScene_ "a") stopped in
  let first := GPUEngine.draw firstByte queued.1 in
  let second := GPUEngine.frame firstByte first.1 in
  isBusy (engine stopped) = true
  ∧ queued.2 = Ok None
  ∧ entities (drawer queued.1) = []
  ∧ events (engine queued.1) = [addToScene_ "a"]
  ∧ first.2 = Ok (Some GPUEngine.Rescheduled)
  ∧ entities (drawer first.1) = [1]
  ∧ events (engine first.1) = [addToScene_ "a"]
  ∧ second.2 = Ok GPUEngine.Rescheduled
  ∧ entities (drawer second.1) = [1; 1]
  ∧ events (engine second.1) = [addToScene_ "a"].
Proof. vm_compute. repeat split; reflexivity. Qed.

(** ** Releasing an entity *)

(** C2.  "a" and "b" are created from one descriptor; "a" holds uniform
    buffer 1 and "b" uniform buffer 9.  [freeEntity( "b" )] destroys
    buffer 1, which is "a"'s, and [freeEntity( "a" )] destroys it again
    before the shared index and vertex buffers; buffer 9 is never
    destroyed. *)
Theorem freeEntity_destroys_the_first_uniform_buffer :
  let s := after [create_ "a" shape; create_ "b" shape] engine0 in
  (uniformBuffer <$> executableOf "a" s) = Some (Some 1)
  ∧ (uniformBuffer <$> executableOf "b" s) = Some (Some 9)
  ∧ (indexBuffer <$> executableOf "b" s) = Some 4
  ∧ (vertexBuffer <$> executableOf "b" s) = Some (Some 2)
  ∧ destroyed s = []
  ∧ (GPUEngine.await firstByte (freeEntity_ "b") s).2 = Ok None
  ∧ destroyed (after [freeEntity_ "b"] s) = [1]
  ∧ destroyed (after [freeEntity_ "b"; freeEntity_ "a"] s) = [1; 1; 4; 2].
Proof. vm_compute. repeat split; reflexivity. Qed.

(** ** Calls on an id that is being created *)

Lemma guarded_unknown (c : Call) (id : string) (body : M unit) (s : State) :
  isBusy (engine s) = false →
  idExecMap (engine s) !! id = None →
  isPending (engine s) !! id = None →
  GPUEngine.guarded c id body s = (s, Throw (ReferenceError_noEntity id)).
Proof.
  intros Hidle Hid Hpending. unfold GPUEngine.guarded. run_M.
  rewrite Hidle, Hid.
  rewrite bool_decide_eq_false_2 by (by intros [? ?]).
  cbv beta iota. rewrite Hpending. reflexivity.
Qed.

Lemma guarded_pending (c : Call) (id : string) (body : M unit) (s : State)
  (promise : nat) :
  isBusy (engine s) = false →
  idExecMap (engine s) !! id = None →
  isPending (engine s) !! id = Some promise →
  GPUEngine.guarded c id body s = (s, Ok (Some (GPUEngine.Await promise c))).
Proof.
  intros Hidle Hid Hpending. unfold GPUEngine.guarded. run_M.
  rewrite Hidle, Hid.
  rewrite bool_decide_eq_false_2 by (by intros [? ?]).
  cbv beta iota. rewrite Hpending. reflexivity.
Qed.

Section InFlight.

Context (numberToString : Ty → list byte → string).

(** [create] in the Idle state for a free id whose shader id is shared
    already: it stops at the [await] of [cloneProgram] and has changed
    nothing in the engine's own fields. *)
Lemma create_clone_path (id : string) (program : GPUCompilableProgram)
  (shaderId : string) (ref : nat) (s : State) :
  isBusy (engine s) = false →
  idExecMap (engine s) !! id = None →
  GPUEngine.shaderIdOf numberToString program = Ok shaderId →
  codeExecMap (engine s) !! shaderId = Some ref →
  GPUEngine.create numberToString id program s
  = ((Renderer.cloneProgram_begin program s).1,
     Ok (Some (GPUEngine.Clone id shaderId ref
                 (rc_executable (Heap.refCounter ref s))
                 (Renderer.cloneProgram_begin program s).2))).
Proof.
  intros Hidle Hid Hsid Href. unfold GPUEngine.create.
  rewrite gets_bind_run, Hidle, gets_bind_run, Hid.
  rewrite bool_decide_eq_false_2 by (by intros [? ?]).
  rewrite M_bind_run. unfold lift at 1. rewrite Hsid.
  rewrite gets_bind_run, Href, gets_bind_run. reflexivity.
Qed.

(** C8, on the path the code leaves out.  When the shader id of the
    descriptor is shared already, [create] takes the clone path and does
    not mark the id pending: while it is at its [await], [addToScene],
    [freeEntity], [removeFromScene] and [update] for that id throw "no
    entity with id" instead of waiting. *)
Theorem clone_in_flight_is_unknown (id : string)
  (program : GPUCompilableProgram) (shaderId : string) (ref : nat)
  (s : State) :
  isBusy (engine s) = false →
  idExecMap (engine s) !! id = None →
  isPending (engine s) !! id = None →
  GPUEngine.shaderIdOf numberToString program = Ok shaderId →
  codeExecMap (engine s) !! shaderId = Some ref →
  let started := GPUEngine.call numberToString (create_ id program) s in
  (∃ executable k,
     started.2 = Ok (Some (GPUEngine.Clone id shaderId ref executable k)))
  ∧ ∀ c, c ∈ [addToScene_ id; freeEntity_ id; removeFromScene_ id] ∨
         (∃ group binding resource z, c = update_ id group binding resource z) →
         GPUEngine.call numberToString c started.1
         = (started.1, Throw (ReferenceError_noEntity id)).
Proof.
  intros Hidle Hid Hpending Hsid Href started. subst started.
  cbn [GPUEngine.call].
  rewrite (create_clone_path id program shaderId ref s) by done.
  cbn [fst snd]. split; [eauto |].
  destruct (steady_cloneProgram_begin program s) as (_ & _ & _ & He & _).
  assert (∀ c body,
            GPUEngine.guarded c id body (Renderer.cloneProgram_begin program s).1
            = ((Renderer.cloneProgram_begin program s).1,
               Throw (ReferenceError_noEntity id))) as Hguard.
  { intros c body. apply guarded_unknown; by rewrite He. }
  intros c [Hc | (group & binding & resource & z & ->)].
  - apply elem_of_cons in Hc as [-> | Hc]; [apply Hguard |].
    apply elem_of_cons in Hc as [-> | Hc]; [apply Hguard |].
    apply list_elem_of_singleton in Hc as ->. apply Hguard.
  - apply Hguard.
Qed.

End InFlight.

Lemma clone_in_flight_is_unknown_witness :
  let s := after [create_ "a" shape] engine0 in
  let started := GPUEngine.call firstByte (create_ "b" shape) s in
  GPUEngine.call firstByte (addToScene_ "b") started.1
  = (started.1, Throw (ReferenceError_noEntity "b")).
Proof.
  intros s started.
  assert (∃ shaderId, GPUEngine.shaderIdOf firstByte shape = Ok shaderId
                      ∧ codeExecMap (engine s) !! shaderId = Some 2)
    as (shaderId & Hsid & Href).
  { eexists. split; vm_compute; reflexivity. }
  apply (proj2 (clone_in_flight_is_unknown firstByte "b" shape shaderId 2 s
                  ltac:(vm_compute; reflexivity) ltac:(vm_compute; reflexivity)
                  ltac:(vm_compute; reflexivity) Hsid Href)).
  left. apply elem_of_cons. by left.
Defined.

(** On the fresh path the same calls wait: [create] for the first entity
    of a shader id marks the id pending, and [addToScene] for it stops at
    [await promise]; it stays there while the creation is at its own
    [await], and once the creation has gone past it the waiting call goes
    on and the entity is in the draw list. *)
Lemma compile_in_flight_waits :
  let started := GPUEngine.call firstByte (create_ "a" shape) engine0 in
  let waiting := GPUEngine.call firstByte (addToScene_ "a") started.1 in
  let stuck := GPUEngine.resume (GPUEngine.Await 0 (addToScene_ "a"))
                 waiting.1 in
  match started.2 with
  | Ok (Some creation) =>
      let created := GPUEngine.resume creation waiting.1 in
      let added := GPUEngine.resume (GPUEngine.Await 0 (addToScene_ "a"))
                     created.1 in
      waiting.2 = Ok (Some (GPUEngine.Await 0 (addToScene_ "a")))
      ∧ stuck.2 = Ok (Some (GPUEngine.Await 0 (addToScene_ "a")))
      ∧ created.2 = Ok None ∧ added.2 = Ok None
      ∧ entities (drawer added.1) = [1]
  | _ => False
  end.
Proof. vm_compute. repeat split; reflexivity. Qed.

(** ** What a creation allocates *)

Lemma createUniformBuffer_result (groups : list (list GPUBinding)) (s : State) :
  groups ≠ [] →
  (Renderer.createUniformBuffer groups s).2 = Ok (Some (nextHandle (device s)))
  ∧ nextHandle (device s)
    < nextHandle (device (Renderer.createUniformBuffer groups s).1).
Proof.
  intros Hne. unfold Renderer.createUniformBuffer.
  destruct groups as [| g groups]; [done |]. cbn [length Nat.leb].
  unfold GPU.create. run_M. cbn. split; [reflexivity | lia].
Qed.

Lemma createUniformBuffer_none (s : State) :
  Renderer.createUniformBuffer [] s = (s, Ok None).
Proof. reflexivity. Qed.

Lemma steady_bindGroup (layouts : list nat) (buffer : option nat) (i : nat)
  (group : list GPUBinding) (acc : list nat * Renderer.BindLocals) :
  steady own_kind (Renderer.bindGroup layouts buffer i group acc).
Proof.
  unfold Renderer.bindGroup. apply steady_bind.
  - apply steady_forEach. intros. apply steady_bindOne.
  - intros l. steady.
Qed.

Lemma bindGroup_step (layouts : list nat) (buffer : option nat) (i : nat)
  (group : list GPUBinding) (acc acc' : list nat * Renderer.BindLocals)
  (s : State) :
  (Renderer.bindGroup layouts buffer i group acc s).2 = Ok acc' →
  ∃ g, acc'.1 = acc.1 ++ [g]
       ∧ nextHandle (device s) ≤ g
         < nextHandle (device (Renderer.bindGroup layouts buffer i group acc s).1).
Proof.
  unfold Renderer.bindGroup. rewrite M_bind_run.
  pose proof (steady_forEach own_kind (Renderer.bindOne buffer i) group
                (λ j x l, steady_bindOne buffer i j x l) 0
                {| Renderer.l_offset := Renderer.l_offset acc.2;
                   Renderer.l_uniforms := Renderer.l_uniforms acc.2;
                   Renderer.l_entries := [] |} s) as Hinner.
  destruct (forEach (Renderer.bindOne buffer i) 0 group _ s)
    as [s1 [l | e]]; [| done].
  cbn [fst snd] in Hinner. destruct Hinner as (_ & _ & _ & _ & Hle & _).
  unfold GPU.create. run_M. cbn. intros [= <-]. eexists. split; [done |]. lia.
Qed.

(** The handles of the bind groups [#createBindGroup] returns were given
    out during the call, one for each group. *)
Lemma bindGroup_loop (layouts : list nat) (buffer : option nat) (n0 : nat)
  (groups : list (list GPUBinding)) :
  ∀ i acc s r,
    n0 ≤ nextHandle (device s) →
    Forall (λ g, n0 ≤ g < nextHandle (device s)) acc.1 →
    (forEach (Renderer.bindGroup layouts buffer) i groups acc s).2 = Ok r →
    Forall (λ g, n0 ≤ g < nextHandle
                   (device (forEach (Renderer.bindGroup layouts buffer)
                              i groups acc s).1)) r.1
    ∧ length r.1 = length acc.1 + length groups.
Proof.
  induction groups as [| group groups IH]; intros i acc s r Hn0 Hacc Hres.
  - simpl in *. injection Hres as <-. split; [done | lia].
  - cbn [forEach] in *. rewrite M_bind_run in *.
    pose proof (λ acc', bindGroup_step layouts buffer i group acc acc' s)
      as Hstep.
    pose proof (steady_bindGroup layouts buffer i group acc s) as Hlater.
    destruct (Renderer.bindGroup layouts buffer i group acc s)
      as [s1 [acc1 | e]]; [| done].
    cbn [fst snd] in *. destruct Hlater as (_ & _ & _ & _ & Hle & _).
    destruct (Hstep acc1 eq_refl) as (g & Hg & Hrange).
    destruct (IH (S i) acc1 s1 r) as [Hall Hlen]; [lia | | exact Hres |].
    + rewrite Hg. apply Forall_app. split.
      * eapply Forall_impl; [exact Hacc |]. cbn. intros ? ?. lia.
      * apply Forall_singleton. lia.
    + split; [exact Hall |]. rewrite Hlen, Hg, length_app. simpl. lia.
Qed.

Lemma createBindGroup_result (groups : list (list GPUBinding))
  (layouts : list nat) (buffer : option nat) (s : State)
  (r : Renderer.BindGroups) :
  (Renderer.createBindGroup groups layouts buffer s).2 = Ok r →
  length (Renderer.bg_bindGroups r) = length groups
  ∧ Forall (λ g, nextHandle (device s) ≤ g
                 < nextHandle
                     (device (Renderer.createBindGroup groups layouts buffer s).1))
      (Renderer.bg_bindGroups r).
Proof.
  unfold Renderer.createBindGroup.
  destruct (Nat.eqb_spec (length groups) 0) as [Hzero | Hpos].
  - intros [= <-]. simpl. split; [lia | apply Forall_nil; exact I].
  - rewrite M_bind_run.
    pose proof (bindGroup_loop layouts buffer (nextHandle (device s)) groups 0
                  ([], {| Renderer.l_offset := 0; Renderer.l_uniforms := [];
                          Renderer.l_entries := [] |}) s) as Hloop.
    destruct (forEach _ 0 groups _ s) as [s1 [acc | e]]; [| done].
    cbn [fst snd] in *. intros [= <-]. cbn.
    destruct (Hloop acc) as [Hall Hlen]; [lia | apply Forall_nil; exact I | done |].
    split; [exact Hlen | exact Hall].
Qed.

Lemma cloneProgram_begin_result (program : GPUCompilableProgram) (s : State)
  (k : Renderer.Cloning) :
  (Renderer.cloneProgram_begin program s).2 = Ok k →
  let s' := (Renderer.cloneProgram_begin program s).1 in
  (groups program ≠ [] →
   ∃ u, Renderer.k_uniformBuffer k = Some u
        ∧ nextHandle (device s) ≤ u < nextHandle (device s'))
  ∧ length (Renderer.bg_bindGroups (Renderer.k_bind k)) = length (groups program)
  ∧ Forall (λ g, nextHandle (device s) ≤ g < nextHandle (device s'))
      (Renderer.bg_bindGroups (Renderer.k_bind k)).
Proof.
  unfold Renderer.cloneProgram_begin. rewrite M_bind_run.
  pose proof (steady_createGroupLayout (groups program) s) as H1.
  destruct (Renderer.createGroupLayout (groups program) s)
    as [s1 [layouts | e]]; [| done].
  cbn [fst snd] in H1. destruct H1 as (_ & _ & _ & _ & Hle1 & _).
  rewrite M_bind_run.
  pose proof (createUniformBuffer_result (groups program) s1) as Hu.
  pose proof (steady_createUniformBuffer (groups program) s1) as H2.
  destruct (Renderer.createUniformBuffer (groups program) s1)
    as [s2 [ub | e]]; [| done].
  cbn [fst snd] in Hu, H2. destruct H2 as (_ & _ & _ & _ & Hle2 & _).
  rewrite M_bind_run.
  pose proof (λ r, createBindGroup_result (groups program) layouts ub s2 r)
    as Hb.
  pose proof (steady_createBindGroup (groups program) layouts ub s2) as H3.
  destruct (Renderer.createBindGroup (groups program) layouts ub s2)
    as [s3 [b | e]]; [| done].
  cbn [fst snd] in Hb, H3 |- *. destruct H3 as (_ & _ & _ & _ & Hle3 & _).
  intros [= <-]. cbn.
  destruct (Hb b eq_refl) as [Hlen Hall].
  split; [| split; [exact Hlen |]].
  - intros Hne. destruct (Hu Hne) as [[= ->] Hlt].
    eexists. split; [done |]. lia.
  - eapply Forall_impl; [exact Hall |]. cbn. intros g ?. lia.
Qed.

Lemma createProgram_begin_result (program : GPUCompilableProgram) (s : State)
  (c : Renderer.Compiling) :
  (Renderer.createProgram_begin program s).2 = Ok c →
  let s' := (Renderer.createProgram_begin program s).1 in
  (groups program ≠ [] →
   ∃ u, Renderer.c_uniformBuffer c = Some u
        ∧ nextHandle (device s) ≤ u < nextHandle (device s'))
  ∧ length (Renderer.bg_bindGroups (Renderer.c_bind c)) = length (groups program)
  ∧ Forall (λ g, nextHandle (device s) ≤ g < nextHandle (device s'))
      (Renderer.bg_bindGroups (Renderer.c_bind c)).
Proof.
  unfold Renderer.createProgram_begin. rewrite M_bind_run.
  pose proof (steady_createGroupLayout (groups program) s) as H1.
  destruct (Renderer.createGroupLayout (groups program) s)
    as [s1 [layouts | e]]; [| done].
  cbn [fst snd] in H1. destruct H1 as (_ & _ & _ & _ & Hle1 & _).
  rewrite M_bind_run.
  pose proof (createUniformBuffer_result (groups program) s1) as Hu.
  pose proof (steady_createUniformBuffer (groups program) s1) as H2.
  destruct (Renderer.createUniformBuffer (groups program) s1)
    as [s2 [ub | e]]; [| done].
  cbn [fst snd] in Hu, H2. destruct H2 as (_ & _ & _ & _ & Hle2 & _).
  rewrite M_bind_run.
  pose proof (steady_createVertexBuffer (vertexDescriptor program) s2) as Hv.
  destruct (Renderer.createVertexBuffer (vertexDescriptor program) s2)
    as [sv [v | e]]; [| done].
  cbn [fst snd] in Hv. destruct Hv as (_ & _ & _ & _ & Hlev & _).
  rewrite M_bind_run.
  pose proof (λ r, createBindGroup_result (groups program) layouts ub sv r)
    as Hb.
  pose proof (steady_createBindGroup (groups program) layouts ub sv) as H3.
  destruct (Renderer.createBindGroup (groups program) layouts ub sv)
    as [s3 [b | e]]; [| done].
  cbn [fst snd] in Hb, H3 |- *. destruct H3 as (_ & _ & _ & _ & Hle3 & _).
  intros [= <-]. cbn.
  destruct (Hb b eq_refl) as [Hlen Hall].
  split; [| split; [exact Hlen |]].
  - intros Hne. destruct (Hu Hne) as [[= ->] Hlt].
    eexists. split; [done |]. lia.
  - eapply Forall_impl; [exact Hall |]. cbn. intros g ?. lia.
Qed.

Lemma createIndexBuffer_returns (indices : list Z) (size : Q) (s : State) :
  ∃ ib, (Renderer.createIndexBuffer indices size s).2 = Ok ib.
Proof.
  unfold Renderer.createIndexBuffer, GPU.create, GPU.emit, GPU.warn. run_M.
  destruct (length indices <=? 0)%nat; cbn; eauto.
Qed.

(** [createProgram] past its [await]: it returns the address of a new
    executable that holds the uniform buffer and the bind groups made
    before the [await]. *)
Lemma createProgram_end_result (program : GPUCompilableProgram)
  (c : Renderer.Compiling) (s : State) :
  let s' := (Renderer.createProgram_end program c s).1 in
  let a := nextAddress (store s) in
  (Renderer.createProgram_end program c s).2 = Ok a
  ∧ engine s' = engine s ∧ drawer s' = drawer s
  ∧ nextAddress (store s') = S a
  ∧ refCounters (store s') = refCounters (store s)
  ∧ promises (store s') = promises (store s)
  ∧ nextHandle (device s) ≤ nextHandle (device s')
  ∧ ∃ e, executables (store s') = <[a := e]> (executables (store s))
         ∧ uniformBuffer e = Renderer.c_uniformBuffer c
         ∧ bindGroups e = Renderer.bg_bindGroups (Renderer.c_bind c).
Proof.
  unfold Renderer.createProgram_end. rewrite M_bind_run.
  pose proof (steady_createIndexBuffer (indices program)
                (Renderer.vb_size (Renderer.c_vertex c)) s) as H1.
  destruct (createIndexBuffer_returns (indices program)
              (Renderer.vb_size (Renderer.c_vertex c)) s) as [ib Hib].
  destruct (Renderer.createIndexBuffer _ _ s) as [s1 o].
  cbn [fst snd] in H1, Hib. subst o.
  destruct H1 as (Hst & Hr & Hdr & He & Hle & _).
  unfold GPU.create, Renderer.defaultZ, Heap.new_executable, Heap.fresh,
    Heap.set_executable.
  run_M. cbn. rewrite Hst, He, Hdr.
  repeat split; try done; [lia |]. eexists. repeat split.
Qed.

(** [cloneProgram] past its [await]. *)
Lemma cloneProgram_end_result (executable : nat) (k : Renderer.Cloning)
  (s : State) :
  let s' := (Renderer.cloneProgram_end executable k s).1 in
  let a := nextAddress (store s) in
  let e := Heap.executable a s' in
  (Renderer.cloneProgram_end executable k s).2 = Ok a
  ∧ engine s' = engine s ∧ drawer s' = drawer s ∧ device s' = device s
  ∧ nextAddress (store s') = S a
  ∧ refCounters (store s') = refCounters (store s)
  ∧ promises (store s') = promises (store s)
  ∧ executables (store s') = <[a := e]> (executables (store s))
  ∧ pipeline e = pipeline (Heap.executable executable s)
  ∧ vertexBuffer e = vertexBuffer (Heap.executable executable s)
  ∧ indexBuffer e = indexBuffer (Heap.executable executable s)
  ∧ uniformBuffer e = Renderer.k_uniformBuffer k
  ∧ bindGroups e = Renderer.bg_bindGroups (Renderer.k_bind k).
Proof.
  unfold Renderer.cloneProgram_end, Renderer.defaultZ, Heap.new_executable,
    Heap.fresh, Heap.set_executable, Heap.executable.
  run_M. cbn. rewrite lookup_total_insert_eq. cbn. repeat split.
Qed.

Section Create.

Context (numberToString : Ty → list byte → string).

(** An awaited [create] that finds the shader id shared. *)
Lemma await_create_shared (id : string) (program : GPUCompilableProgram)
  (shaderId : string) (ref : nat) (s s' : State) :
  isBusy (engine s) = false →
  idExecMap (engine s) !! id = None →
  GPUEngine.shaderIdOf numberToString program = Ok shaderId →
  codeExecMap (engine s) !! shaderId = Some ref →
  GPUEngine.await numberToString (create_ id program) s = (s', Ok None) →
  let x := rc_executable (Heap.refCounter ref s) in
  let a := nextAddress (store s) in
  let e := Heap.executable a s' in
  isBusy (engine s') = false
  ∧ idExecMap (engine s')
    = <[id := {| sr_executable := a; sr_shaderId := shaderId |}]>
        (idExecMap (engine s))
  ∧ codeExecMap (engine s') = codeExecMap (engine s)
  ∧ nextAddress (store s') = S a
  ∧ executables (store s') = <[a := e]> (executables (store s))
  ∧ refCounters (store s')
    = <[ref := {| rc_executable := x;
                  rc_count := (rc_count (Heap.refCounter ref s) + 1)%Z |}]>
        (refCounters (store s))
  ∧ pipeline e = pipeline (Heap.executable x s)
  ∧ vertexBuffer e = vertexBuffer (Heap.executable x s)
  ∧ indexBuffer e = indexBuffer (Heap.executable x s)
  ∧ (groups program ≠ [] →
     ∃ u, uniformBuffer e = Some u
          ∧ nextHandle (device s) ≤ u < nextHandle (device s'))
  ∧ length (bindGroups e) = length (groups program)
  ∧ Forall (λ g, nextHandle (device s) ≤ g < nextHandle (device s'))
      (bindGroups e)
  ∧ nextHandle (device s) ≤ nextHandle (device s')
  ∧ ∀ h o, objects (device s') !! h = Some o →
           objects (device s) !! h = Some o ∨ own_kind o.
Proof.
  intros Hidle Hid Hsid Href Hrun x a e.
  unfold GPUEngine.await in Hrun. cbn [GPUEngine.call] in Hrun.
  rewrite M_bind_run in Hrun.
  rewrite (create_clone_path numberToString id program shaderId ref s)
    in Hrun by done.
  pose proof (steady_cloneProgram_begin program s) as Hlater.
  pose proof (λ k, cloneProgram_begin_result program s k) as Hbegin.
  destruct (Renderer.cloneProgram_begin program s) as [sA [k | err]];
    cbn [fst snd] in *.
  2:{ unfold GPUEngine.resume in Hrun. rewrite M_bind_run in Hrun.
      unfold lift in Hrun. done. }
  destruct Hlater as (Hst & Hr & Hdr & He & Hle & Hobj).
  destruct (Hbegin k eq_refl) as (Hu & Hlen & Hall).
  unfold GPUEngine.resume in Hrun. rewrite M_bind_run in Hrun.
  unfold lift at 1 in Hrun. cbv beta iota in Hrun.
  rewrite M_bind_run in Hrun.
  destruct (cloneProgram_end_result
              (rc_executable (Heap.refCounter ref s)) k sA)
    as (Hok & He' & Hdr' & Hdv' & Hna & Hrc & Hpr & Hex & Hp & Hv & Hi & Hub & Hbg).
  destruct (Renderer.cloneProgram_end _ k sA) as [sB o].
  cbn [fst snd] in *. subst o.
  rewrite modify_bind_run, gets_bind_run in Hrun.
  unfold Heap.set_refCounter in Hrun. rewrite modify_bind_run in Hrun.
  injection Hrun as <-.
  subst e a x. unfold Heap.executable, Heap.refCounter in *. cbn.
  rewrite He', He, Hna, Hrc, Hex, Hdv', Hst in *.
  rewrite Hidle. rewrite lookup_total_insert_eq in *.
  repeat split; try done.
  - by rewrite Hub.
  - by rewrite Hbg.
  - by rewrite Hbg.
Qed.

(** An awaited [create] that is the first for its shader id. *)
Lemma await_create_fresh (id : string) (program : GPUCompilableProgram)
  (shaderId : string) (s s' : State) :
  isBusy (engine s) = false →
  idExecMap (engine s) !! id = None →
  GPUEngine.shaderIdOf numberToString program = Ok shaderId →
  codeExecMap (engine s) !! shaderId = None →
  GPUEngine.await numberToString (create_ id program) s = (s', Ok None) →
  let a := S (nextAddress (store s)) in
  let ref := S a in
  let e := Heap.executable a s' in
  isBusy (engine s') = false
  ∧ idExecMap (engine s')
    = <[id := {| sr_executable := a; sr_shaderId := shaderId |}]>
        (idExecMap (engine s))
  ∧ codeExecMap (engine s') = <[shaderId := ref]> (codeExecMap (engine s))
  ∧ nextAddress (store s') = S ref
  ∧ executables (store s') = <[a := e]> (executables (store s))
  ∧ refCounters (store s')
    = <[ref := {| rc_executable := a; rc_count := 1 |}]>
        (refCounters (store s))
  ∧ (groups program ≠ [] →
     ∃ u, uniformBuffer e = Some u
          ∧ nextHandle (device s) ≤ u < nextHandle (device s'))
  ∧ length (bindGroups e) = length (groups program)
  ∧ Forall (λ g, nextHandle (device s) ≤ g < nextHandle (device s'))
      (bindGroups e)
  ∧ nextHandle (device s) ≤ nextHandle (device s').
Proof.
  intros Hidle Hid Hsid Hfree Hrun a ref e.
  unfold GPUEngine.await in Hrun. cbn [GPUEngine.call] in Hrun.
  rewrite M_bind_run in Hrun. unfold GPUEngine.create in Hrun.
  rewrite gets_bind_run, Hidle, gets_bind_run, Hid in Hrun.
  rewrite bool_decide_eq_false_2 in Hrun by (by intros [? ?]).
  rewrite M_bind_run in Hrun. unfold lift at 1 in Hrun. rewrite Hsid in Hrun.
  rewrite gets_bind_run, Hfree in Hrun. rewrite M_bind_run in Hrun.
  unfold GPUEngine.attempt at 1 in Hrun.
  pose proof (steady_createProgram_begin program s) as Hlater.
  pose proof (λ c, createProgram_begin_result program s c) as Hbegin.
  destruct (Renderer.createProgram_begin program s) as [sA [c | err]];
    cbn [fst snd] in *.
  2:{ unfold Heap.new_promise, Heap.fresh, Heap.set_promise in Hrun.
      revert Hrun. run_M. cbn. done. }
  destruct Hlater as (Hst & Hr & Hdr & He & Hle & _).
  destruct (Hbegin c eq_refl) as (Hu & Hlen & Hall).
  set (sP := on_engine
               (λ e, set_isPending
                       (<[id := nextAddress (store sA)]> (isPending e)) e)
               (Heap.new_promise Pending sA).1) in *.
  assert ((Heap.new_promise Pending
           ≫= λ promise,
                modify (on_engine (λ e,
                          set_isPending (<[id := promise]> (isPending e)) e))
                ≫= λ _, mret (Some (GPUEngine.Compile id shaderId promise
                                      program (Ok c)))) sA
          = (sP, Ok (Some (GPUEngine.Compile id shaderId
                             (nextAddress (store sA)) program (Ok c)))))
    as Hcreate by reflexivity.
  rewrite Hcreate in Hrun. cbv beta iota in Hrun.
  unfold GPUEngine.resume in Hrun. rewrite M_bind_run in Hrun.
  unfold lift at 1 in Hrun. cbv beta iota in Hrun.
  rewrite M_bind_run in Hrun.
  destruct (createProgram_end_result program c sP)
    as (Hok & He' & Hdr' & Hna & Hrc & Hpr & Hle' & (e0 & Hex & Hub & Hbg)).
  destruct (Renderer.createProgram_end program c sP) as [sB o].
  cbn [fst snd] in *. subst o.
  unfold Heap.set_promise, Heap.new_refCounter, Heap.fresh,
    Heap.set_refCounter in Hrun.
  revert Hrun. run_M. cbn. intros [= <-].
  subst e a ref. unfold Heap.executable. cbn.
  subst sP. clear Hcreate.
  unfold Heap.new_promise, Heap.fresh, Heap.set_promise, mbind, M_bind, mret,
    M_ret, modify in *. cbn in *.
  rewrite He', Hna, Hrc, Hex, He, Hst. cbn. rewrite Hidle.
  rewrite lookup_total_insert_eq, Hub, Hbg.
  repeat split; try done.
  - intros Hne. destruct (Hu Hne) as (u & Hsome & Hrange).
    exists u. split; [done |]. lia.
  - eapply Forall_impl; [exact Hall |]. cbn in *. intros g ?. lia.
  - lia.
Qed.

End Create.

(** ** Two entities with one shader id *)

Lemma nonempty_length {A B} (l : list A) (k : list B) :
  length l = length k → k ≠ [] → l ≠ [].
Proof. intros Hlen Hk ->. destruct k; [done | discriminate Hlen]. Qed.

Lemma ranges_apart (n : nat) (lo hi lo' hi' : nat) (l k : list nat) :
  hi ≤ lo' →
  Forall (λ g, lo ≤ g < hi) l → Forall (λ g, lo' ≤ g < hi') k →
  ∀ g, g ∈ l → g ∉ k.
Proof.
  intros Hle Hl Hk g Hin Hin'.
  rewrite Forall_forall in Hl, Hk.
  specialize (Hl g Hin). specialize (Hk g Hin'). lia.
Qed.

Section Sharing.

Context (numberToString : Ty → list byte → string).

(** Two [create] calls, each awaited, in the Idle
    state, for distinct free ids and descriptors with the same shader id
    that both declare at least one bind group: if both return, the ids are
    registered with executables that have the same pipeline, vertex buffer
    and index buffer, the second call created no vertex buffer, index
    buffer or pipeline, the reference count of the shared entry went up by
    one with each call, and the two executables have different uniform
    buffers and no bind group in common. *)
Theorem create_twice_shares_the_program (id1 id2 : string)
  (p1 p2 : GPUCompilableProgram) (shaderId : string) (s s1 s2 : State) :
  isBusy (engine s) = false →
  id1 ≠ id2 →
  idExecMap (engine s) !! id1 = None →
  idExecMap (engine s) !! id2 = None →
  GPUEngine.shaderIdOf numberToString p1 = Ok shaderId →
  GPUEngine.shaderIdOf numberToString p2 = Ok shaderId →
  groups p1 ≠ [] →
  groups p2 ≠ [] →
  GPUEngine.await numberToString (create_ id1 p1) s = (s1, Ok None) →
  GPUEngine.await numberToString (create_ id2 p2) s1 = (s2, Ok None) →
  shares shaderId id1 id2 s s1 s2.
Proof.
  intros Hidle Hne Hid1 Hid2 Hsid1 Hsid2 Hg1 Hg2 Hrun1 Hrun2.
  unfold shares, references.
  destruct (codeExecMap (engine s) !! shaderId) as [ref0 |] eqn:Hshared.
  - (* the shader id is shared already: both calls clone *)
    destruct (await_create_shared numberToString id1 p1 shaderId ref0 s s1
                Hidle Hid1 Hsid1 Hshared Hrun1)
      as (Hidle1 & Hmap1 & Hcode1 & Hna1 & Hex1 & Hrc1 & Hp1 & Hv1 & Hi1
          & Hu1 & Hlen1 & Hall1 & Hle1 & _).
    assert (idExecMap (engine s1) !! id2 = None) as Hid2'.
    { rewrite Hmap1, lookup_insert_ne; done. }
    assert (codeExecMap (engine s1) !! shaderId = Some ref0) as Hshared1.
    { by rewrite Hcode1. }
    destruct (await_create_shared numberToString id2 p2 shaderId ref0 s1 s2
                Hidle1 Hid2' Hsid2 Hshared1 Hrun2)
      as (Hidle2 & Hmap2 & Hcode2 & Hna2 & Hex2 & Hrc2 & Hp2 & Hv2 & Hi2
          & Hu2 & Hlen2 & Hall2 & Hle2 & Hobj2).
    set (a1 := nextAddress (store s)) in *.
    set (a2 := nextAddress (store s1)) in *.
    assert (a1 ≠ a2) as Ha by (subst a2; lia).
    assert (Heap.executable a1 s2 = Heap.executable a1 s1) as He1.
    { unfold Heap.executable. rewrite Hex2, lookup_total_insert_ne; done. }
    set (x := rc_executable (Heap.refCounter ref0 s)) in *.
    assert (rc_executable (Heap.refCounter ref0 s1) = x) as Hx.
    { unfold Heap.refCounter at 1. rewrite Hrc1, lookup_total_insert_eq. done. }
    assert (rc_count (Heap.refCounter ref0 s1)
            = (rc_count (Heap.refCounter ref0 s) + 1)%Z) as Hc1.
    { unfold Heap.refCounter at 1. rewrite Hrc1, lookup_total_insert_eq. done. }
    rewrite Hx in *.
    assert (pipeline (Heap.executable x s1) = pipeline (Heap.executable a1 s1)
            ∧ vertexBuffer (Heap.executable x s1)
              = vertexBuffer (Heap.executable a1 s1)
            ∧ indexBuffer (Heap.executable x s1)
              = indexBuffer (Heap.executable a1 s1)) as (Hp & Hv & Hi).
    { destruct (decide (x = a1)) as [-> | Hxa]; [done |].
      assert (Heap.executable x s1 = Heap.executable x s) as ->.
      { unfold Heap.executable. rewrite Hex1, lookup_total_insert_ne; done. }
      done. }
    destruct (Hu1 Hg1) as (u1 & Hub1 & Hr1).
    destruct (Hu2 Hg2) as (u2 & Hub2 & Hr2).
    exists a1, a2. rewrite He1, Hcode2, Hcode1, Hshared.
    repeat split.
    + rewrite Hmap2, lookup_insert_ne, Hmap1, lookup_insert_eq; done.
    + rewrite Hmap2, lookup_insert_eq. done.
    + done.
    + congruence.
    + congruence.
    + congruence.
    + intros h o Hh Hkind. destruct (Hobj2 h o Hh) as [? | Hown]; [done |].
      by destruct Hown.
    + rewrite Hc1. lia.
    + unfold Heap.refCounter at 1.
      rewrite Hrc2, lookup_total_insert_eq. cbn [rc_count].
      rewrite Hc1. lia.
    + exists u1, u2. repeat split; [done | done | lia].
    + by apply (nonempty_length _ (groups p1)).
    + by apply (nonempty_length _ (groups p2)).
    + eapply (ranges_apart 0); [| exact Hall1 | exact Hall2]. lia.
  - (* the first call compiles, the second clones *)
    destruct (await_create_fresh numberToString id1 p1 shaderId s s1
                Hidle Hid1 Hsid1 Hshared Hrun1)
      as (Hidle1 & Hmap1 & Hcode1 & Hna1 & Hex1 & Hrc1
          & Hu1 & Hlen1 & Hall1 & Hle1).
    set (a1 := S (nextAddress (store s))) in *.
    set (ref := S a1) in *.
    assert (idExecMap (engine s1) !! id2 = None) as Hid2'.
    { rewrite Hmap1, lookup_insert_ne; done. }
    assert (codeExecMap (engine s1) !! shaderId = Some ref) as Hshared1.
    { by rewrite Hcode1, lookup_insert_eq. }
    destruct (await_create_shared numberToString id2 p2 shaderId ref s1 s2
                Hidle1 Hid2' Hsid2 Hshared1 Hrun2)
      as (Hidle2 & Hmap2 & Hcode2 & Hna2 & Hex2 & Hrc2 & Hp2 & Hv2 & Hi2
          & Hu2 & Hlen2 & Hall2 & Hle2 & Hobj2).
    set (a2 := nextAddress (store s1)) in *.
    assert (a1 ≠ a2) as Ha by (subst a2 ref; lia).
    assert (Heap.executable a1 s2 = Heap.executable a1 s1) as He1.
    { unfold Heap.executable. rewrite Hex2, lookup_total_insert_ne; done. }
    assert (rc_executable (Heap.refCounter ref s1) = a1) as Hx.
    { unfold Heap.refCounter. rewrite Hrc1, lookup_total_insert_eq. done. }
    assert (rc_count (Heap.refCounter ref s1) = 1%Z) as Hc1.
    { unfold Heap.refCounter. rewrite Hrc1, lookup_total_insert_eq. done. }
    rewrite Hx in *.
    destruct (Hu1 Hg1) as (u1 & Hub1 & Hr1).
    destruct (Hu2 Hg2) as (u2 & Hub2 & Hr2).
    exists a1, a2. rewrite He1, Hcode2, Hshared1.
    repeat split.
    + rewrite Hmap2, lookup_insert_ne, Hmap1, lookup_insert_eq; done.
    + rewrite Hmap2, lookup_insert_eq. done.
    + done.
    + congruence.
    + congruence.
    + congruence.
    + intros h o Hh Hkind. destruct (Hobj2 h o Hh) as [? | Hown]; [done |].
      by destruct Hown.
    + rewrite Hc1. lia.
    + unfold Heap.refCounter at 1.
      rewrite Hrc2, lookup_total_insert_eq. cbn [rc_count].
      rewrite Hc1. lia.
    + exists u1, u2. repeat split; [done | done | lia].
    + by apply (nonempty_length _ (groups p1)).
    + by apply (nonempty_length _ (groups p2)).
    + eapply (ranges_apart 0); [| exact Hall1 | exact Hall2]. lia.
Qed.

End Sharing.

Lemma create_twice_shares_the_program_witness :
  let s1 := after [create_ "a" shape] engine0 in
  let s2 := after [create_ "a" shape; create_ "b" shape] engine0 in
  ∃ shaderId,
    GPUEngine.shaderIdOf firstByte shape = Ok shaderId
    ∧ shares shaderId "a" "b" engine0 s1 s2.
Proof.
  intros s1 s2.
  assert (∃ shaderId, GPUEngine.shaderIdOf firstByte shape = Ok shaderId)
    as (shaderId & Hsid).
  { eexists. vm_compute. reflexivity. }
  exists shaderId. split; [exact Hsid |].
  apply (create_twice_shares_the_program firstByte "a" "b" shape shape
           shaderId engine0 s1 s2);
    [ vm_compute; reflexivity | discriminate
    | vm_compute; reflexivity | vm_compute; reflexivity
    | exact Hsid | exact Hsid | discriminate | discriminate
    | vm_compute; reflexivity | vm_compute; reflexivity ].
Defined.

(** Awaited calls for descriptors with no bind group: both calls return
    and register their ids, and neither executable has a uniform buffer
    or a bind group, so the two ids do not hold distinct ones. *)
Lemma create_twice_without_groups :
  let s1 := after [create_ "a" bare] engine0 in
  let s2 := after [create_ "a" bare; create_ "b" bare] engine0 in
  isBusy (engine engine0) = false
  ∧ GPUEngine.await firstByte (create_ "a" bare) engine0 = (s1, Ok None)
  ∧ GPUEngine.await firstByte (create_ "b" bare) s1 = (s2, Ok None)
  ∧ uniformBuffer <$> executableOf "a" s2 = Some None
  ∧ uniformBuffer <$> executableOf "b" s2 = Some None
  ∧ bindGroups <$> executableOf "a" s2 = Some []
  ∧ bindGroups <$> executableOf "b" s2 = Some []
  ∧ ∀ shaderId, ¬ shares shaderId "a" "b" engine0 s1 s2.
Proof.
  intros s1 s2.
  do 7 (split; [vm_compute; reflexivity |]).
  intros shaderId (a1 & a2 & Ha1 & _ & _ & _ & _ & _ & _ & _ & _ & Hu & _).
  destruct Hu as (u1 & _ & Hu1 & _).
  vm_compute in Ha1. injection Ha1 as <- _.
  vm_compute in Hu1. discriminate Hu1.
Qed.

(** ** Draws of a frame *)

(** The pass of a frame holds the walk over the draw list once for each
    camera of the current scene, once when there is none. *)
Lemma framePass_eq (s : State) :
  framePass s
  = concat (replicate (Nat.max 1 (length (activeCameras s)))
              (Drawer.draw_list s)).
Proof.
  unfold framePass.
  destruct (draw_submits s) as (_ & _ & _ & _ & _ & before & Hops).
  fold (activeCameras s) in Hops. by rewrite Hops, last_snoc.
Qed.

Lemma frameDraws_eq (s : State) :
  frameDraws s = Nat.max 1 (length (activeCameras s)) * drawCalls s.
Proof.
  unfold frameDraws. rewrite framePass_eq. unfold drawCalls.
  induction (Nat.max 1 (length (activeCameras s))) as [| n IH]; [done |].
  cbn [replicate concat]. rewrite filter_app, length_app, IH. lia.
Qed.

(** C10, as the code has it.  In the Idle state, for a registered id with
    executable [a]: two [addToScene] calls return and leave the draw list
    a rearrangement of the old list with [a] appended twice, so [a]
    occurs twice more and every walk over the list issues two more
    indexed draws.  A frame walks the list once for each camera of the
    current scene, once when there is none: the pass [Drawer.draw]
    submits then holds that many times two more indexed draws.  One
    [removeFromScene] removes the first entry that is [a] and no other,
    leaving one occurrence more than at the start. *)
Theorem addToScene_twice (id : string) (ref : GPUShaderRef) (s : State) :
  isBusy (engine s) = false →
  idExecMap (engine s) !! id = Some ref →
  let a := sr_executable ref in
  let s1 := (GPUEngine.addToScene id s).1 in
  let s2 := (GPUEngine.addToScene id s1).1 in
  let s3 := (GPUEngine.removeFromScene id s2).1 in
  let walks := Nat.max 1 (length (activeCameras s)) in
  (GPUEngine.addToScene id s).2 = Ok None
  ∧ (GPUEngine.addToScene id s1).2 = Ok None
  ∧ (GPUEngine.removeFromScene id s2).2 = Ok None
  ∧ entities (drawer s2) ≡ₚ entities (drawer s) ++ [a; a]
  ∧ occurrences a s2 = occurrences a s + 2
  ∧ drawCalls s2 = drawCalls s + 2
  ∧ entities (drawer s3) = Drawer.removeFirst a (entities (drawer s2))
  ∧ (∀ l1 l2, entities (drawer s2) = l1 ++ a :: l2 → a ∉ l1 →
              entities (drawer s3) = l1 ++ l2)
  ∧ occurrences a s3 = occurrences a s + 1
  ∧ drawCalls s3 = drawCalls s + 1
  ∧ framePass s2
    = concat (replicate walks (Drawer.draw_list s2))
  ∧ frameDraws s = walks * drawCalls s
  ∧ frameDraws s2 = frameDraws s + 2 * walks
  ∧ frameDraws s3 = frameDraws s + walks.
Proof.
  intros Hidle Hid a s1 s2 s3 walks.
  destruct (addToScene_twice_list id ref s Hidle Hid)
    as (H1 & H2 & H3 & Hperm & Hocc2 & Hdraws2 & Hrem & Hfirst & Hocc3
        & Hdraws3).
  fold a s1 s2 s3 in H1, H2, H3, Hperm, Hocc2, Hdraws2, Hrem, Hfirst, Hocc3,
    Hdraws3.
  assert (isBusy (engine s1) = false ∧ idExecMap (engine s1) !! id = Some ref
          ∧ activeCameras s1 = activeCameras s) as (Hidle1 & Hid1 & Hcam1).
  { subst s1. by rewrite (addToScene_registered id ref s). }
  assert (isBusy (engine s2) = false ∧ idExecMap (engine s2) !! id = Some ref
          ∧ activeCameras s2 = activeCameras s) as (Hidle2 & Hid2 & Hcam2).
  { subst s2. rewrite (addToScene_registered id ref s1) by done.
    by rewrite <- Hcam1. }
  assert (activeCameras s3 = activeCameras s) as Hcam3.
  { subst s3. rewrite (removeFromScene_registered id ref s2) by done.
    by rewrite <- Hcam2. }
  split_and!; try done.
  - rewrite framePass_eq, Hcam2. reflexivity.
  - apply frameDraws_eq.
  - rewrite !frameDraws_eq, Hcam2, Hdraws2. fold walks. lia.
  - rewrite !frameDraws_eq, Hcam3, Hdraws3. fold walks. lia.
Qed.

Lemma addToScene_twice_witness :
  let s := after [create_ "a" shape] engine0 in
  let s2 := (GPUEngine.addToScene "a" (GPUEngine.addToScene "a" s).1).1 in
  let s3 := (GPUEngine.removeFromScene "a" s2).1 in
  drawCalls s2 = drawCalls s + 2 ∧ drawCalls s3 = drawCalls s + 1
  ∧ frameDraws s2
    = frameDraws s + 2 * Nat.max 1 (length (activeCameras s)).
Proof.
  intros s s2 s3.
  assert (∃ ref, idExecMap (engine s) !! "a" = Some ref) as (ref & Href).
  { eexists. vm_compute. reflexivity. }
  destruct (addToScene_twice "a" ref s ltac:(vm_compute; reflexivity) Href)
    as (_ & _ & _ & _ & _ & Htwo & _ & _ & _ & Hone & _ & _ & Hframe & _).
  split; [exact Htwo | split; [exact Hone | exact Hframe]].
Defined.

(** C10 as the specification has it fails when the current scene has two
    cameras: after two [addToScene] calls the frame draws the executable
    four times, not twice. *)
Lemma addToScene_twice_with_two_cameras :
  let s := after [create_ "a" shape; createCamera_ 0 1 (replicate 64 x00);
                  createCamera_ 0 2 (replicate 64 x00)] engine0 in
  let s2 := (GPUEngine.addToScene "a" (GPUEngine.addToScene "a" s).1).1 in
  isBusy (engine s) = false
  ∧ is_Some (idExecMap (engine s) !! "a")
  ∧ length (activeCameras s) = 2
  ∧ frameDraws s = 0
  ∧ occurrences 1 s2 = 2
  ∧ frameDraws s2 = 4.
Proof.
  intros s s2. split_and!; try (vm_compute; reflexivity).
  eexists. vm_compute. reflexivity.
Qed.

(** * Further properties of the code *)

(** ** Frames *)

Section Upholds.

Context (R : State → State → Prop).
Context (R_refl : ∀ s, R s s).
Context (R_trans : ∀ s1 s2 s3, R s1 s2 → R s2 s3 → R s1 s3).

Lemma upholds_ret {A} (a : A) : upholds R (mret a).
Proof. intros s. apply R_refl. Qed.

Lemma upholds_bind {A B} (m : M A) (f : A → M B) :
  upholds R m → (∀ a, upholds R (f a)) → upholds R (m ≫= f).
Proof.
  intros Hm Hf s. rewrite M_bind_run. specialize (Hm s).
  destruct (m s) as [s' [a | e]]; simpl in *; [| exact Hm].
  eapply R_trans; [exact Hm | apply Hf].
Qed.

Lemma upholds_throw {A} (e : Error) : upholds R (throw e : M A).
Proof. intros s. apply R_refl. Qed.

Lemma upholds_lift {A} (o : Outcome A) : upholds R (lift o).
Proof. intros s. apply R_refl. Qed.

Lemma upholds_gets {A} (f : State → A) : upholds R (gets f).
Proof. intros s. apply R_refl. Qed.

Lemma upholds_modify (f : State → State) :
  (∀ s, R s (f s)) → upholds R (modify f).
Proof. intros Hf s. apply Hf. Qed.

Lemma upholds_detached {A} (m : M A) : upholds R m → upholds R (detached m).
Proof. intros Hm s. apply Hm. Qed.

Lemma upholds_attempt {A} (m : M A) :
  upholds R m → upholds R (GPUEngine.attempt m).
Proof. intros Hm s. apply Hm. Qed.

Lemma upholds_forEach {A St} (body : nat → A → St → M St) (l : list A) :
  (∀ i x acc, upholds R (body i x acc)) →
  ∀ i acc, upholds R (forEach body i l acc).
Proof.
  intros Hbody. induction l as [| x l IH]; intros i acc.
  - apply upholds_ret.
  - cbn [forEach]. apply upholds_bind; [apply Hbody | intros acc'; apply IH].
Qed.

End Upholds.

Lemma grows_refl (s : State) : grows s s.
Proof. split; [lia | done]. Qed.

Lemma grows_trans (s1 s2 s3 : State) : grows s1 s2 → grows s2 s3 → grows s1 s3.
Proof.
  intros [Hle Hold] [Hle' Hold']. split; [lia |].
  intros h Hh. rewrite Hold' by lia. by apply Hold.
Qed.

Lemma grows_create (o : GPUObject) : upholds grows (GPU.create o).
Proof.
  intros s. unfold GPU.create, grows. cbn. split; [lia |].
  intros h Hh. rewrite lookup_insert_ne by lia. done.
Qed.

Lemma grows_emit (op : DeviceOp) : upholds grows (GPU.emit op).
Proof. intros s. unfold GPU.emit, modify, grows. cbn. split; [lia | done]. Qed.

Lemma grows_warn (msg : string) : upholds grows (GPU.warn msg).
Proof. intros s. unfold GPU.warn, modify, grows. cbn. split; [lia | done]. Qed.

Lemma grows_destroy (property : string) (h : option nat) :
  upholds grows (GPU.destroy property h).
Proof.
  destruct h; [apply grows_emit | apply upholds_throw, grows_refl].
Qed.

(** A step that leaves the device alone. *)
Lemma grows_same_device (f : State → State) :
  (∀ s, device (f s) = device s) → upholds grows (modify f).
Proof. intros Hf s. unfold modify, grows. cbn. rewrite Hf. split; [lia | done]. Qed.

Ltac grows :=
  repeat (cbv beta; lazymatch goal with
    | |- upholds grows (mret _) => apply upholds_ret, grows_refl
    | |- upholds grows (throw _) => apply upholds_throw, grows_refl
    | |- upholds grows (lift _) => apply upholds_lift, grows_refl
    | |- upholds grows (gets _) => apply upholds_gets, grows_refl
    | |- upholds grows (GPU.emit _) => apply grows_emit
    | |- upholds grows (GPU.warn _) => apply grows_warn
    | |- upholds grows (GPU.destroy _ _) => apply grows_destroy
    | |- upholds grows (GPU.create _) => apply grows_create
    | |- upholds grows (_ ≫= _) =>
        apply (upholds_bind grows grows_trans); [| intros ? ]
    | |- upholds grows (forEach _ _ _ _) =>
        apply (upholds_forEach grows grows_refl grows_trans); intros ? ? ?
    | |- upholds grows (GPUEngine.attempt _) => apply upholds_attempt
    | |- upholds grows (detached _) => apply upholds_detached
    | |- upholds grows (modify _) =>
        apply grows_same_device; intros ?; reflexivity
    end).

Lemma grows_bindOne (buffer : option nat) (i j : nat) (binding : GPUBinding)
  (l : Renderer.BindLocals) :
  upholds grows (Renderer.bindOne buffer i j binding l).
Proof.
  unfold Renderer.bindOne.
  destruct (resource binding) as [b | t | sm].
  - destruct (b_global b) as [g |]; [destruct (g_isCamera g) |]; grows.
  - grows.
  - grows.
Qed.

(** ** The uniform table *)

Lemma tableOf_S (rows : list (list UniformDescriptor)) (n : nat) :
  tableOf rows (S n) = tableOf rows n ++ [default [] (rows !! n)].
Proof. unfold tableOf. rewrite seq_S, fmap_app. reflexivity. Qed.

Lemma length_tableOf (rows : list (list UniformDescriptor)) (n : nat) :
  length (tableOf rows n) = n.
Proof. unfold tableOf. by rewrite length_fmap, length_seq. Qed.

Lemma tableOf_lookup (rows : list (list UniformDescriptor)) (n k : nat) :
  k < n → tableOf rows n !! k = Some (default [] (rows !! k)).
Proof.
  intros Hk. unfold tableOf. rewrite list_lookup_fmap, lookup_seq_lt by done.
  reflexivity.
Qed.

Lemma tableOf_ext (rows rows' : list (list UniformDescriptor)) (n : nat) :
  (∀ k, k < n → default [] (rows !! k) = default [] (rows' !! k)) →
  tableOf rows n = tableOf rows' n.
Proof.
  intros H. unfold tableOf. apply list_eq. intros k.
  rewrite !list_lookup_fmap. destruct (decide (k < n)) as [Hk | Hk].
  - rewrite lookup_seq_lt by done. simpl. f_equal. by apply H.
  - rewrite lookup_seq_ge by lia. done.
Qed.

(** A row that is empty may as well be missing. *)
Lemma tableOf_snoc_nil (rows : list (list UniformDescriptor)) (n : nat) :
  tableOf (rows ++ [[]]) n = tableOf rows n.
Proof.
  apply tableOf_ext. intros k _.
  destruct (decide (k < length rows)) as [Hk | Hk].
  - by rewrite lookup_app_l.
  - rewrite lookup_app_r by lia. rewrite (lookup_ge_None_2 rows) by lia.
    by destruct (k - length rows).
Qed.

(** [uniforms.push( [] )] *)
Lemma tableOf_push (done : list (list UniformDescriptor))
  (cur : list UniformDescriptor) (n : nat) :
  length done ≤ n → (length done < n ∨ cur = []) →
  tableOf (done ++ [cur]) n ++ [[]] = tableOf (done ++ [cur]) (S n).
Proof.
  intros Hle Hcur. rewrite tableOf_S. do 2 f_equal.
  destruct Hcur as [Hlt | ->].
  - by rewrite lookup_ge_None_2 by (rewrite length_app; simpl; lia).
  - destruct (decide (n = length done)) as [-> | Hne].
    + by rewrite list_lookup_middle.
    + by rewrite lookup_ge_None_2 by (rewrite length_app; simpl; lia).
Qed.

(** [uniforms[i].push( d )] on the row being filled. *)
Lemma pushUniform_tableOf (done : list (list UniformDescriptor))
  (cur : list UniformDescriptor) (d : UniformDescriptor) (n : nat) :
  length done < n →
  Renderer.pushUniform (length done) d (tableOf (done ++ [cur]) n)
  = Ok (tableOf (done ++ [cur ++ [d]]) n).
Proof.
  intros Hlt. unfold Renderer.pushUniform.
  rewrite tableOf_lookup by done. rewrite list_lookup_middle by done.
  simpl. f_equal. apply list_eq. intros k.
  destruct (decide (k = length done)) as [-> | Hne].
  - rewrite list_lookup_insert_eq by (by rewrite length_tableOf).
    rewrite tableOf_lookup by done. by rewrite list_lookup_middle.
  - rewrite list_lookup_insert_ne by done.
    destruct (decide (k < n)) as [Hk | Hk].
    + rewrite !tableOf_lookup by done. do 2 f_equal.
      destruct (decide (k < length done)) as [Hkd | Hkd].
      * by rewrite !lookup_app_l.
      * rewrite !lookup_ge_None_2 by (rewrite length_app; simpl; lia). done.
    + rewrite !lookup_ge_None_2 by (rewrite length_tableOf; lia). done.
Qed.

Lemma tableOf_full (rows : list (list UniformDescriptor)) (n : nat) :
  length rows ≤ n →
  tableOf rows n = rows ++ replicate (n - length rows) [].
Proof.
  intros Hle. apply list_eq. intros k.
  destruct (decide (k < n)) as [Hk | Hk].
  - rewrite tableOf_lookup by done.
    destruct (decide (k < length rows)) as [Hkr | Hkr].
    + rewrite lookup_app_l by done.
      destruct (lookup_lt_is_Some_2 rows k Hkr) as [r ->]. done.
    + rewrite lookup_app_r by lia. rewrite lookup_ge_None_2 by lia.
      rewrite lookup_replicate_2 by lia. done.
  - rewrite lookup_ge_None_2 by (rewrite length_tableOf; lia).
    rewrite lookup_ge_None_2; [done |].
    rewrite length_app, length_replicate. lia.
Qed.

(** One binding: what the loop body of [#createBindGroup] leaves in its
    locals and on the device. *)
Lemma bindOne_run (buffer : option nat) (j : nat) (binding : GPUBinding)
  (l : Renderer.BindLocals) (s : State)
  (done : list (list UniformDescriptor)) (cur : list UniformDescriptor)
  (n : nat) :
  length done ≤ n → (length done < n ∨ cur = []) →
  Renderer.l_uniforms l = tableOf (done ++ [cur]) n →
  let h := nextHandle (device s) in
  let r := Renderer.bindOne buffer (length done) j binding l s in
  r.2 = Ok {| Renderer.l_offset := Renderer.l_offset l + ownBytes binding;
              Renderer.l_uniforms :=
                tableOf (done ++ [cur ++ option_list
                                    (descriptorOf h (Renderer.l_offset l)
                                       binding)]) (S n);
              Renderer.l_entries :=
                Renderer.l_entries l
                ++ [{| be_binding := j;
                       be_resource :=
                         boundOf (globalBuffers (renderer s)) buffer h
                           (Renderer.l_offset l) binding |}] |}
  ∧ nextHandle (device r.1) = h + objectsOf binding
  ∧ renderer r.1 = renderer s.
Proof.
  intros Hle Hcur Hu h r. subst r h.
  unfold Renderer.bindOne, descriptorOf, boundOf, objectsOf, ownBytes,
    Renderer.getBufferSize.
  rewrite Hu, tableOf_push by done.
  destruct (resource binding) as [b | t | sm].
  - destruct (b_global b) as [g |].
    + destruct (g_isCamera g); run_M; cbn; rewrite app_nil_r, !Nat.add_0_r;
        done.
    + rewrite pushUniform_tableOf by lia. run_M. cbn. rewrite Nat.add_0_r.
      done.
  - unfold GPU.create, GPU.emit. run_M.
    rewrite pushUniform_tableOf by lia. cbn.
    rewrite Nat.add_0_r, Nat.add_1_r. done.
  - unfold GPU.create. run_M.
    rewrite pushUniform_tableOf by lia. cbn.
    rewrite Nat.add_0_r, Nat.add_1_r. done.
Qed.

(** The bindings of one group. *)
Lemma bindOne_loop (buffer : option nat)
  (done : list (list UniformDescriptor)) (group : list GPUBinding) :
  ∀ (j : nat) (l : Renderer.BindLocals) (s : State)
    (cur : list UniformDescriptor) (n : nat),
    length done ≤ n → (length done < n ∨ cur = []) →
    Renderer.l_uniforms l = tableOf (done ++ [cur]) n →
    let h := nextHandle (device s) in
    let r := forEach (Renderer.bindOne buffer (length done)) j group l s in
    r.2 = Ok {| Renderer.l_offset :=
                  Renderer.l_offset l + sum_list_with ownBytes group;
                Renderer.l_uniforms :=
                  tableOf (done ++ [cur ++ rowFrom h (Renderer.l_offset l)
                                             group])
                    (n + length group);
                Renderer.l_entries :=
                  Renderer.l_entries l
                  ++ entriesFrom (globalBuffers (renderer s)) buffer h
                       (Renderer.l_offset l) j group |}
    ∧ nextHandle (device r.1) = h + sum_list_with objectsOf group
    ∧ renderer r.1 = renderer s.
Proof.
  induction group as [| binding group IH]; intros j l s cur n Hle Hcur Hu.
  - cbn. rewrite !app_nil_r, !Nat.add_0_r, <- Hu. by destruct l.
  - cbn [forEach]. cbv zeta. rewrite M_bind_run.
    destruct (bindOne_run buffer j binding l s done cur n Hle Hcur Hu)
      as (Hres & Hnext & Hrend).
    destruct (Renderer.bindOne buffer (length done) j binding l s)
      as [s1 o]. cbn [fst snd] in *. subst o.
    match goal with
    | |- context [forEach _ (S j) group ?l' s1] =>
        destruct (IH (S j) l' s1
                    (cur ++ option_list
                              (descriptorOf (nextHandle (device s))
                                 (Renderer.l_offset l) binding))
                    (S n) ltac:(lia) ltac:(left; lia) eq_refl)
          as (Hres' & Hnext' & Hrend')
    end.
    cbn [Renderer.l_offset Renderer.l_uniforms Renderer.l_entries] in *.
    rewrite Hres', Hnext', Hrend', Hnext, Hrend. cbn.
    rewrite <- !app_assoc, !Nat.add_assoc. cbn.
    replace (n + S (length group)) with (S n + length group) by lia.
    done.
Qed.

Lemma grows_bindGroup (layouts : list nat) (buffer : option nat) (i : nat)
  (group : list GPUBinding) (acc : list nat * Renderer.BindLocals) :
  upholds grows (Renderer.bindGroup layouts buffer i group acc).
Proof.
  unfold Renderer.bindGroup.
  apply (upholds_bind grows grows_trans).
  - apply (upholds_forEach grows grows_refl grows_trans). intros.
    apply grows_bindOne.
  - intros l. grows.
Qed.

Lemma grows_createBindGroup (groups : list (list GPUBinding))
  (layouts : list nat) (buffer : option nat) :
  upholds grows (Renderer.createBindGroup groups layouts buffer).
Proof.
  unfold Renderer.createBindGroup.
  destruct (length groups =? 0)%nat; [grows |].
  apply (upholds_bind grows grows_trans); [| intros ?; grows].
  apply (upholds_forEach grows grows_refl grows_trans). intros.
  apply grows_bindGroup.
Qed.

(** The groups, from group [length done] on. *)
Lemma bindGroup_table (layouts : list nat) (buffer : option nat)
  (groups : list (list GPUBinding)) :
  ∀ (done : list (list UniformDescriptor))
    (acc : list nat * Renderer.BindLocals) (s : State) (n : nat),
    Forall (λ group, group ≠ []) groups →
    length done ≤ n →
    Renderer.l_uniforms acc.2 = tableOf done n →
    let h := nextHandle (device s) in
    let made := bindGroupsFrom (globalBuffers (renderer s)) layouts buffer h
                  (Renderer.l_offset acc.2) (length done) groups in
    let r := forEach (Renderer.bindGroup layouts buffer) (length done) groups
               acc s in
    (∃ entries,
       r.2 = Ok (acc.1 ++ made.*1,
                 {| Renderer.l_offset :=
                      Renderer.l_offset acc.2
                      + sum_list_with ownBytes (concat groups);
                    Renderer.l_uniforms :=
                      tableOf (done ++ tableFrom h (Renderer.l_offset acc.2)
                                         groups)
                        (n + length (concat groups));
                    Renderer.l_entries := entries |}))
    ∧ (∀ g o, (g, o) ∈ made → objects (device r.1) !! g = Some o)
    ∧ renderer r.1 = renderer s.
Proof.
  induction groups as [| group groups IH]; intros done acc s n Hne Hle Hu.
  - cbn. rewrite !app_nil_r, !Nat.add_0_r, <- Hu.
    split; [| split; [| done]].
    + exists (Renderer.l_entries acc.2). by destruct acc as [? []].
    + intros g o Hin. by apply elem_of_nil in Hin.
  - apply Forall_cons in Hne as [Hgroup Hne].
    assert (∃ s2,
              Renderer.bindGroup layouts buffer (length done) group acc s
              = (s2, Ok (acc.1 ++ [nextHandle (device s)
                                   + sum_list_with objectsOf group],
                         {| Renderer.l_offset :=
                              Renderer.l_offset acc.2
                              + sum_list_with ownBytes group;
                            Renderer.l_uniforms :=
                              tableOf (done ++ [rowFrom (nextHandle (device s))
                                                  (Renderer.l_offset acc.2)
                                                  group])
                                (n + length group);
                            Renderer.l_entries :=
                              entriesFrom (globalBuffers (renderer s)) buffer
                                (nextHandle (device s))
                                (Renderer.l_offset acc.2) 0 group |}))
              ∧ nextHandle (device s2)
                = S (nextHandle (device s) + sum_list_with objectsOf group)
              ∧ renderer s2 = renderer s
              ∧ objects (device s2)
                  !! (nextHandle (device s) + sum_list_with objectsOf group)
                = Some (BindGroup ("group" +:+ pretty (length done))
                          (layouts !! length done)
                          (entriesFrom (globalBuffers (renderer s)) buffer
                             (nextHandle (device s))
                             (Renderer.l_offset acc.2) 0 group)))
      as (s2 & Hstep & Hnext2 & Hrend2 & Hobj2).
    { unfold Renderer.bindGroup. rewrite M_bind_run.
      destruct (bindOne_loop buffer done group 0
                  {| Renderer.l_offset := Renderer.l_offset acc.2;
                     Renderer.l_uniforms := Renderer.l_uniforms acc.2;
                     Renderer.l_entries := [] |} s [] n Hle
                  ltac:(by right)
                  ltac:(by rewrite tableOf_snoc_nil))
        as (Hres & Hnext & Hrend).
      destruct (forEach (Renderer.bindOne buffer (length done)) 0 group _ s)
        as [s1 o]. cbn [fst snd] in *. subst o.
      cbn [Renderer.l_offset Renderer.l_uniforms Renderer.l_entries app] in *.
      unfold GPU.create. run_M. cbv zeta. eexists. rewrite Hnext.
      split; [reflexivity |]. cbn. rewrite lookup_insert_eq, Hrend.
      done. }
    cbn [forEach]. cbv zeta. rewrite M_bind_run, Hstep.
    set (g := nextHandle (device s) + sum_list_with objectsOf group) in *.
    set (l1 := {| Renderer.l_offset := _ |}) in *.
    assert (length group ≥ 1) as Hlen by (destruct group; [done | simpl; lia]).
    assert (length (done ++ [rowFrom (nextHandle (device s))
                               (Renderer.l_offset acc.2) group])
            = S (length done)) as Hdone
      by (rewrite length_app; simpl; lia).
    destruct (IH (done ++ [rowFrom (nextHandle (device s))
                             (Renderer.l_offset acc.2) group])
                (acc.1 ++ [g], l1) s2 (n + length group) Hne
                ltac:(lia) eq_refl)
      as ([entries Hres'] & Hobjs & Hrend').
    rewrite Hdone in Hres', Hobjs, Hrend'.
    cbn [fst snd Renderer.l_offset] in Hres', Hobjs.
    rewrite Hnext2, Hrend2 in Hres', Hobjs.
    pose proof (upholds_forEach grows grows_refl grows_trans
                  (Renderer.bindGroup layouts buffer) groups
                  (grows_bindGroup layouts buffer) (S (length done))
                  (acc.1 ++ [g], l1) s2) as [_ Hold].
    specialize (Hold g ltac:(rewrite Hnext2; lia)).
    split; [| split].
    + exists entries. rewrite Hres'. cbn. rewrite <- !app_assoc. cbn.
      rewrite sum_list_with_app, length_app, !Nat.add_assoc. done.
    + intros g' o Hin. cbn in Hin.
      apply elem_of_cons in Hin as [[= -> ->] | Hin].
      * fold g. rewrite Hold. exact Hobj2.
      * by apply Hobjs.
    + rewrite Hrend'. exact Hrend2.
Qed.

Lemma length_tableFrom (h offset : nat) (groups : list (list GPUBinding)) :
  length (tableFrom h offset groups) = length groups.
Proof.
  revert h offset. induction groups as [| g groups IH]; intros h offset;
    [done |].
  simpl. by rewrite IH.
Qed.

Lemma length_concat_nonempty {A} (groups : list (list A)) :
  Forall (λ group, group ≠ []) groups → length groups ≤ length (concat groups).
Proof.
  induction 1 as [| [| x group] groups Hne _ IH]; [done | done |].
  simpl. rewrite length_app. lia.
Qed.

(** [#createBindGroup] when no group is empty. *)
Lemma createBindGroup_run (groups : list (list GPUBinding))
  (layouts : list nat) (buffer : option nat) (s : State) :
  Forall (λ group, group ≠ []) groups →
  let h := nextHandle (device s) in
  let made := bindGroupsFrom (globalBuffers (renderer s)) layouts buffer h 0 0
                groups in
  let r := Renderer.createBindGroup groups layouts buffer s in
  r.2 = Ok {| Renderer.bg_bindGroups := made.*1;
              Renderer.bg_uniforms :=
                tableFrom h 0 groups
                ++ replicate (length (concat groups) - length groups) [] |}
  ∧ (∀ g o, (g, o) ∈ made → objects (device r.1) !! g = Some o)
  ∧ renderer r.1 = renderer s.
Proof.
  intros Hne h made r. subst r. unfold Renderer.createBindGroup.
  destruct groups as [| group groups].
  - cbn. split; [done | split; [| done]].
    intros g o Hin. by apply elem_of_nil in Hin.
  - cbn [length Nat.eqb]. rewrite M_bind_run.
    destruct (bindGroup_table layouts buffer (group :: groups) []
                ([], {| Renderer.l_offset := 0; Renderer.l_uniforms := [];
                        Renderer.l_entries := [] |}) s 0 Hne
                ltac:(simpl; lia) eq_refl)
      as ([entries Hres] & Hobjs & Hrend).
    cbn [length fst snd Renderer.l_offset app] in Hres, Hobjs, Hrend.
    destruct (forEach _ 0 (group :: groups) _ s) as [s1 o].
    cbn [fst snd] in *. subst o. cbn [fst snd Renderer.l_uniforms].
    rewrite tableOf_full
      by (rewrite length_tableFrom; by apply length_concat_nonempty).
    rewrite length_tableFrom. done.
Qed.

(** X1.  When no group of the descriptor is empty, [#createBindGroup]
    returns: the table has one row for each group, holding the
    descriptors of the bindings of that group other than global buffer
    slots, in order, with the local buffer slots at the running offset;
    after these rows come empty rows, up to one row for each binding.
    Group [i] is made as bind group ["group" + i] for layout [i] with
    an entry for each of its bindings. *)
Theorem createBindGroup_table (groups : list (list GPUBinding))
  (layouts : list nat) (buffer : option nat) (s : State) :
  Forall (λ group, group ≠ []) groups →
  let h := nextHandle (device s) in
  let made := bindGroupsFrom (globalBuffers (renderer s)) layouts buffer h 0 0
                groups in
  let r := Renderer.createBindGroup groups layouts buffer s in
  r.2 = Ok {| Renderer.bg_bindGroups := made.*1;
              Renderer.bg_uniforms :=
                tableFrom h 0 groups
                ++ replicate (length (concat groups) - length groups) [] |}
  ∧ length (tableFrom h 0 groups) = length groups
  ∧ ∀ g o, (g, o) ∈ made → objects (device r.1) !! g = Some o.
Proof.
  intros Hne h made r.
  destruct (createBindGroup_run groups layouts buffer s Hne)
    as (Hres & Hobjs & _).
  split; [exact Hres | split; [apply length_tableFrom | exact Hobjs]].
Qed.

(** X2.  When the first group is empty and the second starts with a
    binding that is recorded (anything but a global buffer slot),
    [uniforms[1]] does not exist yet when the binding is pushed to it:
    [#createBindGroup] throws a TypeError. *)
Theorem createBindGroup_after_empty_group (binding : GPUBinding)
  (group : list GPUBinding) (groups : list (list GPUBinding))
  (layouts : list nat) (buffer : option nat) (s : State) :
  is_Some (descriptorOf 0 0 binding) →
  (Renderer.createBindGroup ([] :: (binding :: group) :: groups) layouts
     buffer s).2
  = Throw (TypeError_undefined "push").
Proof.
  intros [d Hd]. unfold Renderer.createBindGroup. cbn [length Nat.eqb].
  rewrite M_bind_run. cbn [forEach]. rewrite M_bind_run.
  assert (∃ s1 g entries,
            Renderer.bindGroup layouts buffer 0 []
              ([], {| Renderer.l_offset := 0; Renderer.l_uniforms := [];
                      Renderer.l_entries := [] |}) s
            = (s1, Ok ([g], {| Renderer.l_offset := 0;
                               Renderer.l_uniforms := [];
                               Renderer.l_entries := entries |})))
    as (s1 & g & entries & ->) by (do 3 eexists; reflexivity).
  rewrite M_bind_run. unfold Renderer.bindGroup at 1. rewrite M_bind_run.
  cbn [forEach]. rewrite M_bind_run.
  assert (∀ l s', Renderer.l_uniforms l = [] →
            (Renderer.bindOne buffer 1 0 binding l s').2
            = Throw (TypeError_undefined "push")) as Hthrow.
  { intros l s' Hl. unfold Renderer.bindOne, descriptorOf in *. rewrite Hl.
    destruct (resource binding) as [b | t | sm].
    - destruct (b_global b); [discriminate Hd | reflexivity].
    - reflexivity.
    - reflexivity. }
  match goal with
  | |- context [Renderer.bindOne buffer 1 0 binding ?l ?s'] =>
      pose proof (Hthrow l s' eq_refl) as H;
      destruct (Renderer.bindOne buffer 1 0 binding l s') as [s2 o]
  end.
  cbn [snd] in H. subst o. reflexivity.
Qed.

Lemma createBindGroup_after_empty_group_witness :
  (Renderer.createBindGroup [[]; [matrixSlot]] [0; 1] (Some 2) engine0).2
  = Throw (TypeError_undefined "push").
Proof.
  apply (createBindGroup_after_empty_group matrixSlot [] [] [0; 1] (Some 2)
           engine0).
  eexists. reflexivity.
Defined.

Lemma createBindGroup_table_witness :
  (Renderer.createBindGroup spriteGroups [0] (Some 1) engine0).2
  = Ok {| Renderer.bg_bindGroups := [2];
          Renderer.bg_uniforms :=
            [[{| ud_offset := Some 0; ud_size := Some 64; ud_type := Some f32;
                 ud_width := None; ud_height := None; ud_texture := None |};
              {| ud_offset := None; ud_size := None; ud_type := None;
                 ud_width := None; ud_height := None; ud_texture := None |};
              {| ud_offset := None; ud_size := None; ud_type := None;
                 ud_width := Some 64%Z; ud_height := Some 32%Z;
                 ud_texture := Some 1 |}];
             []; []; []] |}.
Proof.
  apply (proj1 (createBindGroup_table spriteGroups [0] (Some 1) engine0
                  ltac:(repeat constructor; discriminate))).
Defined.

(** ** The layout of the uniform buffer *)

Lemma extent_app (from : nat) (ds ds' : list UniformDescriptor) :
  extent from (ds ++ ds') = extent from ds ≫= λ e, extent e ds'.
Proof.
  revert from. induction ds as [| d ds IH]; intros from; [done |].
  simpl. destruct (ud_offset d) as [offset |]; [| apply IH].
  destruct (ud_size d) as [size |]; [| apply IH].
  destruct (decide (offset = from)); [apply IH | done].
Qed.

Lemma extent_rowFrom (h offset : nat) (group : list GPUBinding) :
  extent offset (rowFrom h offset group)
  = Some (offset + sum_list_with ownBytes group).
Proof.
  revert h offset. induction group as [| b group IH]; intros h offset.
  - simpl. f_equal. lia.
  - cbn [rowFrom sum_list_with]. rewrite extent_app.
    assert (extent offset (option_list (descriptorOf h offset b))
            = Some (offset + ownBytes b)) as ->.
    { unfold descriptorOf, ownBytes.
      destruct (resource b) as [bs | t | sm]; simpl.
      - destruct (b_global bs); simpl; [f_equal; lia |].
        by rewrite decide_True.
      - f_equal. lia.
      - f_equal. lia. }
    simpl. rewrite IH. f_equal. lia.
Qed.

Lemma extent_tableFrom (h offset : nat) (groups : list (list GPUBinding)) :
  extent offset (concat (tableFrom h offset groups))
  = Some (offset + sum_list_with ownBytes (concat groups)).
Proof.
  revert h offset. induction groups as [| group groups IH]; intros h offset.
  - simpl. f_equal. lia.
  - cbn [tableFrom concat]. rewrite extent_app, extent_rowFrom. simpl.
    rewrite IH, sum_list_with_app. f_equal. lia.
Qed.

Lemma concat_replicate_nil {A} (n : nat) : concat (replicate n (@nil A)) = [].
Proof. induction n; [done |]. simpl. done. Qed.

Lemma ownBytes_localBytes (bindings : list GPUBinding) :
  sum_list_with ownBytes bindings ≤ sum_list_with localBytes bindings.
Proof.
  induction bindings as [| b bindings IH]; [done |]. simpl.
  assert (ownBytes b ≤ localBytes b); [| lia].
  unfold ownBytes, localBytes. destruct (resource b) as [bs | |]; [| done | done].
  destruct (b_global bs); [lia | done].
Qed.

(** X3.  When no group is empty, the local buffer slots recorded in the
    uniform table lie back to back from offset 0, in the order of the
    bindings, and end within the size [#createUniformBuffer] asks for. *)
Theorem uniform_slots_tile_the_buffer (groups : list (list GPUBinding))
  (layouts : list nat) (buffer : option nat) (s : State) :
  Forall (λ group, group ≠ []) groups →
  ∃ bind total,
    (Renderer.createBindGroup groups layouts buffer s).2 = Ok bind
    ∧ extent 0 (concat (Renderer.bg_uniforms bind)) = Some total
    ∧ total = sum_list_with ownBytes (concat groups)
    ∧ total ≤ Renderer.uniformSize groups.
Proof.
  intros Hne.
  destruct (createBindGroup_run groups layouts buffer s Hne) as (Hres & _).
  do 2 eexists. split; [exact Hres |]. cbn [Renderer.bg_uniforms].
  rewrite concat_app, concat_replicate_nil, app_nil_r, extent_tableFrom.
  split; [reflexivity |]. split; [reflexivity |].
  rewrite uniformSize_sum. apply ownBytes_localBytes.
Qed.

Lemma uniform_slots_tile_the_buffer_witness :
  ∃ bind,
    (Renderer.createBindGroup spriteGroups [0] (Some 1) engine0).2 = Ok bind
    ∧ extent 0 (concat (Renderer.bg_uniforms bind)) = Some 64
    ∧ Renderer.uniformSize spriteGroups = 128.
Proof.
  destruct (uniform_slots_tile_the_buffer spriteGroups [0] (Some 1) engine0
              ltac:(repeat constructor; discriminate))
    as (bind & total & Hres & Hextent & Htotal & _).
  exists bind. split; [exact Hres |]. split; [| reflexivity].
  rewrite Hextent, Htotal. reflexivity.
Defined.

(** ** Compiling and cloning, step by step *)

Lemma createIndexBuffer_eq (indices : list Z) (size : Q) (s : State) :
  Renderer.createIndexBuffer indices size s
  = (on_device (λ d,
       {| nextHandle := S (nextHandle d);
          objects :=
            <[nextHandle d :=
                Buffer index
                  (JS.ofNat (length (indexed indices size)
                             * Renderer.indexBytes (indexWidth size)))
                  "index buffer"]> (objects d);
          ops := ops d ++ [SetIndices (nextHandle d) (indexWidth size)
                             (Renderer.stored (indexWidth size)
                                <$> indexed indices size)];
          console :=
            console d ++ (if (length indices <=? 0)%nat
                          then ["[wgpu] no indices found."] else []) |}) s,
     Ok {| Renderer.ib_buffer := nextHandle (device s);
           Renderer.ib_vertexCount := length (indexed indices size);
           Renderer.ib_type := indexWidth size |}).
Proof.
  unfold Renderer.createIndexBuffer, GPU.create, GPU.emit, GPU.warn, indexed,
    indexWidth.
  destruct s as [[nh objs os cons] st r dr e]. run_M.
  destruct (length indices <=? 0)%nat; cbv beta iota zeta;
    unfold on_device; cbn [device nextHandle objects ops console];
    rewrite ?app_nil_r; reflexivity.
Qed.

Lemma createProgram_end_eq (program : GPUCompilableProgram)
  (c : Renderer.Compiling) (s : State) :
  Renderer.createProgram_end program c s
  = ({| device := compiledDevice program c (r_format (renderer s)) (device s);
        store := allocated (compiled program c s) (store s);
        renderer := nextZ (renderer s);
        drawer := drawer s;
        engine := engine s |},
     Ok (nextAddress (store s))).
Proof.
  unfold Renderer.createProgram_end. rewrite M_bind_run, createIndexBuffer_eq.
  destruct s as [[nh objs os cons] st r dr e]. reflexivity.
Qed.

Lemma cloneProgram_end_eq (executable : nat) (k : Renderer.Cloning)
  (s : State) :
  Renderer.cloneProgram_end executable k s
  = ({| device := device s;
        store := allocated (cloned executable k s) (store s);
        renderer := nextZ (renderer s);
        drawer := drawer s;
        engine := engine s |},
     Ok (nextAddress (store s))).
Proof. reflexivity. Qed.

Section Steps.

Context (numberToString : Ty → list byte → string).

(** [create] for the first entity of a shader id, up to its [await]: what
    [createProgram] did before its own [await], a promise at the next
    address and the id marked pending. *)
Lemma create_compile_path (id : string) (program : GPUCompilableProgram)
  (shaderId : string) (s : State) :
  isBusy (engine s) = false →
  idExecMap (engine s) !! id = None →
  GPUEngine.shaderIdOf numberToString program = Ok shaderId →
  codeExecMap (engine s) !! shaderId = None →
  let begun := Renderer.createProgram_begin program s in
  let promise := nextAddress (store begun.1) in
  GPUEngine.create numberToString id program s
  = ({| device := device begun.1;
        store :=
          {| nextAddress := S promise;
             executables := executables (store begun.1);
             refCounters := refCounters (store begun.1);
             promises :=
               <[promise := match begun.2 with
                            | Ok _ => Pending
                            | Throw e => Rejected e
                            end]> (promises (store begun.1)) |};
        renderer := renderer begun.1;
        drawer := drawer begun.1;
        engine := set_isPending (<[id := promise]> (isPending (engine begun.1)))
                    (engine begun.1) |},
     Ok (Some (GPUEngine.Compile id shaderId promise program begun.2))).
Proof.
  intros Hidle Hid Hsid Hfree begun promise. subst begun promise.
  unfold GPUEngine.create.
  rewrite gets_bind_run, Hidle, gets_bind_run, Hid.
  rewrite bool_decide_eq_false_2 by (by intros [? ?]).
  rewrite M_bind_run. unfold lift at 1. rewrite Hsid.
  rewrite gets_bind_run, Hfree. rewrite M_bind_run.
  unfold GPUEngine.attempt at 1.
  destruct (Renderer.createProgram_begin program s) as [sA c].
  cbn [fst snd]. destruct sA as [dv st r dr e]. reflexivity.
Qed.

(** [create] going past its [await] on the compile path, in any state:
    [createProgram] finishes, the promise is fulfilled, the id and the
    shader id are registered and the id is no longer pending. *)
Lemma resume_compile (id shaderId : string) (promise : nat)
  (program : GPUCompilableProgram) (c : Renderer.Compiling) (s : State) :
  let a := nextAddress (store s) in
  GPUEngine.resume (GPUEngine.Compile id shaderId promise program (Ok c)) s
  = ({| device := compiledDevice program c (r_format (renderer s)) (device s);
        store :=
          {| nextAddress := S (S a);
             executables := <[a := compiled program c s]>
                              (executables (store s));
             refCounters :=
               <[S a := {| rc_executable := a; rc_count := 1 |}]>
                 (refCounters (store s));
             promises := <[promise := Fulfilled a]> (promises (store s)) |};
        renderer := nextZ (renderer s);
        drawer := drawer s;
        engine :=
          {| idExecMap := <[id := {| sr_executable := a;
                                     sr_shaderId := shaderId |}]>
                            (idExecMap (engine s));
             isPending := delete id (isPending (engine s));
             codeExecMap := <[shaderId := S a]> (codeExecMap (engine s));
             inExecution := inExecution (engine s);
             events := events (engine s);
             isBusy := isBusy (engine s);
             scheduled := scheduled (engine s) |} |},
     Ok None).
Proof.
  intros a. subst a. unfold GPUEngine.resume. rewrite M_bind_run.
  unfold lift at 1. cbv beta iota. rewrite M_bind_run, createProgram_end_eq.
  destruct s as [dv st r dr e]. reflexivity.
Qed.

(** A compilation that failed before its [await] rejects: nothing is
    registered. *)
Lemma resume_compile_rejected (id shaderId : string) (promise : nat)
  (program : GPUCompilableProgram) (e : Error) (s : State) :
  GPUEngine.resume (GPUEngine.Compile id shaderId promise program (Throw e)) s
  = (s, Throw e).
Proof. reflexivity. Qed.

(** [create] going past its [await] on the clone path, in any state. *)
Lemma resume_clone (id shaderId : string) (ref executable : nat)
  (k : Renderer.Cloning) (s : State) :
  let a := nextAddress (store s) in
  GPUEngine.resume (GPUEngine.Clone id shaderId ref executable (Ok k)) s
  = ({| device := device s;
        store :=
          {| nextAddress := S a;
             executables := <[a := cloned executable k s]>
                              (executables (store s));
             refCounters :=
               <[ref := {| rc_executable :=
                             rc_executable (Heap.refCounter ref s);
                           rc_count :=
                             (rc_count (Heap.refCounter ref s) + 1)%Z |}]>
                 (refCounters (store s));
             promises := promises (store s) |};
        renderer := nextZ (renderer s);
        drawer := drawer s;
        engine := set_idExecMap
                    (<[id := {| sr_executable := a;
                                sr_shaderId := shaderId |}]>
                       (idExecMap (engine s))) (engine s) |},
     Ok None).
Proof.
  intros a. subst a. unfold GPUEngine.resume. rewrite M_bind_run.
  unfold lift at 1. cbv beta iota. rewrite M_bind_run, cloneProgram_end_eq.
  destruct s as [dv st r dr e]. reflexivity.
Qed.

Lemma resume_clone_rejected (id shaderId : string) (ref executable : nat)
  (e : Error) (s : State) :
  GPUEngine.resume (GPUEngine.Clone id shaderId ref executable (Throw e)) s
  = (s, Throw e).
Proof. reflexivity. Qed.

End Steps.

(** What is left of the state by the part of [createProgram] before its
    [await]: only the device has changed. *)
Lemma createProgram_begin_frame (program : GPUCompilableProgram) (s : State) :
  let sA := (Renderer.createProgram_begin program s).1 in
  sA = {| device := device sA; store := store s; renderer := renderer s;
          drawer := drawer s; engine := engine s |}.
Proof.
  intros sA. destruct (steady_createProgram_begin program s)
    as (Hst & Hr & Hdr & He & _).
  fold sA in Hst, Hr, Hdr, He. destruct sA as [dv st r dr e].
  cbn in *. by subst.
Qed.

Lemma cloneProgram_begin_frame (program : GPUCompilableProgram) (s : State) :
  let sA := (Renderer.cloneProgram_begin program s).1 in
  sA = {| device := device sA; store := store s; renderer := renderer s;
          drawer := drawer s; engine := engine s |}.
Proof.
  intros sA. destruct (steady_cloneProgram_begin program s)
    as (Hst & Hr & Hdr & He & _).
  fold sA in Hst, Hr, Hdr, He. destruct sA as [dv st r dr e].
  cbn in *. by subst.
Qed.

Section Awaited.

Context (numberToString : Ty → list byte → string).

(** An awaited [create] on the compile path, when the part of
    [createProgram] before its [await] returns [c] and leaves the device
    [dv]. *)
Lemma await_create_compiled (id : string) (program : GPUCompilableProgram)
  (shaderId : string) (s : State) (dv : Device) (c : Renderer.Compiling) :
  isBusy (engine s) = false →
  idExecMap (engine s) !! id = None →
  GPUEngine.shaderIdOf numberToString program = Ok shaderId →
  codeExecMap (engine s) !! shaderId = None →
  device (Renderer.createProgram_begin program s).1 = dv →
  (Renderer.createProgram_begin program s).2 = Ok c →
  let promise := nextAddress (store s) in
  let a := S promise in
  let e := {| z := Some (Z.of_nat (r_z (renderer s)));
              indexType := indexWidth (Renderer.vb_size (Renderer.c_vertex c));
              vertexCount :=
                length (indexed (indices program)
                          (Renderer.vb_size (Renderer.c_vertex c)));
              indexBuffer := nextHandle dv;
              pipeline := 3 + nextHandle dv;
              bindGroups := Renderer.bg_bindGroups (Renderer.c_bind c);
              uniforms := Renderer.bg_uniforms (Renderer.c_bind c);
              uniformBuffer := Renderer.c_uniformBuffer c;
              vertexBuffer := Renderer.vb_buffer (Renderer.c_vertex c) |} in
  GPUEngine.await numberToString (create_ id program) s
  = ({| device := compiledDevice program c (r_format (renderer s)) dv;
        store :=
          {| nextAddress := S (S a);
             executables := <[a := e]> (executables (store s));
             refCounters :=
               <[S a := {| rc_executable := a; rc_count := 1 |}]>
                 (refCounters (store s));
             promises := <[promise := Fulfilled a]>
                           (<[promise := Pending]> (promises (store s))) |};
        renderer := nextZ (renderer s);
        drawer := drawer s;
        engine :=
          {| idExecMap := <[id := {| sr_executable := a;
                                     sr_shaderId := shaderId |}]>
                            (idExecMap (engine s));
             isPending := delete id (<[id := promise]> (isPending (engine s)));
             codeExecMap := <[shaderId := S a]> (codeExecMap (engine s));
             inExecution := inExecution (engine s);
             events := events (engine s);
             isBusy := isBusy (engine s);
             scheduled := scheduled (engine s) |} |},
     Ok None).
Proof.
  intros Hidle Hid Hsid Hfree Hdv Hc promise a e. subst promise a e.
  unfold GPUEngine.await. cbn [GPUEngine.call]. rewrite M_bind_run.
  rewrite (create_compile_path numberToString id program shaderId s) by done.
  pose proof (createProgram_begin_frame program s) as Hframe. cbv zeta in Hframe.
  destruct (Renderer.createProgram_begin program s) as [sA o].
  cbn [fst snd] in *. subst o dv. rewrite Hframe. cbn [store nextAddress].
  rewrite resume_compile. reflexivity.
Qed.

(** An awaited [create] on the clone path, when the part of
    [cloneProgram] before its [await] returns [k] and leaves the device
    [dv]. *)
Lemma await_create_cloned (id : string) (program : GPUCompilableProgram)
  (shaderId : string) (ref : nat) (s : State) (dv : Device)
  (k : Renderer.Cloning) :
  isBusy (engine s) = false →
  idExecMap (engine s) !! id = None →
  GPUEngine.shaderIdOf numberToString program = Ok shaderId →
  codeExecMap (engine s) !! shaderId = Some ref →
  device (Renderer.cloneProgram_begin program s).1 = dv →
  (Renderer.cloneProgram_begin program s).2 = Ok k →
  let a := nextAddress (store s) in
  let x := Heap.executable (rc_executable (Heap.refCounter ref s)) s in
  let e := {| z := Some (Z.of_nat (r_z (renderer s)));
              indexType := indexType x;
              vertexCount := vertexCount x;
              indexBuffer := indexBuffer x;
              pipeline := pipeline x;
              bindGroups := Renderer.bg_bindGroups (Renderer.k_bind k);
              uniforms := Renderer.bg_uniforms (Renderer.k_bind k);
              uniformBuffer := Renderer.k_uniformBuffer k;
              vertexBuffer := vertexBuffer x |} in
  GPUEngine.await numberToString (create_ id program) s
  = ({| device := dv;
        store :=
          {| nextAddress := S a;
             executables := <[a := e]> (executables (store s));
             refCounters :=
               <[ref := {| rc_executable :=
                             rc_executable (Heap.refCounter ref s);
                           rc_count :=
                             (rc_count (Heap.refCounter ref s) + 1)%Z |}]>
                 (refCounters (store s));
             promises := promises (store s) |};
        renderer := nextZ (renderer s);
        drawer := drawer s;
        engine := set_idExecMap
                    (<[id := {| sr_executable := a;
                                sr_shaderId := shaderId |}]>
                       (idExecMap (engine s))) (engine s) |},
     Ok None).
Proof.
  intros Hidle Hid Hsid Href Hdv Hk a x e. subst a x e.
  unfold GPUEngine.await. cbn [GPUEngine.call]. rewrite M_bind_run.
  rewrite (create_clone_path numberToString id program shaderId ref s) by done.
  pose proof (cloneProgram_begin_frame program s) as Hframe. cbv zeta in Hframe.
  destruct (Renderer.cloneProgram_begin program s) as [sA o].
  cbn [fst snd] in *. subst o dv. rewrite Hframe.
  rewrite resume_clone. reflexivity.
Qed.

(** An awaited [create] returns normally only if the part of the
    compilation before the [await] did. *)
Lemma await_create_inv (id : string) (program : GPUCompilableProgram)
  (s s' : State) :
  isBusy (engine s) = false →
  idExecMap (engine s) !! id = None →
  GPUEngine.await numberToString (create_ id program) s = (s', Ok None) →
  ∃ shaderId,
    GPUEngine.shaderIdOf numberToString program = Ok shaderId
    ∧ match codeExecMap (engine s) !! shaderId with
      | None => ∃ c, (Renderer.createProgram_begin program s).2 = Ok c
      | Some ref => ∃ k, (Renderer.cloneProgram_begin program s).2 = Ok k
      end.
Proof.
  intros Hidle Hid Hrun.
  destruct (GPUEngine.shaderIdOf numberToString program) as [shaderId | err]
    eqn:Hsid.
  2:{ unfold GPUEngine.await in Hrun. cbn [GPUEngine.call] in Hrun.
      rewrite M_bind_run in Hrun. unfold GPUEngine.create in Hrun.
      rewrite gets_bind_run, Hidle, gets_bind_run, Hid in Hrun.
      rewrite bool_decide_eq_false_2 in Hrun by (by intros [? ?]).
      rewrite M_bind_run in Hrun. unfold lift at 1 in Hrun.
      rewrite Hsid in Hrun. done. }
  exists shaderId. split; [done |].
  unfold GPUEngine.await in Hrun. cbn [GPUEngine.call] in Hrun.
  rewrite M_bind_run in Hrun.
  destruct (codeExecMap (engine s) !! shaderId) as [ref |] eqn:Hshared.
  - rewrite (create_clone_path numberToString id program shaderId ref s)
      in Hrun by done.
    destruct (Renderer.cloneProgram_begin program s) as [sA [k | err]];
      cbn [fst snd] in *; [by eexists |].
    by rewrite resume_clone_rejected in Hrun.
  - rewrite (create_compile_path numberToString id program shaderId s)
      in Hrun by done.
    destruct (Renderer.createProgram_begin program s) as [sA [c | err]];
      cbn [fst snd] in *; [by eexists |].
    by rewrite resume_compile_rejected in Hrun.
Qed.

End Awaited.

(** ** Creations that are not awaited *)

Section Unawaited.

Context (numberToString : Ty → list byte → string).

(** C1, as the code has it when the calls are not awaited.  Two [create]
    calls are made one after the other in the Idle state, for distinct
    free ids and descriptors with one shader id that is not in use, and
    each runs up to its [await]; then the first goes on and then the
    second.  The shader id is registered only after the [await], so the
    second call does not find it: it compiles as well.  Both ids end up
    registered under the shader id with executables that have different
    pipelines and different index buffers, two pipelines exist on the
    device, and the entry of the shader id, written by the call that
    ended last, has the count 1. *)
Theorem unawaited_creates_compile_twice (id1 id2 : string)
  (p1 p2 : GPUCompilableProgram) (shaderId : string) (s : State)
  (c1 c2 : Renderer.Compiling) :
  isBusy (engine s) = false →
  id1 ≠ id2 →
  idExecMap (engine s) !! id1 = None →
  idExecMap (engine s) !! id2 = None →
  GPUEngine.shaderIdOf numberToString p1 = Ok shaderId →
  GPUEngine.shaderIdOf numberToString p2 = Ok shaderId →
  codeExecMap (engine s) !! shaderId = None →
  let r1 := GPUEngine.call numberToString (create_ id1 p1) s in
  let r2 := GPUEngine.call numberToString (create_ id2 p2) r1.1 in
  (Renderer.createProgram_begin p1 s).2 = Ok c1 →
  (Renderer.createProgram_begin p2 r1.1).2 = Ok c2 →
  ∃ promise1 promise2,
    let t1 := GPUEngine.Compile id1 shaderId promise1 p1 (Ok c1) in
    let t2 := GPUEngine.Compile id2 shaderId promise2 p2 (Ok c2) in
    let r3 := GPUEngine.resume t1 r2.1 in
    let r4 := GPUEngine.resume t2 r3.1 in
    r1.2 = Ok (Some t1) ∧ r2.2 = Ok (Some t2)
    ∧ r3.2 = Ok None ∧ r4.2 = Ok None
    ∧ ∃ a1 a2,
        idExecMap (engine r4.1) !! id1
        = Some {| sr_executable := a1; sr_shaderId := shaderId |}
        ∧ idExecMap (engine r4.1) !! id2
          = Some {| sr_executable := a2; sr_shaderId := shaderId |}
        ∧ pipeline (Heap.executable a1 r4.1)
          ≠ pipeline (Heap.executable a2 r4.1)
        ∧ indexBuffer (Heap.executable a1 r4.1)
          ≠ indexBuffer (Heap.executable a2 r4.1)
        ∧ (∃ layout module stride attributes,
             objects (device r4.1) !! pipeline (Heap.executable a1 r4.1)
             = Some (RenderPipeline layout
                       (JS.orString (cullMode p1) "back")
                       (JS.orString (topology p1) "triangle-list") module
                       (JS.orString (vertexEntryPoint p1) "vertex_main")
                       stride attributes
                       (JS.orString (fragmentEntryPoint p1) "fragment_main")
                       (r_format (renderer s))))
        ∧ (∃ layout module stride attributes,
             objects (device r4.1) !! pipeline (Heap.executable a2 r4.1)
             = Some (RenderPipeline layout
                       (JS.orString (cullMode p2) "back")
                       (JS.orString (topology p2) "triangle-list") module
                       (JS.orString (vertexEntryPoint p2) "vertex_main")
                       stride attributes
                       (JS.orString (fragmentEntryPoint p2) "fragment_main")
                       (r_format (renderer s))))
        ∧ references shaderId r4.1 = 1%Z.
Proof.
  intros Hidle Hne Hid1 Hid2 Hsid1 Hsid2 Hfree r1 r2 Hc1 Hc2.
  pose proof (create_compile_path numberToString id1 p1 shaderId s
                Hidle Hid1 Hsid1 Hfree) as Hcall1.
  cbv zeta in Hcall1. rewrite Hc1 in Hcall1.
  pose proof (createProgram_begin_frame p1 s) as Hframe1. cbv zeta in Hframe1.
  set (b1 := (Renderer.createProgram_begin p1 s).1) in *.
  assert (engine b1 = engine s ∧ store b1 = store s
          ∧ renderer b1 = renderer s ∧ drawer b1 = drawer s)
    as (Heb1 & Hstb1 & Hrb1 & Hdb1) by (by rewrite Hframe1).
  assert (r1 = GPUEngine.create numberToString id1 p1 s) as Hr1
    by reflexivity.
  rewrite Hcall1 in Hr1.
  set (s1 := r1.1) in *.
  assert (isBusy (engine s1) = false
          ∧ idExecMap (engine s1) = idExecMap (engine s)
          ∧ codeExecMap (engine s1) = codeExecMap (engine s)
          ∧ renderer s1 = renderer s)
    as (Hidle1 & Hmap1 & Hcode1 & Hren1).
  { subst s1. rewrite Hr1. cbn. by rewrite Heb1, Hrb1. }
  pose proof (create_compile_path numberToString id2 p2 shaderId s1
                Hidle1 ltac:(by rewrite Hmap1) Hsid2
                ltac:(by rewrite Hcode1)) as Hcall2.
  cbv zeta in Hcall2. rewrite Hc2 in Hcall2.
  pose proof (createProgram_begin_frame p2 s1) as Hframe2. cbv zeta in Hframe2.
  set (b2 := (Renderer.createProgram_begin p2 s1).1) in *.
  assert (engine b2 = engine s1 ∧ renderer b2 = renderer s1)
    as (Heb2 & Hrb2) by (by rewrite Hframe2).
  assert (r2 = GPUEngine.create numberToString id2 p2 s1) as Hr2
    by reflexivity.
  rewrite Hcall2 in Hr2.
  exists (nextAddress (store b1)), (nextAddress (store b2)).
  cbv zeta. rewrite Hr1, Hr2. cbn [fst snd].
  rewrite !resume_compile. cbn [fst snd].
  split; [done |]. split; [done |]. split; [done |]. split; [done |].
  eexists _, _.
  unfold Heap.executable, references, Heap.refCounter.
  cbn [engine store device renderer executables refCounters idExecMap
       codeExecMap nextAddress set_isPending compiledDevice nextHandle
       objects].
  rewrite lookup_insert_eq. cbn [option_fmap].
  rewrite lookup_insert_ne by done. rewrite lookup_insert_eq.
  split; [reflexivity |]. split; [reflexivity |].
  rewrite !lookup_total_insert_eq.
  rewrite lookup_total_insert_ne by lia. rewrite lookup_total_insert_eq.
  unfold compiled. cbn [pipeline indexBuffer device nextHandle
                        compiledDevice rc_count].
  split; [lia |]. split; [lia |].
  split; [| split].
  3:{ rewrite lookup_insert_eq. by rewrite lookup_total_insert_eq. }
  - rewrite !lookup_insert_ne by lia. rewrite lookup_insert_eq.
    unfold pipelineOf. rewrite Hrb2, Hren1. by eexists _, _, _, _.
  - rewrite lookup_insert_eq.
    unfold pipelineOf. cbn [renderer nextZ r_format]. rewrite Hrb2, Hren1.
    by eexists _, _, _, _.
Qed.

End Unawaited.

Lemma unawaited_creates_compile_twice_witness :
  ∃ shaderId t1 t2,
    let r1 := GPUEngine.call firstByte (create_ "a" shape) engine0 in
    let r2 := GPUEngine.call firstByte (create_ "b" shape) r1.1 in
    let r4 := GPUEngine.resume t2 (GPUEngine.resume t1 r2.1).1 in
    r1.2 = Ok (Some t1) ∧ r2.2 = Ok (Some t2) ∧ r4.2 = Ok None
    ∧ is_Some (idExecMap (engine r4.1) !! "a")
    ∧ is_Some (idExecMap (engine r4.1) !! "b")
    ∧ references shaderId r4.1 = 1%Z.
Proof.
  assert (∃ shaderId, GPUEngine.shaderIdOf firstByte shape = Ok shaderId)
    as [shaderId Hsid] by (eexists; vm_compute; reflexivity).
  assert (∃ c1, (Renderer.createProgram_begin shape engine0).2 = Ok c1)
    as [c1 Hc1] by (eexists; vm_compute; reflexivity).
  assert (∃ c2, (Renderer.createProgram_begin shape
                   (GPUEngine.call firstByte (create_ "a" shape) engine0).1).2
                = Ok c2)
    as [c2 Hc2] by (eexists; vm_compute; reflexivity).
  destruct (unawaited_creates_compile_twice firstByte "a" "b" shape shape
              shaderId engine0 c1 c2
              ltac:(reflexivity) ltac:(discriminate)
              ltac:(reflexivity) ltac:(reflexivity) Hsid Hsid
              ltac:(reflexivity) Hc1 Hc2)
    as (promise1 & promise2 & H).
  exists shaderId, (GPUEngine.Compile "a" shaderId promise1 shape (Ok c1)),
    (GPUEngine.Compile "b" shaderId promise2 shape (Ok c2)).
  cbv zeta in H |- *.
  destruct H as (H1 & H2 & _ & H4 & a1 & a2 & Ha1 & Ha2 & _ & _ & _ & _ & Href).
  split; [exact H1 |]. split; [exact H2 |]. split; [exact H4 |].
  split; [by eexists |]. split; [by eexists | exact Href].
Defined.

(** The two creations for the descriptor [shape], neither awaited, on a
    new engine: the executables of "a" and "b" have the pipelines 11
    and 15, the vertex buffers 2 and 6 and the index buffers 8 and 12,
    and the shader id is counted once. *)
Example unawaited_creates_of_shape :
  ∃ shaderId t1 t2 s2,
    issued firstByte [create_ "a" shape; create_ "b" shape] engine0 = s2
    ∧ (GPUEngine.call firstByte (create_ "a" shape) engine0).2 = Ok (Some t1)
    ∧ (GPUEngine.call firstByte (create_ "b" shape)
         (GPUEngine.call firstByte (create_ "a" shape) engine0).1).2
      = Ok (Some t2)
    ∧ let s4 := (GPUEngine.resume t2 (GPUEngine.resume t1 s2).1).1 in
      (pipeline <$> executableOf "a" s4, pipeline <$> executableOf "b" s4)
      = (Some 11, Some 15)
      ∧ (vertexBuffer <$> executableOf "a" s4,
         vertexBuffer <$> executableOf "b" s4)
        = (Some (Some 2), Some (Some 6))
      ∧ (indexBuffer <$> executableOf "a" s4,
         indexBuffer <$> executableOf "b" s4)
        = (Some 8, Some 12)
      ∧ sr_shaderId <$> idExecMap (engine s4) !! "a" = Some shaderId
      ∧ sr_shaderId <$> idExecMap (engine s4) !! "b" = Some shaderId
      ∧ references shaderId s4 = 1%Z.
Proof.
  eexists _, _, _, _. split; [reflexivity |].
  split; [vm_compute; reflexivity |]. split; [vm_compute; reflexivity |].
  cbv zeta. split_and!; vm_compute; reflexivity.
Qed.

(** ** Bind group layouts *)

Lemma createGroupLayout_loop (groups : list (list GPUBinding)) :
  ∀ (i : nat) (acc : list nat) (s : State),
    forEach (λ _ group bindGroupLayouts,
               layout ← GPU.create
                          (BindGroupLayout (imap Renderer.layoutEntry group));
               mret (bindGroupLayouts ++ [layout]))
            i groups acc s
    = (on_device (λ d,
         {| nextHandle := length groups + nextHandle d;
            objects := withLayouts (nextHandle d) groups (objects d);
            ops := ops d; console := console d |}) s,
       Ok (acc ++ seq (nextHandle (device s)) (length groups))).
Proof.
  induction groups as [| group groups IH]; intros i acc s.
  - cbn. rewrite app_nil_r. by destruct s as [[] ? ? ? ?].
  - cbn [forEach]. rewrite M_bind_run. unfold GPU.create at 1.
    rewrite M_bind_run. cbn [fst snd]. unfold mret at 1, M_ret at 1.
    rewrite IH. destruct s as [[nh objs os cons] st r dr e]. cbn.
    rewrite <- app_assoc. unfold on_device. cbn. rewrite Nat.add_succ_r. reflexivity.
Qed.

Lemma withLayouts_below (groups : list (list GPUBinding)) :
  ∀ (h k : nat) (objs : gmap nat GPUObject),
    k < h → withLayouts h groups objs !! k = objs !! k.
Proof.
  induction groups as [| group groups IH]; intros h k objs Hk; [done |].
  cbn. rewrite IH by lia. by rewrite lookup_insert_ne by lia.
Qed.

Lemma withLayouts_lookup (groups : list (list GPUBinding)) :
  ∀ (h i : nat) (objs : gmap nat GPUObject) (group : list GPUBinding),
    groups !! i = Some group →
    withLayouts h groups objs !! (h + i)
    = Some (BindGroupLayout (imap Renderer.layoutEntry group)).
Proof.
  induction groups as [| g groups IH]; intros h i objs group Hi; [done |].
  destruct i as [| i]; cbn in *.
  - injection Hi as ->. rewrite Nat.add_0_r, withLayouts_below by lia.
    by rewrite lookup_insert_eq.
  - rewrite <- Nat.add_succ_comm. by apply IH.
Qed.

(** X4.  [#createGroupLayout] never throws.  It makes one bind group
    layout for each group, an empty group included, and returns their
    handles in the order of the groups; the layout of group [i] has one
    entry for each binding, numbered by position, visible to the fragment
    stage when the usage is "fragment" and to the vertex stage for any
    other usage.  Nothing else on the device changes. *)
Theorem createGroupLayout_spec (groups : list (list GPUBinding)) (s : State) :
  let h := nextHandle (device s) in
  let r := Renderer.createGroupLayout groups s in
  r.2 = Ok (seq h (length groups))
  ∧ nextHandle (device r.1) = length groups + h
  ∧ (∀ i group, groups !! i = Some group →
       objects (device r.1) !! (h + i)
       = Some (BindGroupLayout (imap Renderer.layoutEntry group)))
  ∧ (∀ k, k < h → objects (device r.1) !! k = objects (device s) !! k)
  ∧ ops (device r.1) = ops (device s)
  ∧ console (device r.1) = console (device s)
  ∧ (∀ j binding,
       Renderer.layoutEntry j binding
       = {| le_binding := j;
            le_visibility := if decide (usage binding = "fragment")
                             then FRAGMENT else VERTEX;
            le_kind := match resource binding with
                       | RBuffer _ => LBuffer
                       | RTexture _ => LTexture
                       | RSampler _ => LSampler
                       end |}).
Proof.
  intros h r. subst r h. unfold Renderer.createGroupLayout.
  rewrite createGroupLayout_loop. cbn.
  repeat split.
  - intros i group Hi. by apply withLayouts_lookup.
  - intros k Hk. by apply withLayouts_below.
  - intros j binding. unfold Renderer.layoutEntry, Renderer.isTypeOfBuffer,
      Renderer.isTypeOfTexture.
    f_equal; [| by destruct (resource binding)].
    destruct (decide (usage binding = "fragment")).
    + by rewrite bool_decide_eq_true_2.
    + by rewrite bool_decide_eq_false_2.
Qed.

(** ** Updating a binding of a registered entity *)

(** [update] in the Idle state on a registered id: z is set and the draw
    list sorted before the uniform table is consulted. *)
Lemma update_registered (id : string) (ref : GPUShaderRef) (group binding : nat)
  (resource : UpdateValue) (z' : option Z) (s : State) :
  isBusy (engine s) = false → idExecMap (engine s) !! id = Some ref →
  let a := sr_executable ref in
  let e := Heap.executable a s in
  let s1 := rearranged a z' s in
  GPUEngine.update id group binding resource z' s
  = match Renderer.uniformAt e group binding with
    | Throw err => (s1, Throw err)
    | Ok d =>
        match resource with
        | UImage url =>
            (emitted (CopyImage url (ud_texture d) (ud_width d) (ud_height d))
               s1, Ok None)
        | UNumbers values =>
            match ud_type d with
            | None => (s1, Throw (TypeError_undefined "TypeConstructor"))
            | Some type =>
                (emitted (WriteValues (uniformBuffer e) (ud_offset d)
                            (Some type) values) s1, Ok None)
            end
        end
    end.
Proof.
  intros Hidle Hid a e s1. subst a e s1. unfold GPUEngine.update.
  rewrite (guarded_registered _ _ _ ref) by done.
  assert (GPUEngine.executableOf id s = (s, Ok (sr_executable ref))) as Hexec.
  { unfold GPUEngine.executableOf. rewrite gets_bind_run, Hid. reflexivity. }
  assert (Heap.executable (sr_executable ref)
            (rearranged (sr_executable ref) z' s)
          = withZ z' (Heap.executable (sr_executable ref) s)) as Hread.
  { unfold rearranged, Heap.executable. cbn.
    by rewrite lookup_total_insert_eq. }
  assert (GPUEngine.update_body id group binding resource z' s
          = Renderer.updateBinding (sr_executable ref) group binding resource
              (rearranged (sr_executable ref) z' s)) as ->.
  { unfold GPUEngine.update_body. rewrite M_bind_run, Hexec.
    reflexivity. }
  unfold Renderer.updateBinding. rewrite gets_bind_run, Hread.
  assert (Renderer.uniformAt
            (withZ z' (Heap.executable (sr_executable ref) s)) group binding
          = Renderer.uniformAt (Heap.executable (sr_executable ref) s) group
              binding) as -> by reflexivity.
  destruct resource as [url | values].
  - rewrite M_bind_run. unfold lift.
    destruct (Renderer.uniformAt _ group binding) as [d | err]; reflexivity.
  - rewrite M_bind_run. unfold lift.
    destruct (Renderer.uniformAt _ group binding) as [d | err];
      [| reflexivity].
    destruct (ud_type d); reflexivity.
Qed.

Lemma descriptorOf_recorded (h offset : nat) (binding : GPUBinding) :
  is_Some (descriptorOf h offset binding) ↔ recorded binding = true.
Proof.
  unfold descriptorOf, recorded.
  destruct (resource binding) as [b | t | sm].
  - destruct (b_global b); split.
    + intros [? ?]. discriminate.
    + discriminate.
    + reflexivity.
    + intros _. eexists. reflexivity.
  - split; [reflexivity | intros _; eexists; reflexivity].
  - split; [reflexivity | intros _; eexists; reflexivity].
Qed.

Lemma length_rowFrom (h offset : nat) (group : list GPUBinding) :
  length (rowFrom h offset group) = slotIndex group (length group).
Proof.
  unfold slotIndex. rewrite firstn_all.
  revert h offset. induction group as [| b group IH]; intros h offset;
    [done |].
  cbn [rowFrom]. rewrite length_app, IH.
  pose proof (descriptorOf_recorded h offset b) as Hrec.
  destruct (recorded b) eqn:Hb.
  - rewrite filter_cons_True by (rewrite Hb; exact I).
    destruct (proj2 Hrec eq_refl) as [d ->]. reflexivity.
  - rewrite filter_cons_False by (rewrite Hb; intros []).
    destruct (descriptorOf h offset b) as [d |]; [| reflexivity].
    destruct Hrec as [Hrec _]. by specialize (Hrec ltac:(eauto)).
Qed.

Lemma rowFrom_lookup (group : list GPUBinding) :
  ∀ (h offset j : nat) (binding : GPUBinding),
    group !! j = Some binding → recorded binding = true →
    rowFrom h offset group !! slotIndex group j
    = descriptorOf (h + sum_list_with objectsOf (take j group))
        (offset + sum_list_with ownBytes (take j group)) binding.
Proof.
  unfold slotIndex.
  induction group as [| b group IH]; intros h offset j binding Hj Hrec;
    [done |].
  destruct j as [| j]; cbn [take rowFrom sum_list_with] in *.
  - injection Hj as ->. rewrite !Nat.add_0_r.
    destruct (proj2 (descriptorOf_recorded h offset binding) Hrec) as [d Hd].
    rewrite Hd. reflexivity.
  - pose proof (descriptorOf_recorded h offset b) as Hb.
    destruct (recorded b) eqn:Hrb.
    + rewrite filter_cons_True by (rewrite Hrb; exact I).
      destruct (proj2 Hb eq_refl) as [d ->]. cbn.
      rewrite (IH _ _ _ binding) by done. f_equal; lia.
    + rewrite filter_cons_False by (rewrite Hrb; intros []).
      destruct (descriptorOf h offset b) as [d |].
      { destruct Hb as [Hb _]. by specialize (Hb ltac:(eauto)). }
      cbn. rewrite (IH _ _ _ binding) by done. f_equal; lia.
Qed.

Lemma tableFrom_lookup (groups : list (list GPUBinding)) :
  ∀ (h offset i : nat) (group : list GPUBinding),
    groups !! i = Some group →
    ∃ h', tableFrom h offset groups !! i
          = Some (rowFrom h' (offset + sum_list_with ownBytes
                                         (concat (take i groups))) group).
Proof.
  induction groups as [| g groups IH]; intros h offset i group Hi; [done |].
  destruct i as [| i].
  - cbn in *. injection Hi as ->. exists h. by rewrite Nat.add_0_r.
  - destruct (IH (S (h + sum_list_with objectsOf g))
                (offset + sum_list_with ownBytes g) i group Hi) as [h' Hh'].
    exists h'. cbn [tableFrom take concat].
    change ((?x :: ?l) !! S i) with (l !! i). rewrite Hh'.
    rewrite sum_list_with_app. do 2 f_equal. lia.
Qed.

(** The uniform table a compilation records. *)
Lemma createProgram_begin_table (program : GPUCompilableProgram) (s : State)
  (c : Renderer.Compiling) :
  Forall (λ group, group ≠ []) (groups program) →
  (Renderer.createProgram_begin program s).2 = Ok c →
  ∃ h, Renderer.bg_uniforms (Renderer.c_bind c)
       = tableFrom h 0 (groups program)
         ++ replicate (length (concat (groups program))
                       - length (groups program)) [].
Proof.
  intros Hne. unfold Renderer.createProgram_begin. rewrite M_bind_run.
  destruct (Renderer.createGroupLayout (groups program) s)
    as [s1 [layouts | e]]; [| done].
  rewrite M_bind_run.
  destruct (Renderer.createUniformBuffer (groups program) s1)
    as [s2 [ub | e]]; [| done].
  rewrite M_bind_run.
  destruct (Renderer.createVertexBuffer (vertexDescriptor program) s2)
    as [sv [v | e]]; [| done].
  rewrite M_bind_run.
  destruct (createBindGroup_run (groups program) layouts ub sv Hne)
    as (Hres & _).
  destruct (Renderer.createBindGroup (groups program) layouts ub sv)
    as [s3 o]. cbn [fst snd] in *. subst o. cbn. intros [= <-]. cbn.
  eexists. reflexivity.
Qed.

Lemma cloneProgram_begin_table (program : GPUCompilableProgram) (s : State)
  (k : Renderer.Cloning) :
  Forall (λ group, group ≠ []) (groups program) →
  (Renderer.cloneProgram_begin program s).2 = Ok k →
  ∃ h, Renderer.bg_uniforms (Renderer.k_bind k)
       = tableFrom h 0 (groups program)
         ++ replicate (length (concat (groups program))
                       - length (groups program)) [].
Proof.
  intros Hne. unfold Renderer.cloneProgram_begin. rewrite M_bind_run.
  destruct (Renderer.createGroupLayout (groups program) s)
    as [s1 [layouts | e]]; [| done].
  rewrite M_bind_run.
  destruct (Renderer.createUniformBuffer (groups program) s1)
    as [s2 [ub | e]]; [| done].
  rewrite M_bind_run.
  destruct (createBindGroup_run (groups program) layouts ub s2 Hne)
    as (Hres & _).
  destruct (Renderer.createBindGroup (groups program) layouts ub s2)
    as [s3 o]. cbn [fst snd] in *. subst o. cbn. intros [= <-]. cbn.
  eexists. reflexivity.
Qed.

Section Created.

Context (numberToString : Ty → list byte → string).

(** What an awaited [create] that returns leaves for its id, on either
    path, when no group of the descriptor is empty. *)
Lemma created_entity (id : string) (program : GPUCompilableProgram)
  (s s1 : State) :
  isBusy (engine s) = false →
  idExecMap (engine s) !! id = None →
  Forall (λ group, group ≠ []) (groups program) →
  GPUEngine.await numberToString (create_ id program) s = (s1, Ok None) →
  ∃ shaderId a h,
    isBusy (engine s1) = false
    ∧ idExecMap (engine s1) !! id
      = Some {| sr_executable := a; sr_shaderId := shaderId |}
    ∧ uniforms (Heap.executable a s1)
      = tableFrom h 0 (groups program)
        ++ replicate (length (concat (groups program))
                      - length (groups program)) []
    ∧ (groups program ≠ [] →
       ∃ u, uniformBuffer (Heap.executable a s1) = Some u).
Proof.
  intros Hidle Hid Hne Hrun.
  destruct (await_create_inv numberToString id program s s1 Hidle Hid Hrun)
    as (shaderId & Hsid & Hpath).
  destruct (codeExecMap (engine s) !! shaderId) as [ref |] eqn:Hshared.
  - destruct Hpath as [k Hk].
    rewrite (await_create_cloned numberToString id program shaderId ref s
               _ k Hidle Hid Hsid Hshared eq_refl Hk) in Hrun.
    injection Hrun as <-.
    destruct (cloneProgram_begin_table program s k Hne Hk) as [h Htable].
    destruct (cloneProgram_begin_result program s k Hk) as (Hu & _).
    exists shaderId, (nextAddress (store s)), h.
    unfold Heap.executable. cbn.
    rewrite lookup_insert_eq, lookup_total_insert_eq. cbn.
    repeat split; try done.
    intros Hg. destruct (Hu Hg) as (u & -> & _). by exists u.
  - destruct Hpath as [c Hc].
    rewrite (await_create_compiled numberToString id program shaderId s
               _ c Hidle Hid Hsid Hshared eq_refl Hc) in Hrun.
    injection Hrun as <-.
    destruct (createProgram_begin_table program s c Hne Hc) as [h Htable].
    destruct (createProgram_begin_result program s c Hc) as (Hu & _).
    exists shaderId, (S (nextAddress (store s))), h.
    unfold Heap.executable. cbn.
    rewrite lookup_insert_eq, lookup_total_insert_eq. cbn.
    repeat split; try done.
    intros Hg. destruct (Hu Hg) as (u & -> & _). by exists u.
Qed.

End Created.

(** ** The order that [sort] gives *)

Lemma zLe_notAfter (s : State) (a b : nat) :
  is_Some (z (Heap.executable a s)) → is_Some (z (Heap.executable b s)) →
  (Drawer.notAfter s a b = true ↔ zLe s a b)
  ∧ (Drawer.notAfter s a b = false → zLe s b a).
Proof.
  intros [x Hx] [y Hy]. unfold Drawer.notAfter, zLe. rewrite Hx, Hy.
  split; [apply Z.leb_le |]. intros Hgt%Z.leb_gt. lia.
Qed.

Lemma zLe_trans (s : State) (a b c : nat) :
  zLe s a b → zLe s b c → zLe s a c.
Proof.
  unfold zLe.
  destruct (z (Heap.executable a s)) as [x |],
    (z (Heap.executable b s)) as [y |],
    (z (Heap.executable c s)) as [w |]; try done. lia.
Qed.

Lemma insert_ordered (s : State) (x : nat) (l : list nat) :
  haveZ s (x :: l) → ordered (zLe s) l →
  ordered (zLe s) (Drawer.insert (Drawer.notAfter s) x l).
Proof.
  unfold haveZ. induction l as [| y l IH]; intros Hz Hord.
  - cbn. by split.
  - apply Forall_cons in Hz as [Hx Hz]. pose proof Hz as Hyl.
    apply Forall_cons in Hz as [Hy Hz]. destruct Hord as [Hyle Hord].
    destruct (zLe_notAfter s x y Hx Hy) as [Hle Hgt]. cbn [Drawer.insert].
    destruct (Drawer.notAfter s x y) eqn:Hcmp.
    + cbn [ordered]. split_and!; try done.
      apply Forall_cons. split; [by apply Hle |].
      eapply Forall_impl; [exact Hyle |]. intros c Hc.
      eapply zLe_trans; [by apply Hle | exact Hc].
    + cbn [ordered]. split.
      * rewrite insert_Permutation. apply Forall_cons. split; [by apply Hgt |].
        exact Hyle.
      * apply IH; [by apply Forall_cons | exact Hord].
Qed.

Lemma sorted_ordered (s : State) (l : list nat) :
  haveZ s l → ordered (zLe s) (Drawer.sorted (Drawer.notAfter s) l).
Proof.
  unfold haveZ. induction l as [| x l IH]; intros Hz; [done |].
  apply Forall_cons in Hz as [Hx Hz]. cbn [Drawer.sorted foldr].
  apply insert_ordered; [| by apply IH].
  unfold haveZ. apply Forall_cons. split; [done |].
  fold (Drawer.sorted (Drawer.notAfter s) l). by rewrite sorted_Permutation.
Qed.

Lemma zLe_store (s s' : State) (a b : nat) :
  store s' = store s → zLe s' a b ↔ zLe s a b.
Proof. intros Hst. unfold zLe, Heap.executable. by rewrite Hst. Qed.

Lemma ordered_store (s s' : State) (l : list nat) :
  store s' = store s → ordered (zLe s) l → ordered (zLe s') l.
Proof.
  intros Hst. induction l as [| x l IH]; [done |]. intros [Hx Hl].
  split; [| by apply IH].
  eapply Forall_impl; [exact Hx |]. intros b Hb. by apply (zLe_store s s').
Qed.

Lemma haveZ_store (s s' : State) (l : list nat) :
  store s' = store s → haveZ s' l → haveZ s l.
Proof.
  intros Hst. unfold haveZ, Heap.executable. by rewrite Hst.
Qed.

(** The state [update] has reached when it calls [updateBinding]. *)
Lemma rearranged_zSet (a : nat) (z' : option Z) (s : State) :
  zSet a z' s (rearranged a z' s).
Proof.
  unfold zSet, rearranged.
  set (s0 := on_store _ s).
  cbn [store drawer renderer engine on_drawer on_store set_entities entities
       executables refCounters promises nextAddress cameras sceneId].
  split_and!; try reflexivity.
  - apply sorted_Permutation.
  - intros Hz.
    apply (ordered_store s0); [done |]. apply sorted_ordered.
    apply (haveZ_store s0) in Hz; [| done]. unfold haveZ in *.
    by rewrite sorted_Permutation in Hz.
Qed.

Lemma zSet_device (a : nat) (z' : option Z) (s s' : State) (op : DeviceOp) :
  zSet a z' s s' → zSet a z' s (emitted op s').
Proof. done. Qed.

Section Update.

Context (numberToString : Ty → list byte → string).

(** X5.  An entity is created, in the Idle state, from a descriptor none
    of whose groups is empty, and binding [j] of group [i] is a buffer
    slot with no [global] member.  Then [update] with that group and
    with the number of recorded bindings before [j] as the binding index
    returns; it has set the z of the executable, left on the draw list
    what was on it (in the order of z when every entry has a z) and
    written the numbers to the entity's own uniform buffer, at the sum of
    the sizes of the local buffer slots before the binding.  It has
    created nothing and issued no other operation. *)
Theorem update_reaches_local_slot (id : string)
  (program : GPUCompilableProgram) (s s1 : State) (i j : nat)
  (group : list GPUBinding) (binding : GPUBinding) (slot : BufferSlot)
  (values : list Q) (z' : option Z) :
  isBusy (engine s) = false →
  idExecMap (engine s) !! id = None →
  Forall (λ group, group ≠ []) (groups program) →
  GPUEngine.await numberToString (create_ id program) s = (s1, Ok None) →
  groups program !! i = Some group →
  group !! j = Some binding →
  resource binding = RBuffer slot →
  b_global slot = None →
  ∃ shaderId a u,
    idExecMap (engine s1) !! id
    = Some {| sr_executable := a; sr_shaderId := shaderId |}
    ∧ uniformBuffer (Heap.executable a s1) = Some u
    ∧ let r := GPUEngine.await numberToString
                 (update_ id i (slotIndex group j) (UNumbers values) z') s1 in
      r.2 = Ok None
      ∧ zSet a z' s1 r.1
      ∧ z (Heap.executable a r.1) = z'
      ∧ nextHandle (device r.1) = nextHandle (device s1)
      ∧ objects (device r.1) = objects (device s1)
      ∧ console (device r.1) = console (device s1)
      ∧ ops (device r.1)
        = ops (device s1)
          ++ [WriteValues (Some u)
                (Some (sum_list_with ownBytes
                         (concat (take i (groups program)) ++ take j group)))
                (Some (b_type slot)) values].
Proof.
  intros Hidle Hid Hne Hrun Hi Hj Hres Hglobal.
  destruct (created_entity numberToString id program s s1 Hidle Hid Hne Hrun)
    as (shaderId & a & h & Hidle1 & Hid1 & Htable & Hu).
  destruct Hu as [u Hu]; [by intros Hnil; rewrite Hnil in Hi |].
  exists shaderId, a, u. split; [exact Hid1 |]. split; [exact Hu |].
  cbv zeta.
  unfold GPUEngine.await. cbn [GPUEngine.call]. rewrite M_bind_run.
  rewrite (update_registered id _ i (slotIndex group j) (UNumbers values) z' s1
             Hidle1 Hid1).
  cbn [sr_executable].
  assert (Renderer.uniformAt (Heap.executable a s1) i (slotIndex group j)
          = Ok {| ud_offset :=
                    Some (sum_list_with ownBytes
                            (concat (take i (groups program))
                             ++ take j group));
                  ud_size := Some (BYTES_PER_ELEMENT (b_type slot)
                                   * b_size slot);
                  ud_type := Some (b_type slot);
                  ud_width := None; ud_height := None;
                  ud_texture := None |}) as ->.
  { unfold Renderer.uniformAt. rewrite Htable.
    destruct (tableFrom_lookup (groups program) h 0 i group Hi) as [h' Hrow].
    rewrite lookup_app_l
      by (rewrite length_tableFrom; by eapply lookup_lt_Some).
    rewrite Hrow.
    assert (recorded binding = true) as Hrec
      by (unfold recorded; by rewrite Hres, Hglobal).
    rewrite (rowFrom_lookup group _ _ j binding Hj Hrec).
    unfold descriptorOf. rewrite Hres, Hglobal.
    rewrite sum_list_with_app. reflexivity. }
  cbn [ud_type ud_offset fst snd]. rewrite Hu.
  split; [reflexivity |].
  split; [apply zSet_device, rearranged_zSet |].
  split; [| done].
  unfold rearranged, emitted, Heap.executable. cbn.
  by rewrite lookup_total_insert_eq.
Qed.

(** X6.  For the same entity, [update] with a binding index that is not
    below the number of recorded bindings of the group throws a
    TypeError, whatever the value; by then it has set the z of the
    executable and sorted the draw list, which holds what it held.  The
    device is untouched.  The index of a binding in its group is such an
    index whenever the group has a global buffer slot and the binding is
    the last one. *)
Theorem update_outside_the_table (id : string)
  (program : GPUCompilableProgram) (s s1 : State) (i k : nat)
  (resource : UpdateValue) (z' : option Z) :
  isBusy (engine s) = false →
  idExecMap (engine s) !! id = None →
  Forall (λ group, group ≠ []) (groups program) →
  GPUEngine.await numberToString (create_ id program) s = (s1, Ok None) →
  slots program i ≤ k →
  ∃ shaderId a property,
    idExecMap (engine s1) !! id
    = Some {| sr_executable := a; sr_shaderId := shaderId |}
    ∧ let r := GPUEngine.await numberToString (update_ id i k resource z') s1 in
      r.2 = Throw (TypeError_undefined property)
      ∧ zSet a z' s1 r.1
      ∧ z (Heap.executable a r.1) = z'
      ∧ device r.1 = device s1.
Proof.
  intros Hidle Hid Hne Hrun Hk.
  destruct (created_entity numberToString id program s s1 Hidle Hid Hne Hrun)
    as (shaderId & a & h & Hidle1 & Hid1 & Htable & _).
  assert (∃ property,
            Renderer.uniformAt (Heap.executable a s1) i k
            = Throw (TypeError_undefined property)) as [property Hat].
  { unfold Renderer.uniformAt. rewrite Htable.
    destruct ((tableFrom h 0 (groups program) ++ _) !! i) as [row |] eqn:Hrow;
      [| by eexists].
    enough (row !! k = None) as -> by (by eexists).
    apply lookup_app_Some in Hrow as [Hrow | [_ Hrow]].
    - pose proof (lookup_lt_Some _ _ _ Hrow) as Hlt.
      rewrite length_tableFrom in Hlt.
      destruct (lookup_lt_is_Some_2 _ _ Hlt) as [group Hgroup].
      destruct (tableFrom_lookup (groups program) h 0 i group Hgroup)
        as [h' Hrow'].
      rewrite Hrow in Hrow'. injection Hrow' as ->.
      apply lookup_ge_None_2. rewrite length_rowFrom.
      unfold slots in Hk. by rewrite Hgroup in Hk.
    - apply lookup_replicate in Hrow as [-> _]. done. }
  exists shaderId, a, property. split; [exact Hid1 |]. cbv zeta.
  unfold GPUEngine.await. cbn [GPUEngine.call]. rewrite M_bind_run.
  rewrite (update_registered id _ i k resource z' s1 Hidle1 Hid1).
  cbn [sr_executable]. rewrite Hat. cbn [fst snd].
  split; [reflexivity |]. split; [apply rearranged_zSet |].
  split; [| done].
  unfold rearranged, Heap.executable. cbn.
  by rewrite lookup_total_insert_eq.
Qed.

End Update.

Lemma update_reaches_local_slot_witness :
  let s1 := after [create_ "a" sprite] engine0 in
  let group := [matrixSlot; cameraSlot; samplerSlot; textureSlot] in
  ∃ u,
    ops (device (GPUEngine.await firstByte
                   (update_ "a" 0 (slotIndex group 0) (UNumbers [1%Q])
                      (Some 5%Z)) s1).1)
    = ops (device s1)
      ++ [WriteValues (Some u)
            (Some (sum_list_with ownBytes
                     (concat (take 0 (groups sprite)) ++ take 0 group)))
            (Some f32) [1%Q]].
Proof.
  intros s1 group.
  destruct (update_reaches_local_slot firstByte "a" sprite engine0 s1 0 0
              group matrixSlot
              {| b_type := f32; b_size := 16; b_global := None |}
              [1%Q] (Some 5%Z)
              ltac:(reflexivity) ltac:(reflexivity)
              ltac:(repeat constructor; discriminate)
              ltac:(vm_compute; reflexivity)
              ltac:(reflexivity) ltac:(reflexivity) ltac:(reflexivity)
              ltac:(reflexivity))
    as (shaderId & a & u & _ & _ & Hrun).
  cbv zeta in Hrun. destruct Hrun as (_ & _ & _ & _ & _ & _ & Hops).
  clearbody s1. exists u. exact Hops.
Defined.

Lemma update_outside_the_table_witness :
  let s1 := after [create_ "a" sprite] engine0 in
  ∃ property,
    (GPUEngine.await firstByte (update_ "a" 0 3 (UImage "other.png") None) s1).2
    = Throw (TypeError_undefined property).
Proof.
  intros s1.
  destruct (update_outside_the_table firstByte "a" sprite engine0 s1 0 3
              (UImage "other.png") None
              ltac:(reflexivity) ltac:(reflexivity)
              ltac:(repeat constructor; discriminate)
              ltac:(vm_compute; reflexivity)
              ltac:(vm_compute; lia))
    as (shaderId & a & property & _ & Hrun).
  cbv zeta in Hrun. destruct Hrun as (Hrun & _).
  clearbody s1. exists property. exact Hrun.
Defined.

(** ** Freeing an entity *)

Lemma destroyTextures_eq (uniforms : list (list UniformDescriptor))
  (s : State) :
  GPUEngine.destroyTextures uniforms s
  = (emittedAll (Destroy <$> texturesOf uniforms) s, Ok tt).
Proof.
  unfold GPUEngine.destroyTextures, texturesOf.
  assert (∀ group j acc s,
            forEach (λ _ d _,
                       match ud_texture d with
                       | Some texture => GPU.emit (Destroy texture)
                       | None => mret tt
                       end) j group acc s
            = (emittedAll (Destroy <$> omap ud_texture group) s, Ok tt))
    as Hrow.
  { induction group as [| d group IH]; intros j [] s0.
    - destruct s0 as [[] ? ? ? ?]. cbn. unfold emittedAll, on_device. cbn.
      by rewrite app_nil_r.
    - cbn [forEach]. rewrite M_bind_run.
      destruct (ud_texture d) as [texture |] eqn:Htexture.
      + unfold GPU.emit at 1, modify at 1. cbn [fst snd]. rewrite IH.
        cbn [omap list_omap]. rewrite Htexture.
        destruct s0 as [[] ? ? ? ?]. unfold emittedAll, on_device. cbn.
        by rewrite <- app_assoc.
      + unfold mret at 1, M_ret at 1. cbn [fst snd]. rewrite IH.
        cbn [omap list_omap]. by rewrite Htexture. }
  revert s. generalize 0 at 2. generalize tt.
  induction uniforms as [| group uniforms IH]; intros [] i s.
  - destruct s as [[] ? ? ? ?]. cbn. unfold emittedAll, on_device. cbn.
    by rewrite app_nil_r.
  - cbn [forEach]. rewrite M_bind_run, Hrow. cbn [fst snd]. rewrite IH.
    cbn [concat]. rewrite omap_app, fmap_app.
    destruct s as [[] ? ? ? ?]. unfold emittedAll, on_device. cbn.
    by rewrite <- app_assoc.
Qed.

(** [freeEntity] past its opening, in the Idle state on a registered id
    whose shader id is shared as [ref]. *)
Lemma freeEntity_body_eq (id : string) (idRef : GPUShaderRef) (ref : nat)
  (s : State) :
  isBusy (engine s) = false →
  idExecMap (engine s) !! id = Some idRef →
  codeExecMap (engine s) !! sr_shaderId idRef = Some ref →
  let x := Heap.executable (rc_executable (Heap.refCounter ref s)) s in
  let last := (rc_count (Heap.refCounter ref s) - 1 <=? 0)%Z in
  let s1 := released (sr_executable idRef) ref s in
  GPUEngine.freeEntity_body id s
  = match uniformBuffer x with
    | None => (s1, Throw (TypeError_undefined "destroy"))
    | Some u =>
        if last then
          match vertexBuffer x with
          | None =>
              (emittedAll [Destroy u; Destroy (indexBuffer x)] s1,
               Throw (TypeError_undefined "destroy"))
          | Some v =>
              (unregistered id (sr_shaderId idRef) true
                 (emittedAll ([Destroy u; Destroy (indexBuffer x); Destroy v]
                              ++ (Destroy <$> texturesOf (uniforms x))) s1),
               Ok tt)
          end
        else
          (unregistered id (sr_shaderId idRef) false
             (emittedAll [Destroy u] s1),
           Ok tt)
    end.
Proof.
  intros Hidle Hid Hshared x last s1. subst x last s1.
  unfold GPUEngine.freeEntity_body. rewrite M_bind_run.
  unfold detached at 1.
  rewrite (removeFromScene_registered id idRef s) by done. cbn [fst snd].
  rewrite gets_bind_run. cbn [engine on_drawer]. rewrite Hid.
  rewrite gets_bind_run. cbn [engine on_drawer]. rewrite Hshared.
  rewrite gets_bind_run. unfold Heap.set_refCounter. rewrite modify_bind_run.
  unfold Drawer.remove. rewrite modify_bind_run, gets_bind_run.
  set (sR := on_drawer _ (on_store _ (on_drawer _ s))).
  assert (sR = released (sr_executable idRef) ref s) as HsR.
  { subst sR. unfold released. destruct s as [dv st r dr e].
    destruct dr. reflexivity. }
  assert (Heap.refCounter ref
            (on_drawer (λ d, set_entities
                               (Drawer.removeFirst (sr_executable idRef)
                                  (entities d)) d) s)
          = Heap.refCounter ref s) as Hr by reflexivity.
  rewrite Hr in *.
  assert (Heap.executable (rc_executable (Heap.refCounter ref s)) sR
          = Heap.executable (rc_executable (Heap.refCounter ref s)) s)
    as -> by reflexivity.
  rewrite HsR. clear HsR sR Hr.
  set (x := Heap.executable (rc_executable (Heap.refCounter ref s)) s).
  set (s1 := released (sr_executable idRef) ref s).
  rewrite M_bind_run. unfold GPU.destroy at 1.
  destruct (uniformBuffer x) as [u |]; [| reflexivity].
  unfold GPU.emit at 1, modify at 1. cbn [fst snd].
  rewrite M_bind_run.
  destruct (rc_count (Heap.refCounter ref s) - 1 <=? 0)%Z.
  - rewrite M_bind_run. unfold GPU.emit at 1, modify at 1. cbn [fst snd].
    rewrite M_bind_run. unfold GPU.destroy at 1.
    destruct (vertexBuffer x) as [v |].
    + unfold GPU.emit at 1, modify at 1. cbn [fst snd].
      rewrite M_bind_run, destroyTextures_eq. cbn [fst snd].
      unfold modify. cbn [fst snd].
      destruct s1 as [[nh objs os cons] st rd dr [m1 m2 m3 b1 ev b2 sc]].
      unfold unregistered, emittedAll, on_engine, on_device, set_idExecMap,
        set_codeExecMap.
      cbn [device store renderer drawer engine nextHandle objects ops console
           idExecMap isPending codeExecMap inExecution events isBusy
           scheduled].
      rewrite <- !app_assoc. reflexivity.
    + unfold throw. cbn [fst snd].
      destruct s1 as [[nh objs os cons] st rd dr en].
      unfold emittedAll, on_device.
      cbn [device store renderer drawer engine nextHandle objects ops
           console].
      rewrite <- !app_assoc. reflexivity.
  - unfold mret at 1, M_ret at 1. cbn [fst snd]. unfold modify.
    destruct s1 as [[nh objs os cons] st rd dr [m1 m2 m3 b1 ev b2 sc]].
    reflexivity.
Qed.

(** [freeEntity] in the Idle state on a registered id whose shader id is
    shared as [ref]. *)
Lemma freeEntity_registered (id : string) (idRef : GPUShaderRef) (ref : nat)
  (s : State) :
  isBusy (engine s) = false →
  idExecMap (engine s) !! id = Some idRef →
  codeExecMap (engine s) !! sr_shaderId idRef = Some ref →
  let x := Heap.executable (rc_executable (Heap.refCounter ref s)) s in
  let last := (rc_count (Heap.refCounter ref s) - 1 <=? 0)%Z in
  let s1 := released (sr_executable idRef) ref s in
  GPUEngine.freeEntity id s
  = match uniformBuffer x with
    | None => (s1, Throw (TypeError_undefined "destroy"))
    | Some u =>
        if last then
          match vertexBuffer x with
          | None =>
              (emittedAll [Destroy u; Destroy (indexBuffer x)] s1,
               Throw (TypeError_undefined "destroy"))
          | Some v =>
              (unregistered id (sr_shaderId idRef) true
                 (emittedAll ([Destroy u; Destroy (indexBuffer x); Destroy v]
                              ++ (Destroy <$> texturesOf (uniforms x))) s1),
               Ok None)
          end
        else
          (unregistered id (sr_shaderId idRef) false
             (emittedAll [Destroy u] s1),
           Ok None)
    end.
Proof.
  intros Hidle Hid Hshared x last s1. subst x last s1.
  unfold GPUEngine.freeEntity.
  rewrite (guarded_registered _ _ _ idRef) by done.
  rewrite (freeEntity_body_eq id idRef ref s) by done.
  destruct (uniformBuffer _) as [u |]; [| reflexivity].
  destruct (_ <=? 0)%Z; [| reflexivity].
  destruct (vertexBuffer _); reflexivity.
Qed.

(** A compilation makes no uniform buffer for a descriptor with no bind
    group and no vertex buffer for one with no vertex attribute. *)
Lemma createProgram_begin_none (program : GPUCompilableProgram) (s : State)
  (c : Renderer.Compiling) :
  (Renderer.createProgram_begin program s).2 = Ok c →
  (groups program = [] → Renderer.c_uniformBuffer c = None)
  ∧ (vertexDescriptor program = [] →
     Renderer.vb_buffer (Renderer.c_vertex c) = None).
Proof.
  unfold Renderer.createProgram_begin. rewrite M_bind_run.
  destruct (Renderer.createGroupLayout (groups program) s)
    as [s1 [layouts | e]]; [| done].
  rewrite M_bind_run.
  destruct (Renderer.createUniformBuffer (groups program) s1)
    as [s2 [ub | e]] eqn:Hub; [| done].
  rewrite M_bind_run.
  destruct (Renderer.createVertexBuffer (vertexDescriptor program) s2)
    as [sv [v | e]] eqn:Hv; [| done].
  rewrite M_bind_run.
  destruct (Renderer.createBindGroup (groups program) layouts ub sv)
    as [s3 [b | e]]; [| done].
  cbn. intros [= <-]. cbn. split.
  - intros Hnil. rewrite Hnil in Hub. cbn in Hub. by injection Hub as _ <-.
  - intros Hnil. rewrite Hnil in Hv. cbn in Hv. by injection Hv as _ <-.
Qed.

Lemma refCounter_released (a ref : nat) (s : State) :
  Heap.refCounter ref (released a ref s)
  = {| rc_executable := rc_executable (Heap.refCounter ref s);
       rc_count := (rc_count (Heap.refCounter ref s) - 1)%Z |}.
Proof.
  unfold released. unfold Heap.refCounter at 1. cbn.
  by rewrite lookup_total_insert_eq.
Qed.

Lemma createProgram_begin_some (program : GPUCompilableProgram) (s : State)
  (c : Renderer.Compiling) :
  (Renderer.createProgram_begin program s).2 = Ok c →
  vertexDescriptor program ≠ [] →
  is_Some (Renderer.vb_buffer (Renderer.c_vertex c)).
Proof.
  unfold Renderer.createProgram_begin. rewrite M_bind_run.
  destruct (Renderer.createGroupLayout (groups program) s)
    as [s1 [layouts | e]]; [| done].
  rewrite M_bind_run.
  destruct (Renderer.createUniformBuffer (groups program) s1)
    as [s2 [ub | e]]; [| done].
  rewrite M_bind_run.
  destruct (Renderer.createVertexBuffer (vertexDescriptor program) s2)
    as [sv [v | e]] eqn:Hv; [| done].
  rewrite M_bind_run.
  destruct (Renderer.createBindGroup (groups program) layouts ub sv)
    as [s3 [b | e]]; [| done].
  cbn. intros [= <-] Hne. cbn.
  destruct (vertexDescriptor program) as [| first rest]; [done |].
  unfold Renderer.createVertexBuffer in Hv. rewrite M_bind_run in Hv.
  unfold lift at 1 in Hv.
  destruct (loop _ 0 (first :: rest) ([], 0)) as [acc | e]; [| done].
  destruct (JS.mul _ _) as [size | |]; [| done | done].
  destruct (Renderer.elementCount first) as [len | |]; [| done | done].
  rewrite M_bind_run in Hv. unfold GPU.create at 1 in Hv. cbn [fst snd] in Hv.
  rewrite M_bind_run in Hv. unfold lift at 1 in Hv.
  destruct (Renderer.chainArrays _ _) as [data | e]; [| done].
  rewrite M_bind_run in Hv. unfold GPU.emit at 1, modify at 1 in Hv.
  cbn [fst snd] in Hv. injection Hv as _ <-. by eexists.
Qed.

Section Free.

Context (numberToString : Ty → list byte → string).

(** X7.  In the Idle state, [freeEntity] on a registered id whose shared
    executable has a uniform buffer, and a vertex buffer when this is the
    last reference, returns.  The id is then unregistered; the count of
    the shared entry is one less, and the entry is dropped exactly when
    the count has reached zero or less.  The executable of the id has
    been taken off the draw list twice: once by [removeFromScene] and
    once by [Drawer.remove].  No object is created and no other part of
    the registry changes. *)
Theorem freeEntity_unregisters (id : string) (idRef : GPUShaderRef)
  (ref u : nat) (s : State) :
  isBusy (engine s) = false →
  idExecMap (engine s) !! id = Some idRef →
  codeExecMap (engine s) !! sr_shaderId idRef = Some ref →
  let x := Heap.executable (rc_executable (Heap.refCounter ref s)) s in
  let last := (rc_count (Heap.refCounter ref s) - 1 <=? 0)%Z in
  uniformBuffer x = Some u →
  (last = true → is_Some (vertexBuffer x)) →
  let r := GPUEngine.await numberToString (freeEntity_ id) s in
  r.2 = Ok None
  ∧ idExecMap (engine r.1) = delete id (idExecMap (engine s))
  ∧ codeExecMap (engine r.1)
    = (if last then delete (sr_shaderId idRef) (codeExecMap (engine s))
       else codeExecMap (engine s))
  ∧ rc_count (Heap.refCounter ref r.1)
    = (rc_count (Heap.refCounter ref s) - 1)%Z
  ∧ entities (drawer r.1)
    = Drawer.removeFirst (sr_executable idRef)
        (Drawer.removeFirst (sr_executable idRef) (entities (drawer s)))
  ∧ isPending (engine r.1) = isPending (engine s)
  ∧ isBusy (engine r.1) = false
  ∧ executables (store r.1) = executables (store s)
  ∧ nextHandle (device r.1) = nextHandle (device s)
  ∧ objects (device r.1) = objects (device s).
Proof.
  intros Hidle Hid Hshared x last Hu Hv r. subst r.
  unfold GPUEngine.await. cbn [GPUEngine.call]. rewrite M_bind_run.
  rewrite (freeEntity_registered id idRef ref s) by done.
  fold x. fold last. rewrite Hu.
  destruct last eqn:Hlast.
  - destruct (Hv eq_refl) as [v ->]. cbn.
    unfold Heap.refCounter. cbn. rewrite lookup_total_insert_eq. cbn.
    by rewrite Hidle.
  - cbn. unfold Heap.refCounter. cbn. rewrite lookup_total_insert_eq. cbn.
    by rewrite Hidle.
Qed.

(** X8.  An entity is the first of its shader id and its descriptor has
    no bind group or no vertex attribute.  Then [freeEntity] throws a
    TypeError at a [destroy()] of a missing buffer: the id stays
    registered and the shader id stays shared, with a count of zero, and
    the executable has been taken off the draw list. *)
Theorem freeEntity_fails_without_buffers (id : string)
  (program : GPUCompilableProgram) (shaderId : string) (s s1 : State) :
  isBusy (engine s) = false →
  idExecMap (engine s) !! id = None →
  GPUEngine.shaderIdOf numberToString program = Ok shaderId →
  codeExecMap (engine s) !! shaderId = None →
  groups program = [] ∨ vertexDescriptor program = [] →
  GPUEngine.await numberToString (create_ id program) s = (s1, Ok None) →
  let r := GPUEngine.await numberToString (freeEntity_ id) s1 in
  r.2 = Throw (TypeError_undefined "destroy")
  ∧ idExecMap (engine r.1) = idExecMap (engine s1)
  ∧ is_Some (idExecMap (engine r.1) !! id)
  ∧ codeExecMap (engine r.1) = codeExecMap (engine s1)
  ∧ is_Some (codeExecMap (engine r.1) !! shaderId)
  ∧ references shaderId s1 = 1%Z
  ∧ references shaderId r.1 = 0%Z.
Proof.
  intros Hidle Hid Hsid Hfree Hmissing Hrun r. subst r.
  destruct (await_create_inv numberToString id program s s1 Hidle Hid Hrun)
    as (shaderId' & Hsid' & Hpath).
  rewrite Hsid in Hsid'. injection Hsid' as <-. rewrite Hfree in Hpath.
  destruct Hpath as [c Hc].
  rewrite (await_create_compiled numberToString id program shaderId s
             _ c Hidle Hid Hsid Hfree eq_refl Hc) in Hrun.
  injection Hrun as <-.
  destruct (createProgram_begin_none program s c Hc) as [Hnou Hnov].
  set (a := S (nextAddress (store s))).
  match goal with
  | |- context [GPUEngine.await _ _ ?st] => set (s1 := st)
  end.
  assert (isBusy (engine s1) = false) as Hidle1 by exact Hidle.
  assert (idExecMap (engine s1) !! id
          = Some {| sr_executable := a; sr_shaderId := shaderId |}) as Hid1.
  { subst s1. cbn. by rewrite lookup_insert_eq. }
  assert (codeExecMap (engine s1) !! shaderId = Some (S a)) as Hshared1.
  { subst s1. cbn. by rewrite lookup_insert_eq. }
  assert (Heap.refCounter (S a) s1
          = {| rc_executable := a; rc_count := 1 |}) as Hcount.
  { subst s1. unfold Heap.refCounter. cbn. by rewrite lookup_total_insert_eq. }
  unfold GPUEngine.await. cbn [GPUEngine.call]. rewrite M_bind_run.
  rewrite (freeEntity_registered id _ (S a) s1 Hidle1 Hid1 Hshared1).
  rewrite Hcount. cbn [rc_executable rc_count sr_executable sr_shaderId].
  assert (Heap.executable a s1
          = {| z := Some (Z.of_nat (r_z (renderer s)));
               indexType := indexWidth (Renderer.vb_size (Renderer.c_vertex c));
               vertexCount :=
                 length (indexed (indices program)
                           (Renderer.vb_size (Renderer.c_vertex c)));
               indexBuffer :=
                 nextHandle (device (Renderer.createProgram_begin program s).1);
               pipeline :=
                 3 + nextHandle
                       (device (Renderer.createProgram_begin program s).1);
               bindGroups := Renderer.bg_bindGroups (Renderer.c_bind c);
               uniforms := Renderer.bg_uniforms (Renderer.c_bind c);
               uniformBuffer := Renderer.c_uniformBuffer c;
               vertexBuffer := Renderer.vb_buffer (Renderer.c_vertex c) |})
    as ->.
  { subst s1. unfold Heap.executable. cbn. by rewrite lookup_total_insert_eq. }
  cbn [uniformBuffer vertexBuffer indexBuffer uniforms].
  assert (∀ s2,
            (s2 = released a (S a) s1
             ∨ ∃ more, s2 = emittedAll more (released a (S a) s1)) →
            idExecMap (engine s2) = idExecMap (engine s1)
            ∧ is_Some (idExecMap (engine s2) !! id)
            ∧ codeExecMap (engine s2) = codeExecMap (engine s1)
            ∧ is_Some (codeExecMap (engine s2) !! shaderId)
            ∧ references shaderId s1 = 1%Z
            ∧ references shaderId s2 = 0%Z) as Hend.
  { intros s2 Hs2.
    assert (engine s2 = engine s1
            ∧ Heap.refCounter (S a) s2
              = {| rc_executable := a; rc_count := 0 |}) as [He Hr].
    { destruct Hs2 as [-> | [more ->]]; (split; [reflexivity |]).
      - by rewrite refCounter_released, Hcount.
      - change (Heap.refCounter (S a) (emittedAll more (released a (S a) s1)))
          with (Heap.refCounter (S a) (released a (S a) s1)).
        by rewrite refCounter_released, Hcount. }
    unfold references. rewrite He, Hid1, Hshared1, Hr, Hcount.
    repeat split; eauto. }
  change (1 - 1 <=? 0)%Z with true. cbv iota.
  destruct (Renderer.c_uniformBuffer c) as [u |] eqn:Hu.
  - destruct Hmissing as [Hnil | Hnil]; [discriminate (Hnou Hnil) |].
    rewrite (Hnov Hnil). cbv beta iota. cbn [fst snd].
    split; [reflexivity |]. apply Hend. right. by eexists.
  - cbv beta iota. cbn [fst snd].
    split; [reflexivity |]. apply Hend. by left.
Qed.

(** X9.  An entity that is the first of its shader id, made from a
    descriptor with a bind group and a vertex attribute, is created and
    then freed: [freeEntity] returns, the registry of ids and the
    registry of shader ids are as they were before the creation, the
    buffers destroyed are the entity's own uniform, index and vertex
    buffers, then the textures of its table, and the same [create] call
    is accepted again and compiles anew. *)
Theorem create_then_free_restores_the_registry (id : string)
  (program : GPUCompilableProgram) (shaderId : string) (s s1 : State) :
  isBusy (engine s) = false →
  idExecMap (engine s) !! id = None →
  GPUEngine.shaderIdOf numberToString program = Ok shaderId →
  codeExecMap (engine s) !! shaderId = None →
  groups program ≠ [] →
  vertexDescriptor program ≠ [] →
  GPUEngine.await numberToString (create_ id program) s = (s1, Ok None) →
  let r := GPUEngine.await numberToString (freeEntity_ id) s1 in
  r.2 = Ok None
  ∧ idExecMap (engine r.1) = idExecMap (engine s)
  ∧ codeExecMap (engine r.1) = codeExecMap (engine s)
  ∧ (∃ e u v,
       executableOf id s1 = Some e
       ∧ uniformBuffer e = Some u ∧ vertexBuffer e = Some v
       ∧ destroyed r.1
         = destroyed s1 ++ [u; indexBuffer e; v] ++ texturesOf (uniforms e))
  ∧ ∃ promise c,
      (GPUEngine.call numberToString (create_ id program) r.1).2
      = Ok (Some (GPUEngine.Compile id shaderId promise program c)).
Proof.
  intros Hidle Hid Hsid Hfree Hgroups Hvertex Hrun r. subst r.
  destruct (await_create_inv numberToString id program s s1 Hidle Hid Hrun)
    as (shaderId' & Hsid' & Hpath).
  rewrite Hsid in Hsid'. injection Hsid' as <-. rewrite Hfree in Hpath.
  destruct Hpath as [c Hc].
  rewrite (await_create_compiled numberToString id program shaderId s
             _ c Hidle Hid Hsid Hfree eq_refl Hc) in Hrun.
  injection Hrun as <-.
  destruct (createProgram_begin_result program s c Hc) as (Hu & _).
  destruct (Hu Hgroups) as (u & Hub & _).
  destruct (createProgram_begin_some program s c Hc Hvertex) as [v Hvb].
  set (a := S (nextAddress (store s))).
  match goal with
  | |- context [GPUEngine.await _ _ ?st] => set (s1 := st)
  end.
  assert (isBusy (engine s1) = false) as Hidle1 by exact Hidle.
  assert (idExecMap (engine s1) !! id
          = Some {| sr_executable := a; sr_shaderId := shaderId |}) as Hid1.
  { subst s1. cbn. by rewrite lookup_insert_eq. }
  assert (codeExecMap (engine s1) !! shaderId = Some (S a)) as Hshared1.
  { subst s1. cbn. by rewrite lookup_insert_eq. }
  assert (Heap.refCounter (S a) s1
          = {| rc_executable := a; rc_count := 1 |}) as Hcount.
  { subst s1. unfold Heap.refCounter. cbn. by rewrite lookup_total_insert_eq. }
  assert (∃ e, Heap.executable a s1 = e
               ∧ uniformBuffer e = Some u ∧ vertexBuffer e = Some v)
    as (e & He & Hue & Hve).
  { eexists. split; [reflexivity |]. subst s1. unfold Heap.executable. cbn.
    rewrite lookup_total_insert_eq. cbn. done. }
  unfold GPUEngine.await. cbn [GPUEngine.call]. rewrite M_bind_run.
  rewrite (freeEntity_registered id _ (S a) s1 Hidle1 Hid1 Hshared1).
  rewrite Hcount. cbn [rc_executable rc_count sr_executable sr_shaderId].
  rewrite He, Hue, Hve. change (1 - 1 <=? 0)%Z with true. cbv beta iota.
  cbn [fst snd].
  split; [reflexivity |]. split; [| split; [| split]].
  - unfold unregistered, emittedAll, released. cbn.
    by rewrite delete_insert_id.
  - unfold unregistered, emittedAll, released. cbn.
    by rewrite delete_insert_id.
  - exists e, u, v. split; [| split; [done | split; [done |]]].
    + unfold executableOf. rewrite Hid1. cbn [fmap option_fmap option_map].
      by rewrite <- He.
    + unfold destroyed, unregistered, emittedAll, released. cbn.
      rewrite omap_app. f_equal. cbn. do 3 f_equal.
      induction (texturesOf (uniforms e)) as [| t l IH]; [done |].
      cbn. by rewrite IH.
  - set (s2 := unregistered _ _ _ _).
    assert (isBusy (engine s2) = false) as Hidle2 by exact Hidle.
    assert (idExecMap (engine s2) !! id = None) as Hid2.
    { subst s2. unfold unregistered. cbn. apply lookup_delete_eq. }
    assert (codeExecMap (engine s2) !! shaderId = None) as Hfree2.
    { subst s2. unfold unregistered. cbn. apply lookup_delete_eq. }
    cbn [GPUEngine.call].
    change (((mret None : M (option GPUEngine.Task)) s2).1) with s2.
    rewrite (create_compile_path numberToString id program shaderId s2
               Hidle2 Hid2 Hsid Hfree2).
    cbn [snd]. by do 2 eexists.
Qed.

End Free.

Lemma freeEntity_unregisters_witness :
  let s := after [create_ "a" shape] engine0 in
  let r := GPUEngine.await firstByte (freeEntity_ "a") s in
  r.2 = Ok None ∧ idExecMap (engine r.1) !! "a" = None.
Proof.
  intros s r.
  assert (∃ idRef, idExecMap (engine s) !! "a" = Some idRef)
    as [idRef Hid] by (eexists; vm_compute; reflexivity).
  assert (∃ ref, codeExecMap (engine s) !! sr_shaderId idRef = Some ref)
    as [ref Hshared].
  { revert Hid. vm_compute. intros [= <-]. eexists. reflexivity. }
  assert (ref = 2) as ->.
  { revert Hid Hshared. vm_compute. intros [= <-]. vm_compute. congruence. }
  destruct (freeEntity_unregisters firstByte "a" idRef 2 1 s
              ltac:(vm_compute; reflexivity) Hid Hshared
              ltac:(vm_compute; reflexivity)
              ltac:(intros _; eexists; vm_compute; reflexivity))
    as (Hok & Hgone & _).
  split; [exact Hok |]. fold r in Hgone. rewrite Hgone.
  apply lookup_delete_eq.
Defined.

Lemma freeEntity_fails_without_buffers_witness :
  let s1 := after [create_ "a" sprite] engine0 in
  (GPUEngine.await firstByte (freeEntity_ "a") s1).2
  = Throw (TypeError_undefined "destroy").
Proof.
  intros s1.
  assert (∃ shaderId, GPUEngine.shaderIdOf firstByte sprite = Ok shaderId)
    as [shaderId Hsid] by (eexists; vm_compute; reflexivity).
  apply (freeEntity_fails_without_buffers firstByte "a" sprite shaderId
           engine0 s1 ltac:(reflexivity) ltac:(reflexivity) Hsid
           ltac:(reflexivity) ltac:(by right)
           ltac:(vm_compute; reflexivity)).
Defined.

Lemma create_then_free_restores_the_registry_witness :
  let s1 := after [create_ "a" shape] engine0 in
  let r := GPUEngine.await firstByte (freeEntity_ "a") s1 in
  r.2 = Ok None
  ∧ idExecMap (engine r.1) = idExecMap (engine engine0)
  ∧ codeExecMap (engine r.1) = codeExecMap (engine engine0).
Proof.
  intros s1.
  assert (∃ shaderId, GPUEngine.shaderIdOf firstByte shape = Ok shaderId)
    as [shaderId Hsid] by (eexists; vm_compute; reflexivity).
  destruct (create_then_free_restores_the_registry firstByte "a" shape
              shaderId engine0 s1 ltac:(reflexivity) ltac:(reflexivity) Hsid
              ltac:(reflexivity) ltac:(discriminate) ltac:(discriminate)
              ltac:(vm_compute; reflexivity))
    as (Hok & Hids & Hcodes & _).
  exact (conj Hok (conj Hids Hcodes)).
Defined.

(** ** What no call changes *)

Lemma untouched_refl (s : State) : untouched s s.
Proof. unfold untouched. repeat split; reflexivity. Qed.

Lemma untouched_trans (s1 s2 s3 : State) :
  untouched s1 s2 → untouched s2 s3 → untouched s1 s3.
Proof.
  unfold untouched.
  intros (? & ? & ? & ? & ? & ? & ? & ? & ? & ? & ?)
         (? & ? & ? & ? & ? & ? & ? & ? & ? & ? & ?).
  repeat split; try congruence; try lia. by etrans.
Qed.

Lemma untouched_later (P : GPUObject → Prop) (s s' : State) :
  later P s s' → untouched s s'.
Proof.
  intros (Hst & Hr & Hdr & He & Hle & _). unfold untouched.
  rewrite Hst, Hr, Hdr, He. repeat split; try reflexivity. exact Hle.
Qed.

Lemma untouched_steady {A} (P : GPUObject → Prop) (m : M A) :
  steady P m → upholds untouched m.
Proof. intros Hm s. eapply untouched_later, Hm. Qed.

(** The steps on the fields the relation does not mention. *)
Ltac untouched_step :=
  let s := fresh "s" in
  intros s; destruct s as [[? ? ? ?] [? ? ? ?] [? ? ?] [? ? ? ? ?]
                             [? ? ? ? ? ? ?]];
  unfold untouched; cbn; repeat split; reflexivity || lia.

Lemma untouched_set_executable (a : nat) (e : GPUExecutable) :
  upholds untouched (Heap.set_executable a e).
Proof. unfold Heap.set_executable. apply upholds_modify. untouched_step. Qed.

Lemma untouched_set_refCounter (a : nat) (r : GPUExecutableRefCounter) :
  upholds untouched (Heap.set_refCounter a r).
Proof. unfold Heap.set_refCounter. apply upholds_modify. untouched_step. Qed.

Lemma untouched_set_promise (a : nat) (p : Promise) :
  upholds untouched (Heap.set_promise a p).
Proof. unfold Heap.set_promise. apply upholds_modify. untouched_step. Qed.

Lemma untouched_fresh : upholds untouched Heap.fresh.
Proof. unfold Heap.fresh. untouched_step. Qed.

Lemma untouched_defaultZ : upholds untouched Renderer.defaultZ.
Proof. unfold Renderer.defaultZ. untouched_step. Qed.

Lemma untouched_set_entities (f : State → list nat) :
  upholds untouched
    (modify (λ s, on_drawer (λ d, set_entities (f s) d) s)).
Proof. apply upholds_modify. untouched_step. Qed.

Lemma untouched_set_cameras
  (f : DrawerState → list (Z * list (Z * list byte))) :
  upholds untouched (modify (on_drawer (λ d, set_cameras (f d) d))).
Proof. apply upholds_modify. untouched_step. Qed.

Lemma untouched_set_idExecMap
  (f : EngineState → gmap string GPUShaderRef) :
  upholds untouched (modify (on_engine (λ e, set_idExecMap (f e) e))).
Proof. apply upholds_modify. untouched_step. Qed.

Lemma untouched_set_codeExecMap (f : EngineState → gmap string nat) :
  upholds untouched (modify (on_engine (λ e, set_codeExecMap (f e) e))).
Proof. apply upholds_modify. untouched_step. Qed.

Lemma untouched_set_isPending (f : EngineState → gmap string nat) :
  upholds untouched (modify (on_engine (λ e, set_isPending (f e) e))).
Proof. apply upholds_modify. untouched_step. Qed.

Ltac untouched :=
  repeat (cbv beta; lazymatch goal with
    | |- upholds untouched (mret _) => apply upholds_ret, untouched_refl
    | |- upholds untouched (throw _) => apply upholds_throw, untouched_refl
    | |- upholds untouched (lift _) => apply upholds_lift, untouched_refl
    | |- upholds untouched (gets _) => apply upholds_gets, untouched_refl
    | |- upholds untouched (GPU.emit _) =>
        apply (untouched_steady any_kind), steady_emit
    | |- upholds untouched (GPU.warn _) =>
        apply (untouched_steady any_kind), steady_warn
    | |- upholds untouched (GPU.destroy _ _) =>
        apply (untouched_steady any_kind), steady_destroy
    | |- upholds untouched (GPU.create _) =>
        apply (untouched_steady any_kind), steady_create; exact I
    | |- upholds untouched (Heap.set_executable _ _) =>
        apply untouched_set_executable
    | |- upholds untouched (Heap.set_refCounter _ _) =>
        apply untouched_set_refCounter
    | |- upholds untouched (Heap.set_promise _ _) =>
        apply untouched_set_promise
    | |- upholds untouched Heap.fresh => apply untouched_fresh
    | |- upholds untouched Renderer.defaultZ => apply untouched_defaultZ
    | |- upholds untouched (_ ≫= _) =>
        apply (upholds_bind untouched untouched_trans); [| intros ? ]
    | |- upholds untouched (forEach _ _ _ _) =>
        apply (upholds_forEach untouched untouched_refl untouched_trans);
        intros ? ? ?
    | |- upholds untouched (GPUEngine.attempt _) => apply upholds_attempt
    | |- upholds untouched (detached _) => apply upholds_detached
    | |- upholds untouched (modify (on_engine (λ e, set_idExecMap _ e))) =>
        apply untouched_set_idExecMap
    | |- upholds untouched (modify (on_engine (λ e, set_codeExecMap _ e))) =>
        apply untouched_set_codeExecMap
    | |- upholds untouched (modify (on_engine (λ e, set_isPending _ e))) =>
        apply untouched_set_isPending
    end).

Lemma untouched_new_executable (e : GPUExecutable) :
  upholds untouched (Heap.new_executable e).
Proof. unfold Heap.new_executable. untouched. Qed.

Lemma untouched_new_refCounter (r : GPUExecutableRefCounter) :
  upholds untouched (Heap.new_refCounter r).
Proof. unfold Heap.new_refCounter. untouched. Qed.

Lemma untouched_new_promise (p : Promise) :
  upholds untouched (Heap.new_promise p).
Proof. unfold Heap.new_promise. untouched. Qed.

Lemma untouched_createProgram_end (program : GPUCompilableProgram)
  (c : Renderer.Compiling) :
  upholds untouched (Renderer.createProgram_end program c).
Proof.
  unfold Renderer.createProgram_end.
  apply (upholds_bind untouched untouched_trans);
    [apply (untouched_steady any_kind), steady_createIndexBuffer | intros ib].
  untouched. apply untouched_new_executable.
Qed.

Lemma untouched_cloneProgram_end (executable : nat) (k : Renderer.Cloning) :
  upholds untouched (Renderer.cloneProgram_end executable k).
Proof.
  unfold Renderer.cloneProgram_end. untouched. apply untouched_new_executable.
Qed.

Lemma untouched_updateBinding (a g b : nat) (resource : UpdateValue) :
  upholds untouched (Renderer.updateBinding a g b resource).
Proof.
  unfold Renderer.updateBinding. untouched.
  destruct resource; untouched.
  match goal with |- context [ud_type ?d] => destruct (ud_type d) end;
    untouched.
Qed.

Lemma untouched_createGlobalBuffer (bufferId : string) (type : option Ty)
  (size : nat) :
  upholds untouched (Renderer.createGlobalBuffer bufferId type size).
Proof.
  intros s. unfold Renderer.createGlobalBuffer. rewrite gets_bind_run.
  destruct (globalBuffers (renderer s) !! bufferId) as [known |] eqn:Hknown.
  - rewrite bool_decide_eq_true_2 by (by eexists). apply untouched_refl.
  - rewrite bool_decide_eq_false_2 by (by intros [? ?]).
    unfold GPU.create, modify. rewrite M_bind_run. cbn [fst snd].
    destruct s as [[? ? ? ?] [? ? ? ?] [? ? ?] [? ? ? ? ?] [? ? ? ? ? ? ?]].
    unfold untouched. cbn in *. repeat split; try reflexivity; try lia.
    by apply insert_subseteq.
Qed.

Lemma untouched_writeGlobalBuffer (bufferId : string) (byteOffset : nat)
  (type : Ty) (values : list byte) :
  upholds untouched (Renderer.writeGlobalBuffer bufferId byteOffset type
                       values).
Proof.
  unfold Renderer.writeGlobalBuffer. untouched.
  match goal with |- context [negb ?b] => destruct (negb b) end; untouched.
Qed.

Lemma untouched_add (a : nat) : upholds untouched (Drawer.add a).
Proof. unfold Drawer.add. apply upholds_modify. untouched_step. Qed.

Lemma untouched_remove (a : nat) : upholds untouched (Drawer.remove a).
Proof. unfold Drawer.remove. apply upholds_modify. untouched_step. Qed.

Lemma untouched_sort : upholds untouched Drawer.sort.
Proof. unfold Drawer.sort. apply upholds_modify. untouched_step. Qed.

Lemma untouched_addCamera (buffer : list byte) (sceneId cameraId : Z) :
  upholds untouched (Drawer.addCamera buffer sceneId cameraId).
Proof. unfold Drawer.addCamera. apply upholds_modify. untouched_step. Qed.

Lemma untouched_updateCamera (buffer : list byte) (sceneId cameraId : Z) :
  upholds untouched (Drawer.updateCamera buffer sceneId cameraId).
Proof.
  unfold Drawer.updateCamera. untouched.
  match goal with |- context [match ?k with _ => _ end] => destruct k end;
    untouched.
  match goal with |- context [OrderedMap.get ?c ?sc] =>
    destruct (OrderedMap.get c sc) end; untouched.
  apply upholds_modify. untouched_step.
Qed.

Lemma calm_refl (s : State) : calm s s.
Proof. intros _. apply untouched_refl. Qed.

Lemma calm_trans (s1 s2 s3 : State) : calm s1 s2 → calm s2 s3 → calm s1 s3.
Proof.
  intros H12 H23 Hidle. specialize (H12 Hidle).
  eapply untouched_trans; [exact H12 |]. apply H23.
  destruct H12 as (Hbusy & _). by rewrite Hbusy.
Qed.

Lemma calm_untouched {A} (m : M A) : upholds untouched m → upholds calm m.
Proof. intros Hm s _. apply Hm. Qed.

(** The opening of every queueable method: the queue is touched only
    when the engine is busy. *)
Lemma calm_unless_busy {A} (queue run : M A) :
  upholds calm run →
  upholds calm (busy ← gets (λ s, isBusy (engine s));
                if busy : bool then queue else run).
Proof.
  intros Hrun s Hidle. rewrite gets_bind_run, Hidle. by apply Hrun.
Qed.

Lemma calm_guarded (c : Call) (id : string) (body : M unit) :
  upholds calm body → upholds calm (GPUEngine.guarded c id body).
Proof.
  intros Hbody. unfold GPUEngine.guarded. apply calm_unless_busy.
  apply (upholds_bind calm calm_trans);
    [apply upholds_gets, calm_refl | intros known].
  destruct (bool_decide (is_Some known)).
  - apply (upholds_bind calm calm_trans); [exact Hbody | intros ?].
    apply upholds_ret, calm_refl.
  - apply (upholds_bind calm calm_trans);
      [apply upholds_gets, calm_refl | intros promise].
    destruct promise; [apply upholds_ret | apply upholds_throw];
      apply calm_refl.
Qed.

Lemma untouched_executableOf (id : string) :
  upholds untouched (GPUEngine.executableOf id).
Proof.
  unfold GPUEngine.executableOf. untouched.
  match goal with |- context [match ?k with _ => _ end] => destruct k end;
    untouched.
Qed.

Lemma calm_removeFromScene (id : string) :
  upholds calm (GPUEngine.removeFromScene id).
Proof.
  apply calm_guarded, calm_untouched. unfold GPUEngine.removeFromScene_body.
  apply (upholds_bind untouched untouched_trans);
    [apply untouched_executableOf | intros a; apply untouched_remove].
Qed.

Lemma calm_addToScene (id : string) : upholds calm (GPUEngine.addToScene id).
Proof.
  apply calm_guarded, calm_untouched. unfold GPUEngine.addToScene_body.
  apply (upholds_bind untouched untouched_trans);
    [apply untouched_executableOf | intros a].
  apply (upholds_bind untouched untouched_trans);
    [apply untouched_add | intros _; apply untouched_sort].
Qed.

Lemma untouched_update_body (id : string) (g b : nat) (resource : UpdateValue)
  (z' : option Z) :
  upholds untouched (GPUEngine.update_body id g b resource z').
Proof.
  unfold GPUEngine.update_body.
  apply (upholds_bind untouched untouched_trans);
    [apply untouched_executableOf | intros a].
  untouched; [apply untouched_sort | apply untouched_updateBinding].
Qed.

Lemma calm_update (id : string) (g b : nat) (resource : UpdateValue)
  (z' : option Z) :
  upholds calm (GPUEngine.update id g b resource z').
Proof. apply calm_guarded, calm_untouched, untouched_update_body. Qed.

Lemma untouched_destroyTextures (uniforms : list (list UniformDescriptor)) :
  upholds untouched (GPUEngine.destroyTextures uniforms).
Proof.
  intros s. rewrite destroyTextures_eq. cbn [fst].
  destruct s as [[? ? ? ?] [? ? ? ?] [? ? ?] [? ? ? ? ?] [? ? ? ? ? ? ?]].
  unfold untouched. cbn. repeat split; reflexivity || lia.
Qed.

Lemma calm_freeEntity_body (id : string) :
  upholds calm (GPUEngine.freeEntity_body id).
Proof.
  unfold GPUEngine.freeEntity_body.
  apply (upholds_bind calm calm_trans);
    [apply upholds_detached, calm_removeFromScene | intros _].
  apply calm_untouched. untouched.
  match goal with |- context [match ?k with _ => _ end] => destruct k end;
    untouched.
  match goal with |- context [match ?k with _ => _ end] => destruct k end;
    untouched.
  - apply untouched_remove.
  - match goal with |- context [(?a <=? ?b)%Z] => destruct (a <=? b)%Z end;
      untouched.
    apply untouched_destroyTextures.
Qed.

Lemma calm_freeEntity (id : string) : upholds calm (GPUEngine.freeEntity id).
Proof. apply calm_guarded, calm_freeEntity_body. Qed.

Section Calls.

Context (numberToString : Ty → list byte → string).

Lemma calm_create (id : string) (program : GPUCompilableProgram) :
  upholds calm (GPUEngine.create numberToString id program).
Proof.
  unfold GPUEngine.create. apply calm_unless_busy, calm_untouched.
  untouched.
  match goal with |- context [bool_decide ?P] => destruct (bool_decide P) end;
    untouched.
  match goal with |- context [match ?k with _ => _ end] => destruct k end.
  - untouched.
    apply (untouched_steady own_kind), steady_cloneProgram_begin.
  - apply (upholds_bind untouched untouched_trans).
    { apply upholds_attempt, (untouched_steady any_kind),
        steady_createProgram_begin. }
    intros c.
    apply (upholds_bind untouched untouched_trans);
      [apply untouched_new_promise | intros promise].
    untouched.
Qed.

Lemma calm_call (c : Call) : upholds calm (GPUEngine.call numberToString c).
Proof.
  destruct c; cbn [GPUEngine.call].
  - apply calm_create.
  - apply calm_freeEntity.
  - apply calm_addToScene.
  - apply calm_removeFromScene.
  - apply calm_update.
  - apply (upholds_bind calm calm_trans);
      [| intros ?; apply upholds_ret, calm_refl].
    unfold GPUEngine.createGlobalBuffer.
    apply calm_unless_busy, calm_untouched, untouched_createGlobalBuffer.
  - apply (upholds_bind calm calm_trans);
      [| intros ?; apply upholds_ret, calm_refl].
    unfold GPUEngine.writeGlobalBuffer. cbn [negb andb].
    apply calm_unless_busy, calm_untouched, untouched_writeGlobalBuffer.
  - apply (upholds_bind calm calm_trans);
      [| intros ?; apply upholds_ret, calm_refl].
    unfold GPUEngine.createCamera.
    apply calm_unless_busy, calm_untouched.
    apply (upholds_bind untouched untouched_trans);
      [apply upholds_gets, untouched_refl | intros has].
    apply (upholds_bind untouched untouched_trans);
      [| intros _; apply untouched_addCamera].
    destruct (negb has); [| apply upholds_ret, untouched_refl].
    apply (upholds_bind untouched untouched_trans);
      [apply untouched_createGlobalBuffer
      | intros _; apply untouched_writeGlobalBuffer].
  - apply (upholds_bind calm calm_trans);
      [| intros ?; apply upholds_ret, calm_refl].
    unfold GPUEngine.updateCamera.
    apply calm_unless_busy, calm_untouched, untouched_updateCamera.
Qed.

Lemma calm_continuation (c : Call) :
  upholds calm (GPUEngine.continuation c).
Proof.
  destruct c; cbn [GPUEngine.continuation];
    try (apply upholds_ret, calm_refl).
  - apply calm_freeEntity_body.
  - apply calm_untouched. unfold GPUEngine.addToScene_body.
    apply (upholds_bind untouched untouched_trans);
      [apply untouched_executableOf | intros a].
    apply (upholds_bind untouched untouched_trans);
      [apply untouched_add | intros _; apply untouched_sort].
  - apply calm_untouched. unfold GPUEngine.removeFromScene_body.
    apply (upholds_bind untouched untouched_trans);
      [apply untouched_executableOf | intros a; apply untouched_remove].
  - apply calm_untouched, untouched_update_body.
Qed.

Lemma calm_resume (t : GPUEngine.Task) : upholds calm (GPUEngine.resume t).
Proof.
  destruct t as [id shaderId promise program c | id shaderId ref x k
                | promise c]; cbn [GPUEngine.resume].
  - apply calm_untouched.
    apply (upholds_bind untouched untouched_trans);
      [apply upholds_lift, untouched_refl | intros c'].
    apply (upholds_bind untouched untouched_trans);
      [apply untouched_createProgram_end | intros a].
    untouched. apply untouched_new_refCounter.
  - apply calm_untouched.
    apply (upholds_bind untouched untouched_trans);
      [apply upholds_lift, untouched_refl | intros k'].
    apply (upholds_bind untouched untouched_trans);
      [apply untouched_cloneProgram_end | intros a].
    untouched.
  - apply (upholds_bind calm calm_trans);
      [apply upholds_gets, calm_refl | intros p].
    destruct p.
    + apply upholds_ret, calm_refl.
    + apply (upholds_bind calm calm_trans);
        [apply calm_continuation | intros _; apply upholds_ret, calm_refl].
    + apply upholds_throw, calm_refl.
Qed.

Lemma calm_await (c : Call) : upholds calm (GPUEngine.await numberToString c).
Proof.
  unfold GPUEngine.await.
  apply (upholds_bind calm calm_trans); [apply calm_call | intros t].
  destruct t; [apply calm_resume | apply upholds_ret, calm_refl].
Qed.

(** X10.  A call made in the Idle state, whether it is followed up to its
    first [await] or to its end, and whether it returns or throws, leaves
    the engine Idle and does not touch the running flag, the queue, the
    scheduled frame callbacks, the current scene, the canvas or the target
    format; it removes and replaces no global buffer. *)
Theorem idle_calls_leave_the_loop_alone (c : Call) (s : State) :
  isBusy (engine s) = false →
  untouched s (GPUEngine.call numberToString c s).1
  ∧ untouched s (GPUEngine.await numberToString c s).1.
Proof.
  intros Hidle. split; [by apply calm_call | by apply calm_await].
Qed.

End Calls.

Lemma idle_calls_leave_the_loop_alone_witness :
  untouched engine0 (GPUEngine.call firstByte (create_ "a" shape) engine0).1
  ∧ untouched engine0
      (GPUEngine.await firstByte (create_ "a" shape) engine0).1.
Proof.
  apply (idle_calls_leave_the_loop_alone firstByte (create_ "a" shape)
           engine0).
  reflexivity.
Defined.

Section Loop.

Context (numberToString : Ty → list byte → string).

(** The loop over the queue, when a queued call throws: nothing has been
    scheduled. *)
Lemma drain_throws (queued : list Call) :
  ∀ (s : State) (e : Error),
    isBusy (engine s) = false →
    (GPUEngine.drain numberToString queued s).2 = Throw e →
    untouched s (GPUEngine.drain numberToString queued s).1.
Proof.
  induction queued as [| c queued IH]; intros s e Hidle Hthrow.
  - cbn in Hthrow. discriminate Hthrow.
  - cbn [GPUEngine.drain] in *. rewrite M_bind_run in *.
    pose proof (calm_await numberToString c s Hidle) as Hstep.
    destruct (GPUEngine.await numberToString c s) as [s1 [[t |] | err]];
      cbn [fst snd] in *.
    + discriminate Hthrow.
    + eapply untouched_trans; [exact Hstep |].
      apply (IH s1 e); [| exact Hthrow].
      destruct Hstep as (Hbusy & _). by rewrite Hbusy.
    + exact Hstep.
Qed.

(** X11.  When a call of the queue throws while the frame callback runs
    it, the callback ends there: the engine is left Idle with the running
    flag set, the queue as it was and no callback scheduled in place of
    the one that ran, and [draw()] then does nothing. *)
Theorem frame_ends_when_a_queued_call_throws (s : State) (e : Error) :
  (GPUEngine.frame numberToString s).2 = Throw e →
  let s' := (GPUEngine.frame numberToString s).1 in
  inExecution (engine s') = true
  ∧ isBusy (engine s') = false
  ∧ events (engine s') = events (engine s)
  ∧ scheduled (engine s') = pred (scheduled (engine s))
  ∧ GPUEngine.draw numberToString s' = (s', Ok None).
Proof.
  unfold GPUEngine.frame. rewrite modify_bind_run.
  set (s0 := on_engine _ s). unfold GPUEngine.tick.
  rewrite modify_bind_run. set (sB := on_engine (set_isBusy true) s0).
  rewrite M_bind_run.
  destruct (draw_submits sB) as (Hok & He & _).
  destruct (Drawer.draw GPUEngine.writeGlobalBuffer sB) as [sD o].
  cbn [fst snd] in *. subst o. rewrite gets_bind_run, He.
  destruct (inExecution (engine sB)) eqn:Hrun; cbn [negb]; [| discriminate].
  rewrite modify_bind_run, gets_bind_run.
  set (sI := on_engine (set_isBusy false) sD).
  assert (engine sI = set_isBusy false (engine sB)) as HeI
    by (subst sI; cbn; by rewrite He).
  intros Hthrow.
  pose proof (drain_throws (events (engine sI)) sI e
                ltac:(by rewrite HeI) Hthrow)
    as (Hbusy & Hexec & Hev & Hsch & _).
  cbv zeta.
  assert (inExecution
            (engine (GPUEngine.drain numberToString (events (engine sI)) sI).1)
          = true) as Hstill.
  { etrans; [exact Hexec |]. rewrite HeI. exact Hrun. }
  split; [exact Hstill |]. split; [| split; [| split]].
  - etrans; [exact Hbusy |]. by rewrite HeI.
  - etrans; [exact Hev |]. by rewrite HeI.
  - etrans; [exact Hsch |]. by rewrite HeI.
  - unfold GPUEngine.draw. rewrite gets_bind_run, Hstill. reflexivity.
Qed.

End Loop.

Lemma frame_ends_when_a_queued_call_throws_witness :
  let queued := GPUEngine.call firstByte (create_ "b" shape) stopped in
  let started := GPUEngine.draw firstByte queued.1 in
  let next := GPUEngine.frame firstByte started.1 in
  started.2 = Ok (Some GPUEngine.Rescheduled)
  ∧ next.2 = Throw (ReferenceError_inUse "b")
  ∧ GPUEngine.draw firstByte next.1 = (next.1, Ok None).
Proof.
  intros queued started next.
  assert (next.2 = Throw (ReferenceError_inUse "b")) as Hthrow
    by (vm_compute; reflexivity).
  split; [vm_compute; reflexivity |]. split; [exact Hthrow |].
  apply (frame_ends_when_a_queued_call_throws firstByte started.1
           (ReferenceError_inUse "b") Hthrow).
Defined.

(** ** Cameras *)

Lemma get_set_eq {K V} `{EqDecision K} (k : K) (v : V) (m : list (K * V)) :
  OrderedMap.get k (OrderedMap.set k v m) = Some v.
Proof.
  induction m as [| [k' v'] m IH]; simpl.
  - by rewrite decide_True.
  - destruct (decide (k' = k)) as [-> | Hne]; simpl.
    + by rewrite decide_True.
    + by rewrite decide_False.
Qed.

Lemma get_set_ne {K V} `{EqDecision K} (k k' : K) (v : V) (m : list (K * V)) :
  k ≠ k' → OrderedMap.get k' (OrderedMap.set k v m) = OrderedMap.get k' m.
Proof.
  intros Hne. induction m as [| [k0 v0] m IH]; simpl.
  - by rewrite decide_False.
  - destruct (decide (k0 = k)) as [-> | Hne0]; simpl.
    + by rewrite !decide_False.
    + destruct (decide (k0 = k')); [done | exact IH].
Qed.

(** [set] on a known key keeps the keys and their order. *)
Lemma keys_set_known {K V} `{EqDecision K} (k : K) (v : V) (m : list (K * V)) :
  is_Some (OrderedMap.get k m) → (OrderedMap.set k v m).*1 = m.*1.
Proof.
  induction m as [| [k' v'] m IH]; simpl; intros Hknown.
  - by destruct Hknown.
  - destruct (decide (k' = k)) as [-> | Hne]; simpl; [done |].
    f_equal. by apply IH.
Qed.

(** [set] on a new key appends it. *)
Lemma keys_set_new {K V} `{EqDecision K} (k : K) (v : V) (m : list (K * V)) :
  OrderedMap.get k m = None → (OrderedMap.set k v m).*1 = m.*1 ++ [k].
Proof.
  induction m as [| [k' v'] m IH]; simpl; intros Hnew; [done |].
  destruct (decide (k' = k)) as [-> | Hne]; simpl; [done |].
  f_equal. by apply IH.
Qed.

Lemma cameraOf_set (buffer : list byte) (sceneId cameraId : Z)
  (scenes : list (Z * list (Z * list byte))) (s : State) :
  cameras (drawer s)
  = OrderedMap.set sceneId
      (OrderedMap.set cameraId buffer
         (default [] (OrderedMap.get sceneId scenes))) scenes →
  cameraOf sceneId cameraId s = Some buffer.
Proof.
  intros Hset. unfold cameraOf. rewrite Hset, get_set_eq. cbn.
  apply get_set_eq.
Qed.

Section Cameras.

Context (numberToString : Ty → list byte → string).

(** X12.  [createCamera] in the Idle state.  When the camera buffer
    exists the call touches neither the device nor the renderer and
    registers the matrix for the camera.  When it does not exist the call
    creates it, a uniform buffer of 64 bytes labelled with the camera
    buffer id, and then writes the matrix to it at offset 0 and registers
    the matrix, if the matrix is a whole number of 32-bit elements; if
    not it throws a RangeError with the buffer created and no camera
    registered.  In every case the camera buffer exists afterwards. *)
Theorem createCamera_makes_the_buffer_once (sceneId cameraId : Z)
  (values : list byte) (s : State) :
  isBusy (engine s) = false →
  let r := GPUEngine.call numberToString
             (createCamera_ sceneId cameraId values) s in
  let h := nextHandle (device s) in
  is_Some (cameraBuffer r.1)
  ∧ match cameraBuffer s with
    | Some _ =>
        r.2 = Ok None
        ∧ device r.1 = device s ∧ renderer r.1 = renderer s
        ∧ cameraOf sceneId cameraId r.1 = Some values
    | None =>
        cameraBuffer r.1 = Some h
        ∧ objects (device r.1) !! h
          = Some (Buffer uniform 64 DEFAULT_CAMERA_BUFFER_ID)
        ∧ nextHandle (device r.1) = S h
        ∧ if decide (length values mod 4 = 0) then
            r.2 = Ok None
            ∧ ops (device r.1) = ops (device s) ++ [WriteBuffer (Some h) 0 values]
            ∧ cameraOf sceneId cameraId r.1 = Some values
          else
            r.2 = Throw (RangeError_typedArray f32 (length values))
            ∧ ops (device r.1) = ops (device s)
            ∧ drawer r.1 = drawer s
    end.
Proof.
  intros Hidle r h. subst r h.
  unfold GPUEngine.call, GPUEngine.createCamera, Renderer.hasDefaultCamera,
    Renderer.createGlobalBuffer, Renderer.writeGlobalBuffer, GPU.create,
    GPU.emit, Drawer.addCamera, Renderer.typedArray, cameraBuffer.
  change (BYTES_PER_ELEMENT f32) with 4.
  run_M. cbn [fst snd] in *. rewrite Hidle.
  destruct (globalBuffers (renderer s) !! DEFAULT_CAMERA_BUFFER_ID)
    as [known |] eqn:Hknown.
  - rewrite bool_decide_eq_true_2 by (by eexists). cbn [negb fst snd].
    cbn [renderer device on_drawer]. rewrite Hknown.
    split_and!;
      first [ done | by eexists
            | by apply (cameraOf_set _ _ _ (cameras (drawer s))) ].
  - rewrite bool_decide_eq_false_2 by (by intros [? ?]). cbn [negb fst snd].
    rewrite ?Hknown.
    rewrite bool_decide_eq_false_2 by (by intros [? ?]). cbn [negb fst snd].
    cbn [renderer device on_renderer on_device globalBuffers].
    rewrite lookup_insert_eq.
    rewrite bool_decide_eq_true_2 by (by eexists). cbn [negb fst snd].
    destruct (decide (length values mod 4 = 0)) as [Hwhole | Hragged].
    + rewrite Hwhole. cbn [Nat.eqb fst snd].
      cbn [renderer device on_drawer on_renderer on_device globalBuffers
           objects ops nextHandle].
      rewrite !lookup_insert_eq.
      split_and!;
        first [ done | by eexists
              | by apply (cameraOf_set _ _ _ (cameras (drawer s))) ].
    + rewrite (proj2 (Nat.eqb_neq _ _) Hragged). cbn [fst snd].
      cbn [renderer device drawer on_drawer on_renderer on_device
           globalBuffers objects ops nextHandle].
      rewrite !lookup_insert_eq.
      split_and!; first [ done | by eexists ].
Qed.

End Cameras.

Lemma createCamera_makes_the_buffer_once_witness :
  cameraBuffer
    (GPUEngine.call firstByte (createCamera_ 0 7 (replicate 64 x00))
       engine0).1
  = Some 0.
Proof.
  destruct (createCamera_makes_the_buffer_once firstByte 0 7
              (replicate 64 x00) engine0 ltac:(reflexivity))
    as (_ & Hnew).
  exact (proj1 Hnew).
Defined.

Section CameraUpdate.

Context (numberToString : Ty → list byte → string).

(** X13.  [updateCamera] in the Idle state.  For a camera registered in
    the scene the call replaces its matrix and changes nothing else: the
    cameras of the scene keep their order, every other camera keeps its
    matrix, and the device and the renderer are not touched (the camera
    buffer is written by the next frame, not by the call).  For a scene
    without cameras it throws the scene error and for another camera of a
    known scene the camera error, with the state as it was. *)
Theorem updateCamera_replaces_one_matrix (sceneId cameraId : Z)
  (values : list byte) (s : State) :
  isBusy (engine s) = false →
  let r := GPUEngine.call numberToString
             (updateCamera_ sceneId cameraId values) s in
  match OrderedMap.get sceneId (cameras (drawer s)) with
  | None => r = (s, Throw (Error_noScene sceneId))
  | Some scene =>
      match OrderedMap.get cameraId scene with
      | None => r = (s, Throw (Error_noCamera cameraId))
      | Some _ =>
          r.2 = Ok None
          ∧ cameraOf sceneId cameraId r.1 = Some values
          ∧ (∀ sceneId' cameraId',
               (sceneId', cameraId') ≠ (sceneId, cameraId) →
               cameraOf sceneId' cameraId' r.1 = cameraOf sceneId' cameraId' s)
          ∧ (∀ sceneId', cameraIds sceneId' r.1 = cameraIds sceneId' s)
          ∧ (cameras (drawer r.1)).*1 = (cameras (drawer s)).*1
          ∧ device r.1 = device s ∧ renderer r.1 = renderer s
          ∧ store r.1 = store s ∧ engine r.1 = engine s
          ∧ entities (drawer r.1) = entities (drawer s)
      end
  end.
Proof.
  intros Hidle r. subst r.
  unfold GPUEngine.call, GPUEngine.updateCamera, Drawer.updateCamera.
  run_M. cbn [fst snd]. rewrite Hidle.
  destruct (OrderedMap.get sceneId (cameras (drawer s))) as [scene |] eqn:Hscene;
    [| reflexivity].
  destruct (OrderedMap.get cameraId scene) as [old |] eqn:Hold; [| reflexivity].
  cbn [fst snd device renderer store engine drawer on_drawer set_cameras
       entities cameras].
  split_and!; try done.
  - unfold cameraOf. cbn [drawer on_drawer set_cameras cameras].
    rewrite get_set_eq. cbn. apply get_set_eq.
  - intros sceneId' cameraId' Hother. unfold cameraOf.
    cbn [drawer on_drawer set_cameras cameras].
    destruct (decide (sceneId' = sceneId)) as [-> | Hsc].
    + rewrite get_set_eq, Hscene. cbn. apply get_set_ne. congruence.
    + by rewrite get_set_ne.
  - intros sceneId'. unfold cameraIds.
    cbn [drawer on_drawer set_cameras cameras].
    destruct (decide (sceneId' = sceneId)) as [-> | Hsc].
    + rewrite get_set_eq, Hscene.
      apply keys_set_known. simpl. by rewrite Hold.
    + by rewrite get_set_ne.
  - apply keys_set_known. by rewrite Hscene.
Qed.

End CameraUpdate.

Lemma updateCamera_replaces_one_matrix_witness :
  let s := (GPUEngine.call firstByte (createCamera_ 0 7 (replicate 64 x00))
              engine0).1 in
  cameraOf 0 7
    (GPUEngine.call firstByte (updateCamera_ 0 7 (replicate 64 x01)) s).1
  = Some (replicate 64 x01).
Proof.
  intros s.
  pose proof (updateCamera_replaces_one_matrix firstByte 0 7
                (replicate 64 x01) s ltac:(reflexivity)) as H.
  cbv zeta in H.
  assert (OrderedMap.get 0%Z (cameras (drawer s))
          = Some [(7%Z, replicate 64 x00)]) as Hscene
    by (vm_compute; reflexivity).
  rewrite Hscene in H.
  assert (OrderedMap.get 7%Z [(7%Z, replicate 64 x00)]
          = Some (replicate 64 x00)) as Hcam by (vm_compute; reflexivity).
  rewrite Hcam in H.
  exact (proj1 (proj2 H)).
Defined.

(** ** The frame's operations *)

Lemma emittedAll_nil (s : State) : emittedAll [] s = s.
Proof.
  destruct s as [[nh objs os cons] st rd dr en]. unfold emittedAll, on_device.
  cbn. by rewrite app_nil_r.
Qed.

Lemma emittedAll_app (a b : list DeviceOp) (s : State) :
  emittedAll b (emittedAll a s) = emittedAll (a ++ b) s.
Proof.
  unfold emittedAll, on_device. cbn. by rewrite app_assoc.
Qed.

Lemma writeGlobalBuffer_priority_run (cam : list byte) (s : State) :
  (GPUEngine.writeGlobalBuffer DEFAULT_CAMERA_BUFFER_ID 0 f32 cam true s).1
  = emittedAll (cameraWrites s [cam]) s.
Proof.
  unfold GPUEngine.writeGlobalBuffer, Renderer.writeGlobalBuffer,
    Renderer.typedArray, GPU.emit, cameraWrites, cameraBuffer.
  change (BYTES_PER_ELEMENT f32) with 4.
  run_M. cbn [negb andb fst snd].
  destruct (globalBuffers (renderer s) !! DEFAULT_CAMERA_BUFFER_ID)
    as [h |] eqn:Hh.
  - rewrite bool_decide_eq_true_2 by (by eexists). cbn [negb fst snd].
    destruct (decide (length cam mod 4 = 0)) as [Hwhole | Hragged].
    + rewrite filter_cons_True by done. rewrite Hwhole. reflexivity.
    + rewrite filter_cons_False by done.
      rewrite (proj2 (Nat.eqb_neq _ _) Hragged). cbn.
      by rewrite emittedAll_nil.
  - rewrite bool_decide_eq_false_2 by (by intros [? ?]). cbn.
    by rewrite emittedAll_nil.
Qed.

Lemma cameraWrites_emittedAll (more : list DeviceOp)
  (cams : list (list byte)) (s : State) :
  cameraWrites (emittedAll more s) cams = cameraWrites s cams.
Proof. reflexivity. Qed.

Lemma cameraWrites_cons (cam : list byte) (cams : list (list byte))
  (s : State) :
  cameraWrites s (cam :: cams) = cameraWrites s [cam] ++ cameraWrites s cams.
Proof.
  unfold cameraWrites. destruct (cameraBuffer s); [| done].
  destruct (decide (length cam mod 4 = 0)).
  - by rewrite !filter_cons_True by done.
  - by rewrite !filter_cons_False by done.
Qed.

Lemma cameras_loop_run (cams : list (list byte)) :
  ∀ i pass s,
    forEach (λ _ camera pass,
               _ ← detached (GPUEngine.writeGlobalBuffer
                               DEFAULT_CAMERA_BUFFER_ID 0 f32 camera true);
               recorded ← gets Drawer.draw_list;
               mret (pass ++ recorded))
            i cams pass s
    = (emittedAll (cameraWrites s cams) s,
       Ok (pass ++ concat (replicate (length cams) (Drawer.draw_list s)))).
Proof.
  induction cams as [| cam cams IH]; intros i pass s.
  - cbn [forEach length replicate concat]. rewrite app_nil_r.
    unfold cameraWrites. destruct (cameraBuffer s); cbn;
      by rewrite emittedAll_nil.
  - cbn [forEach]. rewrite M_bind_run.
    assert ((detached (GPUEngine.writeGlobalBuffer DEFAULT_CAMERA_BUFFER_ID 0
                         f32 cam true)
             ≫= λ _, gets Drawer.draw_list
             ≫= λ recorded, mret (pass ++ recorded)) s
            = (emittedAll (cameraWrites s [cam]) s,
               Ok (pass ++ Drawer.draw_list s))) as ->.
    { unfold detached. run_M. cbn [fst snd].
      rewrite writeGlobalBuffer_priority_run. reflexivity. }
    rewrite IH. rewrite cameraWrites_emittedAll, emittedAll_app.
    rewrite <- cameraWrites_cons.
    change (Drawer.draw_list (emittedAll (cameraWrites s [cam]) s))
      with (Drawer.draw_list s).
    cbn [length replicate concat]. by rewrite <- app_assoc.
Qed.

(** The depth texture the getter returns and the state it leaves. *)
Lemma depthTexture_get_run (s : State) :
  ops (device (Drawer.depthTexture_get s).1) = ops (device s) ++ renewal s
  ∧ store (Drawer.depthTexture_get s).1 = store s
  ∧ renderer (Drawer.depthTexture_get s).1 = renderer s
  ∧ engine (Drawer.depthTexture_get s).1 = engine s
  ∧ entities (drawer (Drawer.depthTexture_get s).1) = entities (drawer s)
  ∧ cameras (drawer (Drawer.depthTexture_get s).1) = cameras (drawer s)
  ∧ sceneId (drawer (Drawer.depthTexture_get s).1) = sceneId (drawer s)
  ∧ canvas (drawer (Drawer.depthTexture_get s).1) = canvas (drawer s)
  ∧ ∃ t, (Drawer.depthTexture_get s).2 = Ok t
         ∧ depthTexture (drawer (Drawer.depthTexture_get s).1)
           = Some (t, canvas (drawer s)).
Proof.
  unfold Drawer.depthTexture_get, renewal, GPU.emit, GPU.create. run_M.
  destruct (depthTexture (drawer s)) as [[t size] |] eqn:Hdepth.
  - destruct (bool_decide (size = canvas (drawer s))) eqn:Hsize.
    + apply bool_decide_eq_true_1 in Hsize. subst size. cbn.
      rewrite app_nil_r. split_and!; try done. by exists t.
    + cbn. split_and!; try done. by eexists.
  - cbn. rewrite app_nil_r. split_and!; try done. by eexists.
Qed.

(** X14.  What one frame does on the device, in order: the depth texture
    the drawer has is destroyed if the canvas has another size; then the
    matrix of every camera of the current scene is written to the camera
    buffer at offset 0, skipping the matrices that are not a whole number
    of 32-bit elements and all of them when there is no camera buffer;
    then one pass is submitted that holds the walk over the draw list
    once for each camera, once when there is none.  So every write of a
    camera matrix comes before the only submit of the frame. *)
Theorem draw_writes_the_cameras_before_the_pass (s : State) :
  let r := Drawer.draw GPUEngine.writeGlobalBuffer s in
  r.2 = Ok tt
  ∧ ops (device r.1)
    = ops (device s) ++ renewal s ++ cameraWrites s (activeCameras s)
      ++ [Submit (concat (replicate (Nat.max 1 (length (activeCameras s)))
                            (Drawer.draw_list s)))].
Proof.
  intros r. subst r. unfold Drawer.draw. rewrite M_bind_run.
  destruct (depthTexture_get_run s)
    as (Hops & Hst & Hr & He & Hen & Hcam & Hsc & _ & t & Ht & _).
  destruct (Drawer.depthTexture_get s) as [s1 o]. cbn [fst snd] in *. subst o.
  rewrite gets_bind_run. rewrite Hsc, Hcam. fold (activeCameras s).
  assert (Drawer.draw_list s1 = Drawer.draw_list s) as Hlist
    by (by apply draw_list_same).
  assert (cameraWrites s1 (activeCameras s) = cameraWrites s (activeCameras s))
    as Hwrites by (unfold cameraWrites, cameraBuffer; by rewrite Hr).
  destruct (activeCameras s) as [| cam cams] eqn:Hactive.
  - cbn [length Nat.leb]. rewrite gets_bind_run, Hlist.
    unfold GPU.emit, modify. cbn [fst snd on_device device ops].
    split; [done |]. rewrite Hops.
    assert (cameraWrites s [] = []) as ->
      by (unfold cameraWrites; by destruct (cameraBuffer s)).
    cbn [app Nat.max length replicate concat]. rewrite app_nil_r.
    by rewrite <- !app_assoc.
  - cbn [length Nat.leb]. rewrite M_bind_run, cameras_loop_run.
    cbn [fst snd]. unfold GPU.emit, modify.
    cbn [fst snd on_device device ops emittedAll].
    split; [done |]. rewrite Hops, Hwrites, Hlist.
    cbn [app Nat.max length]. by rewrite <- !app_assoc.
Qed.

Lemma depthTexture_get_kept (t : nat) (s : State) :
  depthTexture (drawer s) = Some (t, canvas (drawer s)) →
  Drawer.depthTexture_get s = (s, Ok t).
Proof.
  intros Hdepth. unfold Drawer.depthTexture_get. run_M. rewrite Hdepth.
  by rewrite bool_decide_eq_true_2.
Qed.

Lemma draw_run (s : State) :
  ∃ more, (Drawer.draw GPUEngine.writeGlobalBuffer s).1
          = emittedAll more (Drawer.depthTexture_get s).1.
Proof.
  unfold Drawer.draw. rewrite M_bind_run.
  destruct (depthTexture_get_run s) as (_ & _ & _ & _ & _ & _ & _ & _ & t & Ht & _).
  destruct (Drawer.depthTexture_get s) as [s1 o]. cbn [fst snd] in *. subst o.
  rewrite gets_bind_run.
  destruct (length _ <=? 0).
  - rewrite gets_bind_run. eexists. reflexivity.
  - rewrite M_bind_run, cameras_loop_run. cbn [fst snd].
    unfold GPU.emit, modify. cbn [fst]. eexists.
    fold (emittedAll [Submit
      ([] ++ concat (replicate
         (length (OrderedMap.values
                    (default [] (OrderedMap.get (sceneId (drawer s1))
                                   (cameras (drawer s1))))))
         (Drawer.draw_list s1)))]
      (emittedAll (cameraWrites s1
         (OrderedMap.values
            (default [] (OrderedMap.get (sceneId (drawer s1))
                           (cameras (drawer s1)))))) s1)).
    apply emittedAll_app.
Qed.

(** X15.  The depth texture is made by the first frame and kept: after
    any frame the drawer holds a depth texture of the canvas size, and a
    frame drawn next, with the canvas as it was, creates no texture and
    no buffer, destroys none and leaves the drawer as it is. *)
Theorem next_frame_keeps_the_depth_texture (s : State) :
  let s1 := (Drawer.draw GPUEngine.writeGlobalBuffer s).1 in
  let s2 := (Drawer.draw GPUEngine.writeGlobalBuffer s1).1 in
  (∃ t, depthTexture (drawer s1) = Some (t, canvas (drawer s1)))
  ∧ canvas (drawer s1) = canvas (drawer s)
  ∧ renewal s1 = []
  ∧ nextHandle (device s2) = nextHandle (device s1)
  ∧ objects (device s2) = objects (device s1)
  ∧ drawer s2 = drawer s1.
Proof.
  intros s1 s2.
  destruct (draw_run s) as [more Hs1].
  destruct (depthTexture_get_run s)
    as (_ & _ & _ & _ & _ & _ & _ & Hcanvas & t & _ & Hdepth).
  assert (canvas (drawer s1) = canvas (drawer s)) as Hcanvas1.
  { subst s1. rewrite Hs1. exact Hcanvas. }
  assert (depthTexture (drawer s1) = Some (t, canvas (drawer s1))) as Hdepth1.
  { rewrite Hcanvas1. subst s1. rewrite Hs1. exact Hdepth. }
  destruct (draw_run s1) as [more' Hs2]. fold s2 in Hs2.
  rewrite (depthTexture_get_kept t s1 Hdepth1) in Hs2. cbn [fst] in Hs2.
  split_and!.
  - by exists t.
  - exact Hcanvas1.
  - unfold renewal. rewrite Hdepth1. by rewrite bool_decide_eq_true_2.
  - by rewrite Hs2.
  - by rewrite Hs2.
  - by rewrite Hs2.
Qed.

(** ** The order of the draw list *)

(** Sorting leaves an ordered list as it is: entries of the same z keep
    their places. *)
Lemma insert_first (s : State) (x : nat) (l : list nat) :
  Forall (zLe s x) l → Drawer.insert (Drawer.notAfter s) x l = x :: l.
Proof.
  destruct l as [| y l]; [done |]. intros [Hxy _]%Forall_cons.
  cbn [Drawer.insert]. unfold zLe in Hxy. unfold Drawer.notAfter.
  destruct (z (Heap.executable x s)) as [zx |],
    (z (Heap.executable y s)) as [zy |]; try done.
  by rewrite (proj2 (Z.leb_le _ _) Hxy).
Qed.

Lemma sorted_fixed (s : State) (l : list nat) :
  ordered (zLe s) l → Drawer.sorted (Drawer.notAfter s) l = l.
Proof.
  induction l as [| x l IH]; [done |]. intros [Hx Hord].
  cbn [Drawer.sorted foldr]. fold (Drawer.sorted (Drawer.notAfter s) l).
  rewrite IH by done. by apply insert_first.
Qed.

Lemma removeFirst_ordered (le : nat → nat → Prop) (a : nat) (l : list nat) :
  ordered le l → ordered le (Drawer.removeFirst a l).
Proof.
  induction l as [| x l IH]; [done |]. intros [Hx Hord].
  cbn [Drawer.removeFirst]. destruct (decide (x = a)); [done |].
  split; [| by apply IH].
  clear IH Hord. induction l as [| y l IH]; [done |].
  apply Forall_cons in Hx as [Hy Hx]. cbn [Drawer.removeFirst].
  destruct (decide (y = a)); [done |]. apply Forall_cons. split; [done |].
  by apply IH.
Qed.

Lemma removeFirst_absent (a : nat) (l : list nat) :
  a ∉ l → Drawer.removeFirst a l = l.
Proof.
  induction l as [| x l IH]; [done |].
  intros [Hne Hnotin]%not_elem_of_cons. cbn [Drawer.removeFirst].
  rewrite decide_False by done. by rewrite IH.
Qed.

Section Order.

Context (numberToString : Ty → list byte → string).

(** X16.  [addToScene] in the Idle state, for a registered id, when the
    executable of the id and every entry of the draw list has a z: the
    call puts the executable on the draw list and leaves the list in the
    order of z, smallest first; the list holds what it held and the
    executable once more, and nothing but the draw list changes. *)
Theorem addToScene_orders_the_draw_list (id : string) (ref : GPUShaderRef)
  (s : State) :
  isBusy (engine s) = false →
  idExecMap (engine s) !! id = Some ref →
  haveZ s (entities (drawer s) ++ [sr_executable ref]) →
  let r := GPUEngine.call numberToString (addToScene_ id) s in
  r.2 = Ok None
  ∧ ordered (zLe r.1) (entities (drawer r.1))
  ∧ entities (drawer r.1) ≡ₚ entities (drawer s) ++ [sr_executable ref]
  ∧ store r.1 = store s ∧ device r.1 = device s ∧ engine r.1 = engine s
  ∧ renderer r.1 = renderer s ∧ cameras (drawer r.1) = cameras (drawer s).
Proof.
  intros Hidle Hid Hz r. subst r. cbn [GPUEngine.call].
  rewrite (addToScene_registered id ref s Hidle Hid). cbn [fst snd].
  split_and!; try done.
  - cbn [drawer on_drawer set_entities entities].
    by apply (sorted_ordered s).
  - cbn [drawer on_drawer set_entities entities]. apply sorted_Permutation.
Qed.

(** X17.  [removeFromScene] in the Idle state, for a registered id: the
    call takes the first entry of the draw list that is the executable of
    the id off the list and keeps the other entries in their order, so a
    list in the order of z stays in that order; when the executable is
    not on the list the call changes nothing and returns without an
    error. *)
Theorem removeFromScene_keeps_the_order (id : string) (ref : GPUShaderRef)
  (s : State) :
  isBusy (engine s) = false →
  idExecMap (engine s) !! id = Some ref →
  let a := sr_executable ref in
  let r := GPUEngine.call numberToString (removeFromScene_ id) s in
  r.2 = Ok None
  ∧ (∀ before after, entities (drawer s) = before ++ a :: after →
       a ∉ before → entities (drawer r.1) = before ++ after)
  ∧ (a ∉ entities (drawer s) → r.1 = s)
  ∧ (ordered (zLe s) (entities (drawer s)) →
     ordered (zLe r.1) (entities (drawer r.1)))
  ∧ store r.1 = store s ∧ device r.1 = device s ∧ engine r.1 = engine s.
Proof.
  intros Hidle Hid a r. subst a r. cbn [GPUEngine.call].
  rewrite (removeFromScene_registered id ref s Hidle Hid). cbn [fst snd].
  cbn [drawer on_drawer set_entities entities].
  split_and!; try done.
  - intros before after -> Hnotin. by apply removeFirst_first.
  - intros Hnotin. destruct s as [dv st rd [cams ents sc cv dt] en].
    unfold on_drawer, set_entities. cbn in *.
    by rewrite removeFirst_absent.
  - apply (removeFirst_ordered (zLe s)).
Qed.

End Order.

Lemma addToScene_orders_the_draw_list_witness :
  let s := after [create_ "a" shape; create_ "b" shape; addToScene_ "b"]
             engine0 in
  let r := GPUEngine.call firstByte (addToScene_ "a") s in
  r.2 = Ok None ∧ ordered (zLe r.1) (entities (drawer r.1)).
Proof.
  intros s r.
  assert (∃ ref, idExecMap (engine s) !! "a" = Some ref ∧ sr_executable ref = 1)
    as (ref & Href & Hexec) by (eexists; vm_compute; split; reflexivity).
  assert (haveZ s (entities (drawer s) ++ [sr_executable ref])) as Hz.
  { rewrite Hexec.
    assert (entities (drawer s) = [3]) as -> by (vm_compute; reflexivity).
    repeat apply Forall_cons_2; [| | apply Forall_nil_2];
      eexists; vm_compute; reflexivity. }
  destruct (addToScene_orders_the_draw_list firstByte "a" ref s
              ltac:(vm_compute; reflexivity) Href Hz) as (Hok & Hord & _).
  split; [exact Hok | exact Hord].
Defined.

Lemma removeFromScene_keeps_the_order_witness :
  let s := after [create_ "a" shape; create_ "b" shape; addToScene_ "b";
                  addToScene_ "a"] engine0 in
  let r := GPUEngine.call firstByte (removeFromScene_ "a") s in
  r.2 = Ok None ∧ entities (drawer r.1) = [3].
Proof.
  intros s r.
  assert (∃ ref, idExecMap (engine s) !! "a" = Some ref ∧ sr_executable ref = 1)
    as (ref & Href & Hexec) by (eexists; vm_compute; split; reflexivity).
  destruct (removeFromScene_keeps_the_order firstByte "a" ref s
              ltac:(vm_compute; reflexivity) Href) as (Hok & Hfirst & _).
  split; [exact Hok |].
  apply (Hfirst [] [3]).
  - rewrite Hexec. vm_compute. reflexivity.
  - apply not_elem_of_nil.
Defined.

(** ** Global buffers *)

Section Globals.

Context (numberToString : Ty → list byte → string).

(** X18.  Global buffers in the Idle state.  [createGlobalBuffer] refuses
    an id that has a buffer with a ReferenceError and changes nothing;
    for a new id it creates one uniform buffer, labelled with the id, of
    [size] elements of the type or of [size] bytes when the type is null,
    and records it under the id.  A [writeGlobalBuffer] to that id then
    writes the values to that buffer at the byte offset it is given, for
    any offset and any number of values: neither is compared with the
    size of the buffer.  The write is refused, with a RangeError and no
    change, only when the values are not a whole number of elements of
    the type of the write, which need not be the type of the buffer. *)
Theorem createGlobalBuffer_then_write (bufferId : string) (type : option Ty)
  (size : nat) (s : State) :
  isBusy (engine s) = false →
  let r := GPUEngine.call numberToString
             (createGlobalBuffer_ bufferId type size) s in
  let h := nextHandle (device s) in
  let bytes := match type with
               | Some type => size * BYTES_PER_ELEMENT type
               | None => size
               end in
  match globalBuffers (renderer s) !! bufferId with
  | Some _ => r = (s, Throw (ReferenceError_globalExists bufferId))
  | None =>
      r.2 = Ok None
      ∧ globalBuffers (renderer r.1) = <[bufferId := h]> (globalBuffers (renderer s))
      ∧ objects (device r.1)
        = <[h := Buffer uniform (JS.ofNat bytes) bufferId]> (objects (device s))
      ∧ nextHandle (device r.1) = S h
      ∧ ops (device r.1) = ops (device s)
      ∧ store r.1 = store s ∧ drawer r.1 = drawer s ∧ engine r.1 = engine s
      ∧ ∀ (byteOffset : nat) (type' : Ty) (values : list byte),
          GPUEngine.call numberToString
            (writeGlobalBuffer_ bufferId byteOffset type' values) r.1
          = if decide (length values mod BYTES_PER_ELEMENT type' = 0) then
              (emitted (WriteBuffer (Some h) byteOffset values) r.1, Ok None)
            else (r.1, Throw (RangeError_typedArray type' (length values)))
  end.
Proof.
  intros Hidle r h bytes. subst r h bytes.
  destruct (globalBuffers (renderer s) !! bufferId) as [known |] eqn:Hknown.
  - unfold GPUEngine.call, GPUEngine.createGlobalBuffer,
      Renderer.createGlobalBuffer. run_M. cbn [fst snd].
    rewrite Hidle, Hknown. by rewrite bool_decide_eq_true_2 by (by eexists).
  - assert (GPUEngine.call numberToString
              (createGlobalBuffer_ bufferId type size) s
            = (on_renderer (λ r,
                 {| globalBuffers := <[bufferId := nextHandle (device s)]>
                                       (globalBuffers r);
                    r_z := r_z r; r_format := r_format r |})
                 (on_device (λ d,
                    {| nextHandle := S (nextHandle (device s));
                       objects :=
                         <[nextHandle (device s) :=
                             Buffer uniform
                               (JS.ofNat match type with
                                         | Some type =>
                                             size * BYTES_PER_ELEMENT type
                                         | None => size
                                         end) bufferId]> (objects d);
                       ops := ops d; console := console d |}) s),
               Ok None)) as ->.
    { unfold GPUEngine.call, GPUEngine.createGlobalBuffer,
        Renderer.createGlobalBuffer, GPU.create. run_M. cbn [fst snd].
      rewrite Hidle, Hknown.
      by rewrite bool_decide_eq_false_2 by (by intros [? ?]). }
    cbn [fst snd renderer device store drawer engine on_renderer on_device
         globalBuffers objects nextHandle ops].
    split_and!; try done.
    intros byteOffset type' values.
    unfold GPUEngine.call, GPUEngine.writeGlobalBuffer,
      Renderer.writeGlobalBuffer, Renderer.typedArray, GPU.emit, emitted.
    run_M. cbn [fst snd negb andb renderer engine on_renderer on_device
                globalBuffers].
    rewrite Hidle. cbv beta iota.
    cbn [renderer on_renderer on_device globalBuffers].
    rewrite !lookup_insert_eq.
    rewrite bool_decide_eq_true_2 by (by eexists). cbn [negb].
    destruct (decide (length values mod BYTES_PER_ELEMENT type' = 0))
      as [Hwhole | Hragged].
    + by rewrite Hwhole.
    + by rewrite (proj2 (Nat.eqb_neq _ _) Hragged).
Qed.

(** X19.  [writeGlobalBuffer] in the Idle state to an id that has no
    global buffer throws a ReferenceError and changes nothing, whatever
    the values are. *)
Theorem writeGlobalBuffer_needs_the_buffer (bufferId : string)
  (byteOffset : nat) (type : Ty) (values : list byte) (s : State) :
  isBusy (engine s) = false →
  globalBuffers (renderer s) !! bufferId = None →
  GPUEngine.call numberToString
    (writeGlobalBuffer_ bufferId byteOffset type values) s
  = (s, Throw (ReferenceError_globalMissing bufferId)).
Proof.
  intros Hidle Hmissing.
  unfold GPUEngine.call, GPUEngine.writeGlobalBuffer,
    Renderer.writeGlobalBuffer.
  run_M. cbn [fst snd]. rewrite Hidle. cbv beta iota. cbn [negb andb].
  rewrite Hmissing.
  by rewrite bool_decide_eq_false_2 by (by intros [? ?]).
Qed.

End Globals.

Lemma createGlobalBuffer_then_write_witness :
  let r := GPUEngine.call firstByte (createGlobalBuffer_ "light" (Some f32) 4)
             engine0 in
  r.2 = Ok None
  ∧ objects (device r.1)
    = <[0 := Buffer uniform (JS.ofNat (4 * 4)) "light"]> (objects (device engine0)).
Proof.
  pose proof (createGlobalBuffer_then_write firstByte "light" (Some f32) 4
                engine0 ltac:(reflexivity)) as H.
  cbv zeta in H.
  assert (globalBuffers (renderer engine0) !! "light" = None) as Hnew
    by (vm_compute; reflexivity).
  rewrite Hnew in H.
  split; [exact (proj1 H) | exact (proj1 (proj2 (proj2 H)))].
Defined.

Lemma writeGlobalBuffer_needs_the_buffer_witness :
  GPUEngine.call firstByte (writeGlobalBuffer_ "light" 0 f32 []) engine0
  = (engine0, Throw (ReferenceError_globalMissing "light")).
Proof.
  apply writeGlobalBuffer_needs_the_buffer; vm_compute; reflexivity.
Defined.

(** ** What a clone takes from its descriptor *)

Section Indices.

Context (numberToString : Ty → list byte → string).

(** X20.  [create] for a free id in the Idle state, when the shader id of
    the descriptor is in use: of the descriptor it reads the shader id
    and the groups only.  A descriptor with the same shader id and the
    same groups gives the same state and the same result, whatever its
    indices are; and when the call returns, the executable of the id has
    the index buffer, the index type and the vertex count of the
    executable that is shared, so it is drawn with the indices of the
    descriptor that was compiled. *)
Theorem create_shared_ignores_the_indices (id : string)
  (program program' : GPUCompilableProgram) (shaderId : string) (ref : nat)
  (s : State) :
  isBusy (engine s) = false →
  idExecMap (engine s) !! id = None →
  GPUEngine.shaderIdOf numberToString program = Ok shaderId →
  GPUEngine.shaderIdOf numberToString program' = Ok shaderId →
  groups program' = groups program →
  codeExecMap (engine s) !! shaderId = Some ref →
  let r := GPUEngine.await numberToString (create_ id program) s in
  let x := Heap.executable (rc_executable (Heap.refCounter ref s)) s in
  GPUEngine.await numberToString (create_ id program') s = r
  ∧ (r.2 = Ok None →
     ∃ e, executableOf id r.1 = Some e
          ∧ indexBuffer e = indexBuffer x
          ∧ indexType e = indexType x
          ∧ vertexCount e = vertexCount x).
Proof.
  intros Hidle Hid Hsid Hsid' Hgroups Href r x. subst r x. split.
  - unfold GPUEngine.await. cbn [GPUEngine.call]. rewrite !M_bind_run.
    rewrite (create_clone_path numberToString id program shaderId ref s)
      by done.
    rewrite (create_clone_path numberToString id program' shaderId ref s)
      by done.
    unfold Renderer.cloneProgram_begin. by rewrite Hgroups.
  - intros Hok.
    destruct (GPUEngine.await numberToString (create_ id program) s)
      as [s' o] eqn:Hrun. cbn [fst snd] in *. subst o.
    destruct (await_create_inv numberToString id program s s' Hidle Hid Hrun)
      as (shaderId' & Hsid'' & Hbegin).
    assert (shaderId' = shaderId) as -> by congruence.
    rewrite Href in Hbegin. destruct Hbegin as [k Hk].
    rewrite (await_create_cloned numberToString id program shaderId ref s _ k
               Hidle Hid Hsid Href eq_refl Hk) in Hrun.
    injection Hrun as <-.
    unfold executableOf, Heap.executable.
    cbn [engine store executables idExecMap set_idExecMap].
    rewrite lookup_insert_eq. cbn [fmap option_fmap option_map sr_executable].
    rewrite lookup_total_insert_eq. eexists. split; [reflexivity |].
    by cbn [indexBuffer indexType vertexCount].
Qed.

End Indices.

Lemma create_shared_ignores_the_indices_witness :
  let s := after [create_ "a" shape] engine0 in
  GPUEngine.await firstByte (create_ "b" triangle) s
  = GPUEngine.await firstByte (create_ "b" shape) s.
Proof.
  intros s.
  assert (∃ shaderId ref,
            GPUEngine.shaderIdOf firstByte shape = Ok shaderId
            ∧ GPUEngine.shaderIdOf firstByte triangle = Ok shaderId
            ∧ codeExecMap (engine s) !! shaderId = Some ref)
    as (shaderId & ref & Hsid & Hsid' & Href).
  { eexists _, _. split_and!; vm_compute; reflexivity. }
  exact (proj1 (create_shared_ignores_the_indices firstByte "b" shape triangle
                  shaderId ref s ltac:(vm_compute; reflexivity)
                  ltac:(vm_compute; reflexivity) Hsid Hsid' eq_refl Href)).
Defined.

(** ** The z of a new executable *)

Section Numbering.

Context (numberToString : Ty → list byte → string).

(** X21.  An awaited [create] for a free id in the Idle state that
    returns registers the id with an executable whose z is the counter of
    the renderer, and leaves the counter one higher; this holds on the
    path that compiles and on the path that clones.  Executables so get
    their z in the order of their creation, and each has one. *)
Theorem create_numbers_the_executables (id : string)
  (program : GPUCompilableProgram) (s s' : State) :
  isBusy (engine s) = false →
  idExecMap (engine s) !! id = None →
  GPUEngine.await numberToString (create_ id program) s = (s', Ok None) →
  (∃ e, executableOf id s' = Some e
        ∧ z e = Some (Z.of_nat (r_z (renderer s))))
  ∧ r_z (renderer s') = S (r_z (renderer s))
  ∧ globalBuffers (renderer s') = globalBuffers (renderer s)
  ∧ (∀ id', id' ≠ id → idExecMap (engine s') !! id' = idExecMap (engine s) !! id')
  ∧ drawer s' = drawer s.
Proof.
  intros Hidle Hid Hrun.
  destruct (await_create_inv numberToString id program s s' Hidle Hid Hrun)
    as (shaderId & Hsid & Hbegin).
  destruct (codeExecMap (engine s) !! shaderId) as [ref |] eqn:Hshared.
  - destruct Hbegin as [k Hk].
    rewrite (await_create_cloned numberToString id program shaderId ref s _ k
               Hidle Hid Hsid Hshared eq_refl Hk) in Hrun.
    injection Hrun as <-.
    unfold executableOf, Heap.executable.
    cbn [engine store renderer drawer executables idExecMap set_idExecMap
         nextZ r_z globalBuffers].
    rewrite lookup_insert_eq. cbn [fmap option_fmap option_map sr_executable].
    rewrite lookup_total_insert_eq. split_and!; try done.
    + by eexists.
    + intros id' Hne. by rewrite lookup_insert_ne.
  - destruct Hbegin as [c Hc].
    rewrite (await_create_compiled numberToString id program shaderId s _ c
               Hidle Hid Hsid Hshared eq_refl Hc) in Hrun.
    injection Hrun as <-.
    unfold executableOf, Heap.executable.
    cbn [engine store renderer drawer executables idExecMap set_idExecMap
         nextZ r_z globalBuffers].
    rewrite lookup_insert_eq. cbn [fmap option_fmap option_map sr_executable].
    rewrite lookup_total_insert_eq. split_and!; try done.
    + by eexists.
    + intros id' Hne. by rewrite lookup_insert_ne.
Qed.

End Numbering.

Lemma create_numbers_the_executables_witness :
  ∃ s', GPUEngine.await firstByte (create_ "b" triangle)
          (after [create_ "a" shape] engine0) = (s', Ok None)
        ∧ r_z (renderer s') = S (r_z (renderer (after [create_ "a" shape] engine0))).
Proof.
  eexists. split; [vm_compute; reflexivity |].
  refine (proj1 (proj2 (create_numbers_the_executables firstByte "b" triangle
                          (after [create_ "a" shape] engine0) _
                          ltac:(vm_compute; reflexivity)
                          ltac:(vm_compute; reflexivity) _))).
  vm_compute; reflexivity.
Defined.

(** ** The attribute part of the shader id *)

Section Attributes.

Context (numberToString : Ty → list byte → string).

Lemma setAt_filled (i : nat) (v : string) (map : list (option string)) :
  omap id (GPUEngine.setAt i v map) ≠ [].
Proof.
  assert (Some v ∈ GPUEngine.setAt i v map) as Hin.
  { unfold GPUEngine.setAt. destruct (i <? length map) eqn:Hlt.
    - apply Nat.ltb_lt in Hlt. apply list_elem_of_lookup. exists i.
      by apply list_lookup_insert_eq.
    - rewrite !elem_of_app. right. right. apply list_elem_of_here. }
  intros Hnil.
  assert (v ∈ omap id (GPUEngine.setAt i v map)) as Hv
    by (apply list_elem_of_omap; by exists (Some v)).
  rewrite Hnil in Hv. by apply elem_of_nil in Hv.
Qed.

Lemma attribTable_filled (attrib : list VertexTransferable)
  (map : list (option string)) :
  omap id map ≠ [] ∨ attrib ≠ [] →
  omap id (attribTable numberToString attrib map) ≠ [].
Proof.
  revert map. induction attrib as [| buff attrib IH]; intros map Hfilled.
  - by destruct Hfilled.
  - cbn [attribTable foldl]. apply (IH _). left. apply setAt_filled.
Qed.

Lemma attribToString_loop (attrib : list VertexTransferable) :
  ∀ i map,
    loop (λ _ buff map,
            _ ← Renderer.typedArray (v_type buff) (v_values buff);
            mret (GPUEngine.setAt (v_location buff)
                    (String.concat ","
                       (numberToString (v_type buff)
                          <$> GPUEngine.elements (v_type buff) (v_values buff)))
                    map))
         i attrib map
    = match ragged attrib with
      | Some buff =>
          Throw (RangeError_typedArray (v_type buff) (length (v_values buff)))
      | None => Ok (attribTable numberToString attrib map)
      end.
Proof.
  induction attrib as [| buff attrib IH]; intros i map; [done |].
  cbn [loop]. cbv beta. unfold ragged.
  destruct (Renderer.typedArray (v_type buff) (v_values buff))
    as [[] | err] eqn:Htyped; unfold Renderer.typedArray in Htyped.
  - assert (length (v_values buff) mod BYTES_PER_ELEMENT (v_type buff) = 0)
      as Hwhole.
    { destruct (_ =? 0) eqn:Hmod in Htyped; [| done]. by apply Nat.eqb_eq. }
    rewrite filter_cons_False by (intros Hne; by apply Hne).
    apply (IH (S i)).
  - destruct (_ =? 0) eqn:Hmod in Htyped; [done |].
    apply Nat.eqb_neq in Hmod. injection Htyped as <-.
    by rewrite filter_cons_True by done.
Qed.

(** X22.  [#attribToString], the part of the shader id that comes from
    the vertex data.  It throws a RangeError for the first attribute
    whose bytes are not a whole number of elements of its type, and
    nothing else: for whole attributes it returns the texts of the
    attributes joined by a slash in the order of their locations, the
    last attribute of a location standing for the location, and the empty
    text for an empty descriptor.  The [reduce] of the table is never
    applied to a table of holes only. *)
Theorem attribToString_spec (attrib : list VertexTransferable) :
  GPUEngine.attribToString numberToString attrib
  = match ragged attrib with
    | Some buff =>
        Throw (RangeError_typedArray (v_type buff) (length (v_values buff)))
    | None => Ok (joined (attribTable numberToString attrib []))
    end.
Proof.
  unfold GPUEngine.attribToString. rewrite attribToString_loop.
  destruct (ragged attrib) as [buff |]; [done |].
  unfold joined, mbind, Outcome_bind.
  destruct attrib as [| buff attrib]; [done |].
  assert (omap id (attribTable numberToString (buff :: attrib) []) ≠ [])
    as Hfilled by (apply attribTable_filled; by right).
  destruct (attribTable numberToString (buff :: attrib) []) as [| x map];
    [done |].
  cbn [length Nat.eqb].
  by destruct (omap id (x :: map)).
Qed.

End Attributes.
